(* ===== verification/_CoqProject ===== *)
-Q . S2P
Prelude.v
Status.v
Os.v
Launch.v
Service.v
Reaper.v
Controller.v
Loop.v
Invariant.v
Scenario.v
Liveness.v
Safety.v
Main.v
Exit.v
Reap.v
Publish.v
Pending.v
Shutdown.v
