(* ===== verification/Prelude.v ===== *)
(** * A verification development for daemontools-encore's [supervise]

    [src/supervise.c] supervises one service directory: it keeps "./run"
    (after an optional "./start") alive, optionally a "./log" service fed
    through a pipe, applies one-byte commands read from the FIFO
    supervise/control, and publishes a 20- or 40-byte status record in
    supervise/status. It is single-threaded: signal handlers only write to
    a self-pipe and to the control FIFO, and [doit]'s loop runs, after each
    wake-up, the reaper, the check of the control FIFO, the controller and
    the stopping of the log service.

    ** The files

    - [Prelude] (this file): a state monad [ST S A := S -> A * S] with
      stdpp's [x ← m; k] notation, [exec]/[eval] and their rewrite lemmas
      (rewrite database [sv_run]), invariants of computations
      ([preserves]), the typeclass [CodeClosed] of properties of
      computations closed under [mret] and [≫=] with the tactic
      [code_split] that follows a computation's code (instances:
      [preserves], [Launch.keeps], [Launch.ctl_free],
      [Safety.kills_free]), and little/big-endian byte lists ([le_split],
      [be_split]) with their round-trip lemmas.
    - [Status] (Module [Status]): [enum svstatus] (from svstatus.h, which is
      not under src/ and is modelled from the spec), [struct taia] and its
      12-byte [taia_pack], [struct svc], and [make_status] (lines 143-159).
      A reader's decoder [status_decode] states the format's contract.
    - [Os] (Module [Os]): the OS as a record (service-directory files,
      process table as a [gmap] from pid to process group and state, next
      pid, fork-failure and status-write-failure oracles, clock, status
      file, control FIFO, self-pipe, and a trace of spawns, kills, sleeps
      and warnings); the system calls [stat_isexec], [stat_exists] (lines
      57-71), [fork], [kill], [waitpid], [seek], [write], [read]; the
      signal handlers [trigger], [terminate], [ttystop], [resume] (lines
      78-107); and [env_step], what the world may do while [iopause] waits.
    - [Launch] (Module [Launch]): the globals (lines 40-55) as [sup], the
      world [w_sup]/[w_os], [announce] (161-184), [forkexecve] (109-141),
      [notify] (186-199), [pidchange] (201-208), and the frame library:
      [keeps] (an observation a computation does not change), [ctl_free]
      (a computation independent of the control FIFO's contents), with the
      tactics [keeps_solve], [ctl_free_solve] and [preserves_os_solve].
    - [Service] (Module [Service]): [trystart] (210-238), [trystop]
      (240-259), [killsvc] (261-265), [stopsvc] (267-274).
    - [Reaper] (Module [Reaper]): [reaper] (276-326), split as the code is:
      the wait on an orphaned group, [wait_nohang], the attribution of the
      pid to a service, the classification of the exit ([exit_class]), the
      notification and the restart-or-stop decision. The [for (;;)] loop is
      [reaper_loop] with fuel.
    - [Controller] (Module [Controller]): [controller] (328-396): [command]
      is one iteration of the [switch], [controller_loop] the read loop with
      fuel, and [run_commands] the commands folded over a byte list.
    - [Loop] (Module [Loop]): one iteration of [doit] (398-446) as
      [doit_iter]; the part of [main] from the orphanage check to the
      initial starts (486-533) as [supervise_start], with the outcomes of
      the library calls of [main] given by a [setup] record and each
      failure a fatal exit ([die], [or_die]).
    - [Invariant] (Module [Invariant]): the supervisor in its world as the
      step relation [sv_step] (an iteration, or a step of the world) and
      [reachable]; the invariant [sv_inv] on pids, preserved by every
      operation and every step of the world; the tactic [inv_solve] and
      the hint database [inv] carry the proofs.
    - [Liveness] (Module [Liveness]): the spec's invariant that a
      service's pid is non-empty only while a child attributed to it
      exists ([live_inv]), proved outside orphanage mode; the reaper's
      window between reaping a child and clearing its pid is
      [live_except].
    - [Safety] (Module [Safety]): the signals the supervisor sends
      ([kills_ok]: every [kill] target is above its process group);
      [kills_free] for code that sends none, [kills_keep] for code whose
      signals are safe from the states of [live_inv].
    - [Scenario] (Module [Scenario]): runs without fork or status-write
      failures ([quiet]), where the visible actions of an operation (the
      trace of spawns and sleeps, the pids handed out) are computed by the
      relation [after]; end-to-end behaviours the spec describes.
    - [Main] (Module [Main]): [main] as a whole (447-545) as
      [supervise_main]: the argument check, the setup calls, start-up,
      [doit] as [doit_loop] over a schedule of the world's moves
      ([env_move], one list per wait in [iopause]), the final [announce].
    - [Publish] (Module [Publish]): the status file as a reader decodes it
      ([read_status]) against the abstraction of the globals
      ([abs_status]); [announces]/[sync_keeps] and the tactic
      [sync_solve] follow the publication through the code.
    - [Exit] (Module [Exit]): leaving [doit] after a SIGTERM. The flags
      [flagexit] (once set) and [flagorphanage] are kept by every
      operation ([flags_kept]); [exit_measure] counts the services that
      record a pid plus one while the main service's ./stop may still run,
      and every iteration in which a recorded process has exited lowers
      it; [exit_moves] is the world's part (the recorded processes exit).
    - [Reap] (Module [Reap]): reaping. [wtame] relates the worlds before
      and after any computation of the supervisor (the process table only
      loses entries or gains running ones at fresh pids; a service's pid
      is kept, cleared or fresh), a preorder with a [CodeClosed] instance;
      [zombie_slots] counts the services recording a terminated child.
    - [Pending] (Module [Pending]): what an iteration leaves for later.
      [held k q] says service [k] records the terminated child [q]; every
      operation but the handling of [k]'s own exit keeps it, since the
      controller's [if (!svc->pid)] guards keep [trystart] and [trystop]
      away from a service that records a pid ([held_solve]).
    - [Shutdown] (Module [Shutdown]): the end of [main]. [nofault] (no
      status write will fail) is kept by every operation and every move of
      the world but [MvStatusFault]; the last [announce] (line 538) then
      leaves the file showing the final globals.

    Each operation is a computation in [ST world]: a C statement that
    writes a global is a [modify_sup]/[upd_svc], a system call is a [sys]
    of a computation on [os], [if]s and early returns are [if]s of the
    model, in the code's order.

    ** The theorems

    - Status format: [status_roundtrip] (decoding what [make_status]
      writes gives back timestamp, pid modulo 2^32, paused flag (only with
      a pid), want marker and status); [announce_statusfile] (what
      [announce] leaves in the status file, on success, on a failed seek
      and on a short write).
    - State machine: [trystart_main_sup] (trystart on every branch);
      [killsvc_orphanage]; [reaper_handle_exit100] (exit code 100 means
      Failed and no restart); [start_phase_done] and [u_only_run_running]
      (the spec's scenarios: the start phase completes into Running, and
      'u' with only "./run" ends Running); [trystop_notifies_start];
      [once_restarts_failed] ('o' spawns "./run" for a Failed service).
    - Controller: [controller_run_commands] (the read loop is the fold of
      [command] over the FIFO's bytes, which it consumes);
      [ud_last_wins]; [pause_continue]; [pause_without_process];
      [log_started_without_pipe].
    - Event loop: [check_control_spec] (the unlinked FIFO kills both
      process groups and forces exit); [sigterm_down_exit] (a SIGTERM is
      applied as 'd' then 'x'); [iteration_applies_commands] (every
      queued command is applied in the iteration that finds it, after the
      reaper: the spec's ordering guarantee).
    - Publication: [controller_publishes] (refinement: after the
      controller, in a quiet OS, a reader decodes exactly the abstraction
      of the globals); [Publish.trystart_published] (after a start, with
      or without a notifier, a reader finds the new pid, not paused,
      Running); [Publish.stop_log_unpublished]: the stopping of the log at
      the end of an iteration is not published, from any state where it
      happens; [Shutdown.main_sigterm_exit_published]: a SIGTERM can end
      a normal start with exit code 0, and whenever [main] exits 0 the
      status file shows the final globals ([Shutdown.doit_end_unpublished]
      computes a run where only line 538 brings it up to date).
    - [main]'s fatal paths: [main_usage] (exit 100), [main_setup_fatal]
      and [orphanage_log_exclusive] (exit 111, nothing started);
      [Main.main_sigterm_exits] runs a whole life of [main] by
      [vm_compute]: start, SIGTERM, the service dies, exit code 0.
    - Reaper: [reaper_terminates] and, in every reachable state,
      [reachable_reaper_terminates]; [reaper_no_children] (with no child
      at all the ECHILD result is treated as an exit of main);
      [reaper_idle].
    - Invariants of reachable states: [reachable_inv] (pids positive,
      fresh, never shared by the two services) and
      [reachable_pid_is_child] (a recorded pid is an unreaped child);
      [orphan_keeps_pid] shows why orphanage mode is excluded;
      [reachable_kills_safe] (no signal ever goes to 0, 1, -1 or the
      supervisor's own group); [run_commands_kg_ok] (the controller's
      group flag is always 1 or -1).
    - One exit per iteration: [Pending.one_exit_per_iteration]: in every
      reachable state where both services record terminated children, an
      iteration leaves exactly one of them recording its child, for a
      later wake-up; [Pending.exit_stalls_failed_main]: from every state
      where the supervisor exits with the main service Failed and the log
      running, [doit] never returns while the world is idle; by contrast
      [Exit.sigterm_lets_doit_return]: from every reachable state outside
      orphanage mode, a SIGTERM and the exits of the supervisor's
      children make [doit] return; [Exit.unlink_lets_doit_return]: after the
      control FIFO is removed, the exits of the children make [doit]
      return although no service was asked down; [Reap.zombies_reaped]: without new exits, one
      more wake-up than there are services recording a terminated child
      (at most three) leaves no zombie.
    Each theorem with hypotheses has a witness applying it to a concrete
    world ([Service.ex_world]: a directory with only an executable "run").

    ** Fuel

    [reaper_loop] gets [S (size procs)] passes: every pass that goes on
    reaps a child (the table shrinks), so this is enough whenever child
    pids are positive and the main pid is not -1 ([reaper_loop_enough_fuel]),
    which [sv_inv] gives in every reachable state. [controller_loop] gets
    one pass more than there are bytes in the FIFO: each pass consumes a
    byte, and the last finds it empty ([controller_run_commands]). The
    shutdown after a SIGTERM needs no fuel: its schedule is built by
    induction on [Exit.exit_measure], at most 3, so it has at most four
    entries (the SIGTERM, then one exit per iteration).

    ** Not modelled

    The library calls of [main] (pipe, chdir, svpath, mkdir, the lock,
    set_subreaper, the opens) are not executed: their outcomes are the
    fields of [setup], and only their failures matter to the code; the
    text of [errno] in fatal messages is left out. The code outside src/
    (svpath, iopause, deepsleep, taia, fork and exec in the child) is
    modelled from the spec as primitives of [Os], and the wait macros in
    [Reaper]; [iopause] itself is the point where [sv_step] (or a
    schedule entry of [doit_loop]) lets the world move; signal masks,
    [closeonexec] and [ndelay_on] are not modelled, since handlers only
    append to the FIFO and the self-pipe and descriptors are not part of
    the model. [main] with no argument at all ([argc = 0], where
    [argv[1]] is out of bounds in C) is treated as the usage error. The
    out-of-memory exits of [svpath_make] for /status, /control and /ok
    (lines 506, 512 and 527) are not modelled: [su_mem] covers only the
    two calls before the lock. *)

From Stdlib Require Export ZArith Ascii Lia.
From stdpp Require Export base gmap strings list.

Declare Scope sv_scope.
Delimit Scope sv_scope with sv.

(** ** A state monad of our own

    [supervise.c] is a single-threaded C program whose functions read and
    write global variables and perform system calls. We model each such
    function as a computation in the state monad [ST S A := S -> A * S]
    (value first, state second), and use stdpp's [MRet]/[MBind] classes so
    that the models are written with stdpp's [x ← m; k] notation. *)

Definition ST (S A : Type) : Type := S -> A * S.

#[export] Instance st_ret {S} : MRet (ST S) := fun A a s => (a, s).
#[export] Instance st_bind {S} : MBind (ST S) :=
  fun A B k m s => let '(a, s') := m s in k a s'.

Definition st_get {S} : ST S S := fun s => (s, s).
Definition st_gets {S A} (f : S -> A) : ST S A := fun s => (f s, s).
Definition st_modify {S} (f : S -> S) : ST S () := fun s => ((), f s).

(** [if (c) stmt;] of C. *)
Definition st_when {S} (c : bool) (m : ST S ()) : ST S () :=
  if c then m else mret ().

(** Final state and value of a computation. *)
Definition exec {S A} (m : ST S A) (s : S) : S := snd (m s).
Definition eval {S A} (m : ST S A) (s : S) : A := fst (m s).

Section MonadLaws.
Context {S : Type}.

Lemma st_bind_run {A B} (m : ST S A) (k : A -> ST S B) s :
  (m ≫= k) s = k (fst (m s)) (snd (m s)).
Proof. unfold mbind, st_bind. by destruct (m s). Qed.

Lemma st_ret_run {A} (a : A) (s : S) : (mret a : ST S A) s = (a, s).
Proof. reflexivity. Qed.

Lemma st_modify_run (f : S -> S) s : st_modify f s = ((), f s).
Proof. reflexivity. Qed.

Lemma st_gets_run {A} (f : S -> A) s : st_gets f s = (f s, s).
Proof. reflexivity. Qed.

Lemma st_when_true (m : ST S ()) : st_when true m = m.
Proof. reflexivity. Qed.

Lemma st_when_false (m : ST S ()) s : st_when false m s = ((), s).
Proof. reflexivity. Qed.

Lemma exec_bind {A B} (m : ST S A) (k : A -> ST S B) s :
  exec (m ≫= k) s = exec (k (eval m s)) (exec m s).
Proof. unfold exec, eval. by rewrite st_bind_run. Qed.

Lemma eval_bind {A B} (m : ST S A) (k : A -> ST S B) s :
  eval (m ≫= k) s = eval (k (eval m s)) (exec m s).
Proof. unfold exec, eval. by rewrite st_bind_run. Qed.

Lemma eval_run {A} (m : ST S A) s a s' : m s = (a, s') -> eval m s = a.
Proof. unfold eval. by intros ->. Qed.

Lemma exec_run {A} (m : ST S A) s a s' : m s = (a, s') -> exec m s = s'.
Proof. unfold exec. by intros ->. Qed.

Lemma exec_ret {A} (a : A) (s : S) : exec (mret a : ST S A) s = s.
Proof. reflexivity. Qed.

Lemma eval_ret {A} (a : A) (s : S) : eval (mret a : ST S A) s = a.
Proof. reflexivity. Qed.

Lemma exec_modify (f : S -> S) s : exec (st_modify f) s = f s.
Proof. reflexivity. Qed.

Lemma exec_gets {A} (f : S -> A) s : exec (st_gets f) s = s.
Proof. reflexivity. Qed.

Lemma eval_gets {A} (f : S -> A) s : eval (st_gets f) s = f s.
Proof. reflexivity. Qed.

(** A predicate on states preserved by every step of a computation. *)
Definition preserves (P : S -> Prop) {A} (m : ST S A) : Prop :=
  forall s, P s -> P (exec m s).

Lemma preserves_bind {A B} (P : S -> Prop) (m : ST S A) (k : A -> ST S B) :
  preserves P m -> (forall a, preserves P (k a)) -> preserves P (m ≫= k).
Proof. intros Hm Hk s Hs. rewrite exec_bind. by apply Hk, Hm. Qed.

Lemma preserves_ret {A} (P : S -> Prop) (a : A) : preserves P (mret a).
Proof. by intros s Hs. Qed.

Lemma preserves_gets {A} (P : S -> Prop) (f : S -> A) : preserves P (st_gets f).
Proof. by intros s Hs. Qed.

Lemma preserves_when (P : S -> Prop) c (m : ST S ()) :
  preserves P m -> preserves P (st_when c m).
Proof. destruct c; [done|]. by intros _ s Hs. Qed.
End MonadLaws.

(** ** Properties of computations that follow the code

    The proofs about the operations of supervise.c check a property of a
    computation by following its code: a property closed under [mret] and
    [≫=] (hence under [st_when], [if] and [match]) holds of a whole
    operation once it holds of the primitives it calls. [CodeClosed] is
    that interface; [preserves] is an instance here, and the frame
    properties of the other files ([Launch.keeps], [Launch.ctl_free],
    [Safety.kills_free]) are instances there. *)
Class CodeClosed {S} (P : forall A, ST S A -> Prop) := {
  code_ret {A} (a : A) : P A (mret a);
  code_bind {A B} (m : ST S A) (k : A -> ST S B) : P A m -> (forall a, P B (k a)) -> P B (m ≫= k)
}.

Lemma code_when {S} (P : forall A, ST S A -> Prop) `{!CodeClosed P} c (m : ST S ()) :
  P unit m -> P unit (st_when c m).
Proof. intros H. destruct c; [exact H | apply code_ret]. Qed.

#[export] Instance preserves_closed {S} (Q : S -> Prop) : CodeClosed (@preserves S Q).
Proof. split; intros; [apply preserves_ret | by apply preserves_bind]. Qed.

(** Splits a goal [P m], for [P] closed under the code's combinators,
    along the binds, conditionals and matches of [m]. *)
Ltac code_split :=
  repeat match goal with
  | |- ?P _ (_ ≫= _) => apply (code_bind (P := P)); [|intros ?]
  | |- ?P _ (if ?c then _ else _) => destruct c
  | |- ?P _ (match ?c with _ => _ end) => destruct c
  | |- ?P _ (st_when _ _) => apply (code_when P)
  | |- ?P _ (mret _) => apply (code_ret (P := P))
  end.

Create HintDb sv discriminated.
Create Rewrite HintDb sv_run.
#[export] Hint Rewrite @exec_bind @eval_bind @exec_ret @eval_ret @exec_modify @exec_gets
  @eval_gets : sv_run.
#[export] Hint Resolve preserves_bind preserves_ret preserves_gets preserves_when : sv.

(** Unfolds the monad so that [cbn] can run a computation on a state. *)
Ltac st_unfold :=
  unfold exec, eval, mbind, mret, st_bind, st_ret, st_gets, st_modify, st_when,
    st_get in *.

(** Case analysis on every boolean test left in the goal. *)
Ltac case_ifs :=
  repeat match goal with
  | |- context [if ?b then _ else _] => destruct b eqn:?
  end.

(** [preserves] goals are split along the binds of the computation. *)
Ltac preserve_step :=
  repeat (apply preserves_bind; [|intros ?]);
  try apply preserves_ret; try apply preserves_gets.

Lemma take_min_length {A} n (l : list A) : take (Nat.min n (length l)) l = take n l.
Proof.
  destruct (Nat.le_total n (length l)).
  - by rewrite Nat.min_l.
  - rewrite Nat.min_r, firstn_all by done. by rewrite take_ge.
Qed.

(** ** Bytes and little/big-endian integers

    A byte of the C code is a [Z] in [0, 256); storing an integer into a
    [char] keeps its low eight bits, [Z.land z 255]. *)

Open Scope Z_scope.

Definition byte_of (z : Z) : Z := Z.land z 255.

Lemma byte_of_mod z : byte_of z = z mod 256.
Proof. unfold byte_of. change 255 with (Z.ones 8). by rewrite Z.land_ones. Qed.

Lemma byte_of_range z : 0 <= byte_of z < 256.
Proof. rewrite byte_of_mod. apply Z.mod_pos_bound. lia. Qed.

Lemma byte_of_small z : 0 <= z < 256 -> byte_of z = z.
Proof. intros. rewrite byte_of_mod. by apply Z.mod_small. Qed.

Definition is_byte (b : Z) : bool := (0 <=? b) && (b <? 256).

(** [le_split n z]: the [n] low bytes of [z], least significant first,
    as the code obtains them with [u >>= 8] after each store. *)
Fixpoint le_split (n : nat) (z : Z) : list Z :=
  match n with
  | O => []
  | S n' => byte_of z :: le_split n' (Z.shiftr z 8)
  end.

Fixpoint le_combine (l : list Z) : Z :=
  match l with
  | [] => 0
  | b :: l' => b + 256 * le_combine l'
  end.

Lemma length_le_split n z : length (le_split n z) = n.
Proof. revert z; induction n; intros z; simpl; auto. Qed.

Lemma le_split_bytes n z : Forall (fun b => 0 <= b < 256) (le_split n z).
Proof.
  revert z; induction n; intros z; constructor; auto using byte_of_range.
Qed.

Lemma le_combine_split n z : le_combine (le_split n z) = z mod 2 ^ (8 * Z.of_nat n).
Proof.
  revert z; induction n as [|n IH]; intros z; simpl le_split; simpl le_combine.
  - by rewrite Z.mod_1_r.
  - rewrite IH, byte_of_mod, Z.shiftr_div_pow2 by lia.
    replace (8 * Z.of_nat (S n)) with (8 + 8 * Z.of_nat n) by lia.
    rewrite Z.pow_add_r by lia.
    rewrite (Z.rem_mul_r z (2 ^ 8)); [reflexivity | lia |].
    apply Z.pow_pos_nonneg; lia.
Qed.

(** Byte lists of one length are determined by their value. *)
Lemma le_combine_inj l1 l2 :
  Forall (fun b => 0 <= b < 256) l1 -> Forall (fun b => 0 <= b < 256) l2 ->
  length l1 = length l2 -> le_combine l1 = le_combine l2 -> l1 = l2.
Proof.
  revert l2; induction l1 as [|b1 l1 IH]; intros [|b2 l2] H1 H2 Hlen Heq;
    simpl in *; try done.
  inversion H1; inversion H2; subst.
  assert (le_combine l1 = le_combine l2) by lia.
  f_equal; [lia | apply IH; auto].
Qed.

(** Big-endian bytes, as [tai_pack] writes its 64-bit seconds. *)
Definition be_split (n : nat) (z : Z) : list Z := rev (le_split n z).
Definition be_combine (l : list Z) : Z := le_combine (rev l).

Lemma be_combine_split n z : be_combine (be_split n z) = z mod 2 ^ (8 * Z.of_nat n).
Proof. unfold be_combine, be_split. rewrite rev_involutive. apply le_combine_split. Qed.

Lemma length_be_split n z : length (be_split n z) = n.
Proof. unfold be_split. by rewrite length_rev, length_le_split. Qed.

Lemma be_split_bytes n z : Forall (fun b => 0 <= b < 256) (be_split n z).
Proof. unfold be_split. apply Forall_rev, le_split_bytes. Qed.

#[export] Hint Rewrite length_le_split length_be_split le_combine_split
  be_combine_split : sv_run.
#[export] Hint Resolve byte_of_range le_split_bytes be_split_bytes : sv.

Close Scope Z_scope.
