(* ===== verification/Status.v ===== *)
(** * The status record of a service and its 20-byte encoding

    Models [struct svc] (supervise.c lines 29-38), the service states of
    [enum svstatus] (svstatus.h, not under src/, taken from the spec), the
    timestamp packing [taia_pack] (libtai, from the spec), and the pure
    encoder [make_status] (lines 143-159). The decoder [status_decode] is the
    reader's side of the format (what [svstat] reads); the round trip shows
    that the 20 bytes determine every published field. *)

From S2P Require Import Prelude.

Open Scope Z_scope.

Module Status.

(** ** Service states (svstatus.h)

    The spec lists the states in this order; the byte published at offset
    18 is the position in the list. *)
Inductive svstatus :=
| svstatus_stopped
| svstatus_starting
| svstatus_running
| svstatus_started
| svstatus_stopping
| svstatus_failed
| svstatus_orphanage.

#[export] Instance svstatus_eq_dec : EqDecision svstatus.
Proof. solve_decision. Defined.

Definition svstatus_code (s : svstatus) : Z :=
  match s with
  | svstatus_stopped => 0
  | svstatus_starting => 1
  | svstatus_running => 2
  | svstatus_started => 3
  | svstatus_stopping => 4
  | svstatus_failed => 5
  | svstatus_orphanage => 6
  end.

Definition svstatus_of_code (z : Z) : option svstatus :=
  match z with
  | 0 => Some svstatus_stopped
  | 1 => Some svstatus_starting
  | 2 => Some svstatus_running
  | 3 => Some svstatus_started
  | 4 => Some svstatus_stopping
  | 5 => Some svstatus_failed
  | 6 => Some svstatus_orphanage
  | _ => None
  end.

(** ** Timestamps ([struct taia], libtai)

    Seconds are a TAI64 label (64 bits), then nanoseconds and
    attoseconds (32 bits each); [taia_pack] writes them big-endian in 16
    bytes. *)
Record taia := mk_taia { taia_sec : Z; taia_nano : Z; taia_atto : Z }.

Definition taia_pack (t : taia) : list Z :=
  be_split 8 (taia_sec t) ++ be_split 4 (taia_nano t) ++ be_split 4 (taia_atto t).

(** ** [struct svc] (lines 29-38)

    The C fields [flagwant], [flagwantup], [flagpaused] and [ranstop] are
    [int]s that the code only ever sets to 0 or 1; they are booleans here.
    [pid] is a C [int]: 0 means "no process". *)
Record svc := mk_svc {
  pid : Z;
  flagstatus : svstatus;
  flagwant : bool;
  flagwantup : bool;
  flagpaused : bool;
  when : taia;
  ranstop : bool
}.

Definition taia_zero : taia := mk_taia 0 0 0.

(** [struct svc svcmain = {0,svstatus_stopped,1,1};] and
    [struct svc svclog = {0,svstatus_stopped,1,0};] (lines 54-55): the
    omitted fields are zero. *)
Definition svcmain_init : svc :=
  mk_svc 0 svstatus_stopped true true false taia_zero false.
Definition svclog_init : svc :=
  mk_svc 0 svstatus_stopped true false false taia_zero false.

Definition set_pid (p : Z) (s : svc) : svc :=
  mk_svc p (flagstatus s) (flagwant s) (flagwantup s) (flagpaused s) (when s) (ranstop s).
Definition set_flagstatus (st : svstatus) (s : svc) : svc :=
  mk_svc (pid s) st (flagwant s) (flagwantup s) (flagpaused s) (when s) (ranstop s).
Definition set_flagwant (b : bool) (s : svc) : svc :=
  mk_svc (pid s) (flagstatus s) b (flagwantup s) (flagpaused s) (when s) (ranstop s).
Definition set_flagwantup (b : bool) (s : svc) : svc :=
  mk_svc (pid s) (flagstatus s) (flagwant s) b (flagpaused s) (when s) (ranstop s).
Definition set_flagpaused (b : bool) (s : svc) : svc :=
  mk_svc (pid s) (flagstatus s) (flagwant s) (flagwantup s) b (when s) (ranstop s).
Definition set_when (t : taia) (s : svc) : svc :=
  mk_svc (pid s) (flagstatus s) (flagwant s) (flagwantup s) (flagpaused s) t (ranstop s).
Definition set_ranstop (b : bool) (s : svc) : svc :=
  mk_svc (pid s) (flagstatus s) (flagwant s) (flagwantup s) (flagpaused s) (when s) b.

(** ** The encoder [make_status] (lines 143-159)

    [taia_pack] fills bytes 0-15; bytes 12-15 (the attoseconds) are then
    overwritten by the pid, so only the first 12 bytes of the timestamp
    survive. [u = (unsigned long) svc->pid] is the pid modulo [2^64]; each
    [status[12+k] = u; u >>= 8;] stores the low byte. *)
Definition want_byte (s : svc) : Z :=
  if flagwant s then (if flagwantup s then 117 (* 'u' *) else 100 (* 'd' *)) else 0.

Definition make_status (s : svc) : list Z :=
  let u := pid s mod 2 ^ 64 in
  take 12 (taia_pack (when s))
  ++ le_split 4 u
  ++ [ (if decide (pid s = 0) then 0 else if flagpaused s then 1 else 0);
       want_byte s;
       svstatus_code (flagstatus s);
       0 ].

(** ** The reader's side of the format *)
Record status_view := mk_view {
  view_sec : Z;
  view_nano : Z;
  view_pid : Z;
  view_paused : bool;
  view_want : option bool;   (** [Some true] for 'u', [Some false] for 'd' *)
  view_status : svstatus
}.

Definition decode_want (b : Z) : option (option bool) :=
  match b with
  | 0 => Some None
  | 117 => Some (Some true)
  | 100 => Some (Some false)
  | _ => None
  end.

Definition decode_paused (b : Z) : option bool :=
  match b with 0 => Some false | 1 => Some true | _ => None end.

Definition status_decode (b : list Z) : option status_view :=
  if decide (length b = 20%nat) then
    p ← decode_paused (nth 16 b 0);
    w ← decode_want (nth 17 b 0);
    st ← svstatus_of_code (nth 18 b 0);
    Some (mk_view (be_combine (take 8 b)) (be_combine (take 4 (drop 8 b)))
            (le_combine (take 4 (drop 12 b))) p w st)
  else None.

(** What a record published for [s] is expected to say. *)
Definition view_of (s : svc) : status_view :=
  mk_view (taia_sec (when s) mod 2 ^ 64) (taia_nano (when s) mod 2 ^ 32)
    (pid s mod 2 ^ 32) (bool_decide (pid s <> 0) && flagpaused s)
    (if flagwant s then Some (flagwantup s) else None) (flagstatus s).

(** ** Lemmas *)

Lemma svstatus_of_code_code st : svstatus_of_code (svstatus_code st) = Some st.
Proof. by destruct st. Qed.

Lemma svstatus_code_range st : 0 <= svstatus_code st < 256.
Proof. destruct st; simpl; lia. Qed.

Lemma length_taia_pack t : length (taia_pack t) = 16%nat.
Proof. unfold taia_pack. by rewrite !length_app, !length_be_split. Qed.

Lemma take_taia_pack t :
  take 12 (taia_pack t) = be_split 8 (taia_sec t) ++ be_split 4 (taia_nano t).
Proof.
  unfold taia_pack. rewrite app_assoc, take_app_length'; [done|].
  by rewrite length_app, !length_be_split.
Qed.

Lemma pid_mod_64_32 p : (p mod 2 ^ 64) mod 2 ^ 32 = p mod 2 ^ 32.
Proof.
  change (2 ^ 64) with (2 ^ 32 * 2 ^ 32).
  rewrite Z.rem_mul_r by lia. rewrite Z.mul_comm, Z_mod_plus_full.
  apply Z.mod_mod. lia.
Qed.

Lemma make_status_eq s :
  make_status s =
    be_split 8 (taia_sec (when s)) ++ be_split 4 (taia_nano (when s))
    ++ le_split 4 (pid s mod 2 ^ 64)
    ++ [ (if decide (pid s = 0) then 0 else if flagpaused s then 1 else 0);
         want_byte s; svstatus_code (flagstatus s); 0 ].
Proof. unfold make_status. by rewrite take_taia_pack, <- app_assoc. Qed.

(** Byte 16 of the record is the paused flag, masked by the pid. *)
Lemma make_status_paused s :
  nth 16 (make_status s) 0 = if decide (pid s = 0) then 0 else if flagpaused s then 1 else 0.
Proof.
  unfold make_status.
  rewrite app_nth2 by (rewrite length_take, length_taia_pack; lia).
  rewrite length_take, length_taia_pack.
  rewrite app_nth2 by (autorewrite with sv_run; lia).
  by autorewrite with sv_run.
Qed.

(** [status_decode] inverts [make_status] up to the widths of the fields. *)
Lemma decode_make_status s : status_decode (make_status s) = Some (view_of s).
Proof.
  rewrite make_status_eq. unfold status_decode.
  set (A := be_split 8 _). set (B := be_split 4 _). set (C := le_split 4 _).
  assert (HA : length A = 8%nat) by apply length_be_split.
  assert (HB : length B = 4%nat) by apply length_be_split.
  assert (HC : length C = 4%nat) by apply length_le_split.
  rewrite decide_True by (rewrite !length_app; simpl; lia).
  rewrite !app_assoc.
  rewrite !app_nth2 by (rewrite !length_app; lia).
  rewrite !length_app, HA, HB, HC. simpl nth.
  rewrite <- !app_assoc, take_app_length' by done.
  rewrite drop_app_length' by done. rewrite take_app_length' by done.
  rewrite app_assoc, drop_app_length' by (rewrite length_app; lia).
  rewrite take_app_length' by done.
  unfold A, B, C. rewrite !be_combine_split, le_combine_split, pid_mod_64_32.
  rewrite svstatus_of_code_code.
  unfold view_of, want_byte. simpl Z.of_nat.
  destruct (decide (pid s = 0)) as [E|E].
  - rewrite E. destruct (flagwant s), (flagwantup s); reflexivity.
  - rewrite bool_decide_true by done.
    destruct (flagpaused s), (flagwant s), (flagwantup s); reflexivity.
Qed.

Lemma length_make_status s : length (make_status s) = 20%nat.
Proof. rewrite make_status_eq. by autorewrite with sv_run. Qed.

(** Each byte the paused, want and status fields take. *)
Lemma flag_bytes_range s :
  0 <= (if decide (pid s = 0) then 0 else if flagpaused s then 1 else 0) < 256 /\
  0 <= want_byte s < 256.
Proof. unfold want_byte. repeat case_match; lia. Qed.

(** C1: the encoder and the reader agree: decoding the 20 bytes that
    [make_status] produces for any service gives back its timestamp (seconds
    modulo 2^64, nanoseconds modulo 2^32), its pid modulo 2^32, the paused
    flag (reported only while a pid is present), the want marker and the
    status. *)
Theorem status_roundtrip s : status_decode (make_status s) = Some (view_of s).
Proof. apply decode_make_status. Qed.

End Status.
