(* ===== verification/Os.v ===== *)
(** * The operating system seen by [supervise]

    The primitives the spec treats as external collaborators, as a state
    that the supervisor's code reads and writes through system calls:
    the service directory's files ([stat]), the table of child processes
    ([fork], [kill], [waitpid]), the clock ([taia_now], [deepsleep]), the
    status file ([seek_begin], [write]), the control FIFO and the self-pipe
    ([read], [write]), and a trace of the externally visible actions.

    The signal handlers of supervise.c ([trigger], [terminate], [ttystop],
    [resume], lines 78-107) are here too: they only write to the control
    FIFO and the self-pipe. [env_step] is what the world may do between two
    iterations of the event loop: children exit, descendants are adopted,
    signals arrive, commands are written, the control FIFO is unlinked, time
    passes. *)

From S2P Require Import Prelude Status.

Open Scope Z_scope.

Module Os.
Import Status.

(** ** Files of the service directory *)
Inductive fkind :=
| FMissing                (** [stat] fails with ENOENT *)
| FReg (exec : bool)      (** a regular file, user-executable or not *)
| FOther                  (** a directory, a FIFO, ... *)
| FError.                 (** [stat] fails with another errno *)

#[export] Instance fkind_eq_dec : EqDecision fkind.
Proof. solve_decision. Defined.

(** ** Children of the supervisor *)
Inductive pstate := PRunning | PZombie (wstat : Z).

Record proc := mk_proc { pr_pgid : Z; pr_state : pstate }.

Inductive signal :=
| SIGALRM | SIGHUP | SIGKILL | SIGTERM | SIGINT | SIGQUIT
| SIGUSR1 | SIGUSR2 | SIGWINCH | SIGSTOP | SIGCONT.

#[export] Instance signal_eq_dec : EqDecision signal.
Proof. solve_decision. Defined.

(** Externally visible actions, recorded most recent first. *)
Inductive event :=
| ev_spawn (pid : Z) (argv : list string) (redirect : option Z)
    (** the child [pid] execs [argv]; [Some fd] when the log pipe is
        dup'ed onto descriptor [fd] *)
| ev_kill (target : Z) (sig : signal)
| ev_sleep (secs : Z)
| ev_warn (msg : string).

(** What the next [seek]/[write] of the status file does. *)
Inductive wfault := WOk | WSeekFail | WShort (n : nat).

Inductive errno := ECHILD | EINTR.

#[export] Instance errno_eq_dec : EqDecision errno.
Proof. solve_decision. Defined.

Record os := mk_os {
  os_files : gmap string fkind;
  os_procs : gmap Z proc;
  os_nextpid : Z;
  os_pgrp : Z;
  os_forkfail : list bool;
  os_clock : taia;
  os_statusfile : list Z;
  os_statusfault : list wfault;
  os_control : list ascii;
  os_control_nlink : Z;
  os_selfpipe : nat;
  os_wstat : Z;
  os_trace : list event
}.

Definition set_os_files (v : gmap string fkind) (o : os) : os :=
  mk_os v (os_procs o) (os_nextpid o) (os_pgrp o) (os_forkfail o) (os_clock o) (os_statusfile o) (os_statusfault o) (os_control o) (os_control_nlink o) (os_selfpipe o) (os_wstat o) (os_trace o).

Definition set_os_procs (v : gmap Z proc) (o : os) : os :=
  mk_os (os_files o) v (os_nextpid o) (os_pgrp o) (os_forkfail o) (os_clock o) (os_statusfile o) (os_statusfault o) (os_control o) (os_control_nlink o) (os_selfpipe o) (os_wstat o) (os_trace o).

Definition set_os_nextpid (v : Z) (o : os) : os :=
  mk_os (os_files o) (os_procs o) v (os_pgrp o) (os_forkfail o) (os_clock o) (os_statusfile o) (os_statusfault o) (os_control o) (os_control_nlink o) (os_selfpipe o) (os_wstat o) (os_trace o).

Definition set_os_pgrp (v : Z) (o : os) : os :=
  mk_os (os_files o) (os_procs o) (os_nextpid o) v (os_forkfail o) (os_clock o) (os_statusfile o) (os_statusfault o) (os_control o) (os_control_nlink o) (os_selfpipe o) (os_wstat o) (os_trace o).

Definition set_os_forkfail (v : list bool) (o : os) : os :=
  mk_os (os_files o) (os_procs o) (os_nextpid o) (os_pgrp o) v (os_clock o) (os_statusfile o) (os_statusfault o) (os_control o) (os_control_nlink o) (os_selfpipe o) (os_wstat o) (os_trace o).

Definition set_os_clock (v : taia) (o : os) : os :=
  mk_os (os_files o) (os_procs o) (os_nextpid o) (os_pgrp o) (os_forkfail o) v (os_statusfile o) (os_statusfault o) (os_control o) (os_control_nlink o) (os_selfpipe o) (os_wstat o) (os_trace o).

Definition set_os_statusfile (v : list Z) (o : os) : os :=
  mk_os (os_files o) (os_procs o) (os_nextpid o) (os_pgrp o) (os_forkfail o) (os_clock o) v (os_statusfault o) (os_control o) (os_control_nlink o) (os_selfpipe o) (os_wstat o) (os_trace o).

Definition set_os_statusfault (v : list wfault) (o : os) : os :=
  mk_os (os_files o) (os_procs o) (os_nextpid o) (os_pgrp o) (os_forkfail o) (os_clock o) (os_statusfile o) v (os_control o) (os_control_nlink o) (os_selfpipe o) (os_wstat o) (os_trace o).

Definition set_os_control (v : list ascii) (o : os) : os :=
  mk_os (os_files o) (os_procs o) (os_nextpid o) (os_pgrp o) (os_forkfail o) (os_clock o) (os_statusfile o) (os_statusfault o) v (os_control_nlink o) (os_selfpipe o) (os_wstat o) (os_trace o).

Definition set_os_control_nlink (v : Z) (o : os) : os :=
  mk_os (os_files o) (os_procs o) (os_nextpid o) (os_pgrp o) (os_forkfail o) (os_clock o) (os_statusfile o) (os_statusfault o) (os_control o) v (os_selfpipe o) (os_wstat o) (os_trace o).

Definition set_os_selfpipe (v : nat) (o : os) : os :=
  mk_os (os_files o) (os_procs o) (os_nextpid o) (os_pgrp o) (os_forkfail o) (os_clock o) (os_statusfile o) (os_statusfault o) (os_control o) (os_control_nlink o) v (os_wstat o) (os_trace o).

Definition set_os_wstat (v : Z) (o : os) : os :=
  mk_os (os_files o) (os_procs o) (os_nextpid o) (os_pgrp o) (os_forkfail o) (os_clock o) (os_statusfile o) (os_statusfault o) (os_control o) (os_control_nlink o) (os_selfpipe o) v (os_trace o).

Definition set_os_trace (v : list event) (o : os) : os :=
  mk_os (os_files o) (os_procs o) (os_nextpid o) (os_pgrp o) (os_forkfail o) (os_clock o) (os_statusfile o) (os_statusfault o) (os_control o) (os_control_nlink o) (os_selfpipe o) (os_wstat o) v.

(** ** System calls *)

Definition file_kind (o : os) (path : string) : fkind :=
  default FMissing (os_files o !! path).

(** [stat_isexec] (lines 57-63): 1 for a user-executable regular file, 0
    for anything else that exists or for ENOENT, -1 for another error. *)
Definition stat_isexec_k (k : fkind) : Z :=
  match k with
  | FMissing => 0
  | FError => -1
  | FReg e => if e then 1 else 0
  | FOther => 0
  end.

(** [stat_exists] (lines 65-71). *)
Definition stat_exists_k (k : fkind) : Z :=
  match k with
  | FMissing => 0
  | FError => -1
  | _ => 1
  end.

Definition stat_isexec (path : string) : ST os Z :=
  st_gets (fun o => stat_isexec_k (file_kind o path)).
Definition stat_exists (path : string) : ST os Z :=
  st_gets (fun o => stat_exists_k (file_kind o path)).

Definition log_event (e : event) : ST os () :=
  st_modify (fun o => set_os_trace (e :: os_trace o) o).

(** [fork] followed, in the child, by [setsid] when asked, the [dup2] of
    the log pipe and [execve]. Fork fails when the oracle [os_forkfail]
    says so; otherwise the child gets the next pid and its process group is
    its own pid after [setsid], the supervisor's group otherwise. *)
Definition sys_fork (argv : list string) (setsid : bool) (redirect : option Z) : ST os Z :=
  fun o =>
    match os_forkfail o with
    | true :: rest => (-1, set_os_forkfail rest o)
    | oracle =>
        let p := os_nextpid o in
        let o := set_os_forkfail (tail oracle) o in
        let o := set_os_procs (<[p := mk_proc (if setsid then p else os_pgrp o) PRunning]>
                                 (os_procs o)) o in
        let o := set_os_nextpid (p + 1) o in
        (p, set_os_trace (ev_spawn p argv redirect :: os_trace o) o)
    end.

Definition sys_kill (target : Z) (sig : signal) : ST os () := log_event (ev_kill target sig).

Definition taia_now : ST os taia := st_gets os_clock.

Definition taia_add_sec (t : taia) (n : Z) : taia :=
  mk_taia (taia_sec t + n) (taia_nano t) (taia_atto t).

(** [deepsleep(n)] blocks the whole process for [n] seconds. *)
Definition deepsleep (n : Z) : ST os () :=
  st_modify (fun o => set_os_clock (taia_add_sec (os_clock o) n) o) ≫= fun _ =>
  log_event (ev_sleep n).

Definition strerr_warn (msg : string) : ST os () := log_event (ev_warn msg).

(** [seek_begin(fdstatus)]: 0, or -1 when the oracle says the seek fails. *)
Definition seek_begin : ST os Z :=
  fun o =>
    match os_statusfault o with
    | WSeekFail :: rest => (-1, set_os_statusfault rest o)
    | _ => (0, o)
    end.

(** [write(fdstatus, buf, w)] at offset 0: writes all of [buf], or only a
    prefix when the oracle says the write is short. *)
Definition overwrite (data file : list Z) : list Z := data ++ drop (length data) file.

Definition write_status (buf : list Z) : ST os Z :=
  fun o =>
    let '(n, rest) :=
      match os_statusfault o with
      | WShort k :: rest => (Nat.min k (length buf), rest)
      | _ :: rest => (length buf, rest)
      | [] => (length buf, [])
      end in
    (Z.of_nat n,
     set_os_statusfault rest (set_os_statusfile (overwrite (take n buf) (os_statusfile o)) o)).

(** [read(fdcontrol, &ch, 1)] on the non-blocking control FIFO. *)
Definition read_control : ST os (option ascii) :=
  fun o =>
    match os_control o with
    | c :: rest => (Some c, set_os_control rest o)
    | [] => (None, o)
    end.

Definition write_control (bytes : list ascii) : ST os () :=
  st_modify (fun o => set_os_control (os_control o ++ bytes) o).

Definition write_selfpipe : ST os () :=
  st_modify (fun o => set_os_selfpipe (S (os_selfpipe o)) o).

(** [while (read(selfpipe[0],&ch,1) == 1) ;] *)
Definition drain_selfpipe : ST os () := st_modify (set_os_selfpipe 0%nat).

(** The first zombie child satisfying [P], in the table's order. *)
Definition find_zombie (P : proc -> bool) (m : gmap Z proc) : option (Z * Z) :=
  head (omap (fun kp : Z * proc =>
                match pr_state kp.2 with
                | PZombie w => if P kp.2 then Some (kp.1, w) else None
                | PRunning => None
                end) (map_to_list m)).

(** [waitpid(pid, &wstat, WNOHANG)] restricted to the children satisfying
    [P]: a terminated child is reaped and its pid and status returned; 0
    when there are such children but none has terminated; -1 with errno
    ECHILD when there are none (with [WNOHANG] the call is never
    interrupted, so EINTR does not occur). [wstat] is only written when a child is reaped:
    otherwise the caller's variable keeps its (indeterminate) value,
    [os_wstat]. *)
Definition waitpid_where (P : proc -> bool) : ST os (Z * Z * option errno) :=
  fun o =>
    match find_zombie P (os_procs o) with
    | Some (p, w) => (p, w, None, set_os_wstat w (set_os_procs (delete p (os_procs o)) o))
    | None =>
        if decide (filter (fun kp : Z * proc => P kp.2 = true) (map_to_list (os_procs o)) = [])
        then (-1, os_wstat o, Some ECHILD, o)
        else (0, os_wstat o, None, o)
    end.

(** [wait_nohang(&wstat)] is [waitpid(-1, &wstat, WNOHANG)]. *)
Definition wait_nohang : ST os (Z * Z * option errno) := waitpid_where (fun _ => true).

(** [waitpid(a, &wstat, WNOHANG)] for [a <= 0]: the children in process
    group [-a], with [a = 0] the caller's group and [a = -1] any child. *)
Definition waitpid_group (a : Z) : ST os (Z * Z * option errno) :=
  fun o =>
    waitpid_where (fun p => if decide (a = -1) then true
                            else bool_decide (pr_pgid p = if decide (a = 0) then os_pgrp o
                                                          else - a)) o.

(** [fstat(fdcontrol, &st)]: the link count of the control FIFO. *)
Definition fstat_control_nlink : ST os Z := st_gets os_control_nlink.

(** ** Lemmas on the system calls *)

Definition fork_fails (o : os) : bool :=
  match os_forkfail o with true :: _ => true | _ => false end.

Lemma eval_sys_fork argv ss r o :
  eval (sys_fork argv ss r) o = if fork_fails o then -1 else os_nextpid o.
Proof. unfold eval, sys_fork, fork_fails. by destruct (os_forkfail o) as [|[] ?]. Qed.

Lemma exec_stat_exists p o : exec (stat_exists p) o = o.
Proof. reflexivity. Qed.
Lemma exec_stat_isexec p o : exec (stat_isexec p) o = o.
Proof. reflexivity. Qed.
Lemma eval_stat_exists p o : eval (stat_exists p) o = stat_exists_k (file_kind o p).
Proof. reflexivity. Qed.
Lemma eval_stat_isexec p o : eval (stat_isexec p) o = stat_isexec_k (file_kind o p).
Proof. reflexivity. Qed.
Lemma exec_taia_now o : exec taia_now o = o.
Proof. reflexivity. Qed.
Lemma eval_taia_now o : eval taia_now o = os_clock o.
Proof. reflexivity. Qed.

#[export] Hint Rewrite eval_sys_fork exec_stat_exists exec_stat_isexec eval_stat_exists
  eval_stat_isexec exec_taia_now eval_taia_now : sv_run.

Lemma head_omap_Some {A B} (f : A -> option B) (l : list A) y :
  head (omap f l) = Some y -> exists x, In x l /\ f x = Some y.
Proof.
  induction l as [|x l IH]; simpl; [done|].
  destruct (f x) eqn:E; simpl.
  - intros [= ->]. eauto.
  - intros H. destruct (IH H) as (x' & ? & ?). eauto.
Qed.

Lemma find_zombie_lookup P m p w :
  find_zombie P m = Some (p, w) ->
  exists g, m !! p = Some (mk_proc g (PZombie w)) /\ P (mk_proc g (PZombie w)) = true.
Proof.
  unfold find_zombie. intros ([k [g st]] & Hin & Hf)%head_omap_Some.
  simpl in Hf. destruct st; [done|]. destruct (P _) eqn:HP; [|done].
  injection Hf as -> ->. exists g. split; [|done].
  apply elem_of_map_to_list, list_elem_of_In, Hin.
Qed.

(** The three outcomes of [waitpid]: a child is reaped (and leaves the
    table), there are children but none has terminated, or there are none. *)
Lemma waitpid_where_cases P o :
  let '(p, _, e) := eval (waitpid_where P) o in
  (exists g ws, os_procs o !! p = Some (mk_proc g (PZombie ws)) /\ e = None /\
     os_procs (exec (waitpid_where P) o) = delete p (os_procs o) /\
     P (mk_proc g (PZombie ws)) = true) \/
  (p = 0 /\ e = None /\ exec (waitpid_where P) o = o) \/
  (p = -1 /\ e = Some ECHILD /\ exec (waitpid_where P) o = o).
Proof.
  unfold eval, exec, waitpid_where.
  destruct (find_zombie P (os_procs o)) as [[p ws]|] eqn:E.
  - left. destruct (find_zombie_lookup _ _ _ _ E) as (g & Hg & HP). eauto 10.
  - case_decide; simpl; auto.
Qed.

(** ** The signal handlers (lines 78-107) *)

Definition trigger : ST os () := write_selfpipe.

Definition terminate : ST os () :=
  write_control ["d"; "x"]%char ≫= fun _ => write_selfpipe.

Definition ttystop : ST os () :=
  write_control ["p"]%char ≫= fun _ => write_selfpipe.

Definition resume : ST os () :=
  write_control ["c"]%char ≫= fun _ => write_selfpipe.

(** ** What the world does between two iterations of the event loop *)
Inductive env_step : os -> os -> Prop :=
| env_child_exit o p g w :
    os_procs o !! p = Some (mk_proc g PRunning) ->
    env_step o (exec trigger (set_os_procs (<[p := mk_proc g (PZombie w)]> (os_procs o)) o))
| env_adopt o g :
    (** a descendant of the service is reparented to the supervisor
        (subreaper mode); it gets a pid never used before *)
    env_step o (set_os_nextpid (os_nextpid o + 1)
                  (set_os_procs (<[os_nextpid o := mk_proc g PRunning]> (os_procs o)) o))
| env_sigterm o : env_step o (exec terminate o)
| env_sigint o : env_step o (exec terminate o)
| env_sigtstp o : env_step o (exec ttystop o)
| env_sigcont o : env_step o (exec resume o)
| env_command o bytes : env_step o (exec (write_control bytes) o)
| env_unlink_control o : env_step o (set_os_control_nlink 0 o)
| env_tick o n : 0 <= n -> env_step o (set_os_clock (taia_add_sec (os_clock o) n) o)
| env_fork_fault o : env_step o (set_os_forkfail (os_forkfail o ++ [true]) o)
| env_status_fault o f : env_step o (set_os_statusfault (os_statusfault o ++ [f]) o).

End Os.
