(* ===== verification/Launch.v ===== *)
(** * The supervisor's globals, the status publisher, the launcher and the
      notifier

    [sup] holds the global variables of supervise.c (lines 40-55) that the
    control loop mutates; [world] pairs them with the operating system of
    [Os]. Every C function of the supervisor is a computation of the state
    monad [M := ST world]. The two [struct svc] globals are addressed by
    [svcid]: [Main] is [&svcmain], [Log] is [&svclog], so that the C
    comparisons [svc == &svclog] are comparisons of [svcid]s.

    Modelled here: [announce] (lines 161-184), [forkexecve] (lines
    109-141), [notify] (lines 186-199) and [pidchange] (lines 201-208). *)

From S2P Require Import Prelude Status Os.
From stdpp Require Import pretty.

Open Scope Z_scope.

Module Launch.
Import Status Os.

Inductive svcid := Main | Log.

#[export] Instance svcid_eq_dec : EqDecision svcid.
Proof. solve_decision. Defined.

(** [logpipe] is [logpipe[0] >= 0]: a log service was found at startup and
    its pipe created. [runscript] is the [const char *] of the last script
    started for the main service, [None] while it is still NULL. *)
Record sup := mk_sup {
  svcmain : svc;
  svclog : svc;
  flagexit : bool;
  flagorphanage : bool;
  firstrun : bool;
  runscript : option string;
  logpipe : bool
}.

Definition set_svcmain (v : svc) (s : sup) : sup :=
  mk_sup v (svclog s) (flagexit s) (flagorphanage s) (firstrun s) (runscript s) (logpipe s).

Definition set_svclog (v : svc) (s : sup) : sup :=
  mk_sup (svcmain s) v (flagexit s) (flagorphanage s) (firstrun s) (runscript s) (logpipe s).

Definition set_flagexit (v : bool) (s : sup) : sup :=
  mk_sup (svcmain s) (svclog s) v (flagorphanage s) (firstrun s) (runscript s) (logpipe s).

Definition set_flagorphanage (v : bool) (s : sup) : sup :=
  mk_sup (svcmain s) (svclog s) (flagexit s) v (firstrun s) (runscript s) (logpipe s).

Definition set_firstrun (v : bool) (s : sup) : sup :=
  mk_sup (svcmain s) (svclog s) (flagexit s) (flagorphanage s) v (runscript s) (logpipe s).

Definition set_runscript (v : option string) (s : sup) : sup :=
  mk_sup (svcmain s) (svclog s) (flagexit s) (flagorphanage s) (firstrun s) v (logpipe s).

Definition set_logpipe (v : bool) (s : sup) : sup :=
  mk_sup (svcmain s) (svclog s) (flagexit s) (flagorphanage s) (firstrun s) (runscript s) v.

Record world := mk_world { w_sup : sup; w_os : os }.

Abbreviation M := (ST world).

(** A system call, run on the operating-system half of the world. *)
Definition sys {A} (m : ST os A) : M A :=
  fun w => let '(a, o) := m (w_os w) in (a, mk_world (w_sup w) o).

Definition gets_sup {A} (f : sup -> A) : M A := st_gets (fun w => f (w_sup w)).
Definition modify_sup (f : sup -> sup) : M () :=
  st_modify (fun w => mk_world (f (w_sup w)) (w_os w)).

Definition svc_of (i : svcid) (s : sup) : svc :=
  match i with Main => svcmain s | Log => svclog s end.

Definition map_svc (i : svcid) (f : svc -> svc) (s : sup) : sup :=
  match i with
  | Main => set_svcmain (f (svcmain s)) s
  | Log => set_svclog (f (svclog s)) s
  end.

Definition get_svc (i : svcid) : M svc := gets_sup (svc_of i).
Definition upd_svc (i : svcid) (f : svc -> svc) : M () := modify_sup (map_svc i f).

(** ** [announce] (lines 161-184)

    The record of the main service, followed by that of the log service
    when there is one, written at offset 0 of the status file. A failed
    seek or a short write is reported and otherwise ignored. *)
Definition status_bytes (s : sup) : list Z :=
  make_status (svcmain s) ++ (if logpipe s then make_status (svclog s) else []).

Definition announce : M () :=
  status ← gets_sup status_bytes;
  r ← sys seek_begin;
  if decide (r <> 0) then sys (strerr_warn "unable to seek in status")
  else
    r ← sys (write_status status);
    st_when (bool_decide (r < Z.of_nat (length status)))
      (sys (strerr_warn "unable to write status: partial write")).

(** ** [forkexecve] (lines 109-141)

    The child tests "no-setsid" after the fork; the file system is the
    same on both sides of the fork, so the model reads it before. On a
    failed fork the parent warns, sleeps 60 seconds, writes to the
    self-pipe and returns -1; on success it records the pid in the
    service (when there is one) and clears its paused flag. The warning
    names the service directory ([dir], a global the model does not
    keep), which the model's message leaves out; the [WARNING] prefix and
    the [errno] text of the [sys] variants are left out of every message. *)
Definition forkexecve (svc : option svcid) (argv : list string) (fd : Z) : M Z :=
  ns ← sys (stat_exists "no-setsid");
  lp ← gets_sup logpipe;
  f ← sys (sys_fork argv (bool_decide (ns = 0))
                    (if bool_decide (0 <= fd) && lp then Some fd else None));
  if decide (f = -1) then
    sys (strerr_warn "unable to fork, sleeping 60 seconds");;
    sys (deepsleep 60);;
    sys trigger;;
    mret (-1)
  else
    (match svc with
     | Some i => upd_svc i (fun s => set_flagpaused false (set_pid f s))
     | None => mret ()
     end);;
    mret f.

(** ** [notify] (lines 186-199)

    [fmt_uint] prints its argument as an [unsigned int]. The role name is
    "log" for the log service and otherwise [runscript+2], the script's
    name without "./"; while [runscript] is still NULL the C code passes
    the invalid pointer [NULL+2], which the model renders as "". *)
Definition fmt_uint (z : Z) : string := pretty (Z.to_N (z mod 2 ^ 32)).

Definition script_name (r : option string) : string :=
  match r with Some s => String.substring 2 (String.length s - 2) s | None => "" end.

Definition role_name (i : svcid) (rs : option string) : string :=
  match i with Log => "log" | Main => script_name rs end.

Definition notify (i : svcid) (notice : string) (code oldpid : Z) : M () :=
  rs ← gets_sup runscript;
  let name := role_name i rs in
  _ ← forkexecve None ["./notify"; name; notice; fmt_uint oldpid; fmt_uint code] (-1);
  mret ().

(** ** [pidchange] (lines 201-208) *)
Definition pidchange (i : svcid) (notice : option string) (code oldpid : Z) : M () :=
  t ← sys taia_now;
  upd_svc i (set_when t);;
  (match notice with
   | Some n =>
       x ← sys (stat_isexec "notify");
       st_when (bool_decide (x > 0)) (notify i n code oldpid)
   | None => mret ()
   end);;
  announce.

(** ** Running the primitives *)

Lemma exec_sys {A} (m : ST os A) w : exec (sys m) w = mk_world (w_sup w) (exec m (w_os w)).
Proof. unfold exec, sys. by destruct (m (w_os w)). Qed.

Lemma eval_sys {A} (m : ST os A) w : eval (sys m) w = eval m (w_os w).
Proof. unfold eval, sys. by destruct (m (w_os w)). Qed.

Lemma exec_gets_sup {A} (f : sup -> A) w : exec (gets_sup f) w = w.
Proof. reflexivity. Qed.

Lemma eval_gets_sup {A} (f : sup -> A) w : eval (gets_sup f) w = f (w_sup w).
Proof. reflexivity. Qed.

Lemma exec_modify_sup f w : exec (modify_sup f) w = mk_world (f (w_sup w)) (w_os w).
Proof. reflexivity. Qed.

Lemma exec_upd_svc i f w : exec (upd_svc i f) w = mk_world (map_svc i f (w_sup w)) (w_os w).
Proof. reflexivity. Qed.

Lemma eval_get_svc i w : eval (get_svc i) w = svc_of i (w_sup w).
Proof. reflexivity. Qed.

Lemma exec_get_svc i w : exec (get_svc i) w = w.
Proof. reflexivity. Qed.

Lemma exec_when c (m : M ()) w : exec (st_when c m) w = if c then exec m w else w.
Proof. by destruct c. Qed.

Lemma svc_of_map_svc_eq i f s : svc_of i (map_svc i f s) = f (svc_of i s).
Proof. by destruct i. Qed.

Lemma svc_of_map_svc_ne i j f s : i <> j -> svc_of j (map_svc i f s) = svc_of j s.
Proof. destruct i, j; simpl; congruence. Qed.

#[export] Hint Rewrite @exec_sys @eval_sys @exec_gets_sup @eval_gets_sup exec_modify_sup
  exec_upd_svc eval_get_svc exec_get_svc exec_when svc_of_map_svc_eq : sv_run.

(** ** Frame lemmas: what each operation leaves unchanged *)

(** [m] leaves the projection [f] of the world unchanged. *)
Definition keeps {B} (f : world -> B) {A} (m : M A) : Prop :=
  forall b, preserves (fun w => f w = b) m.

(** [m] does not modify the supervisor's globals. *)
Abbreviation keeps_sup := (keeps w_sup).

(** An OS operation that leaves the projection [g] unchanged. *)
Definition keeps_os {B A} (g : os -> B) (m : ST os A) : Prop :=
  forall o, g (exec m o) = g o.

Lemma keeps_exec {B A} (f : world -> B) (m : M A) w : keeps f m -> f (exec m w) = f w.
Proof. intros H. by apply (H (f w)). Qed.

Lemma keeps_sup_exec {A} (m : M A) w : keeps_sup m -> w_sup (exec m w) = w_sup w.
Proof. apply keeps_exec. Qed.

Lemma keeps_sup_sys {A} (m : ST os A) : keeps_sup (sys m).
Proof. intros s w <-. unfold exec, sys. by destruct (m (w_os w)). Qed.

Lemma keeps_os_sys {B A} (g : os -> B) (m : ST os A) :
  keeps_os g m -> keeps (fun w => g (w_os w)) (sys m).
Proof. intros H b w <-. rewrite exec_sys. apply H. Qed.

Lemma keeps_modify_sup {B} (g : os -> B) h : keeps (fun w => g (w_os w)) (modify_sup h).
Proof. by intros b w <-. Qed.

Lemma keeps_upd_svc {B} (g : os -> B) i h : keeps (fun w => g (w_os w)) (upd_svc i h).
Proof. by intros b w <-. Qed.

Lemma keeps_gets {B A} (f : world -> B) (h : sup -> A) : keeps f (gets_sup h).
Proof. intros b. apply preserves_gets. Qed.

Lemma keeps_bind {B A C} (f : world -> B) (m : M A) (k : A -> M C) :
  keeps f m -> (forall a, keeps f (k a)) -> keeps f (m ≫= k).
Proof. intros Hm Hk b. apply preserves_bind; [apply Hm | intros a; apply Hk]. Qed.

Lemma keeps_ret {B A} (f : world -> B) (a : A) : keeps f (mret a : M A).
Proof. intros b. apply preserves_ret. Qed.

Lemma keeps_when {B} (f : world -> B) c (m : M ()) : keeps f m -> keeps f (st_when c m).
Proof. intros H b. by apply preserves_when. Qed.

#[export] Hint Resolve keeps_sup_sys keeps_os_sys keeps_modify_sup keeps_upd_svc keeps_gets
  keeps_bind keeps_ret keeps_when : sv.

#[export] Instance keeps_closed {B} (f : world -> B) : CodeClosed (@keeps B f).
Proof. split; intros; [apply keeps_ret | by apply keeps_bind]. Qed.

(** Splits a [keeps] goal along the code; each branch is closed by the
    hint database. *)
Ltac keeps_solve :=
  code_split;
  repeat match goal with
  | |- keeps _ (gets_sup _) => apply keeps_gets
  | |- keeps _ (modify_sup _) => apply keeps_modify_sup
  | |- keeps _ (upd_svc _ _) => apply keeps_upd_svc
  | |- keeps w_sup (sys _) => apply keeps_sup_sys
  | |- keeps (fun w => _ (w_os w)) (sys _) => apply keeps_os_sys
  end; eauto with sv.

(** The OS calls of the publisher and of the launcher's failure path do not
    touch the process table. *)
Lemma keeps_os_procs_seek : keeps_os os_procs seek_begin.
Proof. intros o. unfold exec, seek_begin. by destruct (os_statusfault o) as [|[] ?]. Qed.

Lemma keeps_os_procs_write b : keeps_os os_procs (write_status b).
Proof. intros o. unfold exec, write_status. by destruct (os_statusfault o) as [|[] ?]. Qed.

Lemma keeps_os_procs_warn m : keeps_os os_procs (strerr_warn m).
Proof. done. Qed.

#[export] Hint Resolve keeps_os_procs_seek keeps_os_procs_write keeps_os_procs_warn : sv.

Lemma announce_keeps_sup : keeps_sup announce.
Proof. unfold announce. keeps_solve. Qed.

Lemma announce_keeps_procs : keeps (fun w => os_procs (w_os w)) announce.
Proof. unfold announce. keeps_solve. Qed.

Lemma announce_procs w : os_procs (w_os (exec announce w)) = os_procs (w_os w).
Proof. apply (keeps_exec (fun w => os_procs (w_os w))), announce_keeps_procs. Qed.

Lemma forkexecve_none_keeps_sup argv fd : keeps_sup (forkexecve None argv fd).
Proof. unfold forkexecve. keeps_solve. Qed.

Lemma notify_keeps_sup i n c p : keeps_sup (notify i n c p).
Proof. unfold notify. keeps_solve. apply forkexecve_none_keeps_sup. Qed.

#[export] Hint Resolve announce_keeps_sup announce_keeps_procs forkexecve_none_keeps_sup
  notify_keeps_sup : sv.

(** ** Independence from the control FIFO

    Nothing but the controller's [read] looks at or changes the contents of
    the control FIFO: the other operations commute with replacing them. *)

Definition with_control (cs : list ascii) (w : world) : world :=
  mk_world (w_sup w) (set_os_control cs (w_os w)).

Definition ctl_free_os {A} (m : ST os A) : Prop :=
  forall o cs, m (set_os_control cs o) = (eval m o, set_os_control cs (exec m o)).

Definition ctl_free {A} (m : M A) : Prop :=
  forall w cs, m (with_control cs w) = (eval m w, with_control cs (exec m w)).

Lemma ctl_free_eval {A} (m : M A) cs w : ctl_free m -> eval m (with_control cs w) = eval m w.
Proof. intros H. unfold eval at 1. by rewrite H. Qed.

Lemma ctl_free_exec {A} (m : M A) cs w :
  ctl_free m -> exec m (with_control cs w) = with_control cs (exec m w).
Proof. intros H. unfold exec at 1. by rewrite H. Qed.

Lemma ctl_free_sys {A} (m : ST os A) : ctl_free_os m -> ctl_free (sys m).
Proof.
  intros H w cs. unfold sys, with_control, eval, exec. simpl.
  rewrite H. unfold eval, exec. by destruct (m (w_os w)).
Qed.

Lemma ctl_free_bind {A B} (m : M A) (k : A -> M B) :
  ctl_free m -> (forall a, ctl_free (k a)) -> ctl_free (m ≫= k).
Proof.
  intros Hm Hk w cs. unfold mbind, st_bind. rewrite Hm, Hk.
  unfold eval, exec. by destruct (m w).
Qed.

Lemma ctl_free_ret {A} (a : A) : ctl_free (mret a : M A).
Proof. done. Qed.

Lemma ctl_free_when c (m : M ()) : ctl_free m -> ctl_free (st_when c m).
Proof. by destruct c. Qed.

Lemma ctl_free_gets {A} (f : sup -> A) : ctl_free (gets_sup f).
Proof. done. Qed.

Lemma ctl_free_modify f : ctl_free (modify_sup f).
Proof. done. Qed.

Lemma ctl_free_upd i f : ctl_free (upd_svc i f).
Proof. done. Qed.

Lemma ctl_free_get i : ctl_free (get_svc i).
Proof. done. Qed.

Ltac ctl_free_prim :=
  intros [] cs; unfold set_os_control; cbn;
  repeat match goal with
  | |- context [match ?l with [] => _ | _ :: _ => _ end] => destruct l as [|x ?]; try destruct x
  end; reflexivity.

Lemma ctl_free_seek : ctl_free_os seek_begin.
Proof. unfold seek_begin. ctl_free_prim. Qed.
Lemma ctl_free_write b : ctl_free_os (write_status b).
Proof. unfold write_status. ctl_free_prim. Qed.
Lemma ctl_free_warn m : ctl_free_os (strerr_warn m).
Proof. ctl_free_prim. Qed.
Lemma ctl_free_fork a ss r : ctl_free_os (sys_fork a ss r).
Proof. unfold sys_fork. ctl_free_prim. Qed.
Lemma ctl_free_sleep n : ctl_free_os (deepsleep n).
Proof. ctl_free_prim. Qed.
Lemma ctl_free_trigger : ctl_free_os trigger.
Proof. ctl_free_prim. Qed.
Lemma ctl_free_isexec p : ctl_free_os (stat_isexec p).
Proof. ctl_free_prim. Qed.
Lemma ctl_free_exists p : ctl_free_os (stat_exists p).
Proof. ctl_free_prim. Qed.
Lemma ctl_free_now : ctl_free_os taia_now.
Proof. ctl_free_prim. Qed.
Lemma ctl_free_kill t sg : ctl_free_os (sys_kill t sg).
Proof. ctl_free_prim. Qed.

#[export] Hint Resolve ctl_free_sys ctl_free_bind ctl_free_ret ctl_free_when ctl_free_gets
  ctl_free_modify ctl_free_upd ctl_free_get ctl_free_seek ctl_free_write ctl_free_warn
  ctl_free_fork ctl_free_sleep ctl_free_trigger ctl_free_isexec ctl_free_exists ctl_free_now
  ctl_free_kill : sv.

#[export] Instance ctl_free_closed : CodeClosed (@ctl_free).
Proof. split; intros; [apply ctl_free_ret | by apply ctl_free_bind]. Qed.

(** Splits a [ctl_free] goal along the code. *)
Ltac ctl_free_solve :=
  code_split; try match goal with |- ctl_free (sys _) => apply ctl_free_sys end; eauto with sv.

Lemma announce_ctl_free : ctl_free announce.
Proof. unfold announce. ctl_free_solve. Qed.

Lemma forkexecve_ctl_free svc argv fd : ctl_free (forkexecve svc argv fd).
Proof. unfold forkexecve. ctl_free_solve. Qed.

Lemma notify_ctl_free i n c p : ctl_free (notify i n c p).
Proof. unfold notify. ctl_free_solve. apply forkexecve_ctl_free. Qed.

Lemma pidchange_ctl_free i n c p : ctl_free (pidchange i n c p).
Proof. unfold pidchange. ctl_free_solve; auto using notify_ctl_free, announce_ctl_free. Qed.

#[export] Hint Resolve announce_ctl_free forkexecve_ctl_free notify_ctl_free
  pidchange_ctl_free : sv.

(** ** The service directory never changes; pids only grow *)

Abbreviation keeps_files := (keeps (fun w => os_files (w_os w))).

Definition npid_pos (w : world) : Prop := 0 < os_nextpid (w_os w).

Lemma preserves_sys (P : os -> Prop) {A} (m : ST os A) :
  (forall o, P o -> P (exec m o)) -> preserves (fun w => P (w_os w)) (sys m).
Proof. intros H w Hw. rewrite exec_sys. by apply H. Qed.

Lemma preserves_sup_op (P : os -> Prop) {A} (m : M A) :
  keeps (fun w => w_os w) m -> preserves (fun w => P (w_os w)) m.
Proof. intros H w Hw. by rewrite (keeps_exec _ m). Qed.

Lemma keeps_os_modify f : keeps (fun w => w_os w) (modify_sup f).
Proof. by intros b w <-. Qed.
Lemma keeps_os_upd i f : keeps (fun w => w_os w) (upd_svc i f).
Proof. by intros b w <-. Qed.
Lemma keeps_os_gets {A} (f : sup -> A) : keeps (fun w => w_os w) (gets_sup f).
Proof. by intros b w <-. Qed.

Ltac os_prim :=
  unfold keeps_os, exec, log_event, st_modify, st_gets, deepsleep, trigger, write_selfpipe,
    mbind, st_bind, strerr_warn, sys_kill;
  intros []; unfold set_os_files, set_os_procs, set_os_nextpid, set_os_forkfail,
    set_os_clock, set_os_statusfile, set_os_statusfault, set_os_control, set_os_selfpipe,
    set_os_trace, set_os_wstat; cbn;
  repeat match goal with
  | |- context [match ?l with [] => _ | _ :: _ => _ end] => destruct l as [|x ?]; try destruct x
  end; cbn; try lia; try reflexivity.

Lemma files_seek : keeps_os os_files seek_begin.
Proof. unfold seek_begin. os_prim. Qed.
Lemma files_write b : keeps_os os_files (write_status b).
Proof. unfold write_status. os_prim. Qed.
Lemma files_warn m : keeps_os os_files (strerr_warn m).
Proof. os_prim. Qed.
Lemma files_fork a ss r : keeps_os os_files (sys_fork a ss r).
Proof. unfold sys_fork. os_prim. Qed.
Lemma files_sleep n : keeps_os os_files (deepsleep n).
Proof. os_prim. Qed.
Lemma files_trigger : keeps_os os_files trigger.
Proof. os_prim. Qed.
Lemma files_isexec p : keeps_os os_files (stat_isexec p).
Proof. os_prim. Qed.
Lemma files_exists p : keeps_os os_files (stat_exists p).
Proof. os_prim. Qed.
Lemma files_now : keeps_os os_files taia_now.
Proof. os_prim. Qed.
Lemma files_kill t sg : keeps_os os_files (sys_kill t sg).
Proof. os_prim. Qed.

#[export] Hint Resolve files_seek files_write files_warn files_fork files_sleep files_trigger
  files_isexec files_exists files_now files_kill : sv.

Definition pos_nextpid (o : os) : Prop := 0 < os_nextpid o.

Lemma npid_seek o : pos_nextpid o -> pos_nextpid (exec seek_begin o).
Proof. revert o. unfold pos_nextpid, seek_begin. os_prim. Qed.
Lemma npid_write b o : pos_nextpid o -> pos_nextpid (exec (write_status b) o).
Proof. revert o. unfold pos_nextpid, write_status. os_prim. Qed.
Lemma npid_warn m o : pos_nextpid o -> pos_nextpid (exec (strerr_warn m) o).
Proof. revert o. unfold pos_nextpid. os_prim. Qed.
Lemma npid_fork a ss r o : pos_nextpid o -> pos_nextpid (exec (sys_fork a ss r) o).
Proof. revert o. unfold pos_nextpid, sys_fork. os_prim. Qed.
Lemma npid_sleep n o : pos_nextpid o -> pos_nextpid (exec (deepsleep n) o).
Proof. revert o. unfold pos_nextpid. os_prim. Qed.
Lemma npid_trigger o : pos_nextpid o -> pos_nextpid (exec trigger o).
Proof. revert o. unfold pos_nextpid. os_prim. Qed.
Lemma npid_isexec p o : pos_nextpid o -> pos_nextpid (exec (stat_isexec p) o).
Proof. done. Qed.
Lemma npid_exists p o : pos_nextpid o -> pos_nextpid (exec (stat_exists p) o).
Proof. done. Qed.
Lemma npid_now o : pos_nextpid o -> pos_nextpid (exec taia_now o).
Proof. done. Qed.
Lemma npid_kill t sg o : pos_nextpid o -> pos_nextpid (exec (sys_kill t sg) o).
Proof. done. Qed.

#[export] Hint Resolve npid_seek npid_write npid_warn npid_fork npid_sleep npid_trigger
  npid_isexec npid_exists npid_now npid_kill keeps_os_modify keeps_os_upd keeps_os_gets : sv.

(** Splits a [preserves] goal about the OS half of the world. *)
Ltac preserves_os_solve :=
  code_split;
  try match goal with
  | |- preserves _ (sys _) => apply preserves_sys; intros ?
  | |- preserves _ (gets_sup _) => apply preserves_sup_op, keeps_os_gets
  | |- preserves _ (modify_sup _) => apply preserves_sup_op, keeps_os_modify
  | |- preserves _ (upd_svc _ _) => apply preserves_sup_op, keeps_os_upd
  end; eauto with sv.

(** Everything of the OS but the status file, its fault oracle and the
    trace. *)
Definition os_core (o : os) :=
  (os_files o, os_procs o, os_nextpid o, os_pgrp o, os_forkfail o, os_clock o,
   os_control o, os_control_nlink o, os_selfpipe o, os_wstat o).

Lemma core_seek : keeps_os os_core seek_begin.
Proof. unfold os_core, seek_begin. os_prim. Qed.
Lemma core_write b : keeps_os os_core (write_status b).
Proof. unfold os_core, write_status. os_prim. Qed.
Lemma core_warn m : keeps_os os_core (strerr_warn m).
Proof. unfold os_core. os_prim. Qed.

#[export] Hint Resolve core_seek core_write core_warn : sv.

Lemma announce_core : keeps (fun w => os_core (w_os w)) announce.
Proof. unfold announce. keeps_solve. Qed.

Lemma announce_core_eq w : os_core (w_os (exec announce w)) = os_core (w_os w).
Proof. apply (keeps_exec (fun w => os_core (w_os w))), announce_core. Qed.

Lemma announce_nextpid w : os_nextpid (w_os (exec announce w)) = os_nextpid (w_os w).
Proof. pose proof (announce_core_eq w) as E. unfold os_core in E. injection E; intros; congruence. Qed.

Lemma announce_fork_fails w : fork_fails (w_os (exec announce w)) = fork_fails (w_os w).
Proof.
  pose proof (announce_core_eq w) as E. unfold os_core in E. unfold fork_fails.
  assert (os_forkfail (w_os (exec announce w)) = os_forkfail (w_os w)) as ->
    by (injection E; intros; congruence).
  done.
Qed.

Lemma announce_clock w : os_clock (w_os (exec announce w)) = os_clock (w_os w).
Proof. pose proof (announce_core_eq w) as E. unfold os_core in E. injection E; intros; congruence. Qed.

Lemma announce_files : keeps_files announce.
Proof. unfold announce. keeps_solve. Qed.
Lemma forkexecve_files svc argv fd : keeps_files (forkexecve svc argv fd).
Proof. unfold forkexecve. keeps_solve. Qed.
Lemma notify_files i n c p : keeps_files (notify i n c p).
Proof. unfold notify. keeps_solve. apply forkexecve_files. Qed.
Lemma pidchange_files i n c p : keeps_files (pidchange i n c p).
Proof.
  unfold pidchange. keeps_solve; [apply notify_files | apply announce_files].
Qed.

Lemma announce_npid : preserves (fun w => pos_nextpid (w_os w)) announce.
Proof. unfold announce. preserves_os_solve. Qed.
Lemma forkexecve_npid svc argv fd : preserves (fun w => pos_nextpid (w_os w)) (forkexecve svc argv fd).
Proof. unfold forkexecve. preserves_os_solve. Qed.
Lemma notify_npid i n c p : preserves (fun w => pos_nextpid (w_os w)) (notify i n c p).
Proof. unfold notify. preserves_os_solve. apply forkexecve_npid. Qed.
Lemma pidchange_npid i n c p : preserves (fun w => pos_nextpid (w_os w)) (pidchange i n c p).
Proof.
  unfold pidchange. preserves_os_solve; [apply notify_npid | apply announce_npid].
Qed.

#[export] Hint Resolve announce_files forkexecve_files notify_files pidchange_files
  announce_npid forkexecve_npid notify_npid pidchange_npid : sv.

(** ** Behaviour of the launcher *)

Section Launcher.
Context (w : world).
Hypothesis Hpid : 0 < os_nextpid (w_os w).

(** [forkexecve] returns the new child's pid, or -1 when [fork] fails. *)
Lemma eval_forkexecve svc argv fd :
  eval (forkexecve svc argv fd) w = if fork_fails (w_os w) then -1 else os_nextpid (w_os w).
Proof.
  unfold forkexecve. autorewrite with sv_run. simpl.
  destruct (fork_fails (w_os w)); [by rewrite decide_True|].
  rewrite decide_False by lia. by destruct svc.
Qed.

Lemma sup_forkexecve svc argv fd :
  w_sup (exec (forkexecve svc argv fd) w) =
    if fork_fails (w_os w) then w_sup w
    else match svc with
         | Some i => map_svc i (fun s => set_flagpaused false (set_pid (os_nextpid (w_os w)) s))
                       (w_sup w)
         | None => w_sup w
         end.
Proof.
  unfold forkexecve. autorewrite with sv_run. simpl.
  destruct (fork_fails (w_os w)); [by rewrite decide_True|].
  rewrite decide_False by lia. by destruct svc.
Qed.

(** A successful fork does not move the clock. *)
Lemma clock_forkexecve svc argv fd :
  fork_fails (w_os w) = false ->
  os_clock (w_os (exec (forkexecve svc argv fd) w)) = os_clock (w_os w).
Proof.
  intros Hf. unfold forkexecve. autorewrite with sv_run. simpl. rewrite Hf.
  rewrite decide_False by lia. destruct svc; autorewrite with sv_run; simpl;
  unfold exec, sys_fork, fork_fails in *; simpl; destruct (os_forkfail (w_os w)) as [|[] ?];
  done.
Qed.
End Launcher.

(** [pidchange] stamps the service with the current time; the notifier
    and the publisher leave the globals alone. *)
Lemma sup_pidchange i n c p w :
  w_sup (exec (pidchange i n c p) w) = map_svc i (set_when (os_clock (w_os w))) (w_sup w).
Proof.
  unfold pidchange. autorewrite with sv_run. simpl.
  rewrite keeps_sup_exec by eauto with sv.
  destruct n; autorewrite with sv_run; simpl; [|done].
  case_bool_decide; [|done]. rewrite keeps_sup_exec by eauto with sv. done.
Qed.

(** ** Behaviour of the publisher *)

Lemma length_status_bytes s :
  length (status_bytes s) = if logpipe s then 40%nat else 20%nat.
Proof.
  unfold status_bytes, make_status.
  destruct (logpipe s); rewrite ?length_app, ?length_take, ?length_taia_pack,
    ?length_le_split; simpl; lia.
Qed.

(** C25: [announce] writes the main record, followed by the log record when
    a log service exists, over the start of the status file; when the seek
    fails the file is left as it was, and when the write is short only the
    written prefix replaces the old bytes (the previous snapshot is then
    partly stale). *)
Theorem announce_statusfile w :
  os_statusfile (w_os (exec announce w)) =
    match os_statusfault (w_os w) with
    | WSeekFail :: _ => os_statusfile (w_os w)
    | WShort n :: _ => overwrite (take n (status_bytes (w_sup w))) (os_statusfile (w_os w))
    | _ => overwrite (status_bytes (w_sup w)) (os_statusfile (w_os w))
    end.
Proof.
  destruct w as [s o]. unfold announce, sys, gets_sup, seek_begin, write_status.
  st_unfold. destruct o as [? ? ? ? ? ? ? fault]; cbn -[status_bytes].
  destruct fault as [|[| |n] rest];
    repeat (st_unfold; cbn -[status_bytes]; (case_decide || case_bool_decide));
    st_unfold; cbn -[status_bytes]; by rewrite ?firstn_all, ?take_min_length.
Qed.

End Launch.
