(* ===== verification/Service.v ===== *)
(** * The service state machine: starting, stopping and signalling a service

    [trystart] (supervise.c lines 210-238), [trystop] (lines 240-259),
    [killsvc] (lines 261-265) and [stopsvc] (lines 267-274), over the world
    of [Launch]. The main service has a two-phase start ("./start" on the
    first run, then "./run"); the log service runs "./log" with its standard
    input on the log pipe. Every successful spawn is followed by a
    notification, a publication of the status and a one-second sleep. *)

From S2P Require Import Prelude Status Os Launch.

Open Scope Z_scope.

Module Service.
Import Status Os Launch.

(** The tail shared by both branches of [trystart] (lines 234-237). *)
Definition trystart_launch (i : svcid) (argv : list string) (fd : Z) : M () :=
  f ← forkexecve (Some i) argv fd;
  if decide (f < 0) then mret ()
  else pidchange i (Some "start") 0 f;; sys (deepsleep 1).

(** [trystart] (lines 210-238). [firstrun && stat_isexec("start") == 0]
    and [!firstrun && stat_exists("run") == 0] evaluate their second
    operand only when the first holds. *)
Definition trystart (i : svcid) : M () :=
  match i with
  | Log =>
      upd_svc Log (set_flagstatus svstatus_running);;
      trystart_launch Log ["./log"] 0
  | Main =>
      fr ← gets_sup firstrun;
      (if (fr : bool) then
         x ← sys (stat_isexec "start");
         st_when (bool_decide (x = 0)) (modify_sup (set_firstrun false))
       else mret ());;
      fr ← gets_sup firstrun;
      norun ← (if fr then mret false
               else r ← sys (stat_exists "run"); mret (bool_decide (r = 0)) : M bool);
      if (norun : bool) then
        upd_svc Main (set_flagwant false);;
        upd_svc Main (set_flagstatus svstatus_started);;
        announce
      else
        let script := if (fr : bool) then "./start" else "./run" in
        modify_sup (set_runscript (Some script));;
        upd_svc Main (set_flagstatus (if fr then svstatus_starting else svstatus_running));;
        trystart_launch Main [script] 1
  end.

(** [trystop] (lines 240-259). The stop script runs at most once per stop
    cycle, only for the main service, and only if it is executable. Its
    notification is sent with the notice "start", as in the code. *)
Definition trystop (i : svcid) : M () :=
  s ← get_svc i;
  skip ← (if ranstop s || bool_decide (i <> Main) then mret true
          else x ← sys (stat_isexec "stop"); mret (bool_decide (x <> 1)) : M bool);
  if (skip : bool) then
    upd_svc i (set_ranstop true);;
    upd_svc i (set_flagstatus svstatus_stopped);;
    announce
  else
    modify_sup (set_runscript (Some "./stop"));;
    f ← forkexecve (Some i) ["./stop"] 1;
    if decide (f < 0) then mret ()
    else
      upd_svc i (set_ranstop true);;
      pidchange i (Some "start") 0 f;;
      sys (deepsleep 1).

(** [killsvc] (lines 261-265): [kill(svc->pid*groupflag, signo)], where a
    negative [groupflag] addresses the process group. An orphaned main
    service is only signalled through its group. *)
Definition killsvc (i : svcid) (groupflag : Z) (signo : signal) : M () :=
  s ← get_svc i;
  st_when (bool_decide (pid s <> 0)
           && (bool_decide (flagstatus s <> svstatus_orphanage) || bool_decide (groupflag < 0)))
    (sys (sys_kill (pid s * groupflag) signo)).

(** [stopsvc] (lines 267-274). *)
Definition stopsvc (i : svcid) (groupflag : Z) : M () :=
  killsvc i groupflag SIGTERM;;
  killsvc i groupflag SIGCONT;;
  upd_svc i (set_flagpaused false);;
  upd_svc i (set_flagstatus svstatus_stopping);;
  upd_svc i (set_ranstop false).

(** ** Effect on the globals *)

(** The new pid and the cleared paused flag of a successful spawn. *)
Definition spawned (p : Z) (v : svc) : svc := set_flagpaused false (set_pid p v).

Lemma sup_trystart_launch i argv fd w :
  0 < os_nextpid (w_os w) ->
  w_sup (exec (trystart_launch i argv fd) w) =
    if fork_fails (w_os w) then w_sup w
    else map_svc i (set_when (os_clock (w_os w)))
           (map_svc i (spawned (os_nextpid (w_os w))) (w_sup w)).
Proof.
  intros Hpid. unfold trystart_launch. rewrite exec_bind, eval_forkexecve by done.
  destruct (fork_fails (w_os w)) eqn:Hf.
  - rewrite decide_True by lia. by rewrite exec_ret, sup_forkexecve, Hf.
  - rewrite decide_False by lia. rewrite exec_bind, keeps_sup_exec by eauto with sv.
    rewrite sup_pidchange, clock_forkexecve, sup_forkexecve, Hf by done. done.
Qed.

(** [firstrun] after the test of line 222. *)
Definition firstrun_after (s : sup) (o : os) : bool :=
  firstrun s && bool_decide (stat_isexec_k (file_kind o "start") <> 0).

(** Lines 221-222: a missing "start" ends the first run. *)
Lemma exec_start_check w :
  exec (if firstrun (w_sup w) then
          x ← sys (stat_isexec "start");
          st_when (bool_decide (x = 0)) (modify_sup (set_firstrun false))
        else mret ()) w =
    mk_world (set_firstrun (firstrun_after (w_sup w) (w_os w)) (w_sup w)) (w_os w).
Proof.
  unfold firstrun_after. destruct w as [[] ?]; simpl.
  destruct firstrun0; simpl; [|done]. autorewrite with sv_run. simpl.
  case_bool_decide; simpl; repeat case_bool_decide; simpl; done.
Qed.

(** The globals after [trystart] of the main service, on each branch. *)
Lemma sup_trystart_main w :
  0 < os_nextpid (w_os w) ->
  let o := w_os w in
  let fr := firstrun_after (w_sup w) o in
  let s1 := set_firstrun fr (w_sup w) in
  w_sup (exec (trystart Main) w) =
    if negb fr && bool_decide (stat_exists_k (file_kind o "run") = 0) then
      map_svc Main (fun v => set_flagstatus svstatus_started (set_flagwant false v)) s1
    else
      let s2 := map_svc Main (set_flagstatus (if fr then svstatus_starting else svstatus_running))
                  (set_runscript (Some (if fr then "./start" else "./run")) s1) in
      if fork_fails o then s2
      else map_svc Main (set_when (os_clock o)) (map_svc Main (spawned (os_nextpid o)) s2).
Proof.
  intros Hpid o fr s1. unfold trystart. autorewrite with sv_run. simpl.
  rewrite exec_start_check. fold o fr s1.
  assert (Hfr : firstrun s1 = fr) by reflexivity.
  assert (Hm : svcmain s1 = svcmain (w_sup w)) by reflexivity.
  clearbody s1 fr. rewrite ?Hfr, <- ?Hm.
  destruct fr; cbn [w_sup w_os]; rewrite Hfr; simpl.
  - autorewrite with sv_run. simpl. rewrite sup_trystart_launch by done. done.
  - autorewrite with sv_run. simpl.
    case_bool_decide; simpl; autorewrite with sv_run; simpl.
    + rewrite keeps_sup_exec by eauto with sv. done.
    + rewrite sup_trystart_launch by done. done.
Qed.

(** C3: [trystart] of the main service, on each of its branches. With
    [fr] the value of [firstrun] once a missing "start" script has cleared
    it: when [fr] is false and there is no "run" file, the service is
    marked Started and no longer wanted (nothing is spawned); otherwise
    "./start" (when [fr]) or "./run" is recorded as the run script, the
    service is marked Starting or Running, and when the fork succeeds it
    gets the new child's pid, its paused flag is cleared and its timestamp
    set. *)
Theorem trystart_main_sup w :
  0 < os_nextpid (w_os w) ->
  let o := w_os w in
  let fr := firstrun_after (w_sup w) o in
  let s1 := set_firstrun fr (w_sup w) in
  w_sup (exec (trystart Main) w) =
    if negb fr && bool_decide (stat_exists_k (file_kind o "run") = 0) then
      map_svc Main (fun v => set_flagstatus svstatus_started (set_flagwant false v)) s1
    else
      let s2 := map_svc Main (set_flagstatus (if fr then svstatus_starting else svstatus_running))
                  (set_runscript (Some (if fr then "./start" else "./run")) s1) in
      if fork_fails o then s2
      else map_svc Main (set_when (os_clock o)) (map_svc Main (spawned (os_nextpid o)) s2).
Proof. apply sup_trystart_main. Qed.

(** ** None of these operations touches the control FIFO *)

Lemma trystart_launch_ctl_free i argv fd : ctl_free (trystart_launch i argv fd).
Proof. unfold trystart_launch. ctl_free_solve. Qed.

Lemma trystart_ctl_free i : ctl_free (trystart i).
Proof. unfold trystart. ctl_free_solve; apply trystart_launch_ctl_free. Qed.

Lemma trystop_ctl_free i : ctl_free (trystop i).
Proof. unfold trystop. ctl_free_solve. Qed.

Lemma killsvc_ctl_free i g sg : ctl_free (killsvc i g sg).
Proof. unfold killsvc. ctl_free_solve. Qed.

Lemma stopsvc_ctl_free i g : ctl_free (stopsvc i g).
Proof. unfold stopsvc. ctl_free_solve; apply killsvc_ctl_free. Qed.

#[export] Hint Resolve trystart_ctl_free trystop_ctl_free killsvc_ctl_free stopsvc_ctl_free : sv.

(** ** Frames: the directory is never changed, pids stay positive *)

Lemma trystart_launch_files i argv fd : keeps_files (trystart_launch i argv fd).
Proof. unfold trystart_launch. keeps_solve. Qed.
Lemma trystart_files i : keeps_files (trystart i).
Proof. unfold trystart. keeps_solve; apply trystart_launch_files. Qed.
Lemma trystop_files i : keeps_files (trystop i).
Proof. unfold trystop. keeps_solve. Qed.
Lemma killsvc_files i g sg : keeps_files (killsvc i g sg).
Proof. unfold killsvc. keeps_solve. Qed.
Lemma stopsvc_files i g : keeps_files (stopsvc i g).
Proof. unfold stopsvc. keeps_solve; apply killsvc_files. Qed.

Lemma trystart_launch_npid i argv fd :
  preserves (fun w => pos_nextpid (w_os w)) (trystart_launch i argv fd).
Proof. unfold trystart_launch. preserves_os_solve. Qed.
Lemma trystart_npid i : preserves (fun w => pos_nextpid (w_os w)) (trystart i).
Proof. unfold trystart. preserves_os_solve; apply trystart_launch_npid. Qed.
Lemma trystop_npid i : preserves (fun w => pos_nextpid (w_os w)) (trystop i).
Proof. unfold trystop. preserves_os_solve. Qed.
Lemma killsvc_npid i g sg : preserves (fun w => pos_nextpid (w_os w)) (killsvc i g sg).
Proof. unfold killsvc. preserves_os_solve. Qed.
Lemma stopsvc_npid i g : preserves (fun w => pos_nextpid (w_os w)) (stopsvc i g).
Proof. unfold stopsvc. preserves_os_solve; apply killsvc_npid. Qed.

#[export] Hint Resolve trystart_files trystop_files killsvc_files stopsvc_files
  trystart_npid trystop_npid killsvc_npid stopsvc_npid : sv.

(** ** Effect of stopping and signalling on the globals *)

Lemma killsvc_keeps_sup i g sg : keeps_sup (killsvc i g sg).
Proof. unfold killsvc. keeps_solve. Qed.

#[export] Hint Resolve killsvc_keeps_sup : sv.

Lemma sup_stopsvc i g w :
  w_sup (exec (stopsvc i g) w) =
    map_svc i (fun v => set_ranstop false (set_flagstatus svstatus_stopping
                                              (set_flagpaused false v))) (w_sup w).
Proof.
  unfold stopsvc. autorewrite with sv_run. rewrite !keeps_sup_exec by eauto with sv.
  destruct i, w as [[] ?]; reflexivity.
Qed.

(** ** The desired-state flags *)

Definition want_flags (v : svc) : bool * bool := (flagwant v, flagwantup v).

(** [m] leaves the desired state of both services alone. *)
Abbreviation keeps_want :=
  (keeps (fun w => (want_flags (svcmain (w_sup w)), want_flags (svclog (w_sup w))))).

Lemma keeps_want_upd i f : (forall v, want_flags (f v) = want_flags v) -> keeps_want (upd_svc i f).
Proof. intros Hf b w <-. destruct i; simpl; by rewrite Hf. Qed.

Lemma keeps_want_modify f :
  (forall s, svcmain (f s) = svcmain s /\ svclog (f s) = svclog s) -> keeps_want (modify_sup f).
Proof. intros Hf b w <-. simpl. by destruct (Hf (w_sup w)) as [-> ->]. Qed.

Lemma keeps_want_sup {A} (m : M A) : keeps_sup m -> keeps_want m.
Proof. intros H b w <-. by rewrite (keeps_sup_exec m). Qed.

#[export] Hint Resolve keeps_want_upd keeps_want_modify keeps_want_sup : sv.
#[export] Hint Extern 1 (forall v, want_flags _ = want_flags v) => reflexivity : sv.
#[export] Hint Extern 1 (forall s, svcmain _ = svcmain s /\ svclog _ = svclog s) =>
  (intros [];  split; reflexivity) : sv.

Lemma forkexecve_want svc argv fd : keeps_want (forkexecve svc argv fd).
Proof. unfold forkexecve. keeps_solve. Qed.

Lemma pidchange_want i n c p : keeps_want (pidchange i n c p).
Proof. unfold pidchange. keeps_solve. Qed.

#[export] Hint Resolve forkexecve_want pidchange_want : sv.

Lemma trystart_launch_want i argv fd : keeps_want (trystart_launch i argv fd).
Proof. unfold trystart_launch. keeps_solve. Qed.

Lemma trystart_log_want : keeps_want (trystart Log).
Proof. unfold trystart. keeps_solve. apply trystart_launch_want. Qed.

Lemma trystop_want i : keeps_want (trystop i).
Proof. unfold trystop. keeps_solve. Qed.

Lemma stopsvc_want i g : keeps_want (stopsvc i g).
Proof. unfold stopsvc. keeps_solve. Qed.

#[export] Hint Resolve trystart_launch_want trystart_log_want trystop_want stopsvc_want : sv.

(** [trystart] of the main service keeps the desired state when a "run"
    file exists: only a missing "run" clears [flagwant]. *)
Lemma trystart_main_want w :
  pos_nextpid (w_os w) -> stat_exists_k (file_kind (w_os w) "run") <> 0 ->
  want_flags (svcmain (w_sup (exec (trystart Main) w))) = want_flags (svcmain (w_sup w)).
Proof.
  intros Hn Hr. rewrite sup_trystart_main by done. simpl.
  rewrite (bool_decide_false (_ = 0)), andb_false_r by done.
  by destruct (fork_fails (w_os w)).
Qed.

(** ** Signalling an orphaned main service *)

(** C30: once the main service is orphaned (its first process has exited
    and its descendants are reaped as a group), a command addressed to the
    single process ([groupflag] 1) sends nothing, and only a command
    addressed to the process group ([groupflag] -1) is delivered, to the
    group [-pid]. The spec describes the opposite rule (skip delivery to a
    group target when Orphaned). *)
Theorem killsvc_orphanage i sig w :
  let v := svc_of i (w_sup w) in
  pid v <> 0 -> flagstatus v = svstatus_orphanage ->
  exec (killsvc i 1 sig) w = w /\
  exec (killsvc i (-1) sig) w = mk_world (w_sup w) (exec (sys_kill (- pid v) sig) (w_os w)).
Proof.
  intros v Hp Ho. unfold killsvc. autorewrite with sv_run. fold v.
  rewrite (bool_decide_true (pid v <> 0)), Ho, (bool_decide_false (svstatus_orphanage <> _))
    by (try done; intros H; by apply H).
  simpl. split; [done|]. by replace (pid v * -1) with (- pid v) by lia.
Qed.

(** ** A concrete world for the witnesses: a service directory with an
    executable "run" and no "start", a fresh supervisor. *)
Definition ex_os : os :=
  mk_os (<["run" := FReg true]> ∅) ∅ 100 50 [] (mk_taia 1000 0 0) [] [] [] 1 0 0 [].

Definition ex_world : world :=
  mk_world (mk_sup svcmain_init svclog_init false false true None false) ex_os.

Lemma trystart_main_sup_witness :
  0 < os_nextpid (w_os ex_world) /\
  w_sup (exec (trystart Main) ex_world) =
    mk_sup (mk_svc 100 svstatus_running true true false (mk_taia 1000 0 0) false)
      svclog_init false false false (Some "./run") false.
Proof.
  split; [reflexivity|].
  rewrite (trystart_main_sup ex_world ltac:(reflexivity)). vm_compute. reflexivity.
Defined.

(** A main service whose first process has exited in orphanage mode. *)
Definition ex_orphan_world : world :=
  mk_world (mk_sup (mk_svc 100 svstatus_orphanage true true false taia_zero false)
              svclog_init false true false (Some "./run") false) ex_os.

Lemma killsvc_orphanage_witness :
  pid (svc_of Main (w_sup ex_orphan_world)) <> 0 /\
  flagstatus (svc_of Main (w_sup ex_orphan_world)) = svstatus_orphanage /\
  exec (killsvc Main 1 SIGTERM) ex_orphan_world = ex_orphan_world /\
  exec (killsvc Main (-1) SIGTERM) ex_orphan_world =
    mk_world (w_sup ex_orphan_world) (exec (sys_kill (-100) SIGTERM) ex_os).
Proof.
  assert (H1 : pid (svc_of Main (w_sup ex_orphan_world)) <> 0) by (simpl; lia).
  assert (H2 : flagstatus (svc_of Main (w_sup ex_orphan_world)) = svstatus_orphanage)
    by reflexivity.
  split; [exact H1|]. split; [exact H2|].
  exact (killsvc_orphanage Main SIGTERM ex_orphan_world H1 H2).
Defined.

End Service.
