(* ===== verification/Reaper.v ===== *)
(** * The reaper: reconciling child exits with the desired state

    [reaper] (supervise.c lines 276-326). Each pass of its [for (;;)] loop
    either reaps a terminated child and goes on ([continue]), or handles
    the exit of the main or log service and stops ([break]), or stops
    because no child has terminated. The loop is [reaper_loop] with fuel;
    [reaper] runs it with one more unit of fuel than there are children,
    which [reaper_terminates] shows is always enough.

    The wait-status macros of wait.h (not under src/) follow the spec:
    a process was killed when the low seven bits of the status are not
    zero; its exit code is the next byte; the code reported for a killed
    process is its terminating signal. *)

From S2P Require Import Prelude Status Os Launch Service.

Open Scope Z_scope.

Module Reaper.
Import Status Os Launch Service.

Definition wait_crashed (w : Z) : Z := Z.land w 127.
Definition wait_exitcode (w : Z) : Z := Z.land (Z.shiftr w 8) 255.
Definition wait_stopsig (w : Z) : Z := Z.land w 127.

(** What one pass of the loop ends with. *)
Inductive loopctl := RContinue | RBreak.

(** The status an exit leaves the service in (lines 305-313), [None]
    when [flagstatus] is left as it is. *)
Definition exit_class (i : svcid) (v : svc) (wstat : Z) : option svstatus :=
  let starting := bool_decide (i = Main) && bool_decide (flagstatus v = svstatus_starting) in
  let crashed := bool_decide (wait_crashed wstat <> 0) in
  if (starting && (crashed || bool_decide (wait_exitcode wstat <> 0)))
     || (negb crashed && bool_decide (wait_exitcode wstat = 100)) then Some svstatus_failed
  else if starting then None
  else if negb (flagwant v) || negb (flagwantup v) then Some svstatus_stopped
  else None.

(** Lines 304-313: the pid is cleared and the exit classified; a failure
    also clears [flagwantup]. *)
Definition reaper_classify (i : svcid) (wstat : Z) : M () :=
  upd_svc i (set_pid 0);;
  s ← get_svc i;
  match exit_class i s wstat with
  | Some svstatus_failed =>
      upd_svc i (set_flagwantup false);;
      upd_svc i (set_flagstatus svstatus_failed)
  | Some st => upd_svc i (set_flagstatus st)
  | None => mret ()
  end.

(** Lines 314-317: notification ("killed" with the signal or "exit" with
    the exit code, and the reaped pid), publication; the first run is
    over. *)
Definition reaper_notify (i : svcid) (p wstat : Z) : M () :=
  let crashed := bool_decide (wait_crashed wstat <> 0) in
  pidchange i (Some (if crashed then "killed" else "exit"))
    (if crashed then wait_stopsig wstat else wait_exitcode wstat) p;;
  modify_sup (set_firstrun false).

(** Lines 304-317. *)
Definition reaper_exit (i : svcid) (p wstat : Z) : M () :=
  reaper_classify i wstat;;
  reaper_notify i p wstat.

(** Lines 318-323: restart a service that is wanted up, or whose start
    phase just completed, unless exiting; stop any other one that has not
    failed. *)
Definition reaper_decide (i : svcid) : M () :=
  s ← get_svc i;
  ex ← gets_sup flagexit;
  if (flagwant s && flagwantup s)
     || (bool_decide (i = Main) && bool_decide (flagstatus s = svstatus_starting)) then
    st_when (negb ex) (trystart i)
  else
    st_when (bool_decide (flagstatus s <> svstatus_failed)) (trystop i).

(** The handling of an exit attributed to service [i] (lines 304-323):
    [p] is the reaped pid, [wstat] its wait status. *)
Definition reaper_handle (i : svcid) (p wstat : Z) : M () :=
  reaper_exit i p wstat;;
  reaper_decide i.

(** The service an exit is attributed to (lines 296-303): the main
    service for its pid, and also when [wait] reports that there are no
    children at all; the log service for its pid. *)
Definition attribute (m l p : Z) (err : option errno) : option svcid :=
  if bool_decide (p = m) || (bool_decide (p = -1) && bool_decide (err = Some ECHILD)) then Some Main
  else if bool_decide (p = l) then Some Log
  else None.

(** Lines 283-286: an orphaned main service's process group is waited
    for first. [wstat] is a local variable of the loop body, written only
    by a [waitpid] that reaps a child; otherwise it holds the indeterminate
    value [os_wstat]. *)
Definition reaper_wait_group : M (Z * Z * option errno) :=
  m ← get_svc Main;
  if decide (flagstatus m = svstatus_orphanage) then sys (waitpid_group (- pid m))
  else ws ← sys (st_gets os_wstat); mret (0, ws, None).

(** Lines 290-324: what is done with the result of the wait. *)
Definition reaper_dispatch (p wstat : Z) (err : option errno) : M loopctl :=
  if decide (p = 0) then mret RBreak
  else
    orph ← gets_sup flagorphanage;
    m ← get_svc Main;
    if orph && bool_decide (p = pid m) then
      upd_svc Main (set_flagstatus svstatus_orphanage);;
      announce;;
      mret RContinue
    else
      l ← get_svc Log;
      match attribute (pid m) (pid l) p err with
      | Some i => reaper_handle i p wstat;; mret RBreak
      | None =>
          if bool_decide (p = -1) && bool_decide (err <> Some EINTR) then mret RBreak
          else mret RContinue
      end.

(** One pass of the loop body (lines 279-324). *)
Definition reaper_body : M loopctl :=
  '(p1, ws1, e1) ← reaper_wait_group;
  if decide (p1 > 0) then mret RContinue
  else
    '(p, wstat, err) ← (if decide (p1 = 0) then sys wait_nohang else mret (p1, ws1, e1));
    reaper_dispatch p wstat err.

(** [true] when the loop left by [break], [false] when the fuel ran out. *)
Fixpoint reaper_loop (fuel : nat) : M bool :=
  match fuel with
  | O => mret false
  | S n =>
      c ← reaper_body;
      match c with
      | RContinue => reaper_loop n
      | RBreak => mret true
      end
  end.

Definition reaper_fuel (w : world) : nat := S (size (os_procs (w_os w))).

Definition reaper : M () := fun w => ((), exec (reaper_loop (reaper_fuel w)) w).

(** ** Classifying an exit *)

Definition apply_exit_class (i : svcid) (wstat : Z) (v : svc) : svc :=
  let v := set_pid 0 v in
  match exit_class i v wstat with
  | Some svstatus_failed => set_flagstatus svstatus_failed (set_flagwantup false v)
  | Some st => set_flagstatus st v
  | None => v
  end.

Lemma exec_reaper_classify i wstat w :
  exec (reaper_classify i wstat) w =
    mk_world (map_svc i (apply_exit_class i wstat) (w_sup w)) (w_os w).
Proof.
  unfold reaper_classify, apply_exit_class. autorewrite with sv_run. simpl.
  rewrite svc_of_map_svc_eq. destruct w as [s o], i; simpl;
  destruct (exit_class _ _ _) as [[]|]; autorewrite with sv_run; simpl;
    destruct s; reflexivity.
Qed.

Lemma sup_reaper_exit i p wstat w :
  w_sup (exec (reaper_exit i p wstat) w) =
    set_firstrun false
      (map_svc i (fun v => set_when (os_clock (w_os w)) (apply_exit_class i wstat v)) (w_sup w)).
Proof.
  unfold reaper_exit, reaper_notify. autorewrite with sv_run. rewrite exec_reaper_classify.
  rewrite sup_pidchange. simpl. destruct i; reflexivity.
Qed.

Lemma exit_class_100 i v wstat :
  wait_crashed wstat = 0 -> wait_exitcode wstat = 100 ->
  exit_class i v wstat = Some svstatus_failed.
Proof.
  intros Hc He. unfold exit_class.
  rewrite Hc, He, (bool_decide_false (0 <> 0)), (bool_decide_true (100 = 100)) by lia.
  by rewrite orb_true_r.
Qed.

(** [reaper_decide] does nothing for a failed service that is not wanted
    up. *)
Lemma exec_reaper_decide_failed i w :
  flagstatus (svc_of i (w_sup w)) = svstatus_failed ->
  flagwantup (svc_of i (w_sup w)) = false ->
  exec (reaper_decide i) w = w.
Proof.
  intros Hst Hup. unfold reaper_decide. autorewrite with sv_run.
  rewrite Hst, Hup, andb_false_r, (bool_decide_false (svstatus_failed = svstatus_starting)),
    andb_false_r by done. done.
Qed.

(** C2: an exit with code 100 (not a crash) always leaves the service
    Failed with [flagwantup] cleared and no process, whatever its previous
    state and desired state: no restart and no stop script follow. *)
Theorem reaper_handle_exit100 i p wstat w :
  wait_crashed wstat = 0 -> wait_exitcode wstat = 100 ->
  let v := svc_of i (w_sup (exec (reaper_handle i p wstat) w)) in
  flagstatus v = svstatus_failed /\ flagwantup v = false /\ pid v = 0.
Proof.
  intros Hc He v. unfold v, reaper_handle. rewrite exec_bind.
  assert (Hv : svc_of i (w_sup (exec (reaper_exit i p wstat) w)) =
          set_when (os_clock (w_os w))
            (set_flagstatus svstatus_failed (set_flagwantup false (set_pid 0 (svc_of i (w_sup w)))))).
  { rewrite sup_reaper_exit. destruct i; simpl; unfold apply_exit_class;
      by rewrite exit_class_100. }
  rewrite exec_reaper_decide_failed; rewrite Hv; done.
Qed.

Lemma reaper_handle_exit100_witness :
  wait_crashed 25600 = 0 /\ wait_exitcode 25600 = 100 /\
  flagstatus (svc_of Main (w_sup (exec (reaper_handle Main 100 25600) ex_world))) = svstatus_failed.
Proof.
  assert (H1 : wait_crashed 25600 = 0) by reflexivity.
  assert (H2 : wait_exitcode 25600 = 100) by reflexivity.
  split; [exact H1|]. split; [exact H2|].
  exact (proj1 (reaper_handle_exit100 Main 100 25600 ex_world H1 H2)).
Defined.

(** ** Termination of the loop *)

(** The pids of the children are positive (an invariant of [Loop]). *)
Definition pids_pos (o : os) : Prop := map_Forall (fun k _ => 0 < k) (os_procs o).

(** What a [waitpid] did: reaped a child (the table shrinks), found no
    terminated child, or found no child. *)
Definition wait_outcome (o o' : os) (p : Z) (e : option errno) : Prop :=
  (0 < p /\ e = None /\ (size (os_procs o') < size (os_procs o))%nat /\ pids_pos o' /\
     os_procs o !! p <> None) \/
  (p = 0 /\ e = None /\ o' = o) \/
  (p = -1 /\ e = Some ECHILD /\ o' = o).

Lemma waitpid_outcome P o :
  pids_pos o ->
  wait_outcome o (exec (waitpid_where P) o) (eval (waitpid_where P) o).1.1
    (eval (waitpid_where P) o).2.
Proof.
  intros Hpos. pose proof (waitpid_where_cases P o) as Hc.
  destruct (eval (waitpid_where P) o) as [[p ws] e]; simpl.
  destruct Hc as [(g & w0 & Hl & He & Hd & _)|[(-> & -> & ->)|(-> & -> & ->)]];
    [left|right; left|right; right]; auto.
  rewrite Hd. split; [exact (Hpos _ _ Hl)|]. split; [done|].
  rewrite map_size_delete_Some by eauto. split; [|split].
  - assert (size (os_procs o) <> 0%nat) by (rewrite map_size_non_empty_iff; intros E;
      rewrite E, lookup_empty in Hl; done). lia.
  - unfold pids_pos. rewrite Hd. by apply map_Forall_delete.
  - by rewrite Hl.
Qed.

Lemma waitpid_outcome' P o p ws e o' :
  waitpid_where P o = (p, ws, e, o') -> pids_pos o -> wait_outcome o o' p e.
Proof.
  intros E Hpos. pose proof (waitpid_outcome P o Hpos) as H.
  unfold exec, eval in H. by rewrite E in H.
Qed.

Lemma wait_group_outcome w :
  pids_pos (w_os w) ->
  w_sup (exec reaper_wait_group w) = w_sup w /\
  wait_outcome (w_os w) (w_os (exec reaper_wait_group w))
    (eval reaper_wait_group w).1.1 (eval reaper_wait_group w).2.
Proof.
  intros Hpos. unfold reaper_wait_group. autorewrite with sv_run. simpl.
  case_decide; autorewrite with sv_run; simpl.
  - split; [done|]. unfold waitpid_group. by apply waitpid_outcome.
  - split; [done|]. right; left. by destruct w.
Qed.

Lemma wait_nohang_outcome w :
  pids_pos (w_os w) ->
  w_sup (exec (sys wait_nohang) w) = w_sup w /\
  wait_outcome (w_os w) (w_os (exec (sys wait_nohang) w))
    (eval (sys wait_nohang) w).1.1 (eval (sys wait_nohang) w).2.
Proof.
  intros Hpos. autorewrite with sv_run. simpl. split; [done|].
  by apply waitpid_outcome.
Qed.

(** [reaper_dispatch] goes on with the loop only for a pid that is neither
    0 nor -1, and then leaves the process table and the main pid alone. *)
Lemma reaper_dispatch_continue p ws e w :
  pid (svcmain (w_sup w)) <> -1 -> e <> Some EINTR ->
  eval (reaper_dispatch p ws e) w = RContinue ->
  p <> 0 /\ p <> -1 /\
  os_procs (w_os (exec (reaper_dispatch p ws e) w)) = os_procs (w_os w) /\
  pid (svcmain (w_sup (exec (reaper_dispatch p ws e) w))) = pid (svcmain (w_sup w)).
Proof.
  intros Hm He. unfold reaper_dispatch.
  case_decide as Hp0; [done|]. autorewrite with sv_run. simpl.
  destruct (flagorphanage (w_sup w) && bool_decide (p = pid (svcmain (w_sup w)))) eqn:Ho.
  - apply andb_prop in Ho as [_ ?%bool_decide_eq_true]. subst p.
    intros _. autorewrite with sv_run. simpl.
    rewrite announce_procs, keeps_sup_exec by eauto with sv. simpl. by destruct w.
  - autorewrite with sv_run. simpl.
    destruct (attribute _ _ _ _).
    + by autorewrite with sv_run.
    + destruct (bool_decide (p = -1) && bool_decide (e <> Some EINTR)) eqn:Hb; [done|].
      intros _. apply andb_false_iff in Hb as [Hb|Hb]; apply bool_decide_eq_false in Hb;
        [|by destruct Hb]. done.
Qed.

(** Each pass that goes on with the loop has reaped a child: the process
    table shrinks, its pids stay positive, and the main pid is unchanged. *)
Lemma reaper_body_continue w :
  pids_pos (w_os w) -> pid (svcmain (w_sup w)) <> -1 ->
  eval reaper_body w = RContinue ->
  (size (os_procs (w_os (exec reaper_body w))) < size (os_procs (w_os w)))%nat /\
  pids_pos (w_os (exec reaper_body w)) /\
  pid (svcmain (w_sup (exec reaper_body w))) = pid (svcmain (w_sup w)).
Proof.
  intros Hpos Hm. unfold reaper_body. rewrite eval_bind, exec_bind.
  destruct (wait_group_outcome w Hpos) as [Hs1 Hw1].
  set (w1 := exec reaper_wait_group w) in *.
  destruct (eval reaper_wait_group w) as [[p1 ws1] e1]. simpl in Hw1 |- *.
  destruct Hw1 as [(Hp1 & -> & Hsz & Hpos1 & _)|[(-> & -> & Ho)|(-> & -> & Ho)]].
  - rewrite decide_True by lia. intros _. rewrite exec_ret, Hs1. auto.
  - rewrite decide_False by lia. rewrite decide_True by done.
    rewrite eval_bind, exec_bind.
    assert (Hpos1 : pids_pos (w_os w1)) by (rewrite Ho; done).
    destruct (wait_nohang_outcome w1 Hpos1) as [Hs2 Hw2].
    set (w2 := exec (sys wait_nohang) w1) in *.
    destruct (eval (sys wait_nohang) w1) as [[p ws] e]. simpl in Hw2 |- *.
    intros Hc. rewrite <- Hs1, <- Hs2 in Hm.
    destruct (reaper_dispatch_continue p ws e w2 Hm) as (Hp0 & Hpm & Hpr & Hpid); [|done|].
    { destruct Hw2 as [(_ & -> & _)|[(_ & -> & _)|(_ & -> & _)]]; done. }
    rewrite Hpr, Hpid, Hs2, Hs1. unfold pids_pos. rewrite Hpr.
    destruct Hw2 as [(_ & _ & Hsz & Hpos2 & _)|[(? & _)|(? & _)]]; [|done|done].
    rewrite Ho in Hsz. auto.
  - rewrite decide_False by lia. rewrite decide_False by lia.
    rewrite eval_bind, exec_bind, eval_ret, exec_ret. simpl.
    intros Hc. rewrite <- Hs1 in Hm.
    destruct (reaper_dispatch_continue (-1) ws1 (Some ECHILD) w1 Hm) as (_ & Hpm & _);
      done.
Qed.

Lemma reaper_loop_enough_fuel n w :
  pids_pos (w_os w) -> pid (svcmain (w_sup w)) <> -1 ->
  (size (os_procs (w_os w)) < n)%nat ->
  eval (reaper_loop n) w = true.
Proof.
  revert w; induction n as [|n IH]; intros w Hpos Hm Hn; [lia|].
  simpl. rewrite eval_bind.
  destruct (eval reaper_body w) eqn:Hc; [|done].
  destruct (reaper_body_continue w Hpos Hm Hc) as (Hsz & Hpos' & Hm').
  apply IH; [done | by rewrite Hm' | lia].
Qed.

(** ** A pass with no child at all *)

Lemma waitpid_where_none P o :
  os_procs o = ∅ -> waitpid_where P o = (-1, os_wstat o, Some ECHILD, o).
Proof. intros E. unfold waitpid_where, find_zombie. by rewrite E, map_to_list_empty. Qed.

Lemma reaper_body_no_children w :
  os_procs (w_os w) = ∅ -> flagstatus (svcmain (w_sup w)) <> svstatus_orphanage ->
  pid (svcmain (w_sup w)) <> -1 ->
  reaper_body w = (RBreak, exec (reaper_handle Main (-1) (os_wstat (w_os w))) w).
Proof.
  intros E Ho Hm. unfold reaper_body, reaper_wait_group.
  rewrite !st_bind_run. cbn [get_svc gets_sup st_gets fst snd svc_of].
  rewrite decide_False by done. rewrite !st_bind_run. cbn [sys st_gets fst snd].
  rewrite st_ret_run. cbn [fst snd]. rewrite decide_False, decide_True by lia.
  unfold sys, wait_nohang. rewrite st_bind_run. cbn [fst snd].
  rewrite waitpid_where_none by done. cbn [fst snd mret st_ret].
  unfold reaper_dispatch. rewrite decide_False by lia.
  rewrite !st_bind_run. cbn [get_svc gets_sup st_gets fst snd svc_of w_sup].
  rewrite (bool_decide_eq_false_2 (-1 = pid _)), andb_false_r by congruence.
  rewrite !st_bind_run. cbn [get_svc gets_sup st_gets fst snd svc_of w_sup].
  unfold attribute. rewrite (bool_decide_eq_true_2 (-1 = -1)), (bool_decide_eq_true_2 (Some ECHILD = _)),
    orb_true_r by done.
  rewrite st_bind_run. destruct w. reflexivity.
Qed.

(** No child has terminated: [find_zombie] finds nothing. *)
Definition all_running (o : os) : Prop :=
  map_Forall (fun _ pr => pr_state pr = PRunning) (os_procs o).

Lemma find_zombie_running P o : all_running o -> find_zombie P (os_procs o) = None.
Proof.
  unfold all_running, find_zombie. rewrite map_Forall_to_list.
  induction (map_to_list (os_procs o)) as [|[k pr] l IH]; intros Hl; [done|].
  inversion Hl as [|? ? Hk Hl']; subst. simpl in Hk |- *. rewrite Hk. by apply IH.
Qed.

Lemma wait_nohang_running o :
  all_running o -> os_procs o <> ∅ -> wait_nohang o = (0, os_wstat o, None, o).
Proof.
  intros Hr Hne. unfold wait_nohang, waitpid_where. rewrite find_zombie_running by done.
  rewrite decide_False; [done|]. intros Hf. apply Hne, map_empty. intros k.
  destruct (os_procs o !! k) as [pr|] eqn:E; [exfalso|done].
  eapply (filter_nil_not_elem_of _ _ (k, pr) Hf); [done | by apply elem_of_map_to_list].
Qed.

Lemma reaper_body_idle w :
  all_running (w_os w) -> os_procs (w_os w) <> ∅ ->
  flagstatus (svcmain (w_sup w)) <> svstatus_orphanage ->
  reaper_body w = (RBreak, w).
Proof.
  intros Hr Hne Ho. unfold reaper_body, reaper_wait_group.
  rewrite !st_bind_run. cbn [get_svc gets_sup st_gets fst snd svc_of].
  rewrite decide_False by done. rewrite !st_bind_run. cbn [sys st_gets fst snd].
  rewrite st_ret_run. cbn [fst snd]. rewrite decide_False, decide_True by lia.
  unfold sys. rewrite st_bind_run. cbn [fst snd].
  rewrite wait_nohang_running by done. cbn [fst snd mret st_ret].
  unfold reaper_dispatch. rewrite decide_True by done. by destruct w.
Qed.

(** ** A pass that finds a terminated child *)

(** Some service records the pid of a terminated child. *)
Definition slot_zombie (w : world) : Prop :=
  exists i g ws, pid (svc_of i (w_sup w)) <> 0 /\
    os_procs (w_os w) !! pid (svc_of i (w_sup w)) = Some (mk_proc g (PZombie ws)).

Lemma find_zombie_some P (m : gmap Z proc) p g ws :
  m !! p = Some (mk_proc g (PZombie ws)) -> P (mk_proc g (PZombie ws)) = true ->
  find_zombie P m <> None.
Proof.
  unfold find_zombie. intros Hl HP. apply elem_of_map_to_list in Hl.
  induction (map_to_list m) as [|[k pr] l IH]; [by apply not_elem_of_nil in Hl|].
  apply elem_of_cons in Hl as [Hl|Hl]; simpl.
  - injection Hl as <- <-. simpl. by rewrite HP.
  - destruct (pr_state pr); [by apply IH|]. destruct (P pr); [done | by apply IH].
Qed.

Lemma attribute_cases m l p e :
  match attribute m l p e with
  | Some Main => p = m \/ p = -1
  | Some Log => p <> m /\ p = l
  | None => p <> m /\ p <> l
  end.
Proof.
  unfold attribute. repeat case_bool_decide; simpl; auto; naive_solver.
Qed.

(** The world once [waitpid] has reaped [q] with status [ws]. *)
Definition reaped (w : world) (q ws : Z) : world :=
  mk_world (w_sup w) (set_os_wstat ws (set_os_procs (delete q (os_procs (w_os w))) (w_os w))).

(** Outside orphanage mode, a pass that finds the terminated child [q]
    reaps it, then handles it as an exit of the service it is attributed
    to and leaves the loop, or goes on when no service records it. *)
Lemma reaper_body_zombie w q ws :
  find_zombie (fun _ => true) (os_procs (w_os w)) = Some (q, ws) -> 0 < q ->
  flagorphanage (w_sup w) = false -> flagstatus (svcmain (w_sup w)) <> svstatus_orphanage ->
  reaper_body w =
    match attribute (pid (svcmain (w_sup w))) (pid (svclog (w_sup w))) q None with
    | Some j => (RBreak, exec (reaper_handle j q ws) (reaped w q ws))
    | None => (RContinue, reaped w q ws)
    end.
Proof.
  intros E Hq Ho Hst. unfold reaper_body, reaper_wait_group.
  rewrite !st_bind_run. cbn [get_svc gets_sup st_gets fst snd svc_of].
  rewrite decide_False by done. rewrite !st_bind_run. cbn [sys st_gets fst snd].
  rewrite st_ret_run. cbn [fst snd]. rewrite decide_False, decide_True by lia.
  unfold sys. rewrite st_bind_run. cbn [fst snd w_os w_sup].
  assert (Hw : wait_nohang (w_os w) =
            (q, ws, None, set_os_wstat ws (set_os_procs (delete q (os_procs (w_os w))) (w_os w))))
    by (unfold wait_nohang, waitpid_where; by rewrite E).
  rewrite Hw. cbn [fst snd]. fold (reaped w q ws).
  unfold reaper_dispatch. rewrite decide_False by lia. rewrite !st_bind_run.
  cbn [get_svc gets_sup st_gets fst snd svc_of reaped w_sup]. rewrite Ho. cbn [andb].
  rewrite st_bind_run. cbn [get_svc gets_sup st_gets fst snd svc_of reaped w_sup].
  destruct (attribute _ _ _ _); [by rewrite st_bind_run|].
  by rewrite (bool_decide_false (q = -1)) by lia.
Qed.

(** C26: when the supervisor has no child at all, [wait_nohang] fails with
    ECHILD and the reaper treats this as an exit of the main service: a
    whole reaper pass is [reaper_handle Main] with the reaped pid -1 and the
    indeterminate [wstat] of the loop body (classification, notification
    with pid -1, publication, and a restart or stop). This is also how a
    start that failed to fork is retried. *)
Theorem reaper_no_children w :
  os_procs (w_os w) = ∅ -> flagstatus (svcmain (w_sup w)) <> svstatus_orphanage ->
  pid (svcmain (w_sup w)) <> -1 ->
  reaper w = ((), exec (reaper_handle Main (-1) (os_wstat (w_os w))) w).
Proof.
  intros E Ho Hm. unfold reaper, reaper_fuel. rewrite E, map_size_empty.
  unfold exec at 1. simpl reaper_loop. rewrite st_bind_run, reaper_body_no_children by done.
  done.
Qed.

(** C27: when children exist and none has terminated, a reaper pass changes
    nothing: in particular a main service whose start failed to fork is
    not retried while its log service runs. *)
Theorem reaper_idle w :
  all_running (w_os w) -> os_procs (w_os w) <> ∅ ->
  flagstatus (svcmain (w_sup w)) <> svstatus_orphanage ->
  reaper w = ((), w).
Proof.
  intros Hr Hne Ho. unfold reaper. unfold exec at 1.
  destruct (reaper_fuel w) as [|n] eqn:Ef; [discriminate|].
  simpl reaper_loop. by rewrite st_bind_run, reaper_body_idle.
Qed.

(** C18: the reaper's [for (;;)] loop always leaves by [break]: every pass
    that continues reaps a child, so one more pass than there are children
    is enough fuel (given positive child pids and a main pid other than -1,
    which hold in every reachable state). *)
Theorem reaper_terminates w :
  pids_pos (w_os w) -> pid (svcmain (w_sup w)) <> -1 ->
  eval (reaper_loop (reaper_fuel w)) w = true.
Proof. intros. apply reaper_loop_enough_fuel; unfold reaper_fuel; auto. Qed.

Lemma reaper_terminates_witness :
  pids_pos (w_os ex_world) /\ pid (svcmain (w_sup ex_world)) <> -1 /\
  eval (reaper_loop (reaper_fuel ex_world)) ex_world = true.
Proof.
  assert (Hpos : pids_pos (w_os ex_world)) by apply map_Forall_empty.
  assert (Hm : pid (svcmain (w_sup ex_world)) <> -1) by (simpl; lia).
  split; [exact Hpos|]. split; [exact Hm|]. exact (reaper_terminates ex_world Hpos Hm).
Defined.

Lemma reaper_no_children_witness :
  os_procs (w_os ex_world) = ∅ /\ flagstatus (svcmain (w_sup ex_world)) <> svstatus_orphanage /\
  pid (svcmain (w_sup ex_world)) <> -1 /\
  reaper ex_world = ((), exec (reaper_handle Main (-1) (os_wstat (w_os ex_world))) ex_world).
Proof.
  assert (H1 : os_procs (w_os ex_world) = ∅) by reflexivity.
  assert (H2 : flagstatus (svcmain (w_sup ex_world)) <> svstatus_orphanage) by discriminate.
  assert (H3 : pid (svcmain (w_sup ex_world)) <> -1) by (simpl; lia).
  split; [exact H1|]. split; [exact H2|]. split; [exact H3|].
  exact (reaper_no_children ex_world H1 H2 H3).
Defined.

(** The main service's start failed to fork while the log service (pid
    101) runs. *)
Definition ex_log_world : world :=
  mk_world (mk_sup (set_flagstatus svstatus_running svcmain_init)
              (mk_svc 101 svstatus_running true true false taia_zero false)
              false false false (Some "./run") true)
    (set_os_procs {[101 := mk_proc 101 PRunning]} ex_os).

Lemma reaper_idle_witness :
  all_running (w_os ex_log_world) /\ os_procs (w_os ex_log_world) <> ∅ /\
  flagstatus (svcmain (w_sup ex_log_world)) <> svstatus_orphanage /\
  reaper ex_log_world = ((), ex_log_world).
Proof.
  assert (H1 : all_running (w_os ex_log_world)) by (apply map_Forall_singleton; reflexivity).
  assert (H2 : os_procs (w_os ex_log_world) <> ∅) by apply map_non_empty_singleton.
  assert (H3 : flagstatus (svcmain (w_sup ex_log_world)) <> svstatus_orphanage) by discriminate.
  split; [exact H1|]. split; [exact H2|]. split; [exact H3|].
  exact (reaper_idle ex_log_world H1 H2 H3).
Defined.

(** C31: in orphanage mode, when the reaper collects the main service's
    process, it keeps the pid, marks the service Orphaned and goes on
    waiting: the pid now names a process that is no longer a child. *)
Theorem orphan_keeps_pid p ws e w :
  flagorphanage (w_sup w) = true -> p = pid (svcmain (w_sup w)) -> p <> 0 ->
  eval (reaper_dispatch p ws e) w = RContinue /\
  w_sup (exec (reaper_dispatch p ws e) w) =
    map_svc Main (set_flagstatus svstatus_orphanage) (w_sup w).
Proof.
  intros Ho -> Hp. unfold reaper_dispatch. rewrite decide_False by done.
  autorewrite with sv_run. cbn [svc_of]. rewrite Ho, bool_decide_eq_true_2 by done.
  cbn [andb]. autorewrite with sv_run. split; [done|].
  by rewrite keeps_sup_exec by eauto with sv.
Qed.

Lemma orphan_keeps_pid_witness :
  flagorphanage (w_sup ex_orphan_world) = true /\ 100 = pid (svcmain (w_sup ex_orphan_world)) /\
  eval (reaper_dispatch 100 0 None) ex_orphan_world = RContinue.
Proof.
  assert (H1 : flagorphanage (w_sup ex_orphan_world) = true) by reflexivity.
  assert (H2 : 100 = pid (svcmain (w_sup ex_orphan_world))) by reflexivity.
  split; [exact H1|]. split; [exact H2|].
  exact (proj1 (orphan_keeps_pid 100 0 None ex_orphan_world H1 H2 ltac:(lia))).
Defined.

End Reaper.
