(* ===== verification/Controller.v ===== *)
(** * The controller: one-byte commands from the control FIFO

    [controller] (supervise.c lines 328-396) reads the control FIFO byte by
    byte until it is empty, carrying across bytes the selected service
    ('l' main, 'L' log) and the signalling mode ('=' the process, '+' its
    process group). [command] is the body of the [switch]; [controller_loop]
    is the [while] loop with fuel, and [controller] runs it with one more
    unit of fuel than there are bytes in the FIFO. [run_commands], the
    commands folded over the FIFO's contents, is the reference the loop is
    proved equal to. *)

From S2P Require Import Prelude Status Os Launch Service.

Open Scope Z_scope.

Module Controller.
Import Status Os Launch Service.

(** The signal a command letter sends (lines 372-380). *)
Definition signal_of_cmd (c : ascii) : option signal :=
  match c with
  | "a"%char => Some SIGALRM
  | "h"%char => Some SIGHUP
  | "k"%char => Some SIGKILL
  | "t"%char => Some SIGTERM
  | "i"%char => Some SIGINT
  | "q"%char => Some SIGQUIT
  | "1"%char => Some SIGUSR1
  | "2"%char => Some SIGUSR2
  | "w"%char => Some SIGWINCH
  | _ => None
  end.

(** The state carried across bytes: [svc] and [killgroup]. *)
Record selection := mk_sel { sel_svc : svcid; sel_killgroup : Z }.

Definition sel_init : selection := mk_sel Main 1.

(** One iteration of the [switch] (lines 335-395). *)
Definition command (c : ascii) (st : selection) : M selection :=
  let i := sel_svc st in
  let kg := sel_killgroup st in
  match c with
  | "+"%char => mret (mk_sel i (-1))
  | "="%char => mret (mk_sel i 1)
  | "L"%char => mret (mk_sel Log kg)
  | "l"%char => mret (mk_sel Main kg)
  | "d"%char =>
      upd_svc i (set_flagwant true);;
      upd_svc i (set_flagwantup false);;
      s ← get_svc i;
      (if decide (pid s <> 0) then stopsvc i kg else trystop i);;
      announce;;
      mret st
  | "u"%char =>
      (if decide (i = Main) then
         m ← get_svc Main; modify_sup (set_firstrun (negb (flagwantup m)))
       else mret ());;
      upd_svc i (set_flagwant true);;
      upd_svc i (set_flagwantup true);;
      s ← get_svc i;
      st_when (bool_decide (pid s = 0)) (upd_svc i (set_flagstatus svstatus_starting));;
      announce;;
      s ← get_svc i;
      st_when (bool_decide (pid s = 0)) (trystart i);;
      mret st
  | "o"%char =>
      upd_svc i (set_flagwant false);;
      announce;;
      s ← get_svc i;
      st_when (bool_decide (pid s = 0)) (trystart i);;
      mret st
  | "p"%char =>
      upd_svc i (set_flagpaused true);;
      announce;;
      killsvc i kg SIGSTOP;;
      mret st
  | "c"%char =>
      upd_svc i (set_flagpaused false);;
      announce;;
      killsvc i kg SIGCONT;;
      mret st
  | "x"%char =>
      modify_sup (set_flagexit true);;
      announce;;
      mret st
  | c =>
      match signal_of_cmd c with
      | Some sig => killsvc i kg sig;; mret st
      | None => mret st
      end
  end.

(** [while (read(fdcontrol,&ch,1) == 1) switch (ch) ...] *)
Fixpoint controller_loop (fuel : nat) (st : selection) : M bool :=
  match fuel with
  | O => mret false
  | S n =>
      r ← sys read_control;
      match r with
      | Some c => st' ← command c st; controller_loop n st'
      | None => mret true
      end
  end.

Definition controller : M () :=
  fun w => ((), exec (controller_loop (S (length (os_control (w_os w)))) sel_init) w).

(** The reference: the commands applied in order to the bytes that were
    in the FIFO. *)
Fixpoint run_commands (cs : list ascii) (st : selection) : M selection :=
  match cs with
  | [] => mret st
  | c :: cs' => st' ← command c st; run_commands cs' st'
  end.

(** ** The loop reads the FIFO's bytes and applies them in order *)

Lemma command_ctl_free c st : ctl_free (command c st).
Proof.
  destruct c as [[] [] [] [] [] [] [] []]; unfold command; simpl; ctl_free_solve.
Qed.

Lemma run_commands_ctl_free cs st : ctl_free (run_commands cs st).
Proof.
  revert st; induction cs as [|c cs IH]; intros st; simpl; [done|].
  apply ctl_free_bind; [apply command_ctl_free | done].
Qed.

Lemma with_control_id w : with_control (os_control (w_os w)) w = w.
Proof. by destruct w as [s []]. Qed.

Lemma with_control_twice cs cs' w : with_control cs (with_control cs' w) = with_control cs w.
Proof. reflexivity. Qed.

Lemma controller_loop_run n st w :
  (length (os_control (w_os w)) < n)%nat ->
  controller_loop n st w =
    (true, exec (run_commands (os_control (w_os w)) st) (with_control [] w)).
Proof.
  revert n st w. induction n as [|n IH]; intros st w Hn; [lia|].
  destruct w as [s o]. simpl in *.
  unfold mbind, st_bind, sys, read_control. simpl.
  destruct (os_control o) as [|c cs] eqn:Hc; simpl.
  - assert (with_control [] (mk_world s o) = mk_world s o) as ->.
    { rewrite <- Hc. apply (with_control_id (mk_world s o)). }
    reflexivity.
  - change (mk_world s (set_os_control cs o)) with (with_control cs (mk_world s o)).
    rewrite command_ctl_free. rewrite IH by (simpl in Hn |- *; lia).
    simpl. rewrite exec_bind.
    change (mk_world s (set_os_control [] o)) with (with_control [] (mk_world s o)).
    rewrite (ctl_free_eval (command c st)), (ctl_free_exec (command c st))
      by apply command_ctl_free.
    by rewrite with_control_twice.
Qed.

(** C5: the controller's read loop is the commands of the FIFO applied in
    order, starting from the main service and single-process signalling:
    it consumes every byte, terminates with the FIFO empty, and the world
    it leaves is that of [run_commands] on the bytes that were read. *)
Theorem controller_run_commands w :
  controller w = ((), exec (run_commands (os_control (w_os w)) sel_init) (with_control [] w)).
Proof.
  unfold controller, exec at 1. by rewrite controller_loop_run by lia.
Qed.

(** ** Desired state under 'u' and 'd' *)

Lemma command_files c st : keeps_files (command c st).
Proof. destruct c as [[] [] [] [] [] [] [] []]; unfold command; simpl; keeps_solve. Qed.

Lemma command_npid c st : preserves (fun w => pos_nextpid (w_os w)) (command c st).
Proof. destruct c as [[] [] [] [] [] [] [] []]; unfold command; simpl; preserves_os_solve. Qed.

Lemma run_exists_after {A} (m : M A) w :
  keeps_files m ->
  stat_exists_k (file_kind (w_os (exec m w)) "run") = stat_exists_k (file_kind (w_os w) "run").
Proof. intros H. unfold file_kind. by rewrite (keeps_exec _ m w H). Qed.

(** 'd' on the selected service: wanted, and down. *)
Lemma command_d i kg w :
  eval (command "d" (mk_sel i kg)) w = mk_sel i kg /\
  want_flags (svc_of i (w_sup (exec (command "d" (mk_sel i kg)) w))) = (true, false).
Proof.
  unfold command; simpl. autorewrite with sv_run. simpl. split; [done|].
  rewrite keeps_sup_exec by eauto with sv.
  set (w1 := mk_world (map_svc i (set_flagwantup false) (map_svc i (set_flagwant true) (w_sup w)))
                      (w_os w)).
  assert (H1 : want_flags (svc_of i (w_sup w1)) = (true, false)) by (by destruct i).
  assert (Hk : keeps_want (if decide (pid (svc_of i (w_sup w1)) <> 0) then stopsvc i kg
                          else trystop i)) by (case_decide; eauto with sv).
  pose proof (keeps_exec _ _ w1 Hk) as E. simpl in E. injection E as Em El.
  destruct i; simpl in *; unfold want_flags in *; congruence.
Qed.

(** The tail of 'u' (lines 364-365) keeps a main service wanted up. *)
Lemma u_tail_main w3 :
  pos_nextpid (w_os w3) -> stat_exists_k (file_kind (w_os w3) "run") <> 0 ->
  want_flags (svcmain (w_sup w3)) = (true, true) ->
  want_flags (svcmain (w_sup
    (if bool_decide (pid (svc_of Main (w_sup (exec announce w3))) = 0)
     then exec (trystart Main) (exec announce w3) else exec announce w3))) = (true, true).
Proof.
  intros Hn Hr H3.
  assert (Hs4 : w_sup (exec announce w3) = w_sup w3) by (apply keeps_sup_exec; eauto with sv).
  assert (Hn4 : pos_nextpid (w_os (exec announce w3))) by (by apply announce_npid).
  assert (Hr4 : stat_exists_k (file_kind (w_os (exec announce w3)) "run") <> 0)
    by (by rewrite run_exists_after by eauto with sv).
  case_bool_decide; [|by rewrite Hs4].
  by rewrite trystart_main_want, Hs4.
Qed.

(** 'u' on the main service, when a "run" file exists: wanted, and up. *)
Lemma command_u_main kg w :
  pos_nextpid (w_os w) -> stat_exists_k (file_kind (w_os w) "run") <> 0 ->
  eval (command "u" (mk_sel Main kg)) w = mk_sel Main kg /\
  want_flags (svcmain (w_sup (exec (command "u" (mk_sel Main kg)) w))) = (true, true).
Proof.
  intros Hn Hr. unfold command; cbn -[trystart announce]. rewrite decide_True by done.
  autorewrite with sv_run. split; [done|].
  apply u_tail_main; case_bool_decide; done.
Qed.

(** C4: for any nonempty sequence of 'u' and 'd' commands addressed to the
    main service, with no exit reaped in between, the desired state after
    the sequence is that of the last command: wanted ([flagwant]), and up
    exactly when the last command was 'u'; repeating a command changes
    nothing. This needs a "run" file: without one, 'u' (after the first
    run) clears [flagwant] and marks the service Started. *)
Theorem ud_last_wins cs kg w :
  cs <> [] -> Forall (fun c => c = "u"%char \/ c = "d"%char) cs ->
  pos_nextpid (w_os w) -> stat_exists_k (file_kind (w_os w) "run") <> 0 ->
  want_flags (svcmain (w_sup (exec (run_commands cs (mk_sel Main kg)) w))) =
    (true, bool_decide (last cs = Some "u"%char)).
Proof.
  revert w. induction cs as [|c cs IH]; intros w Hne Hall Hn Hr; [done|].
  inversion Hall as [|? ? Hc Hall']; subst.
  simpl run_commands. rewrite exec_bind.
  assert (Hn1 : pos_nextpid (w_os (exec (command c (mk_sel Main kg)) w))) by (by apply command_npid).
  assert (Hr1 : stat_exists_k (file_kind (w_os (exec (command c (mk_sel Main kg)) w)) "run") <> 0)
    by (rewrite run_exists_after; [done | apply command_files]).
  destruct Hc as [-> | ->].
  - destruct (command_u_main kg w Hn Hr) as [He Hw]. rewrite He.
    destruct cs as [|c' cs']; [by cbn [run_commands]; rewrite exec_ret, Hw|].
    rewrite IH by done. done.
  - destruct (command_d Main kg w) as [He Hw]. cbn [svc_of] in Hw. rewrite He.
    destruct cs as [|c' cs']; [by cbn [run_commands]; rewrite exec_ret, Hw|].
    rewrite IH by done. done.
Qed.

Lemma ud_last_wins_witness :
  ["u"; "d"; "u"]%char <> [] /\
  Forall (fun c => c = "u"%char \/ c = "d"%char) ["u"; "d"; "u"]%char /\
  pos_nextpid (w_os ex_world) /\ stat_exists_k (file_kind (w_os ex_world) "run") <> 0 /\
  want_flags (svcmain (w_sup (exec (run_commands ["u"; "d"; "u"]%char (mk_sel Main 1)) ex_world))) =
    (true, true).
Proof.
  assert (H1 : ["u"; "d"; "u"]%char <> []) by discriminate.
  assert (H2 : Forall (fun c => c = "u"%char \/ c = "d"%char) ["u"; "d"; "u"]%char)
    by (repeat constructor; auto).
  assert (H3 : pos_nextpid (w_os ex_world)) by reflexivity.
  assert (H4 : stat_exists_k (file_kind (w_os ex_world) "run") <> 0) by (vm_compute; discriminate).
  split; [exact H1|]. split; [exact H2|]. split; [exact H3|]. split; [exact H4|].
  exact (ud_last_wins _ 1 ex_world H1 H2 H3 H4).
Defined.

(** ** Pause and continue *)

Lemma map_svc_twice i f g s : map_svc i f (map_svc i g s) = map_svc i (fun v => f (g v)) s.
Proof. by destruct i, s. Qed.

Lemma exec_command_p i kg w :
  w_sup (exec (command "p" (mk_sel i kg)) w) = map_svc i (set_flagpaused true) (w_sup w).
Proof.
  unfold command; cbn -[announce killsvc]. autorewrite with sv_run.
  by rewrite !keeps_sup_exec by eauto with sv.
Qed.

Lemma exec_command_c i kg w :
  w_sup (exec (command "c" (mk_sel i kg)) w) = map_svc i (set_flagpaused false) (w_sup w).
Proof.
  unfold command; cbn -[announce killsvc]. autorewrite with sv_run.
  by rewrite !keeps_sup_exec by eauto with sv.
Qed.

Lemma exec_command_x st w :
  eval (command "x" st) w = st /\
  w_sup (exec (command "x" st) w) = set_flagexit true (w_sup w).
Proof.
  unfold command; cbn -[announce]. autorewrite with sv_run. split; [done|].
  by rewrite keeps_sup_exec by eauto with sv.
Qed.

(** C34: 'p' followed by 'c' on the selected service leaves the globals as
    they were except that the service is not paused: in particular its pid
    is unchanged, and so is everything about the other service. *)
Theorem pause_continue i kg w :
  w_sup (exec (run_commands ["p"; "c"]%char (mk_sel i kg)) w) =
    map_svc i (set_flagpaused false) (w_sup w).
Proof.
  cbn [run_commands]. rewrite !exec_bind, exec_ret.
  assert (Hp : eval (command "p" (mk_sel i kg)) w = mk_sel i kg).
  { unfold command; cbn -[announce killsvc]. by autorewrite with sv_run. }
  rewrite Hp, exec_command_c, exec_command_p, map_svc_twice.
  by destruct i, (w_sup w).
Qed.

(** ** Starting the log service when there is none *)

(** C32: 'L' followed by 'u' starts "./log" even when no log service was
    found at start-up (no log pipe): the log slot gets the new child's pid
    and is marked Running, while the status file keeps publishing only the
    main record. The spec says the log slot is then permanently disabled
    (no pipe, no process). *)
Theorem log_started_without_pipe w :
  logpipe (w_sup w) = false -> pid (svclog (w_sup w)) = 0 ->
  fork_fails (w_os w) = false -> pos_nextpid (w_os w) ->
  let w' := exec (run_commands ["L"; "u"]%char sel_init) w in
  pid (svclog (w_sup w')) = os_nextpid (w_os w) /\
  flagstatus (svclog (w_sup w')) = svstatus_running /\
  logpipe (w_sup w') = false.
Proof.
  intros Hl Hp Hf Hn w'. unfold w'. cbn [run_commands]. rewrite !exec_bind, exec_ret.
  change (eval (command "L" sel_init) w) with (mk_sel Log 1).
  change (exec (command "L" sel_init) w) with w.
  unfold command; cbn -[trystart announce]. rewrite decide_False by discriminate.
  autorewrite with sv_run.
  cbn [w_sup w_os svc_of map_svc svclog svcmain set_svclog pid set_flagwantup set_flagwant
       set_flagstatus flagstatus logpipe].
  rewrite Hp, (bool_decide_eq_true_2 (0 = 0)) by done.
  set (w3 := mk_world _ (w_os w)).
  assert (Hs : w_sup (exec announce w3) = w_sup w3) by (apply keeps_sup_exec; eauto with sv).
  rewrite Hs. cbn [w3 w_sup svclog set_svclog pid set_flagstatus set_flagwant set_flagwantup].
  rewrite Hp, (bool_decide_eq_true_2 (0 = 0)) by done.
  unfold trystart. rewrite exec_bind, exec_upd_svc, sup_trystart_launch.
  2:{ cbn [w_os]. rewrite announce_nextpid. exact Hn. }
  cbn [w_os]. rewrite announce_fork_fails, announce_nextpid, announce_clock. unfold w3; cbn [w_os]. rewrite Hf.
  rewrite keeps_sup_exec by eauto with sv. cbn [w_sup]. by destruct (w_sup w).
Qed.

Lemma log_started_without_pipe_witness :
  logpipe (w_sup ex_world) = false /\ pid (svclog (w_sup ex_world)) = 0 /\
  fork_fails (w_os ex_world) = false /\ pos_nextpid (w_os ex_world) /\
  pid (svclog (w_sup (exec (run_commands ["L"; "u"]%char sel_init) ex_world))) = 100 /\
  flagstatus (svclog (w_sup (exec (run_commands ["L"; "u"]%char sel_init) ex_world))) =
    svstatus_running.
Proof.
  assert (H1 : logpipe (w_sup ex_world) = false) by reflexivity.
  assert (H2 : pid (svclog (w_sup ex_world)) = 0) by reflexivity.
  assert (H3 : fork_fails (w_os ex_world) = false) by reflexivity.
  assert (H4 : pos_nextpid (w_os ex_world)) by reflexivity.
  destruct (log_started_without_pipe ex_world H1 H2 H3 H4) as [Hp [Hs _]].
  repeat split; try assumption.
Defined.

(** ** Pausing a service that has no process *)

(** C35: 'p' on a service without a process sets its paused flag all the
    same (the spec says paused holds only while there is a pid), and the
    published record masks it: byte 16 is 0. *)
Theorem pause_without_process i kg w :
  pid (svc_of i (w_sup w)) = 0 ->
  let v := svc_of i (w_sup (exec (command "p" (mk_sel i kg)) w)) in
  flagpaused v = true /\ pid v = 0 /\ nth 16 (make_status v) 0 = 0.
Proof.
  intros Hp v. unfold v. rewrite exec_command_p, svc_of_map_svc_eq, make_status_paused.
  simpl. rewrite Hp. by rewrite decide_True.
Qed.

Lemma pause_without_process_witness :
  pid (svc_of Main (w_sup ex_world)) = 0 /\
  flagpaused (svc_of Main (w_sup (exec (command "p" (mk_sel Main 1)) ex_world))) = true.
Proof.
  assert (H : pid (svc_of Main (w_sup ex_world)) = 0) by reflexivity.
  split; [exact H | exact (proj1 (pause_without_process Main 1 ex_world H))].
Defined.

(** ** SIGTERM folded into the command stream *)

(** C29: a SIGTERM (or SIGINT) that arrives while the control FIFO is
    empty is applied by the next run of the controller as 'd' then 'x' on
    the main service: the main service is wanted down, [flagexit] is set,
    and the FIFO is empty again. *)
Theorem sigterm_down_exit w :
  os_control (w_os w) = [] ->
  let w' := exec controller (mk_world (w_sup w) (exec terminate (w_os w))) in
  flagexit (w_sup w') = true /\ want_flags (svcmain (w_sup w')) = (true, false) /\
  os_control (w_os w') = [].
Proof.
  intros Hc w'. unfold w'.
  set (w1 := mk_world (w_sup w) (exec terminate (w_os w))).
  change (exec controller w1)
    with (snd (controller_loop (S (length (os_control (w_os w1)))) sel_init w1)).
  rewrite controller_loop_run by lia.
  simpl snd. rewrite (ctl_free_exec _ _ _ (run_commands_ctl_free _ _)).
  rewrite Hc. cbn [app run_commands].
  rewrite !exec_bind, exec_ret. destruct (command_d Main 1 w1) as [Hd Hw]. fold sel_init in Hd.
  rewrite Hd. destruct (exec_command_x sel_init (exec (command "d" sel_init) w1)) as [_ Hx].
  cbn [with_control w_sup w_os]. rewrite Hx. split; [done|]. split; [exact Hw | done].
Qed.

Lemma sigterm_down_exit_witness :
  os_control (w_os ex_world) = [] /\
  flagexit (w_sup (exec controller (mk_world (w_sup ex_world) (exec terminate (w_os ex_world))))) =
    true.
Proof.
  assert (H : os_control (w_os ex_world) = []) by reflexivity.
  split; [exact H | exact (proj1 (sigterm_down_exit ex_world H))].
Defined.

End Controller.
