(* ===== verification/Loop.v ===== *)
(** * The event loop and the start-up of [supervise]

    [doit] (supervise.c lines 398-446) and the part of [main] (lines
    486-533) that decides the initial state, with the outcomes of [main]'s
    library calls as a [setup] record. One iteration of [doit]'s
    [for (;;)] is [doit_iter]: drain the self-pipe, run the reaper, kill
    both process groups and force exit if the control FIFO has been
    unlinked, run the controller, and begin stopping the log service once
    exiting and the main service is stopped. The bounded wait ([iopause])
    is where the world acts ([Invariant.sv_step], [Main.doit_loop]). The
    theorems show the unlink check, and that each iteration applies every
    queued command after the reaper. *)

From S2P Require Import Prelude Status Os Launch Service Reaper Controller.

Open Scope Z_scope.

Module Loop.
Import Status Os Launch Service Reaper Controller.

(** [if (flagexit && !svcmain.pid && !svclog.pid) return;] (line 410) *)
Definition doit_done (s : sup) : bool :=
  flagexit s && bool_decide (pid (svcmain s) = 0) && bool_decide (pid (svclog s) = 0).

(** Lines 430-437. *)
Definition check_control : M () :=
  n ← sys fstat_control_nlink;
  st_when (bool_decide (n = 0))
    (m ← get_svc Main;
     st_when (bool_decide (pid m <> 0)) (sys (sys_kill (- pid m) SIGKILL));;
     l ← get_svc Log;
     st_when (bool_decide (pid l <> 0)) (sys (sys_kill (- pid l) SIGKILL));;
     modify_sup (set_flagexit true)).

(** Lines 441-444. *)
Definition stop_log_if_exiting : M () :=
  s ← gets_sup id;
  st_when (flagexit s && bool_decide (flagstatus (svcmain s) = svstatus_stopped)
           && (bool_decide (flagstatus (svclog s) = svstatus_running)
               || bool_decide (flagstatus (svclog s) = svstatus_started)))
    (stopsvc Log 1).

(** The body of the loop after [iopause] returns (lines 423-444). *)
Definition doit_iter : M () :=
  sys drain_selfpipe;;
  reaper;;
  check_control;;
  controller;;
  stop_log_if_exiting.

(** ** Start-up (lines 447-535)

    The system calls of [main] that are library code outside src/ (pipe,
    chdir, the control path, mkdir, the lock, set_subreaper and the opens of
    the status file and the FIFOs) are given by their outcomes in [setup];
    each failure is a fatal exit, as [Some code] after the message. *)
Inductive mkdir_result := MkOk | MkExists | MkFail.

#[export] Instance mkdir_result_eq_dec : EqDecision mkdir_result.
Proof. solve_decision. Defined.

Record setup := mk_setup {
  su_selfpipe : bool;        (** [pipe(selfpipe)] *)
  su_chdir : bool;           (** [chdir(dir)] *)
  su_svpath : bool;          (** [svpath_init()] *)
  su_mem : bool;             (** [svpath_make] finds memory *)
  su_svdir : string;         (** [svpath_make("")], the control directory *)
  su_mkdir : mkdir_result;   (** [mkdir(fntemp,0700)] *)
  su_lock : bool;            (** [open_append] and [lock_exnb] of the lock *)
  su_subreaper : bool;       (** [set_subreaper()] *)
  su_logpipe : bool;         (** [pipe(logpipe)] *)
  su_status : bool;          (** [open_trunc] of the status file *)
  su_control_read : bool;    (** [open_read] of the control FIFO *)
  su_control_write : bool;   (** [open_write] of the control FIFO *)
  su_ok : bool               (** [open_read] of the "ok" FIFO *)
}.

(** [strerr_die*]: the message on standard error, then [_exit(code)]. *)
Definition die (code : Z) (msg : string) : M (option Z) :=
  sys (strerr_warn msg);; mret (Some code).

Definition or_die (ok : bool) (code : Z) (msg : string) (k : M (option Z)) : M (option Z) :=
  if ok then k else die code msg.

(** [open_trunc] of the status file empties it. *)
Definition truncate_status : ST os () := st_modify (set_os_statusfile []).

Definition sup_init : sup :=
  mk_sup svcmain_init svclog_init false false true None false.

(** Lines 486-533, from the orphanage check to the initial starts. *)
Definition supervise_start (su : setup) (dir : string) : M (option Z) :=
  orph ← sys (stat_exists "orphanage");
  modify_sup (set_flagorphanage (bool_decide (orph <> 0)));;
  or_die (bool_decide (orph = 0) || su_subreaper su) 111 "could not set subreaper attribute" (
  lg ← sys (stat_isexec "log");
  fatal ← (if decide (lg > 0) then
             if su_logpipe su then
               o ← gets_sup flagorphanage;
               if (o : bool) then mret (Some "orphanage and log are mutually exclusive")
               else modify_sup (set_logpipe true);; upd_svc Log (set_flagwantup true);; mret None
             else mret (Some ("unable to create pipe for " ++ dir)%string)
           else mret None : M (option string));
  match fatal with
  | Some msg => die 111 msg
  | None =>
    dk ← sys (st_gets (fun o => file_kind o "down"));
    if decide (dk = FError) then die 111 ("unable to stat " ++ dir ++ "/down")%string
    else
      st_when (bool_decide (dk <> FMissing))
        (upd_svc Main (set_flagwantup false);; upd_svc Log (set_flagwantup false));;
      or_die (su_status su) 111 ("unable to open " ++ su_svdir su ++ "/status for writing")%string (
      sys truncate_status;;
      or_die (su_control_read su) 111 ("unable to read " ++ su_svdir su ++ "/control")%string (
      or_die (su_control_write su) 111 ("unable to write " ++ su_svdir su ++ "/control")%string (
      t ← sys taia_now;
      upd_svc Log (set_when t);;
      pidchange Main None 0 0;;
      or_die (su_ok su) 111 ("unable to read " ++ su_svdir su ++ "/ok")%string (
      l ← get_svc Log;
      st_when (negb (flagwant l) || flagwantup l) (trystart Log);;
      m ← get_svc Main;
      st_when (negb (flagwant m) || flagwantup m) (trystart Main);;
      mret None))))
  end).

(** [doit] begins by publishing the status (line 406). *)
Definition doit_enter : M () := announce.

(** ** The control FIFO unlinked *)

Lemma exec_sys_kill t sg o :
  exec (sys_kill t sg) o = set_os_trace (ev_kill t sg :: os_trace o) o.
Proof. reflexivity. Qed.

(** The SIGKILL sent to a service's process group when it has a process. *)
Definition kill_event (p : Z) : list event :=
  if bool_decide (p <> 0) then [ev_kill (- p) SIGKILL] else [].

(** C28: [check_control] does nothing while the control FIFO has a link;
    once it has been unlinked, it sends SIGKILL to the process group of
    the main service, then to that of the log service (each only when it
    has a process), and sets [flagexit]; nothing else changes. *)
Theorem check_control_spec w :
  exec check_control w =
    if bool_decide (os_control_nlink (w_os w) = 0) then
      mk_world (set_flagexit true (w_sup w))
        (set_os_trace (kill_event (pid (svclog (w_sup w))) ++
                       kill_event (pid (svcmain (w_sup w))) ++ os_trace (w_os w)) (w_os w))
    else w.
Proof.
  unfold check_control, fstat_control_nlink. autorewrite with sv_run.
  destruct w as [s o]. cbn [w_sup w_os svc_of]. unfold kill_event.
  case_bool_decide; [|done].
  repeat (case_bool_decide; cbn [w_sup w_os app svc_of]; rewrite ?exec_sys_kill);
    by destruct o.
Qed.

(** ** The iteration and the control FIFO *)

Lemma ctl_free_waitpid P : ctl_free_os (waitpid_where P).
Proof.
  intros [] cs. unfold waitpid_where, eval, exec. cbn.
  destruct (find_zombie _ _) as [[p ws]|]; [reflexivity|]. case_decide; reflexivity.
Qed.

Lemma ctl_free_waitpid_group a : ctl_free_os (waitpid_group a).
Proof. intros o cs. apply (ctl_free_waitpid _ o cs). Qed.

Lemma ctl_free_drain : ctl_free_os drain_selfpipe.
Proof. ctl_free_prim. Qed.

Lemma ctl_free_nlink : ctl_free_os fstat_control_nlink.
Proof. ctl_free_prim. Qed.

Lemma ctl_free_wstat : ctl_free_os (st_gets os_wstat).
Proof. ctl_free_prim. Qed.

#[export] Hint Resolve ctl_free_waitpid ctl_free_waitpid_group ctl_free_drain ctl_free_nlink
  ctl_free_wstat trystart_ctl_free trystop_ctl_free killsvc_ctl_free stopsvc_ctl_free : sv.

Lemma reaper_body_ctl_free : ctl_free reaper_body.
Proof.
  unfold reaper_body, reaper_wait_group, reaper_dispatch, reaper_handle, reaper_exit,
    reaper_classify, reaper_notify, reaper_decide, wait_nohang.
  ctl_free_solve.
Qed.

Lemma reaper_loop_ctl_free n : ctl_free (reaper_loop n).
Proof.
  induction n as [|n IH]; simpl; [apply ctl_free_ret|].
  apply ctl_free_bind; [apply reaper_body_ctl_free | intros []; [exact IH | apply ctl_free_ret]].
Qed.

Lemma reaper_ctl_free : ctl_free reaper.
Proof.
  intros w cs.
  change (reaper (with_control cs w))
    with ((), exec (reaper_loop (reaper_fuel w)) (with_control cs w)).
  by rewrite (ctl_free_exec _ cs w (reaper_loop_ctl_free _)).
Qed.

Lemma check_control_ctl_free : ctl_free check_control.
Proof. unfold check_control. ctl_free_solve. Qed.

Lemma stop_log_ctl_free : ctl_free stop_log_if_exiting.
Proof. unfold stop_log_if_exiting. ctl_free_solve. Qed.

Lemma ctl_free_control {A} (m : M A) w :
  ctl_free m -> os_control (w_os (exec m w)) = os_control (w_os w).
Proof.
  intros H. rewrite <- (with_control_id w) at 1. rewrite (ctl_free_exec _ _ _ H). by destruct w.
Qed.

Lemma exec_controller w :
  exec controller w = exec (run_commands (os_control (w_os w)) sel_init) (with_control [] w).
Proof.
  change (exec controller w)
    with (snd (controller_loop (S (length (os_control (w_os w)))) sel_init w)).
  by rewrite controller_loop_run by lia.
Qed.

(** C13: no command waits for a later iteration, and the iteration keeps
    the code's order: every byte that is in the control FIFO when an
    iteration of [doit] begins is applied in that iteration, in order,
    from the main service with single-process signalling, after the
    self-pipe is drained, the reaper has run and the unlink check is done,
    and before the log service is stopped; the FIFO is empty afterwards. *)
Theorem iteration_applies_commands w :
  let w1 := exec check_control (exec reaper (exec (sys drain_selfpipe) w)) in
  exec doit_iter w =
    exec stop_log_if_exiting (exec (run_commands (os_control (w_os w)) sel_init) (with_control [] w1))
  /\ os_control (w_os (exec doit_iter w)) = [].
Proof.
  intros w1. unfold doit_iter. rewrite !exec_bind, exec_controller.
  assert (E : os_control (w_os w1) = os_control (w_os w)).
  { unfold w1. rewrite !ctl_free_control; eauto using check_control_ctl_free, reaper_ctl_free with sv. }
  fold w1. rewrite E. split; [done|].
  rewrite ctl_free_control by apply stop_log_ctl_free.
  rewrite ctl_free_control by apply run_commands_ctl_free. done.
Qed.

End Loop.
