(* ===== verification/Invariant.v ===== *)
(** * Reachable states and the invariant of the supervisor's pids

    [sv_step] is the supervisor in its world: an iteration of [doit], or a
    step of the world while [iopause] waits; [reachable] are the states
    after a successful start-up and [doit]'s first [announce]. Every state the supervisor reaches keeps its bookkeeping of processes
    sound: the pids in the process table are positive and were handed out
    by [fork] (they are below the next pid), the pid recorded for each
    service is 0 or such a pid, and the two services never record the same
    child. [sv_inv] is preserved by every operation of supervise.c
    (the launcher, the state machine, the reaper, the controller, one
    iteration of [doit]) and by every step of the world, and it holds
    after start-up; hence it holds in every reachable state, where in
    particular the reaper's loop always terminates. *)

From S2P Require Import Prelude Status Os Launch Service Reaper Controller Loop.

Open Scope Z_scope.

Module Invariant.
Import Status Os Launch Service Reaper Controller Loop.

(** ** The supervisor in its world *)
Inductive sv_step : world -> world -> Prop :=
| sv_iter w : doit_done (w_sup w) = false -> sv_step w (exec doit_iter w)
| sv_env w o' : env_step (w_os w) o' -> sv_step w (mk_world (w_sup w) o').

Inductive star {A} (R : A -> A -> Prop) : A -> A -> Prop :=
| star_refl a : star R a a
| star_step a b c : R a b -> star R b c -> star R a c.

(** A fresh supervisor process: no children yet, the pids it will give
    its children are above its own process group, and it has done nothing
    visible yet. *)
Definition fresh_os (o : os) : Prop :=
  os_procs o = ∅ /\ 0 < os_pgrp o < os_nextpid o /\ os_trace o = [].

(** The worlds reachable from a successful start-up, once [doit] has
    begun: any outcome of the setup that lets [main] reach [doit], then
    any interleaving of loop iterations and steps of the world. *)
Definition reachable (w : world) : Prop :=
  exists o0 su dir, fresh_os o0 /\
    eval (supervise_start su dir) (mk_world sup_init o0) = None /\
    star sv_step (exec doit_enter (exec (supervise_start su dir) (mk_world sup_init o0))) w.

(** The process table: positive pids, all below [os_nextpid]. *)
Definition os_ok (o : os) : Prop :=
  0 < os_nextpid o /\ map_Forall (fun k _ => 0 < k < os_nextpid o) (os_procs o).

(** A pid a service may record: none (0), or one [fork] gave. *)
Definition pid_ok (o : os) (p : Z) : Prop := 0 <= p < os_nextpid o.

Record sv_inv (w : world) : Prop := {
  inv_os : os_ok (w_os w);
  inv_main : pid_ok (w_os w) (pid (svcmain (w_sup w)));
  inv_log : pid_ok (w_os w) (pid (svclog (w_sup w)));
  inv_distinct : pid (svcmain (w_sup w)) = pid (svclog (w_sup w)) -> pid (svcmain (w_sup w)) = 0
}.

(** An OS call that keeps the table sound and never lowers [os_nextpid]. *)
Definition os_grows {A} (m : ST os A) : Prop :=
  forall o, os_ok o -> os_ok (exec m o) /\ os_nextpid o <= os_nextpid (exec m o).

Create HintDb inv discriminated.

(** ** The primitives *)

Lemma os_grows_keeps {A} (m : ST os A) :
  keeps_os (fun o => (os_procs o, os_nextpid o)) m -> os_grows m.
Proof.
  intros H o Ho. specialize (H o). injection H as Hp Hn.
  unfold os_ok in *. rewrite Hp, Hn. split; [done | lia].
Qed.

Ltac grows_prim := apply os_grows_keeps; os_prim.

Lemma grows_seek : os_grows seek_begin.
Proof. unfold seek_begin. grows_prim. Qed.
Lemma grows_write b : os_grows (write_status b).
Proof. unfold write_status. grows_prim. Qed.
Lemma grows_warn m : os_grows (strerr_warn m).
Proof. grows_prim. Qed.
Lemma grows_sleep n : os_grows (deepsleep n).
Proof. grows_prim. Qed.
Lemma grows_trigger : os_grows trigger.
Proof. grows_prim. Qed.
Lemma grows_isexec p : os_grows (stat_isexec p).
Proof. grows_prim. Qed.
Lemma grows_exists p : os_grows (stat_exists p).
Proof. grows_prim. Qed.
Lemma grows_now : os_grows taia_now.
Proof. grows_prim. Qed.
Lemma grows_kill t sg : os_grows (sys_kill t sg).
Proof. grows_prim. Qed.
Lemma grows_gets {A} (f : os -> A) : os_grows (st_gets f).
Proof. grows_prim. Qed.
Lemma grows_drain : os_grows drain_selfpipe.
Proof. unfold drain_selfpipe. grows_prim. Qed.
Lemma grows_truncate : os_grows truncate_status.
Proof. by intros o. Qed.
Lemma grows_read : os_grows read_control.
Proof. unfold read_control. grows_prim. Qed.

(** [fork] hands out [os_nextpid] and moves it on. *)
Lemma fork_procs a ss r o :
  os_procs (exec (sys_fork a ss r) o) =
    if fork_fails o then os_procs o
    else <[os_nextpid o := mk_proc (if ss then os_nextpid o else os_pgrp o) PRunning]> (os_procs o).
Proof. unfold exec, sys_fork, fork_fails. by destruct (os_forkfail o) as [|[] ?]. Qed.

Lemma fork_nextpid a ss r o :
  os_nextpid (exec (sys_fork a ss r) o) = if fork_fails o then os_nextpid o else os_nextpid o + 1.
Proof. unfold exec, sys_fork, fork_fails. by destruct (os_forkfail o) as [|[] ?]. Qed.

Lemma grows_fork a ss r : os_grows (sys_fork a ss r).
Proof.
  intros o [Hn Hk]. unfold os_ok. rewrite fork_procs, fork_nextpid.
  destruct (fork_fails o); [split; [done | lia]|].
  split; [|lia]. split; [lia|]. apply map_Forall_insert_2; [lia|].
  eapply map_Forall_impl; [exact Hk|]. simpl. lia.
Qed.

(** [waitpid] removes at most the child it reaps. *)
Lemma grows_waitpid P : os_grows (waitpid_where P).
Proof.
  intros o [Hn Hk]. pose proof (waitpid_where_cases P o) as Hc.
  destruct (eval (waitpid_where P) o) as [[p ws] e].
  destruct Hc as [(g & w0 & _ & _ & Hd & _)|[(_ & _ & ->)|(_ & _ & ->)]]; [|split; [done | lia]..].
  unfold os_ok. assert (Hn' : os_nextpid (exec (waitpid_where P) o) = os_nextpid o).
  { unfold exec, waitpid_where. by destruct (find_zombie P (os_procs o)) as [[]|];
      [|case_decide]. }
  rewrite Hd, Hn'. split; [|lia]. split; [done|]. by apply map_Forall_delete.
Qed.

Lemma grows_wait_nohang : os_grows wait_nohang.
Proof. apply grows_waitpid. Qed.
Lemma grows_waitpid_group g : os_grows (waitpid_group g).
Proof. intros o. apply (grows_waitpid _ o). Qed.

#[export] Hint Resolve grows_truncate grows_seek grows_write grows_warn grows_sleep grows_trigger grows_isexec
  grows_exists grows_now grows_kill grows_gets grows_drain grows_read grows_fork
  grows_wait_nohang grows_waitpid_group : inv.

(** ** Lifting to the world *)

Lemma pid_ok_mono o o' p : os_nextpid o <= os_nextpid o' -> pid_ok o p -> pid_ok o' p.
Proof. unfold pid_ok. lia. Qed.

Lemma inv_sys {A} (m : ST os A) : os_grows m -> preserves sv_inv (sys m).
Proof.
  intros Hm w [Ho Hmain Hlog Hd]. rewrite exec_sys.
  destruct (Hm _ Ho) as [Ho' Hle]. constructor; simpl; eauto using pid_ok_mono.
Qed.

(** A change of the globals that leaves the services' pids alone. *)
Lemma inv_modify f :
  (forall s, pid (svcmain (f s)) = pid (svcmain s) /\ pid (svclog (f s)) = pid (svclog s)) ->
  preserves sv_inv (modify_sup f).
Proof.
  intros Hf w [Ho Hmain Hlog Hd]. rewrite exec_modify_sup.
  destruct (Hf (w_sup w)) as [E1 E2]. constructor; simpl; rewrite ?E1, ?E2; auto.
Qed.

Lemma inv_upd i f : (forall v, pid (f v) = pid v) -> preserves sv_inv (upd_svc i f).
Proof.
  intros Hf. unfold upd_svc. apply inv_modify. intros s. destruct i; simpl; split; auto.
Qed.

(** Recording a pid [p] that is 0 or fresh (not recorded by the other
    service). *)
Lemma inv_upd_pid i f p w :
  sv_inv w -> (forall v, pid (f v) = p) -> pid_ok (w_os w) p ->
  (p = pid (svc_of (if i is Main then Log else Main) (w_sup w)) -> p = 0) ->
  sv_inv (exec (upd_svc i f) w).
Proof.
  intros [Ho Hmain Hlog Hd] Hf Hp Hfresh. rewrite exec_upd_svc.
  constructor; destruct i; simpl in *; rewrite ?Hf; auto.
  intros E. pose proof (Hfresh (eq_sym E)). congruence.
Qed.

Lemma inv_gets {A} (f : sup -> A) : preserves sv_inv (gets_sup f).
Proof. apply preserves_gets. Qed.
Lemma inv_get i : preserves sv_inv (get_svc i).
Proof. apply preserves_gets. Qed.

#[export] Hint Resolve inv_sys inv_gets inv_get preserves_ret : inv.
#[export] Hint Extern 2 (preserves sv_inv (upd_svc _ _)) =>
  apply inv_upd; intros; reflexivity : inv.
#[export] Hint Extern 2 (preserves sv_inv (modify_sup _)) =>
  apply inv_modify; intros; split; reflexivity : inv.

(** Splits a [preserves sv_inv] goal along the code. *)
Ltac inv_solve := code_split; eauto with inv.

(** ** The launcher and the publisher *)

Lemma inv_announce : preserves sv_inv announce.
Proof. unfold announce. inv_solve. Qed.

(** A successful fork records the pid it has just handed out, which no
    service recorded before. *)
Lemma inv_forkexecve svc argv fd : preserves sv_inv (forkexecve svc argv fd).
Proof.
  unfold forkexecve. apply preserves_bind; [eauto with inv|intros ns].
  apply preserves_bind; [eauto with inv|intros lp].
  intros w Hw. rewrite exec_bind.
  set (m := sys_fork _ _ _). set (w' := exec (sys m) w).
  assert (Hw' : sv_inv w') by (apply inv_sys; eauto with inv).
  destruct (decide (eval (sys m) w = -1)) as [E|E].
  - revert Hw'. apply preserves_bind; intros; inv_solve.
  - rewrite exec_bind. rewrite eval_sys in E |- *. unfold m in *. rewrite eval_sys_fork in E |- *.
    destruct (fork_fails (w_os w)) eqn:Hf; [done|].
    destruct Hw as [[Hn Hk] Hmain Hlog Hd].
    assert (Hn' : os_nextpid (w_os w') = os_nextpid (w_os w) + 1)
      by (unfold w'; rewrite exec_sys; simpl; by rewrite fork_nextpid, Hf).
    assert (Hs' : w_sup w' = w_sup w) by (unfold w'; by rewrite exec_sys).
    destruct svc as [i|]; rewrite ?exec_ret; [|done].
    apply (inv_upd_pid _ _ (os_nextpid (w_os w))); [done | done | |].
    + unfold pid_ok. rewrite Hn'. lia.
    + rewrite Hs'. destruct i; simpl; unfold pid_ok in *; lia.
Qed.

Lemma inv_notify i n c p : preserves sv_inv (notify i n c p).
Proof. unfold notify. inv_solve. apply inv_forkexecve. Qed.

Lemma inv_pidchange i n c p : preserves sv_inv (pidchange i n c p).
Proof. unfold pidchange. inv_solve; auto using inv_notify, inv_announce. Qed.

#[export] Hint Resolve inv_announce inv_forkexecve inv_notify inv_pidchange : inv.

(** ** The state machine *)

Lemma inv_trystart_launch i argv fd : preserves sv_inv (trystart_launch i argv fd).
Proof. unfold trystart_launch. inv_solve. Qed.
#[export] Hint Resolve inv_trystart_launch : inv.

Lemma inv_trystart i : preserves sv_inv (trystart i).
Proof. unfold trystart. inv_solve. Qed.

Lemma inv_trystop i : preserves sv_inv (trystop i).
Proof. unfold trystop. inv_solve. Qed.

Lemma inv_killsvc i kg sg : preserves sv_inv (killsvc i kg sg).
Proof. unfold killsvc. inv_solve. Qed.

Lemma inv_stopsvc i kg : preserves sv_inv (stopsvc i kg).
Proof. unfold stopsvc. inv_solve; apply inv_killsvc. Qed.

#[export] Hint Resolve inv_trystart inv_trystop inv_killsvc inv_stopsvc : inv.

(** ** The reaper *)

Lemma inv_clear_pid i : preserves sv_inv (upd_svc i (set_pid 0)).
Proof.
  intros w Hw. apply (inv_upd_pid _ _ 0); [done | done | | done].
  destruct Hw as [[Hn _] _ _ _]. unfold pid_ok. lia.
Qed.
#[export] Hint Resolve inv_clear_pid : inv.

Lemma inv_reaper_handle i p ws : preserves sv_inv (reaper_handle i p ws).
Proof.
  unfold reaper_handle, reaper_exit, reaper_classify, reaper_notify, reaper_decide. inv_solve.
Qed.
#[export] Hint Resolve inv_reaper_handle : inv.

Lemma inv_reaper_body : preserves sv_inv reaper_body.
Proof.
  unfold reaper_body, reaper_wait_group, reaper_dispatch. inv_solve.
Qed.

Lemma inv_reaper_loop n : preserves sv_inv (reaper_loop n).
Proof.
  induction n as [|n IH]; simpl; [apply preserves_ret|].
  apply preserves_bind; [apply inv_reaper_body|]. intros []; [done | apply preserves_ret].
Qed.

Lemma inv_reaper : preserves sv_inv reaper.
Proof. intros w Hw. apply inv_reaper_loop, Hw. Qed.

(** ** The controller and the event loop *)

Lemma inv_command c st : preserves sv_inv (command c st).
Proof. unfold command. destruct c as [[] [] [] [] [] [] [] []]; inv_solve. Qed.

Lemma inv_controller_loop n st : preserves sv_inv (controller_loop n st).
Proof.
  revert st. induction n as [|n IH]; intros st; simpl; [apply preserves_ret|].
  apply preserves_bind; [eauto with inv|]. intros [c|]; [|apply preserves_ret].
  apply preserves_bind; [apply inv_command | done].
Qed.

Lemma inv_controller : preserves sv_inv controller.
Proof. intros w Hw. apply inv_controller_loop, Hw. Qed.

#[export] Hint Resolve inv_reaper inv_controller : inv.

Lemma inv_doit_iter : preserves sv_inv doit_iter.
Proof. unfold doit_iter, check_control, stop_log_if_exiting. inv_solve. Qed.

Lemma inv_supervise_start su dir : preserves sv_inv (supervise_start su dir).
Proof. unfold supervise_start, or_die, die. inv_solve. Qed.

Lemma inv_doit_enter : preserves sv_inv doit_enter.
Proof. unfold doit_enter. inv_solve. Qed.

(** ** The world's steps *)

Lemma grows_terminate : os_grows terminate.
Proof. unfold terminate, write_control. grows_prim. Qed.
Lemma grows_ttystop : os_grows ttystop.
Proof. unfold ttystop, write_control. grows_prim. Qed.
Lemma grows_resume : os_grows resume.
Proof. unfold resume, write_control. grows_prim. Qed.
Lemma grows_write_control bs : os_grows (write_control bs).
Proof. unfold write_control. grows_prim. Qed.

Lemma env_grows o o' :
  env_step o o' -> os_ok o -> os_ok o' /\ os_nextpid o <= os_nextpid o'.
Proof.
  intros Hs Ho. destruct Hs as [o p g ws Hp|o g|o|o|o|o|o bs|o|o n _|o|o f].
  - refine (grows_trigger (set_os_procs (<[p := mk_proc g (PZombie ws)]> (os_procs o)) o) _).
    destruct Ho as [Hn Hk]. split; [done|]. simpl.
    apply map_Forall_insert_2; [exact (Hk _ _ Hp) | exact Hk].
  - destruct Ho as [Hn Hk]. unfold os_ok; simpl. split; [|lia]. split; [lia|].
    apply map_Forall_insert_2; [lia|]. eapply map_Forall_impl; [exact Hk|]. simpl. lia.
  - by apply (grows_terminate _).
  - by apply (grows_terminate _).
  - by apply (grows_ttystop _).
  - by apply (grows_resume _).
  - by apply (grows_write_control _).
  - split; [exact Ho | simpl; lia].
  - split; [exact Ho | simpl; lia].
  - split; [exact Ho | simpl; lia].
  - split; [exact Ho | simpl; lia].
Qed.

Lemma inv_sv_step w w' : sv_step w w' -> sv_inv w -> sv_inv w'.
Proof.
  intros [w0 _|w0 o' Henv] Hw; [by apply inv_doit_iter|].
  destruct Hw as [Ho Hmain Hlog Hd]. destruct (env_grows _ _ Henv Ho) as [Ho' Hle].
  constructor; simpl; eauto using pid_ok_mono.
Qed.

Lemma inv_star w w' : star sv_step w w' -> sv_inv w -> sv_inv w'.
Proof. induction 1; eauto using inv_sv_step. Qed.

Lemma inv_init o : fresh_os o -> sv_inv (mk_world sup_init o).
Proof.
  intros (Hp & Hg & _). constructor; simpl; unfold pid_ok, os_ok; [|simpl; lia..|done].
  rewrite Hp. split; [lia | apply map_Forall_empty].
Qed.

(** ** Every reachable state *)

Lemma inv_from_start o0 su dir w :
  fresh_os o0 ->
  star sv_step (exec doit_enter (exec (supervise_start su dir) (mk_world sup_init o0))) w ->
  sv_inv w.
Proof.
  intros Hf Hs. eapply inv_star; [exact Hs|].
  apply inv_doit_enter, inv_supervise_start, inv_init, Hf.
Qed.

(** C14: in every state reachable from a successful start-up, through any
    interleaving of loop iterations and steps of the world (children
    exiting, descendants adopted, signals, commands, unlinking of the
    control FIFO, fork and write failures), the pids of the process table
    are positive and below the next pid [fork] will give, each service
    records 0 or such a pid, and the two services never record the same
    child. *)
Theorem reachable_inv w : reachable w -> sv_inv w.
Proof.
  intros (o0 & su & dir & Hf & _ & Hs). exact (inv_from_start o0 su dir w Hf Hs).
Qed.

(** C17: in every reachable state the reaper's [for (;;)] loop leaves by
    [break] within the fuel the model gives it (one pass more than there
    are children). *)
Theorem reachable_reaper_terminates w :
  reachable w -> eval (reaper_loop (reaper_fuel w)) w = true.
Proof.
  intros (o0 & su & dir & Hf & _ & Hs). destruct (inv_from_start o0 su dir w Hf Hs) as [[_ Hk] Hm _ _].
  apply reaper_loop_enough_fuel; [| | unfold reaper_fuel; lia].
  - eapply map_Forall_impl; [exact Hk|]. simpl. lia.
  - unfold pid_ok in Hm. lia.
Qed.

(** A setup in which every system call of [main] succeeds. *)
Definition ex_setup : setup :=
  mk_setup true true true true "supervise" MkOk true true true true true true true.

(** The world once the example service directory has been started and
    [doit] entered. *)
Definition ex_started : world :=
  exec doit_enter (exec (supervise_start ex_setup "/service/x") (mk_world sup_init ex_os)).

Lemma ex_started_reachable : reachable ex_started.
Proof.
  exists ex_os, ex_setup, "/service/x"%string. split; [split; [reflexivity | split; [simpl; lia | reflexivity]]|].
  split; [vm_compute; reflexivity | apply star_refl].
Qed.

Lemma reachable_inv_witness : reachable ex_started /\ sv_inv ex_started.
Proof.
  split; [exact ex_started_reachable | exact (reachable_inv ex_started ex_started_reachable)].
Defined.

Lemma reachable_reaper_terminates_witness :
  reachable ex_started /\ eval (reaper_loop (reaper_fuel ex_started)) ex_started = true.
Proof.
  split; [exact ex_started_reachable|].
  exact (reachable_reaper_terminates ex_started ex_started_reachable).
Defined.

End Invariant.
