(* ===== verification/Scenario.v ===== *)
(** * Runs of the supervisor without failures

    When no [fork] fails and no write of the status file fails (a "quiet"
    OS), the operations of supervise.c have a deterministic effect on the
    trace of spawned programs, signals and sleeps. This file computes those
    effects ([after]) for the launcher, the notifier and the publisher, and
    proves end-to-end behaviours the spec describes: the notification of a
    stop script, the start of a service that only has "./run", and the
    completion of the start phase. *)

From S2P Require Import Prelude Status Os Launch Service Reaper Controller Loop.

Open Scope Z_scope.

Module Scenario.
Import Status Os Launch Service Reaper Controller Loop.

Definition quiet (o : os) : Prop := os_forkfail o = [] /\ os_statusfault o = [].

(** [o'] is [o] after the actions [evs] (most recent first), [k] of them
    forks, with the service directory unchanged and the OS still quiet. *)
Definition after (evs : list event) (k : Z) (o o' : os) : Prop :=
  os_trace o' = evs ++ os_trace o /\ os_nextpid o' = os_nextpid o + k /\
  os_files o' = os_files o /\ quiet o'.

Lemma after_refl o : quiet o -> after [] 0 o o.
Proof. intros. unfold after. rewrite Z.add_0_r. auto. Qed.

Lemma after_trans e1 e2 k1 k2 o1 o2 o3 :
  after e1 k1 o1 o2 -> after e2 k2 o2 o3 -> after (e2 ++ e1) (k1 + k2) o1 o3.
Proof.
  intros (T1 & N1 & F1 & Q1) (T2 & N2 & F2 & Q2). unfold after.
  rewrite T2, T1, N2, N1, F2, F1, app_assoc. split; [done|]. split; [lia|]. auto.
Qed.

Lemma after_quiet evs k o o' : after evs k o o' -> quiet o'.
Proof. by intros (_ & _ & _ & Q). Qed.

(** The publisher writes the whole record and leaves the rest alone. *)
Lemma announce_after w : quiet (w_os w) -> after [] 0 (w_os w) (w_os (exec announce w)).
Proof.
  destruct w as [s o]. intros [Hf Hq]. unfold announce, sys, gets_sup, seek_begin, write_status.
  st_unfold. destruct o; cbn -[status_bytes] in *. subst.
  cbn -[status_bytes]. rewrite decide_False by lia. st_unfold. cbn -[status_bytes].
  case_bool_decide; st_unfold; cbn -[status_bytes]; [lia|].
  unfold after, quiet. cbn. rewrite Z.add_0_r. auto.
Qed.
(** The redirection [forkexecve] asks for. *)
Definition redirect_of (fd : Z) (s : sup) : option Z :=
  if bool_decide (0 <= fd) && logpipe s then Some fd else None.

(** A fork that succeeds hands out the next pid and records the spawn. *)
Lemma forkexecve_after svc argv fd w :
  quiet (w_os w) -> 0 < os_nextpid (w_os w) ->
  eval (forkexecve svc argv fd) w = os_nextpid (w_os w) /\
  after [ev_spawn (os_nextpid (w_os w)) argv (redirect_of fd (w_sup w))] 1
    (w_os w) (w_os (exec (forkexecve svc argv fd) w)).
Proof.
  destruct w as [s o]. intros [Hf Hq] Hn.
  unfold forkexecve, sys, gets_sup, sys_fork, stat_exists, redirect_of.
  st_unfold. destruct o; cbn in *. subst. cbn. rewrite decide_False by lia.
  destruct svc; cbn; (split; [done|]); unfold after, quiet; cbn; auto.
Qed.

Lemma deepsleep_after n w :
  quiet (w_os w) -> after [ev_sleep n] 0 (w_os w) (w_os (exec (sys (deepsleep n)) w)).
Proof.
  destruct w as [s o]. intros Hq. unfold after. rewrite exec_sys. destruct o. cbn.
  unfold quiet in *. cbn in *. rewrite Z.add_0_r. auto.
Qed.
(** A step that does nothing visible. *)
Lemma after_then_nil e k o1 o2 o3 : after e k o1 o2 -> after [] 0 o2 o3 -> after e k o1 o3.
Proof.
  intros H1 H2. pose proof (after_trans _ _ _ _ _ _ _ H1 H2) as H.
  by rewrite app_nil_l, Z.add_0_r in H.
Qed.

(** The arguments of the notifier. *)
Definition notify_argv (i : svcid) (rs : option string) (n : string) (c p : Z) : list string :=
  ["./notify"; role_name i rs; n; fmt_uint p; fmt_uint c].

Lemma notify_after i n c p w :
  quiet (w_os w) -> 0 < os_nextpid (w_os w) ->
  after [ev_spawn (os_nextpid (w_os w)) (notify_argv i (runscript (w_sup w)) n c p) None] 1
    (w_os w) (w_os (exec (notify i n c p) w)).
Proof.
  intros Hq Hn. unfold notify. rewrite !exec_bind, exec_gets_sup, eval_gets_sup, exec_ret.
  apply forkexecve_after; done.
Qed.

(** [pidchange] with a notice, when "./notify" is executable: the
    notifier is spawned, the status published. *)
Lemma pidchange_after i n c p w :
  quiet (w_os w) -> 0 < os_nextpid (w_os w) -> file_kind (w_os w) "notify" = FReg true ->
  after [ev_spawn (os_nextpid (w_os w)) (notify_argv i (runscript (w_sup w)) n c p) None] 1
    (w_os w) (w_os (exec (pidchange i (Some n) c p) w)).
Proof.
  intros Hq Hn Hk. unfold pidchange. autorewrite with sv_run. cbn [w_os w_sup].
  rewrite Hk. cbn -[notify announce].
  set (w2 := mk_world (map_svc i (set_when (os_clock (w_os w))) (w_sup w)) (w_os w)).
  assert (Hrs : runscript (w_sup w2) = runscript (w_sup w)) by (by destruct i).
  eapply after_then_nil.
  - rewrite <- Hrs. apply (notify_after i n c p w2); done.
  - apply announce_after. eapply after_quiet, (notify_after i n c p w2); done.
Qed.
(** Without an executable "notify", [pidchange] only publishes. *)
Lemma pidchange_silent i n c p w :
  quiet (w_os w) -> file_kind (w_os w) "notify" = FMissing ->
  after [] 0 (w_os w) (w_os (exec (pidchange i n c p) w)).
Proof.
  intros Hq Hk. unfold pidchange. autorewrite with sv_run. cbn [w_os w_sup].
  destruct n; autorewrite with sv_run; cbn [w_os]; unfold stat_isexec; rewrite ?eval_gets, ?Hk;
    cbn [stat_isexec_k]; rewrite ?(bool_decide_eq_false_2 (0 > 0)) by lia;
    apply (announce_after (mk_world _ (w_os w))); done.
Qed.

(** The tail of [trystart] when the fork succeeds and there is no
    notifier: the spawn and the one-second throttle. *)
Lemma trystart_launch_after i argv fd w :
  quiet (w_os w) -> 0 < os_nextpid (w_os w) -> file_kind (w_os w) "notify" = FMissing ->
  w_sup (exec (trystart_launch i argv fd) w) =
    map_svc i (set_when (os_clock (w_os w))) (map_svc i (spawned (os_nextpid (w_os w))) (w_sup w)) /\
  after [ev_sleep 1; ev_spawn (os_nextpid (w_os w)) argv (redirect_of fd (w_sup w))] 1
    (w_os w) (w_os (exec (trystart_launch i argv fd) w)).
Proof.
  intros Hq Hn Hk. split.
  { rewrite sup_trystart_launch by done. destruct Hq as [Hf _].
    unfold fork_fails. by rewrite Hf. }
  destruct (forkexecve_after (Some i) argv fd w Hq Hn) as [Ef A1].
  unfold trystart_launch. rewrite exec_bind, Ef, decide_False by lia.
  rewrite exec_bind, exec_sys. cbn [w_os].
  set (w2 := exec (forkexecve (Some i) argv fd) w) in *.
  assert (A2 : after [] 0 (w_os w2) (w_os (exec (pidchange i (Some "start") 0 (os_nextpid (w_os w))) w2))).
  { apply pidchange_silent; [exact (after_quiet _ _ _ _ A1)|].
    destruct A1 as (_ & _ & F & _). unfold file_kind. by rewrite F. }
  pose proof (after_trans _ _ _ _ _ _ _ (after_then_nil _ _ _ _ _ A1 A2)
                (deepsleep_after 1 _ (after_quiet _ _ _ _ A2))) as A.
  rewrite exec_sys in A. exact A.
Qed.

(** [trystart] of the main service once the first run is over (or
    there is no "start"), with an executable "run": "./run" is spawned. *)
Lemma trystart_main_run w :
  firstrun_after (w_sup w) (w_os w) = false -> file_kind (w_os w) "run" = FReg true ->
  quiet (w_os w) -> 0 < os_nextpid (w_os w) -> file_kind (w_os w) "notify" = FMissing ->
  let n := os_nextpid (w_os w) in
  w_sup (exec (trystart Main) w) =
    map_svc Main (set_when (os_clock (w_os w))) (map_svc Main (spawned n)
      (map_svc Main (set_flagstatus svstatus_running)
        (set_runscript (Some "./run") (set_firstrun false (w_sup w))))) /\
  after [ev_sleep 1; ev_spawn n ["./run"] (redirect_of 1 (w_sup w))] 1
    (w_os w) (w_os (exec (trystart Main) w)).
Proof.
  intros Hfr Hr Hq Hn Hk n. unfold trystart. autorewrite with sv_run. cbn [w_sup].
  rewrite exec_start_check, Hfr. autorewrite with sv_run. cbn [w_sup w_os firstrun set_firstrun].
  rewrite eval_bind, exec_bind, eval_sys, exec_sys, eval_ret, exec_ret. unfold stat_exists.
  rewrite eval_gets, exec_gets. cbn [w_os]. rewrite Hr.
  rewrite (bool_decide_eq_false_2 (stat_exists_k (FReg true) = 0)) by discriminate.
  autorewrite with sv_run. cbn [w_sup w_os].
  destruct (trystart_launch_after Main ["./run"] 1
    (mk_world (map_svc Main (set_flagstatus svstatus_running)
       (set_runscript (Some "./run") (set_firstrun false (w_sup w)))) (w_os w)) Hq Hn Hk) as [E A].
  split; [exact E | exact A].
Qed.

(** ** The notification of a stop script *)

(** C33: when [trystop] runs "./stop" (main service, stop script not yet
    run in this cycle, executable), it notifies with the event name
    "start", not "stop": with no fork or status-write failure and an
    executable "notify", its visible actions are the spawn of "./stop",
    the spawn of "./notify stop start <pid> 0", and the one-second
    throttle. *)
Theorem trystop_notifies_start w :
  ranstop (svcmain (w_sup w)) = false ->
  file_kind (w_os w) "stop" = FReg true -> file_kind (w_os w) "notify" = FReg true ->
  quiet (w_os w) -> 0 < os_nextpid (w_os w) ->
  let n := os_nextpid (w_os w) in
  after [ev_sleep 1; ev_spawn (n + 1) ["./notify"; "stop"; "start"; fmt_uint n; fmt_uint 0] None;
         ev_spawn n ["./stop"] (redirect_of 1 (w_sup w))] 2
    (w_os w) (w_os (exec (trystop Main) w)).
Proof.
  intros Hr Hs Hk Hq Hn n. unfold trystop. autorewrite with sv_run. cbn [svc_of]. rewrite Hr.
  rewrite (bool_decide_eq_false_2 (Main <> Main)) by (intros H; by apply H). cbn [orb].
  autorewrite with sv_run. rewrite Hs.
  rewrite (bool_decide_eq_false_2 (stat_isexec_k (FReg true) <> 1)) by (intros H; by apply H).
  autorewrite with sv_run. cbn [w_sup w_os].
  set (w1 := mk_world (set_runscript (Some "./stop") (w_sup w)) (w_os w)).
  destruct (forkexecve_after (Some Main) ["./stop"] 1 w1) as [Ef A1]; [done..|].
  rewrite Ef. cbn [w1 w_os]. rewrite decide_False by lia. autorewrite with sv_run.
  set (w2 := exec (forkexecve (Some Main) ["./stop"] 1) w1) in *.
  destruct A1 as (T1 & N1 & F1 & Q1).
  set (w3 := exec (upd_svc Main (set_ranstop true)) w2).
  assert (Hrs : runscript (w_sup w3) = Some "./stop").
  { unfold w3, w2. rewrite exec_upd_svc, sup_forkexecve by done. cbn. by destruct (fork_fails _). }
  assert (A2 : after [ev_spawn (n + 1) (notify_argv Main (Some "./stop") "start" 0 n) None] 1
                 (w_os w2) (w_os (exec (pidchange Main (Some "start") 0 n) w3))).
  { assert (Eo : w_os w3 = w_os w2) by (unfold w3; by rewrite exec_upd_svc).
    assert (N : n + 1 = os_nextpid (w_os w3)) by (rewrite Eo, N1; reflexivity).
    rewrite <- Hrs, N, <- Eo. apply pidchange_after; rewrite Eo;
      [done | rewrite N1; unfold w1; cbn [w_os]; lia | unfold file_kind; rewrite F1; exact Hk]. }
  pose proof (after_trans _ _ _ _ _ _ _ (conj T1 (conj N1 (conj F1 Q1))) A2) as A12.
  pose proof (after_trans _ _ _ _ _ _ _ A12 (deepsleep_after 1 _ (after_quiet _ _ _ _ A2))) as A.
  unfold w3 in A. rewrite exec_upd_svc, exec_sys in A. exact A.
Qed.
(** A service directory with executable "run", "stop" and "notify". *)
Definition ex_stop_world : world :=
  mk_world (w_sup ex_world)
    (set_os_files (<["stop" := FReg true]> (<["notify" := FReg true]> (os_files ex_os))) ex_os).

Lemma trystop_notifies_start_witness :
  ranstop (svcmain (w_sup ex_stop_world)) = false /\
  file_kind (w_os ex_stop_world) "stop" = FReg true /\
  file_kind (w_os ex_stop_world) "notify" = FReg true /\
  quiet (w_os ex_stop_world) /\ 0 < os_nextpid (w_os ex_stop_world) /\
  take 2 (os_trace (w_os (exec (trystop Main) ex_stop_world))) =
    [ev_sleep 1; ev_spawn 101 ["./notify"; "stop"; "start"; fmt_uint 100; fmt_uint 0] None].
Proof.
  assert (H1 : ranstop (svcmain (w_sup ex_stop_world)) = false) by reflexivity.
  assert (H2 : file_kind (w_os ex_stop_world) "stop" = FReg true) by (vm_compute; reflexivity).
  assert (H3 : file_kind (w_os ex_stop_world) "notify" = FReg true) by (vm_compute; reflexivity).
  assert (H4 : quiet (w_os ex_stop_world)) by (split; reflexivity).
  assert (H5 : 0 < os_nextpid (w_os ex_stop_world)) by (simpl; lia).
  do 5 (split; [assumption|]).
  destruct (trystop_notifies_start ex_stop_world H1 H2 H3 H4 H5) as [T _].
  rewrite T. reflexivity.
Defined.
(** ** Starting a service that only has "./run" *)

Lemma after_file_kind evs k o o' p : after evs k o o' -> file_kind o' p = file_kind o p.
Proof. intros (_ & _ & F & _). unfold file_kind. by rewrite F. Qed.

(** C23: 'u' on a main service without a process, in a directory with an
    executable "run" and no "start" (the spec's scenario): the service is
    marked Starting and published, then [trystart] finds no "start", ends
    the first run and spawns "./run", so the service ends Running (not
    Starting) with the new child's pid. *)
Theorem u_only_run_running kg w :
  pid (svcmain (w_sup w)) = 0 ->
  file_kind (w_os w) "start" = FMissing -> file_kind (w_os w) "run" = FReg true ->
  file_kind (w_os w) "notify" = FMissing -> quiet (w_os w) -> 0 < os_nextpid (w_os w) ->
  let w' := exec (command "u" (mk_sel Main kg)) w in
  let n := os_nextpid (w_os w) in
  flagstatus (svcmain (w_sup w')) = svstatus_running /\ pid (svcmain (w_sup w')) = n /\
  firstrun (w_sup w') = false /\ runscript (w_sup w') = Some "./run" /\
  after [ev_sleep 1; ev_spawn n ["./run"] (redirect_of 1 (w_sup w))] 1 (w_os w) (w_os w').
Proof.
  intros Hp Hs Hr Hk Hq Hn w' n. unfold w', command. cbn -[trystart announce].
  rewrite decide_True by done. autorewrite with sv_run. cbn [w_sup w_os svc_of map_svc svcmain
    set_svcmain pid set_flagwant set_flagwantup set_firstrun].
  rewrite Hp, (bool_decide_eq_true_2 (0 = 0)) by done.
  set (w1 := mk_world _ (w_os w)).
  pose proof (announce_after w1 Hq) as A1.
  assert (Hs2 : w_sup (exec announce w1) = w_sup w1) by (apply keeps_sup_exec; eauto with sv).
  rewrite Hs2. cbn [w1 w_sup svcmain set_svcmain pid set_flagstatus].
  cbn [pid set_flagwantup set_flagwant set_flagstatus]. rewrite Hp, (bool_decide_eq_true_2 (0 = 0)) by done.
  destruct (trystart_main_run (exec announce w1)) as [E A2].
  all: change (w_os w1) with (w_os w) in *.
  - unfold firstrun_after. rewrite (after_file_kind _ _ _ _ _ A1), Hs.
    rewrite (bool_decide_eq_false_2 (stat_isexec_k FMissing <> 0)) by (intros H; by apply H).
    by rewrite andb_false_r.
  - by rewrite (after_file_kind _ _ _ _ _ A1).
  - exact (after_quiet _ _ _ _ A1).
  - destruct A1 as (_ & N & _). rewrite N. lia.
  - by rewrite (after_file_kind _ _ _ _ _ A1).
  - assert (N : os_nextpid (w_os (exec announce w1)) = n)
      by (destruct A1 as (_ & N & _); rewrite N; unfold n; lia).
    rewrite E, Hs2, N. cbn. split; [done|]. split; [done|]. split; [done|]. split; [done|].
    pose proof (after_trans _ _ _ _ _ _ _ A1 A2) as A.
    rewrite app_nil_r, Z.add_0_l, N, Hs2 in A. exact A.
Qed.
Lemma u_only_run_running_witness :
  pid (svcmain (w_sup ex_world)) = 0 /\
  file_kind (w_os ex_world) "start" = FMissing /\ file_kind (w_os ex_world) "run" = FReg true /\
  file_kind (w_os ex_world) "notify" = FMissing /\ quiet (w_os ex_world) /\
  0 < os_nextpid (w_os ex_world) /\
  flagstatus (svcmain (w_sup (exec (command "u" (mk_sel Main 1)) ex_world))) = svstatus_running.
Proof.
  assert (H1 : pid (svcmain (w_sup ex_world)) = 0) by reflexivity.
  assert (H2 : file_kind (w_os ex_world) "start" = FMissing) by (vm_compute; reflexivity).
  assert (H3 : file_kind (w_os ex_world) "run" = FReg true) by (vm_compute; reflexivity).
  assert (H4 : file_kind (w_os ex_world) "notify" = FMissing) by (vm_compute; reflexivity).
  assert (H5 : quiet (w_os ex_world)) by (split; reflexivity).
  assert (H6 : 0 < os_nextpid (w_os ex_world)) by (simpl; lia).
  do 6 (split; [assumption|]).
  exact (proj1 (u_only_run_running 1 ex_world H1 H2 H3 H4 H5 H6)).
Defined.

(** ** 'o' restarts a failed service *)

(** C24: the 'o' command (lines 367-371) on a main service that failed
    (exit code 100, or a failed start) and has no process runs "./run"
    again: the service ends Running under the new child's pid, wanted
    once. The spec says a Failed service is not retried and needs an
    explicit 'u'. *)
Theorem once_restarts_failed kg w :
  flagstatus (svcmain (w_sup w)) = svstatus_failed -> pid (svcmain (w_sup w)) = 0 ->
  firstrun (w_sup w) = false -> file_kind (w_os w) "run" = FReg true ->
  file_kind (w_os w) "notify" = FMissing -> quiet (w_os w) -> 0 < os_nextpid (w_os w) ->
  let w' := exec (command "o" (mk_sel Main kg)) w in
  let n := os_nextpid (w_os w) in
  flagstatus (svcmain (w_sup w')) = svstatus_running /\ pid (svcmain (w_sup w')) = n /\
  flagwant (svcmain (w_sup w')) = false /\
  after [ev_sleep 1; ev_spawn n ["./run"] (redirect_of 1 (w_sup w))] 1 (w_os w) (w_os w').
Proof.
  intros Hst Hp Hfr Hr Hk Hq Hn w' n. unfold w', command. cbn -[trystart announce].
  autorewrite with sv_run. cbn [w_sup w_os svc_of map_svc svcmain set_svcmain pid set_flagwant].
  set (w1 := mk_world _ (w_os w)).
  pose proof (announce_after w1 Hq) as A1.
  assert (Hs2 : w_sup (exec announce w1) = w_sup w1) by (apply keeps_sup_exec; eauto with sv).
  rewrite Hs2. cbn [w1 w_sup svcmain set_svcmain pid set_flagwant]. rewrite Hp, bool_decide_true by done.
  destruct (trystart_main_run (exec announce w1)) as [E A2].
  all: change (w_os w1) with (w_os w) in *.
  - unfold firstrun_after. rewrite Hs2. cbn. by rewrite Hfr.
  - by rewrite (after_file_kind _ _ _ _ _ A1).
  - exact (after_quiet _ _ _ _ A1).
  - destruct A1 as (_ & N & _). rewrite N. lia.
  - by rewrite (after_file_kind _ _ _ _ _ A1).
  - assert (N : os_nextpid (w_os (exec announce w1)) = n)
      by (destruct A1 as (_ & N & _); rewrite N; unfold n; lia).
    rewrite E, Hs2, N. cbn. split; [done|]. split; [done|]. split; [done|].
    pose proof (after_trans _ _ _ _ _ _ _ A1 A2) as A.
    rewrite app_nil_r, Z.add_0_l, N, Hs2 in A. exact A.
Qed.

(** A main service that failed, without a process, after its first run. *)
Definition ex_failed_world : world :=
  mk_world (set_svcmain (mk_svc 0 svstatus_failed true false false taia_zero false)
                        (set_firstrun false (w_sup ex_world))) (w_os ex_world).

Lemma once_restarts_failed_witness :
  flagstatus (svcmain (w_sup ex_failed_world)) = svstatus_failed /\
  pid (svcmain (w_sup ex_failed_world)) = 0 /\ firstrun (w_sup ex_failed_world) = false /\
  file_kind (w_os ex_failed_world) "run" = FReg true /\
  file_kind (w_os ex_failed_world) "notify" = FMissing /\ quiet (w_os ex_failed_world) /\
  0 < os_nextpid (w_os ex_failed_world) /\
  flagstatus (svcmain (w_sup (exec (command "o" (mk_sel Main 1)) ex_failed_world))) =
    svstatus_running.
Proof.
  assert (H1 : flagstatus (svcmain (w_sup ex_failed_world)) = svstatus_failed) by reflexivity.
  assert (H2 : pid (svcmain (w_sup ex_failed_world)) = 0) by reflexivity.
  assert (H3 : firstrun (w_sup ex_failed_world) = false) by reflexivity.
  assert (H4 : file_kind (w_os ex_failed_world) "run" = FReg true) by (vm_compute; reflexivity).
  assert (H5 : file_kind (w_os ex_failed_world) "notify" = FMissing) by (vm_compute; reflexivity).
  assert (H6 : quiet (w_os ex_failed_world)) by (split; reflexivity).
  assert (H7 : 0 < os_nextpid (w_os ex_failed_world)) by (simpl; lia).
  do 7 (split; [assumption|]).
  exact (proj1 (once_restarts_failed 1 ex_failed_world H1 H2 H3 H4 H5 H6 H7)).
Defined.

(** ** The start phase completes *)

Lemma reaper_exit_after i p ws w :
  quiet (w_os w) -> file_kind (w_os w) "notify" = FMissing ->
  after [] 0 (w_os w) (w_os (exec (reaper_exit i p ws) w)).
Proof.
  intros Hq Hk. unfold reaper_exit, reaper_notify. autorewrite with sv_run. rewrite exec_reaper_classify.
  cbn [w_os]. by apply (pidchange_silent i _ _ _ (mk_world _ (w_os w))).
Qed.

(** C22: when "./start" exits with status 0 while the main service is
    Starting and the supervisor is not exiting, the reaper ends the first
    run and starts "./run" at once: the service is Running with the new
    child's pid, whatever its desired state (the start phase completes). *)
Theorem start_phase_done p w :
  flagstatus (svcmain (w_sup w)) = svstatus_starting -> flagexit (w_sup w) = false ->
  file_kind (w_os w) "run" = FReg true -> file_kind (w_os w) "notify" = FMissing ->
  quiet (w_os w) -> 0 < os_nextpid (w_os w) ->
  let w' := exec (reaper_handle Main p 0) w in
  let n := os_nextpid (w_os w) in
  flagstatus (svcmain (w_sup w')) = svstatus_running /\ pid (svcmain (w_sup w')) = n /\
  runscript (w_sup w') = Some "./run" /\ firstrun (w_sup w') = false /\
  after [ev_sleep 1; ev_spawn n ["./run"] (redirect_of 1 (w_sup w))] 1 (w_os w) (w_os w').
Proof.
  intros Hst Hx Hr Hk Hq Hn w' n. unfold w', reaper_handle. rewrite exec_bind.
  pose proof (reaper_exit_after Main p 0 w Hq Hk) as A1.
  set (w1 := exec (reaper_exit Main p 0) w) in *.
  assert (S1 : w_sup w1 = set_firstrun false (map_svc Main
             (fun v => set_when (os_clock (w_os w)) (apply_exit_class Main 0 v)) (w_sup w)))
    by apply sup_reaper_exit.
  assert (C : apply_exit_class Main 0 (svcmain (w_sup w)) = set_pid 0 (svcmain (w_sup w))).
  { unfold apply_exit_class, exit_class. cbn [flagstatus set_pid]. rewrite Hst.
    by rewrite (bool_decide_eq_true_2 (svstatus_starting = svstatus_starting)). }
  unfold reaper_decide. autorewrite with sv_run. rewrite S1. cbn [svc_of svcmain set_firstrun map_svc
    set_svcmain flagexit]. rewrite C, ?Hx. cbn [flagstatus set_when set_pid].
  rewrite Hst, (bool_decide_eq_true_2 (svstatus_starting = svstatus_starting)), orb_true_r by done.
  cbn [negb]. rewrite ?exec_when.
  destruct (trystart_main_run w1) as [E A2].
  - unfold firstrun_after. by rewrite S1.
  - by rewrite (after_file_kind _ _ _ _ _ A1).
  - exact (after_quiet _ _ _ _ A1).
  - destruct A1 as (_ & N & _). rewrite N. lia.
  - by rewrite (after_file_kind _ _ _ _ _ A1).
  - assert (N : os_nextpid (w_os w1) = n) by (destruct A1 as (_ & N & _); rewrite N; unfold n; lia).
    rewrite E, S1, N. cbn. split; [done|]. split; [done|]. split; [done|]. split; [done|].
    pose proof (after_trans _ _ _ _ _ _ _ A1 A2) as A.
    rewrite app_nil_r, Z.add_0_l, N, S1 in A. exact A.
Qed.
(** "./start" (pid 100) is running. *)
Definition ex_starting_world : world :=
  mk_world (mk_sup (mk_svc 100 svstatus_starting true true false taia_zero false) svclog_init
              false false true (Some "./start") false)
    (set_os_nextpid 101 ex_os).

Lemma start_phase_done_witness :
  flagstatus (svcmain (w_sup ex_starting_world)) = svstatus_starting /\
  flagexit (w_sup ex_starting_world) = false /\
  file_kind (w_os ex_starting_world) "run" = FReg true /\
  file_kind (w_os ex_starting_world) "notify" = FMissing /\
  quiet (w_os ex_starting_world) /\ 0 < os_nextpid (w_os ex_starting_world) /\
  pid (svcmain (w_sup (exec (reaper_handle Main 100 0) ex_starting_world))) = 101.
Proof.
  assert (H1 : flagstatus (svcmain (w_sup ex_starting_world)) = svstatus_starting) by reflexivity.
  assert (H2 : flagexit (w_sup ex_starting_world) = false) by reflexivity.
  assert (H3 : file_kind (w_os ex_starting_world) "run" = FReg true) by (vm_compute; reflexivity).
  assert (H4 : file_kind (w_os ex_starting_world) "notify" = FMissing)
    by (vm_compute; reflexivity).
  assert (H5 : quiet (w_os ex_starting_world)) by (split; reflexivity).
  assert (H6 : 0 < os_nextpid (w_os ex_starting_world)) by (simpl; lia).
  do 6 (split; [assumption|]).
  exact (proj1 (proj2 (start_phase_done 100 ex_starting_world H1 H2 H3 H4 H5 H6))).
Defined.
End Scenario.
