(* ===== verification/Liveness.v ===== *)
(** * A recorded pid is a child of the supervisor

    The spec's invariant of a service slot: its pid is non-empty only
    while a child attributed to it exists. [live_inv] states it for the
    model: each non-zero pid a service records is a child in the process
    table (not yet reaped), in its own process group or the supervisor's.
    In orphanage mode ([flagorphanage]) it is not claimed: there the main
    service's pid is kept after its first process is reaped (it then
    names the process group whose members the reaper collects,
    [orphan_keeps_pid]). Together with [sv_inv] and the facts on
    process groups the proof needs, [live_inv] is preserved by every
    operation and every step of the world, and holds in every reachable
    state. *)

From S2P Require Import Prelude Status Os Launch Service Reaper Controller Loop Invariant.

Open Scope Z_scope.

Module Liveness.
Import Status Os Launch Service Reaper Controller Loop Invariant.

(** The process group a child of the supervisor may be in. *)
Definition pgid_ok (o : os) (p : Z) (pr : proc) : Prop :=
  pr_pgid pr = p \/ pr_pgid pr = os_pgrp o.

Definition slot_live (w : world) (i : svcid) : Prop :=
  let p := pid (svc_of i (w_sup w)) in
  p <> 0 ->
  (exists pr, os_procs (w_os w) !! p = Some pr /\ pgid_ok (w_os w) p pr) \/
  flagorphanage (w_sup w) = true.

(** The supervisor's own process group is below every pid it hands out. *)
Definition pgrp_ok (w : world) : Prop :=
  0 < os_pgrp (w_os w) < os_nextpid (w_os w) /\
  map_Forall (fun k _ => os_pgrp (w_os w) < k) (os_procs (w_os w)) /\
  (forall i, pid (svc_of i (w_sup w)) <> 0 -> os_pgrp (w_os w) < pid (svc_of i (w_sup w))).

Record live_inv (w : world) : Prop := {
  live_sv : sv_inv w;
  live_pgrp : pgrp_ok w;
  live_orph : flagstatus (svcmain (w_sup w)) = svstatus_orphanage -> flagorphanage (w_sup w) = true;
  live_slot : forall i, slot_live w i
}.

Create HintDb live discriminated.

(** ** OS calls that leave the process table alone *)

Definition os_stable {A} (m : ST os A) : Prop :=
  forall o, os_procs (exec m o) = os_procs o /\ os_pgrp (exec m o) = os_pgrp o /\
            os_nextpid (exec m o) = os_nextpid o.

Lemma os_stable_keeps {A} (m : ST os A) :
  keeps_os (fun o => (os_procs o, os_pgrp o, os_nextpid o)) m -> os_stable m.
Proof. intros H o. specialize (H o). by injection H. Qed.

Ltac stable_prim := apply os_stable_keeps; os_prim.

Lemma stable_seek : os_stable seek_begin.
Proof. unfold seek_begin. stable_prim. Qed.
Lemma stable_write b : os_stable (write_status b).
Proof. unfold write_status. stable_prim. Qed.
Lemma stable_warn m : os_stable (strerr_warn m).
Proof. stable_prim. Qed.
Lemma stable_sleep n : os_stable (deepsleep n).
Proof. stable_prim. Qed.
Lemma stable_trigger : os_stable trigger.
Proof. stable_prim. Qed.
Lemma stable_isexec p : os_stable (stat_isexec p).
Proof. stable_prim. Qed.
Lemma stable_exists p : os_stable (stat_exists p).
Proof. stable_prim. Qed.
Lemma stable_now : os_stable taia_now.
Proof. stable_prim. Qed.
Lemma stable_kill t sg : os_stable (sys_kill t sg).
Proof. stable_prim. Qed.
Lemma stable_gets {A} (f : os -> A) : os_stable (st_gets f).
Proof. stable_prim. Qed.
Lemma stable_drain : os_stable drain_selfpipe.
Proof. unfold drain_selfpipe. stable_prim. Qed.
Lemma stable_read : os_stable read_control.
Proof. unfold read_control. stable_prim. Qed.

Lemma stable_grows {A} (m : ST os A) : os_stable m -> os_grows m.
Proof.
  intros H o Ho. destruct (H o) as (Hp & _ & Hn). unfold os_ok in *. rewrite Hp, Hn. split; [done | lia].
Qed.

Lemma live_sys {A} (m : ST os A) : os_stable m -> preserves live_inv (sys m).
Proof.
  intros Hm w [Hsv Hg Ho Hs]. pose proof (inv_sys m (stable_grows m Hm) w Hsv) as Hsv'.
  rewrite exec_sys in *. destruct (Hm (w_os w)) as (Hp & Hq & Hn).
  constructor; [done | | done |].
  - unfold pgrp_ok in *. simpl. by rewrite Hp, Hq, Hn.
  - intros i. unfold slot_live, pgid_ok in *. simpl. rewrite Hp, Hq. apply Hs.
Qed.

Lemma stable_truncate : os_stable truncate_status.
Proof. unfold truncate_status. stable_prim. Qed.

#[export] Hint Resolve stable_truncate stable_seek stable_write stable_warn stable_sleep stable_trigger
  stable_isexec stable_exists stable_now stable_kill stable_gets stable_drain stable_read
  live_sys : live.

(** ** Changes of the globals *)

Lemma live_modify f :
  (forall s, svcmain (f s) = svcmain s /\ svclog (f s) = svclog s /\
             flagorphanage (f s) = flagorphanage s) ->
  preserves live_inv (modify_sup f).
Proof.
  intros Hf w [Hsv Hg Ho Hs]. rewrite exec_modify_sup.
  destruct (Hf (w_sup w)) as (E1 & E2 & E3).
  assert (Hsv' : sv_inv (mk_world (f (w_sup w)) (w_os w))).
  { apply (inv_modify f); [intros s; by rewrite (proj1 (Hf s)), (proj1 (proj2 (Hf s)))|].
    by destruct w. }
  assert (Hp : forall j, pid (svc_of j (f (w_sup w))) = pid (svc_of j (w_sup w)))
    by (intros []; simpl; by rewrite ?E1, ?E2).
  destruct Hg as (Hg1 & Hg2 & Hg3). constructor; simpl.
  - done.
  - split; [done|]. split; [done|]. intros j. rewrite Hp. apply Hg3.
  - rewrite E1, E3. apply Ho.
  - intros j. unfold slot_live. simpl. rewrite Hp, E3. apply (Hs j).
Qed.

(** A change of a service that keeps its pid and never makes it
    Orphaned. *)
Lemma live_upd i f :
  (forall v, pid (f v) = pid v /\ (flagstatus (f v) = svstatus_orphanage ->
                                   flagstatus v = svstatus_orphanage)) ->
  preserves live_inv (upd_svc i f).
Proof.
  intros Hf w [Hsv Hg Ho Hs]. rewrite exec_upd_svc.
  assert (Hsv' : sv_inv (mk_world (map_svc i f (w_sup w)) (w_os w))).
  { rewrite <- exec_upd_svc. apply inv_upd; [intros v; apply Hf | done]. }
  destruct Hg as (Hg1 & Hg2 & Hg3).
  assert (Hp : forall j, pid (svc_of j (map_svc i f (w_sup w))) = pid (svc_of j (w_sup w))).
  { intros j. destruct (decide (i = j)) as [<-|Hne].
    - rewrite svc_of_map_svc_eq. apply Hf.
    - by rewrite svc_of_map_svc_ne. }
  constructor; simpl.
  - done.
  - split; [done|]. split; [done|]. intros j. rewrite Hp. apply Hg3.
  - intros E. destruct i; simpl in E; [apply Ho, (proj2 (Hf _)), E | apply Ho, E].
  - intros j. unfold slot_live. simpl. rewrite Hp. destruct i; apply (Hs j).
Qed.

Lemma live_gets {A} (f : sup -> A) : preserves live_inv (gets_sup f).
Proof. apply preserves_gets. Qed.
Lemma live_get i : preserves live_inv (get_svc i).
Proof. apply preserves_gets. Qed.

#[export] Hint Resolve live_gets live_get preserves_ret : live.
(** A service update that keeps its pid and does not set Orphaned. *)
Ltac live_upd_tac :=
  apply live_upd; intros; split; [reflexivity|]; intros H;
  repeat match type of H with context [if ?b then _ else _] => destruct b end;
  first [exact H | discriminate H].
#[export] Hint Extern 2 (preserves live_inv (upd_svc _ _)) => live_upd_tac : live.
#[export] Hint Extern 2 (preserves live_inv (modify_sup _)) =>
  apply live_modify; intros; repeat split : live.

(** Splits a [preserves live_inv] goal along the code. *)
Ltac live_solve := code_split; eauto with live.

(** ** The launcher *)

(** The process group of the child [forkexecve] creates. *)
Definition child_pgid (w : world) : Z :=
  if bool_decide (stat_exists_k (file_kind (w_os w) "no-setsid") = 0) then os_nextpid (w_os w)
  else os_pgrp (w_os w).

Lemma forkexecve_os svc argv fd w :
  os_procs (w_os (exec (forkexecve svc argv fd) w)) =
    (if fork_fails (w_os w) then os_procs (w_os w)
     else <[os_nextpid (w_os w) := mk_proc (child_pgid w) PRunning]> (os_procs (w_os w))) /\
  os_pgrp (w_os (exec (forkexecve svc argv fd) w)) = os_pgrp (w_os w) /\
  os_nextpid (w_os (exec (forkexecve svc argv fd) w)) =
    (if fork_fails (w_os w) then os_nextpid (w_os w) else os_nextpid (w_os w) + 1).
Proof.
  unfold forkexecve, child_pgid. autorewrite with sv_run. cbn [w_os w_sup].
  set (ss := bool_decide (stat_exists_k (file_kind (w_os w) "no-setsid") = 0)).
  set (r := if bool_decide (0 <= fd) && logpipe (w_sup w) then Some fd else None).
  pose proof (fork_procs argv ss r (w_os w)) as Hp.
  pose proof (fork_nextpid argv ss r (w_os w)) as Hn.
  assert (Hg : os_pgrp (exec (sys_fork argv ss r) (w_os w)) = os_pgrp (w_os w)).
  { unfold exec, sys_fork. by destruct (os_forkfail (w_os w)) as [|[] ?]. }
  set (o1 := exec (sys_fork argv ss r) (w_os w)) in *.
  destruct (decide _).
  - autorewrite with sv_run. cbn [w_os].
    rewrite (proj1 (stable_trigger _)), (proj1 (stable_sleep _ _)), (proj1 (stable_warn _ _)).
    rewrite (proj1 (proj2 (stable_trigger _))), (proj1 (proj2 (stable_sleep _ _))),
      (proj1 (proj2 (stable_warn _ _))).
    rewrite (proj2 (proj2 (stable_trigger _))), (proj2 (proj2 (stable_sleep _ _))),
      (proj2 (proj2 (stable_warn _ _))).
    rewrite Hp, Hn, Hg. unfold ss. by destruct (fork_fails _).
  - destruct svc; autorewrite with sv_run; cbn [w_os];
      rewrite Hp, Hn, Hg; unfold ss; by destruct (fork_fails _).
Qed.

(** A slot stays live when its pid, the orphanage flag and the process
    group are unchanged and its child is still in the table. *)
Lemma slot_live_frame w w' i :
  pid (svc_of i (w_sup w')) = pid (svc_of i (w_sup w)) ->
  flagorphanage (w_sup w') = flagorphanage (w_sup w) ->
  os_pgrp (w_os w') = os_pgrp (w_os w) ->
  (forall pr, os_procs (w_os w) !! pid (svc_of i (w_sup w)) = Some pr ->
              os_procs (w_os w') !! pid (svc_of i (w_sup w)) = Some pr) ->
  slot_live w i -> slot_live w' i.
Proof.
  unfold slot_live, pgid_ok. intros Ep Eo Eg Hl Hs. rewrite Ep, Eo, Eg.
  intros Hne. destruct (Hs Hne) as [(pr & Hpr & Hg)|H]; [left|by right]. eauto.
Qed.

Lemma live_forkexecve svc argv fd : preserves live_inv (forkexecve svc argv fd).
Proof.
  intros w Hw. pose proof (inv_forkexecve svc argv fd w (live_sv _ Hw)) as Hsv'.
  destruct Hw as [Hsv Hg Ho Hs]. destruct (forkexecve_os svc argv fd w) as (Hp & Hq & Hn').
  pose proof Hsv as [[Hn _] Hmain Hlog Hd]. destruct Hg as (Hg1 & Hg2 & Hg3).
  pose proof (sup_forkexecve w Hn svc argv fd) as Hsup.
  set (w' := exec (forkexecve svc argv fd) w) in *.
  destruct (fork_fails (w_os w)) eqn:Hf.
  - constructor; [done | | rewrite Hsup; apply Ho |].
    + unfold pgrp_ok. rewrite Hp, Hq, Hn', Hsup. auto.
    + intros j. apply (slot_live_frame w); rewrite ?Hsup, ?Hq, ?Hp; auto.
  - assert (Hpids : forall j, pid (svc_of j (w_sup w)) < os_nextpid (w_os w))
      by (intros []; [apply Hmain | apply Hlog]).
    assert (Hnew : forall j, pid (svc_of j (w_sup w')) = pid (svc_of j (w_sup w)) \/
                             pid (svc_of j (w_sup w')) = os_nextpid (w_os w) /\ svc = Some j).
    { intros j. rewrite Hsup. destruct svc as [i|]; [|by left].
      destruct (decide (i = j)) as [<-|Hij].
      - right. by rewrite svc_of_map_svc_eq.
      - left. by rewrite svc_of_map_svc_ne. }
    assert (Hflags : flagorphanage (w_sup w') = flagorphanage (w_sup w) /\
                     flagstatus (svcmain (w_sup w')) = flagstatus (svcmain (w_sup w)))
      by (rewrite Hsup; destruct svc as [[]|]; done).
    constructor; [done | | rewrite (proj1 Hflags), (proj2 Hflags); apply Ho |].
    + unfold pgrp_ok. rewrite Hp, Hq, Hn'. split; [lia|]. split.
      * apply map_Forall_insert_2; [lia|]. exact Hg2.
      * intros j Hj. destruct (Hnew j) as [E|[E _]]; rewrite E in Hj |- *; [by apply Hg3 | lia].
    + intros j. destruct (Hnew j) as [E|[E Es]].
      * apply (slot_live_frame w); rewrite ?E, ?Hq; auto; [apply Hflags|].
        intros pr Hpr. rewrite Hp, lookup_insert_ne; [done|]. specialize (Hpids j). lia.
      * unfold slot_live, pgid_ok. cbv zeta. rewrite E, Hp, Hq, lookup_insert_eq. intros _. left.
        eexists; split; [reflexivity|]. unfold child_pgid. simpl. case_bool_decide; auto.
Qed.

Lemma live_notify i n c p : preserves live_inv (notify i n c p).
Proof. unfold notify. live_solve. apply live_forkexecve. Qed.

Lemma live_announce : preserves live_inv announce.
Proof. unfold announce. live_solve. Qed.

Lemma live_pidchange i n c p : preserves live_inv (pidchange i n c p).
Proof. unfold pidchange. live_solve; auto using live_notify, live_announce. Qed.

#[export] Hint Resolve live_forkexecve live_notify live_announce live_pidchange : live.

(** ** The state machine *)

Lemma live_trystart_launch i argv fd : preserves live_inv (trystart_launch i argv fd).
Proof. unfold trystart_launch. live_solve. Qed.
#[export] Hint Resolve live_trystart_launch : live.

Lemma live_trystart i : preserves live_inv (trystart i).
Proof. unfold trystart. live_solve. Qed.

Lemma live_trystop i : preserves live_inv (trystop i).
Proof. unfold trystop. live_solve. Qed.

Lemma live_killsvc i kg sg : preserves live_inv (killsvc i kg sg).
Proof. unfold killsvc. live_solve. Qed.

Lemma live_stopsvc i kg : preserves live_inv (stopsvc i kg).
Proof. unfold stopsvc. live_solve; apply live_killsvc. Qed.

#[export] Hint Resolve live_trystart live_trystop live_killsvc live_stopsvc : live.

(** ** The reaper

    A [waitpid] that reaps a child removes it from the table before the
    code clears the pid recorded for it: in between, the invariant holds
    except for the slots that record the reaped pid. *)

Definition live_except (p : Z) (w : world) : Prop :=
  sv_inv w /\ pgrp_ok w /\
  (flagstatus (svcmain (w_sup w)) = svstatus_orphanage -> flagorphanage (w_sup w) = true) /\
  forall i, pid (svc_of i (w_sup w)) = p \/ slot_live w i.

Lemma live_except_intro p w : live_inv w -> live_except p w.
Proof. intros [Hsv Hg Ho Hs]. split; [done|]. split; [done|]. split; [done|]. intros i. by right. Qed.

Lemma live_except_elim p w :
  live_except p w -> (forall i, pid (svc_of i (w_sup w)) = p -> slot_live w i) -> live_inv w.
Proof.
  intros (Hsv & Hg & Ho & Hs) H. constructor; auto.
  intros i. destruct (Hs i); auto.
Qed.

(** A pid that is 0 or no service's is harmless. *)
Lemma live_except_zero p w :
  live_except p w -> (p = 0 \/ forall i, pid (svc_of i (w_sup w)) <> p) -> live_inv w.
Proof.
  intros H Hp. apply (live_except_elim p); [done|]. intros i E.
  destruct Hp as [->|Hp]; [|by destruct (Hp i)]. unfold slot_live. cbv zeta. by rewrite E.
Qed.

Lemma waitpid_where_frame P o :
  os_pgrp (exec (waitpid_where P) o) = os_pgrp o /\
  os_nextpid (exec (waitpid_where P) o) = os_nextpid o /\
  os_control (exec (waitpid_where P) o) = os_control o.
Proof.
  unfold exec, waitpid_where. destruct (find_zombie P (os_procs o)) as [[]|]; [done|].
  by case_decide.
Qed.

(** The wait of the loop body: the reaped child [p], if any, may be
    recorded by a service. *)
Lemma live_wait P w :
  live_inv w ->
  live_except (eval (sys (waitpid_where P)) w).1.1 (exec (sys (waitpid_where P)) w).
Proof.
  intros Hw. pose proof (inv_sys _ (grows_waitpid P) w (live_sv _ Hw)) as Hsv'.
  rewrite eval_sys. rewrite exec_sys in *. pose proof (waitpid_where_cases P (w_os w)) as Hc.
  destruct (waitpid_where_frame P (w_os w)) as (Hg & Hn & _).
  destruct (eval (waitpid_where P) (w_os w)) as [[p ws] e]. simpl.
  destruct Hc as [(g & ws' & Hl & He & Hd & _)|[(_ & _ & E)|(_ & _ & E)]];
    [|rewrite E; apply live_except_intro; by destruct w..].
  destruct Hw as [Hsv [Hg1 [Hg2 Hg3]] Ho Hs].
  split; [done|]. split; [|split; [done|]].
  - unfold pgrp_ok. simpl. rewrite Hd, Hg, Hn. split; [done|]. split; [|done].
    by apply map_Forall_delete.
  - intros i. destruct (decide (pid (svc_of i (w_sup w)) = p)) as [E|E]; [by left|right].
    apply (slot_live_frame w); simpl; auto. intros pr Hpr. by rewrite Hd, lookup_delete_ne.
Qed.

(** An exit is classified as Failed, as Stopped, or left alone. *)
Lemma exit_class_range i v ws :
  exit_class i v ws = Some svstatus_failed \/ exit_class i v ws = Some svstatus_stopped \/
  exit_class i v ws = None.
Proof. unfold exit_class. repeat case_match; auto. Qed.

Lemma apply_exit_class_pid i ws v : pid (apply_exit_class i ws v) = 0.
Proof.
  unfold apply_exit_class. destruct (exit_class_range i (set_pid 0 v) ws) as [->|[->| ->]]; done.
Qed.

Lemma apply_exit_class_orph i ws v :
  flagstatus (apply_exit_class i ws v) = svstatus_orphanage -> flagstatus v = svstatus_orphanage.
Proof.
  unfold apply_exit_class. destruct (exit_class_range i (set_pid 0 v) ws) as [->|[->| ->]];
    done.
Qed.

(** Classifying the exit of the child recorded by [i] clears its pid:
    afterwards the invariant holds again. *)
Lemma live_classify i p ws w :
  live_except p w -> (forall j, pid (svc_of j (w_sup w)) = p -> j = i) ->
  live_inv (exec (reaper_classify i ws) w).
Proof.
  intros (Hsv & [Hg1 [Hg2 Hg3]] & Ho & Hs) Hp. rewrite exec_reaper_classify.
  assert (Hsv' : sv_inv (mk_world (map_svc i (apply_exit_class i ws) (w_sup w)) (w_os w))).
  { rewrite <- exec_upd_svc. apply (inv_upd_pid _ _ 0); auto using apply_exit_class_pid.
    - destruct Hsv as [[Hn _] _ _ _]. unfold pid_ok. lia. }
  assert (Hpid : forall j, pid (svc_of j (map_svc i (apply_exit_class i ws) (w_sup w))) = 0 \/
            (pid (svc_of j (map_svc i (apply_exit_class i ws) (w_sup w))) =
               pid (svc_of j (w_sup w)) /\ j <> i)).
  { intros j. destruct (decide (i = j)) as [<-|Hne].
    - left. by rewrite svc_of_map_svc_eq, apply_exit_class_pid.
    - right. by rewrite svc_of_map_svc_ne. }
  constructor; [done | | |].
  - split; [done|]. split; [done|]. intros j. simpl. destruct (Hpid j) as [->|[-> _]]; [done|].
    apply Hg3.
  - simpl. intros E. destruct i; simpl in *; apply Ho; [by apply apply_exit_class_orph in E|done].
  - intros j. destruct (Hpid j) as [E|[E Hne]].
    + unfold slot_live. cbv zeta. simpl. by rewrite E.
    + destruct (Hs j) as [E'|Hl]; [by apply Hp in E'|].
      apply (slot_live_frame w); auto. by destruct i.
Qed.

Lemma live_reaper_notify i p ws : preserves live_inv (reaper_notify i p ws).
Proof. unfold reaper_notify. live_solve. Qed.

Lemma live_reaper_decide i : preserves live_inv (reaper_decide i).
Proof. unfold reaper_decide. live_solve. Qed.

Lemma live_reaper_handle i p ws w :
  live_except p w -> (forall j, pid (svc_of j (w_sup w)) = p -> j = i) ->
  live_inv (exec (reaper_handle i p ws) w).
Proof.
  intros H Hp. unfold reaper_handle, reaper_exit. rewrite !exec_bind.
  apply live_reaper_decide, live_reaper_notify. by eapply live_classify.
Qed.

(** The exit the wait reported is handled without breaking the
    invariant, on every branch of [reaper_dispatch]. *)
Lemma live_dispatch p ws e w : live_except p w -> live_inv (exec (reaper_dispatch p ws e) w).
Proof.
  intros H. pose proof H as (Hsv & [Hg1 [Hg2 Hg3]] & Ho & Hs).
  pose proof Hsv as [_ Hmain Hlog Hd]. unfold pid_ok in Hmain, Hlog.
  unfold reaper_dispatch. case_decide as H0; [subst; apply (live_except_zero 0); auto|].
  autorewrite with sv_run. cbn [svc_of].
  destruct (flagorphanage (w_sup w) && bool_decide (p = pid (svcmain (w_sup w)))) eqn:Eo.
  - apply andb_prop in Eo as [Eo ?%bool_decide_eq_true]. subst p.
    autorewrite with sv_run. apply live_announce.
    apply (live_except_elim (pid (svcmain (w_sup w)))).
    + split; [rewrite <- exec_upd_svc; by apply (inv_upd Main (set_flagstatus _))|].
      split; [split; [done|]; split; [done|]; intros []; [exact (Hg3 Main) | exact (Hg3 Log)]|].
      split; [by intros _|].
      intros j. destruct (Hs j) as [E|Hl]; [left; by destruct j|right].
      apply (slot_live_frame w); [by destruct j | done | done | done | done].
    + intros j _. unfold slot_live. cbv zeta. intros _. by right.
  - autorewrite with sv_run. cbn [svc_of].
    pose proof (attribute_cases (pid (svcmain (w_sup w))) (pid (svclog (w_sup w))) p e) as Ha.
    destruct (attribute _ _ _ _) as [[]|].
    + autorewrite with sv_run. apply (live_reaper_handle _ p); [done|].
      intros [] E; [done|]. exfalso. simpl in E. destruct Ha as [Ha|Ha]; [|lia].
      apply H0. rewrite Ha. apply Hd. congruence.
    + autorewrite with sv_run. apply (live_reaper_handle _ p); [done|].
      intros [] E; [|done]. simpl in E. lia.
    + destruct (bool_decide (p = -1) && _); rewrite exec_ret;
        apply (live_except_zero p); auto; right; intros []; simpl; lia.
Qed.

(** The wait on an orphaned main service's group, if any. *)
Lemma live_wait_group w :
  live_inv w ->
  live_except (eval reaper_wait_group w).1.1 (exec reaper_wait_group w) /\
  ((eval reaper_wait_group w).1.1 > 0 -> flagorphanage (w_sup (exec reaper_wait_group w)) = true).
Proof.
  intros Hw. unfold reaper_wait_group. autorewrite with sv_run. cbn [svc_of].
  case_decide as Horph.
  - unfold waitpid_group. split; [apply (live_wait _ w Hw)|].
    intros _. rewrite exec_sys. apply (live_orph _ Hw), Horph.
  - autorewrite with sv_run. cbn. split; [|lia].
    apply live_except_intro. by destruct w.
Qed.

Lemma live_reaper_body : preserves live_inv reaper_body.
Proof.
  intros w Hw. unfold reaper_body. rewrite exec_bind.
  destruct (live_wait_group w Hw) as [H1 Ho1].
  set (w1 := exec reaper_wait_group w) in *.
  destruct (eval reaper_wait_group w) as [[p1 ws1] e1]. simpl in H1, Ho1 |- *.
  case_decide as Hp1.
  - rewrite exec_ret. apply (live_except_elim p1); [done|].
    intros i _. unfold slot_live. cbv zeta. intros _. right. by apply Ho1.
  - rewrite exec_bind. case_decide as Hz.
    + subst p1. apply (live_except_zero 0) in H1; [|by left].
      pose proof (live_wait (fun _ => true) w1 H1) as H2. unfold wait_nohang.
      destruct (eval (sys (waitpid_where (fun _ => true))) w1) as [[p ws] e] eqn:E.
      simpl in H2. by apply live_dispatch.
    + rewrite eval_ret, exec_ret. by apply live_dispatch.
Qed.

Lemma live_reaper_loop n : preserves live_inv (reaper_loop n).
Proof.
  induction n as [|n IH]; simpl; [apply preserves_ret|].
  apply preserves_bind; [apply live_reaper_body|]. intros []; [done | apply preserves_ret].
Qed.

Lemma live_reaper : preserves live_inv reaper.
Proof. intros w Hw. apply live_reaper_loop, Hw. Qed.

(** ** The controller and the event loop *)

Lemma live_command c st : preserves live_inv (command c st).
Proof. unfold command. destruct c as [[] [] [] [] [] [] [] []]; live_solve. Qed.

Lemma live_controller_loop n st : preserves live_inv (controller_loop n st).
Proof.
  revert st. induction n as [|n IH]; intros st; simpl; [apply preserves_ret|].
  apply preserves_bind; [eauto with live|]. intros [c|]; [|apply preserves_ret].
  apply preserves_bind; [apply live_command | done].
Qed.

Lemma live_controller : preserves live_inv controller.
Proof. intros w Hw. apply live_controller_loop, Hw. Qed.

#[export] Hint Resolve live_reaper live_controller : live.

Lemma live_doit_iter : preserves live_inv doit_iter.
Proof. unfold doit_iter, check_control, stop_log_if_exiting. live_solve. Qed.

(** ** Start-up *)

Lemma live_init o : fresh_os o -> live_inv (mk_world sup_init o).
Proof.
  intros Hf. pose proof (inv_init o Hf) as Hsv. destruct Hf as (Hp & Hg & _).
  constructor; [done | | done |].
  - split; [simpl; lia|]. split; [simpl; rewrite Hp; apply map_Forall_empty|]. by intros [].
  - intros [] Hne; simpl in Hne; lia.
Qed.

(** Setting [flagorphanage] at start-up, when it was clear and the main
    service was not Orphaned, only weakens the slots' condition. *)
Lemma live_set_orphanage b w :
  live_inv w -> flagorphanage (w_sup w) = false ->
  flagstatus (svcmain (w_sup w)) <> svstatus_orphanage ->
  live_inv (exec (modify_sup (set_flagorphanage b)) w).
Proof.
  intros [Hsv Hg Ho Hs] Hf Hm. rewrite exec_modify_sup. constructor; simpl.
  - apply (inv_modify (set_flagorphanage b)); [by intros | by destruct w].
  - exact Hg.
  - done.
  - intros i Hne. destruct (Hs i Hne) as [H|H]; [by left | congruence].
Qed.

Lemma live_supervise_start o su dir :
  fresh_os o -> live_inv (exec (supervise_start su dir) (mk_world sup_init o)).
Proof.
  intros Hf. unfold supervise_start, or_die, die. rewrite exec_bind, exec_sys, exec_bind.
  match goal with |- live_inv (exec ?m ?w') =>
    cut (preserves live_inv m); [intros Hm; apply Hm | live_solve] end.
  apply live_set_orphanage; [| done | done].
  rewrite exec_stat_exists. by apply live_init.
Qed.

(** ** The world's steps *)

Lemma stable_terminate : os_stable terminate.
Proof. unfold terminate, write_control. stable_prim. Qed.
Lemma stable_ttystop : os_stable ttystop.
Proof. unfold ttystop, write_control. stable_prim. Qed.
Lemma stable_resume : os_stable resume.
Proof. unfold resume, write_control. stable_prim. Qed.
Lemma stable_write_control bs : os_stable (write_control bs).
Proof. unfold write_control. stable_prim. Qed.

(** A new OS state with the same process group, a next pid no lower, and
    every child still present in its group. *)
Lemma live_os_frame w o' :
  live_inv w -> os_ok o' -> os_pgrp o' = os_pgrp (w_os w) ->
  os_nextpid (w_os w) <= os_nextpid o' ->
  map_Forall (fun k _ => os_pgrp o' < k) (os_procs o') ->
  (forall k pr, os_procs (w_os w) !! k = Some pr ->
     exists pr', os_procs o' !! k = Some pr' /\ pr_pgid pr' = pr_pgid pr) ->
  live_inv (mk_world (w_sup w) o').
Proof.
  intros [Hsv [Hg1 [Hg2 Hg3]] Ho Hs] Hok Hq Hn Hk Hl.
  destruct Hsv as [_ Hmain Hlog Hd]. constructor; simpl.
  - constructor; simpl; eauto using pid_ok_mono.
  - unfold pgrp_ok. simpl. rewrite Hq. split; [lia|]. split; [by rewrite <- Hq|]. exact Hg3.
  - exact Ho.
  - intros i Hne. destruct (Hs i Hne) as [(pr & Hpr & Hpg)|H]; [left|by right].
    destruct (Hl _ _ Hpr) as (pr' & Hpr' & E). exists pr'. split; [done|].
    unfold pgid_ok in *. simpl. by rewrite E, Hq.
Qed.

Lemma live_os_stable w o' :
  live_inv w -> os_procs o' = os_procs (w_os w) -> os_pgrp o' = os_pgrp (w_os w) ->
  os_nextpid o' = os_nextpid (w_os w) -> live_inv (mk_world (w_sup w) o').
Proof.
  intros Hw Hp Hq Hn. pose proof (live_sv _ Hw) as [[Hn0 Hk] _ _ _].
  pose proof (live_pgrp _ Hw) as [_ [Hg2 _]].
  apply live_os_frame; [done | | done | lia | | ].
  - unfold os_ok. by rewrite Hp, Hn.
  - by rewrite Hp, Hq.
  - intros k pr Hpr. exists pr. by rewrite Hp.
Qed.

Lemma live_env w o' : live_inv w -> env_step (w_os w) o' -> live_inv (mk_world (w_sup w) o').
Proof.
  destruct w as [sp o0]. cbn [w_os w_sup]. intros Hw Hs. pose proof (live_sv _ Hw) as [Hok _ _ _].
  destruct (env_grows _ _ Hs Hok) as [Hok' Hle].
  pose proof (live_pgrp _ Hw) as [Hg1 [Hg2 _]].
  destruct Hs as [o p g ws Hp|o g|o|o|o|o|o bs|o|o n _|o|o f].
  - destruct (stable_trigger (set_os_procs (<[p := mk_proc g (PZombie ws)]> (os_procs o)) o))
      as (T1 & T2 & T3).
    apply (live_os_frame (mk_world sp o)); [done | done | rewrite T2; reflexivity | exact Hle | |].
    + rewrite T1, T2. simpl. apply map_Forall_insert_2; [exact (Hg2 _ _ Hp) | exact Hg2].
    + intros k pr Hpr. simpl in Hpr. rewrite T1. simpl. destruct (decide (p = k)) as [<-|Hne].
      * rewrite lookup_insert_eq. eexists; split; [done|]. rewrite Hp in Hpr. by injection Hpr as <-.
      * rewrite lookup_insert_ne by done. eauto.
  - apply (live_os_frame (mk_world sp o)); [done | done | done | simpl; lia | |].
    + simpl. apply map_Forall_insert_2; [simpl in *; lia | exact Hg2].
    + intros k pr Hpr. simpl. rewrite lookup_insert_ne; [eauto|].
      destruct Hok as [_ Hk]. specialize (Hk _ _ Hpr). simpl in Hk. lia.
  - destruct (stable_terminate o) as (T1 & T2 & T3). by apply (live_os_stable (mk_world sp o)).
  - destruct (stable_terminate o) as (T1 & T2 & T3). by apply (live_os_stable (mk_world sp o)).
  - destruct (stable_ttystop o) as (T1 & T2 & T3). by apply (live_os_stable (mk_world sp o)).
  - destruct (stable_resume o) as (T1 & T2 & T3). by apply (live_os_stable (mk_world sp o)).
  - destruct (stable_write_control bs o) as (T1 & T2 & T3). by apply (live_os_stable (mk_world sp o)).
  - by apply (live_os_stable (mk_world sp o)).
  - by apply (live_os_stable (mk_world sp o)).
  - by apply (live_os_stable (mk_world sp o)).
  - by apply (live_os_stable (mk_world sp o)).
Qed.

Lemma live_sv_step w w' : sv_step w w' -> live_inv w -> live_inv w'.
Proof. intros [w0 _|w0 o' Henv] Hw; [by apply live_doit_iter | by apply live_env]. Qed.

Lemma live_star w w' : star sv_step w w' -> live_inv w -> live_inv w'.
Proof. induction 1; eauto using live_sv_step. Qed.

Lemma reachable_live w : reachable w -> live_inv w.
Proof.
  intros (o0 & su & dir & Hf & _ & Hs). eapply live_star; [exact Hs|].
  apply live_announce. by apply live_supervise_start.
Qed.

(** ** The spec's invariant in reachable states *)

(** C6: in every reachable state of a supervisor started without an
    "orphanage" file, each non-zero pid a service records is a child of
    the supervisor that has not been reaped yet, in its own process group
    or the supervisor's: a slot's pid is non-empty only while a child
    attributed to it exists. *)
Theorem reachable_pid_is_child w i :
  reachable w -> flagorphanage (w_sup w) = false -> pid (svc_of i (w_sup w)) <> 0 ->
  exists pr, os_procs (w_os w) !! pid (svc_of i (w_sup w)) = Some pr /\
    pgid_ok (w_os w) (pid (svc_of i (w_sup w))) pr.
Proof.
  intros Hr Ho Hp. destruct (live_slot _ (reachable_live w Hr) i Hp) as [H|H]; [exact H|congruence].
Qed.

Lemma reachable_pid_is_child_witness :
  reachable ex_started /\ flagorphanage (w_sup ex_started) = false /\
  pid (svc_of Main (w_sup ex_started)) <> 0 /\
  exists pr, os_procs (w_os ex_started) !! pid (svc_of Main (w_sup ex_started)) = Some pr /\
    pgid_ok (w_os ex_started) (pid (svc_of Main (w_sup ex_started))) pr.
Proof.
  assert (H2 : flagorphanage (w_sup ex_started) = false) by (vm_compute; reflexivity).
  assert (H3 : pid (svc_of Main (w_sup ex_started)) <> 0) by (vm_compute; discriminate).
  split; [exact ex_started_reachable|]. split; [exact H2|]. split; [exact H3|].
  exact (reachable_pid_is_child ex_started Main ex_started_reachable H2 H3).
Defined.

End Liveness.
