(* ===== verification/Safety.v ===== *)
(** * The signals the supervisor sends

    [kill] is called in two places of supervise.c: [killsvc] (line 264,
    [kill(svc->pid * groupflag, signo)]) and the unlink check of [doit]
    (lines 433-436, [kill(-svc->pid, SIGKILL)]). A target of 0 would
    signal the supervisor's own process group, -1 every process it may
    signal, and 1 [init]. [kills_ok] says that every [kill] in the trace
    has a target whose absolute value is above the supervisor's process
    group (itself above 0), so none of these: the code guards each call by
    [pid != 0], [groupflag] is always 1 or -1, and a recorded pid is a
    child's, above the group ([Liveness.pgrp_ok]). The reaper and the
    launcher send no signal at all ([kills_free]); the controller, the
    unlink check and the stopping of the log service keep [kills_ok] in
    the states where [Liveness.live_inv] holds ([kills_keep]). *)

From S2P Require Import Prelude Status Os Launch Service Reaper Controller Loop Invariant Liveness.

Open Scope Z_scope.

Module Safety.
Import Status Os Launch Service Reaper Controller Loop Invariant Liveness.

Definition kill_safe (g : Z) (e : event) : Prop :=
  match e with
  | ev_kill t _ => g < Z.abs t
  | _ => True
  end.

Definition kills_ok (o : os) : Prop := Forall (kill_safe (os_pgrp o)) (os_trace o).

(** An OS call that sends no signal and keeps the process group. *)
Definition kf_os {A} (m : ST os A) : Prop := forall o, kills_ok o -> kills_ok (exec m o).

(** A computation that sends no signal. *)
Definition kills_free {A} (m : M A) : Prop :=
  forall w, kills_ok (w_os w) -> kills_ok (w_os (exec m w)).

(** A computation whose signals are safe from the states of [live_inv]. *)
Definition kills_keep {A} (m : M A) : Prop :=
  forall w, live_inv w -> kills_ok (w_os w) -> kills_ok (w_os (exec m w)).

Create HintDb kill discriminated.
#[export] Hint Constants Opaque : kill.

(** ** Computations that send no signal *)

Ltac kf_prim :=
  intros [] H; unfold kills_ok in *;
  unfold exec, log_event, st_modify, st_gets, deepsleep, trigger, write_selfpipe, mbind, st_bind,
    strerr_warn, seek_begin, write_status, sys_fork, read_control, drain_selfpipe,
    truncate_status, fstat_control_nlink, stat_isexec, stat_exists, taia_now;
  cbn in *;
  repeat match goal with
  | |- context [match ?l with [] => _ | _ :: _ => _ end] => destruct l as [|[] ?]
  | |- context [match ?l with [] => _ | _ :: _ => _ end] => destruct l
  end; cbn; repeat constructor; assumption.

Lemma kf_seek : kf_os seek_begin.
Proof. kf_prim. Qed.
Lemma kf_write b : kf_os (write_status b).
Proof. kf_prim. Qed.
Lemma kf_warn m : kf_os (strerr_warn m).
Proof. kf_prim. Qed.
Lemma kf_fork a ss r : kf_os (sys_fork a ss r).
Proof. kf_prim. Qed.
Lemma kf_sleep n : kf_os (deepsleep n).
Proof. kf_prim. Qed.
Lemma kf_trigger : kf_os trigger.
Proof. kf_prim. Qed.
Lemma kf_isexec p : kf_os (stat_isexec p).
Proof. kf_prim. Qed.
Lemma kf_exists p : kf_os (stat_exists p).
Proof. kf_prim. Qed.
Lemma kf_now : kf_os taia_now.
Proof. kf_prim. Qed.
Lemma kf_gets {A} (f : os -> A) : kf_os (st_gets f).
Proof. kf_prim. Qed.
Lemma kf_drain : kf_os drain_selfpipe.
Proof. kf_prim. Qed.
Lemma kf_read : kf_os read_control.
Proof. kf_prim. Qed.
Lemma kf_truncate : kf_os truncate_status.
Proof. kf_prim. Qed.
Lemma kf_nlink : kf_os fstat_control_nlink.
Proof. kf_prim. Qed.

Lemma kf_waitpid P : kf_os (waitpid_where P).
Proof.
  intros o H. unfold waitpid_where, exec. destruct (find_zombie _ _) as [[p ws]|]; [exact H|].
  case_decide; exact H.
Qed.

Lemma kf_waitpid_group a : kf_os (waitpid_group a).
Proof. intros o. apply (kf_waitpid _ o). Qed.

Lemma kills_free_sys {A} (m : ST os A) : kf_os m -> kills_free (sys m).
Proof. intros H w Hw. rewrite exec_sys. apply H, Hw. Qed.

Lemma kills_free_bind {A B} (m : M A) (k : A -> M B) :
  kills_free m -> (forall a, kills_free (k a)) -> kills_free (m ≫= k).
Proof. intros Hm Hk w Hw. rewrite exec_bind. apply Hk, Hm, Hw. Qed.

Lemma kills_free_ret {A} (a : A) : kills_free (mret a : M A).
Proof. by intros w. Qed.
Lemma kills_free_gets {A} (f : sup -> A) : kills_free (gets_sup f).
Proof. by intros w. Qed.
Lemma kills_free_get i : kills_free (get_svc i).
Proof. by intros w. Qed.
Lemma kills_free_modify f : kills_free (modify_sup f).
Proof. intros w. by rewrite exec_modify_sup. Qed.
Lemma kills_free_upd i f : kills_free (upd_svc i f).
Proof. intros w. by rewrite exec_upd_svc. Qed.
Lemma kills_free_when c (m : M ()) : kills_free m -> kills_free (st_when c m).
Proof. destruct c; [done|]. by intros _ w. Qed.

#[export] Hint Resolve kf_seek kf_write kf_warn kf_fork kf_sleep kf_trigger kf_isexec kf_exists
  kf_now kf_gets kf_drain kf_read kf_truncate kf_nlink kf_waitpid kf_waitpid_group
  kills_free_sys kills_free_ret kills_free_gets kills_free_get kills_free_modify
  kills_free_upd kills_free_when : kill.

#[export] Instance kills_free_closed : CodeClosed (@kills_free).
Proof. split; intros; [apply kills_free_ret | by apply kills_free_bind]. Qed.

(** Splits a [kills_free] goal along the code. *)
Ltac kf_solve := code_split; eauto with kill.

Lemma kills_free_announce : kills_free announce.
Proof. unfold announce. kf_solve. Qed.
Lemma kills_free_forkexecve svc argv fd : kills_free (forkexecve svc argv fd).
Proof. unfold forkexecve. kf_solve. Qed.
#[export] Hint Resolve kills_free_announce kills_free_forkexecve : kill.
Lemma kills_free_notify i n c p : kills_free (notify i n c p).
Proof. unfold notify. kf_solve. Qed.
#[export] Hint Resolve kills_free_notify : kill.
Lemma kills_free_pidchange i n c p : kills_free (pidchange i n c p).
Proof. unfold pidchange. kf_solve. Qed.
#[export] Hint Resolve kills_free_pidchange : kill.
Lemma kills_free_trystart_launch i argv fd : kills_free (trystart_launch i argv fd).
Proof. unfold trystart_launch. kf_solve. Qed.
#[export] Hint Resolve kills_free_trystart_launch : kill.
Lemma kills_free_trystart i : kills_free (trystart i).
Proof. unfold trystart. kf_solve. Qed.
Lemma kills_free_trystop i : kills_free (trystop i).
Proof. unfold trystop. kf_solve. Qed.
#[export] Hint Resolve kills_free_trystart kills_free_trystop : kill.

(** ** The reaper sends no signal *)

Lemma kills_free_reaper_body : kills_free reaper_body.
Proof.
  unfold reaper_body, reaper_wait_group, reaper_dispatch, reaper_handle, reaper_exit,
    reaper_classify, reaper_notify, reaper_decide, wait_nohang.
  kf_solve.
Qed.

Lemma kills_free_reaper_loop n : kills_free (reaper_loop n).
Proof.
  induction n as [|n IH]; simpl; [apply kills_free_ret|].
  apply kills_free_bind; [apply kills_free_reaper_body | intros []; [exact IH | apply kills_free_ret]].
Qed.

Lemma kills_free_reaper : kills_free reaper.
Proof.
  intros w H. change (exec reaper w) with (exec (reaper_loop (reaper_fuel w)) w).
  apply kills_free_reaper_loop, H.
Qed.

(** ** Signals sent from the states of [live_inv] *)

Lemma kills_keep_free {A} (m : M A) : kills_free m -> kills_keep m.
Proof. intros H w _. apply H. Qed.

Lemma kills_keep_bind {A B} (m : M A) (k : A -> M B) :
  kills_keep m -> preserves live_inv m -> (forall a, kills_keep (k a)) -> kills_keep (m ≫= k).
Proof. intros Hm Hl Hk w Hw H. rewrite exec_bind. apply Hk; [apply Hl, Hw | apply Hm; done]. Qed.

(** A bind whose continuation needs a property of the first result. *)
Lemma kills_keep_bind_eval {A B} (P : A -> Prop) (m : M A) (k : A -> M B) :
  kills_keep m -> preserves live_inv m -> (forall w, P (eval m w)) ->
  (forall a, P a -> kills_keep (k a)) -> kills_keep (m ≫= k).
Proof.
  intros Hm Hl HP Hk w Hw H. rewrite exec_bind. apply Hk; [apply HP | apply Hl, Hw | apply Hm; done].
Qed.

Lemma kills_keep_when c (m : M ()) : kills_keep m -> kills_keep (st_when c m).
Proof. destruct c; [done|]. by intros _ w. Qed.

Lemma kills_ok_kill o t sg :
  os_pgrp o < Z.abs t -> kills_ok o -> kills_ok (exec (sys_kill t sg) o).
Proof. intros Ht H. by constructor. Qed.

(** The pid of a service that has one is above the process group. *)
Lemma live_pid_above w i :
  live_inv w -> pid (svc_of i (w_sup w)) <> 0 -> os_pgrp (w_os w) < pid (svc_of i (w_sup w)).
Proof. intros Hl. apply (live_pgrp _ Hl). Qed.

(** [killsvc] with a group flag of 1 or -1 signals [pid] or [-pid]. *)
Lemma kills_keep_killsvc i kg sg : kg = 1 \/ kg = -1 -> kills_keep (killsvc i kg sg).
Proof.
  intros Hkg w Hl Hk. unfold killsvc, st_when. autorewrite with sv_run.
  destruct (bool_decide _ && _) eqn:E; autorewrite with sv_run; [|exact Hk].
  apply andb_true_iff in E as [E _]. apply bool_decide_eq_true_1 in E.
  apply kills_ok_kill; [|exact Hk].
  pose proof (live_pid_above w i Hl E). pose proof (proj1 (live_pgrp _ Hl)).
  destruct Hkg as [-> | ->]; lia.
Qed.

Lemma kills_keep_stopsvc i kg : kg = 1 \/ kg = -1 -> kills_keep (stopsvc i kg).
Proof.
  intros Hkg. unfold stopsvc.
  apply kills_keep_bind; [by apply kills_keep_killsvc | apply live_killsvc | intros _].
  apply kills_keep_bind; [by apply kills_keep_killsvc | apply live_killsvc | intros _].
  apply kills_keep_free. kf_solve.
Qed.

(** Splits a [kills_keep] goal along the code. *)
Ltac ks_solve :=
  repeat match goal with
  | |- kills_keep (killsvc _ _ _) =>
      apply kills_keep_killsvc; first [assumption | left; reflexivity | right; reflexivity]
  | |- kills_keep (stopsvc _ _) =>
      apply kills_keep_stopsvc; first [assumption | left; reflexivity | right; reflexivity]
  | |- kills_keep (_ ≫= _) => apply kills_keep_bind; [| solve [live_solve] | intros ?]
  | |- kills_keep (if ?c then _ else _) => destruct c
  | |- kills_keep (match ?c with _ => _ end) => destruct c
  | |- kills_keep (st_when _ _) => apply kills_keep_when
  | |- kills_keep _ => apply kills_keep_free; solve [kf_solve]
  end.

(** ** The controller, the unlink check and an iteration of [doit] *)

(** The group flag of a selection: 1, or -1 after '+'. *)
Definition kg_ok (st : selection) : Prop := sel_killgroup st = 1 \/ sel_killgroup st = -1.

Lemma kills_keep_command c st : kg_ok st -> kills_keep (command c st).
Proof.
  unfold kg_ok. intros Hkg.
  destruct c as [[] [] [] [] [] [] [] []]; unfold command;
    cbv beta iota zeta delta [signal_of_cmd]; ks_solve.
Qed.

Lemma command_kg_ok c st w : kg_ok st -> kg_ok (eval (command c st) w).
Proof.
  unfold kg_ok. intros Hkg.
  destruct c as [[] [] [] [] [] [] [] []]; unfold command;
    cbv beta iota zeta delta [signal_of_cmd]; autorewrite with sv_run;
    first [exact Hkg | left; reflexivity | right; reflexivity | idtac].
Qed.

(** C16: the controller's [killgroup], a C [int], only ever holds 1 or -1:
    from a selection whose group flag is 1 or -1, every sequence of
    command bytes leaves one; so [kill(svc->pid * killgroup, ...)]
    addresses the process or its group, never 0. *)
Theorem run_commands_kg_ok cs st w : kg_ok st -> kg_ok (eval (run_commands cs st) w).
Proof.
  revert st w. induction cs as [|c cs IH]; intros st w H; simpl; autorewrite with sv_run; [done|].
  by apply IH, command_kg_ok.
Qed.

Lemma run_commands_kg_ok_witness :
  kg_ok sel_init /\ kg_ok (eval (run_commands ["+"; "L"; "d"]%char sel_init) ex_world).
Proof.
  assert (H : kg_ok sel_init) by (left; reflexivity).
  split; [exact H | exact (run_commands_kg_ok _ sel_init ex_world H)].
Defined.

Lemma kills_keep_controller_loop n st : kg_ok st -> kills_keep (controller_loop n st).
Proof.
  revert st. induction n as [|n IH]; intros st Hkg; simpl; [by apply kills_keep_free; kf_solve|].
  apply kills_keep_bind; [by apply kills_keep_free; kf_solve | by apply live_sys, stable_read |].
  intros [c|]; [|by apply kills_keep_free; kf_solve].
  apply (kills_keep_bind_eval kg_ok); [by apply kills_keep_command | apply live_command | |].
  - intros w. by apply command_kg_ok.
  - intros st' Hst'. by apply IH.
Qed.

Lemma kills_keep_controller : kills_keep controller.
Proof.
  intros w Hl Hk.
  change (exec controller w)
    with (exec (controller_loop (S (length (os_control (w_os w)))) sel_init) w).
  apply kills_keep_controller_loop; [left; reflexivity | exact Hl | exact Hk].
Qed.

Lemma kills_keep_check_control : kills_keep check_control.
Proof.
  intros [s o] Hl Hk.
  pose proof (live_pid_above _ Main Hl) as Hm. pose proof (live_pid_above _ Log Hl) as Hg.
  pose proof (proj1 (live_pgrp _ Hl)) as Hp. cbn [w_sup w_os] in *.
  unfold check_control, st_when. autorewrite with sv_run. cbn [w_sup w_os].
  change (exec fstat_control_nlink o) with o.
  destruct (bool_decide _); autorewrite with sv_run; cbn [w_sup w_os]; [|exact Hk].
  destruct (bool_decide (pid (svc_of Main s) <> 0)) eqn:E1; autorewrite with sv_run;
    cbn [w_sup w_os]; [apply bool_decide_eq_true_1 in E1; specialize (Hm E1)|];
    (destruct (bool_decide (pid (svc_of Log s) <> 0)) eqn:E2; autorewrite with sv_run;
     cbn [w_sup w_os]; [apply bool_decide_eq_true_1 in E2; specialize (Hg E2)|]);
  repeat (apply kills_ok_kill; [cbn in *; lia|]); exact Hk.
Qed.


Lemma kills_keep_stop_log : kills_keep stop_log_if_exiting.
Proof. unfold stop_log_if_exiting. ks_solve. Qed.

Lemma live_check_control : preserves live_inv check_control.
Proof. unfold check_control. live_solve. Qed.

Lemma kills_keep_doit_iter : kills_keep doit_iter.
Proof.
  unfold doit_iter.
  apply kills_keep_bind; [by apply kills_keep_free; kf_solve | by apply live_sys, stable_drain |
    intros _].
  apply kills_keep_bind; [apply kills_keep_free, kills_free_reaper | apply live_reaper | intros _].
  apply kills_keep_bind; [apply kills_keep_check_control | apply live_check_control | intros _].
  apply kills_keep_bind; [apply kills_keep_controller | apply live_controller | intros _].
  apply kills_keep_stop_log.
Qed.

(** The world sends no signal on the supervisor's behalf. *)
Lemma kills_env o o' : env_step o o' -> kills_ok o -> kills_ok o'.
Proof. intros []; unfold kills_ok; cbn; done. Qed.

Lemma kills_sv_step w w' : sv_step w w' -> live_inv w -> kills_ok (w_os w) -> kills_ok (w_os w').
Proof.
  intros [w0 _|w0 o' He] Hl Hk; [by apply kills_keep_doit_iter | exact (kills_env _ _ He Hk)].
Qed.

Lemma kills_free_start su dir : kills_free (supervise_start su dir).
Proof. unfold supervise_start, or_die, die. kf_solve. Qed.

(** ** Every signal of a reachable state is safe *)

Lemma reachable_kills_ok w : reachable w -> kills_ok (w_os w).
Proof.
  intros (o0 & su & dir & Hf & _ & Hs).
  assert (L : live_inv (exec doit_enter (exec (supervise_start su dir) (mk_world sup_init o0))))
    by (apply live_announce, live_supervise_start, Hf).
  assert (K : kills_ok (w_os (exec doit_enter (exec (supervise_start su dir)
                                                      (mk_world sup_init o0))))).
  { apply kills_free_announce, kills_free_start. unfold kills_ok. cbn [w_os].
    destruct Hf as (_ & _ & ->). constructor. }
  revert L K. induction Hs as [a|a b c Hab _ IH]; intros L K; [exact K|].
  apply IH; [exact (live_sv_step _ _ Hab L) | exact (kills_sv_step _ _ Hab L K)].
Qed.

(** C15: in every reachable state, every signal the supervisor has sent
    (by [killsvc] or by the unlink check) went to a target whose absolute
    value is above its own process group: never to 0 (its own group), to
    -1 (every process), to 1 ([init]), nor to its own group. *)
Theorem reachable_kills_safe w :
  reachable w ->
  kills_ok (w_os w) /\
  forall t sg, ev_kill t sg ∈ os_trace (w_os w) ->
    t <> 0 /\ t <> 1 /\ t <> -1 /\ Z.abs t <> os_pgrp (w_os w).
Proof.
  intros Hr. pose proof (reachable_kills_ok w Hr) as Hk.
  pose proof (proj1 (live_pgrp _ (reachable_live w Hr))) as Hp.
  split; [exact Hk|]. intros t sg Hin.
  pose proof (proj1 (Forall_forall _ _) Hk _ Hin) as Ht. cbn in Ht. lia.
Qed.

Lemma reachable_kills_safe_witness : reachable ex_started /\ kills_ok (w_os ex_started).
Proof.
  split; [exact ex_started_reachable | exact (proj1 (reachable_kills_safe _ ex_started_reachable))].
Defined.

End Safety.
