(* ===== verification/Main.v ===== *)
(** * [main] and the run of [doit]

    [supervise_main] is [main] (supervise.c lines 447-545): the argument
    check, the setup calls before the orphanage check (each a fatal exit
    when it fails), [supervise_start] (lines 486-533), then [doit] and the
    final [announce] before [_exit(0)]. [doit] (lines 398-446) is
    [doit_loop]: before each iteration the world makes the moves of one
    entry of a schedule, the moves [Os.env_step] allows, while the
    supervisor waits in [iopause]. The theorems show the fatal paths of
    [main] (usage, setup failures, orphanage with a log) and that every
    run of [doit_loop] stays among the reachable states of [Invariant]. *)

From S2P Require Import Prelude Status Os Launch Service Reaper Controller Loop Invariant.

Open Scope Z_scope.

Module Main.
Import Status Os Launch Service Reaper Controller Loop Invariant.

(** ** The world's moves while the supervisor waits *)

(** One move of the world, as data: the cases of [env_step]. *)
Inductive env_move :=
| MvExit (p ws : Z)       (** the running child [p] exits with status [ws] *)
| MvAdopt (g : Z)         (** a descendant in group [g] is adopted *)
| MvTerm | MvInt | MvTstp | MvCont
| MvCommand (bytes : list ascii)
| MvUnlink
| MvTick (n : Z)
| MvForkFault
| MvStatusFault (f : wfault).

(** The move on an OS state; a move whose condition does not hold (the
    child is not running, time going back) does nothing. *)
Definition apply_move (mv : env_move) (o : os) : os :=
  match mv with
  | MvExit p ws =>
      match os_procs o !! p with
      | Some (mk_proc g PRunning) =>
          exec trigger (set_os_procs (<[p := mk_proc g (PZombie ws)]> (os_procs o)) o)
      | _ => o
      end
  | MvAdopt g =>
      set_os_nextpid (os_nextpid o + 1)
        (set_os_procs (<[os_nextpid o := mk_proc g PRunning]> (os_procs o)) o)
  | MvTerm | MvInt => exec terminate o
  | MvTstp => exec ttystop o
  | MvCont => exec resume o
  | MvCommand bs => exec (write_control bs) o
  | MvUnlink => set_os_control_nlink 0 o
  | MvTick n => if decide (0 <= n) then set_os_clock (taia_add_sec (os_clock o) n) o else o
  | MvForkFault => set_os_forkfail (os_forkfail o ++ [true]) o
  | MvStatusFault f => set_os_statusfault (os_statusfault o ++ [f]) o
  end.

Definition apply_moves (mvs : list env_move) (o : os) : os :=
  foldl (fun o mv => apply_move mv o) o mvs.

(** ** [doit] (lines 398-446)

    [if (flagexit && !svcmain.pid && !svclog.pid) return;], then the
    wait, during which the world makes the moves of the schedule's next
    entry, then the body of the iteration. [false] when the schedule ends
    first. *)
Fixpoint doit_loop (sched : list (list env_move)) : M bool :=
  s ← gets_sup id;
  if doit_done s then mret true
  else
    match sched with
    | [] => mret false
    | mvs :: sched' =>
        sys (st_modify (apply_moves mvs));;
        doit_iter;;
        doit_loop sched'
    end.

(** ** [main] (lines 447-545) *)

(** Lines 457-484 succeed: the self-pipe, the directory, the control path,
    memory for its names, its directory and the lock. *)
Definition setup_ok (su : setup) : bool :=
  su_selfpipe su && su_chdir su && su_svpath su && su_mem su
  && bool_decide (su_mkdir su <> MkFail) && su_lock su.

(** [Some code] when [main] exits within the schedule. *)
Definition supervise_main (argv : list string) (su : setup) (sched : list (list env_move))
    : M (option Z) :=
  match argv with
  | [_; dir] =>
      or_die (su_selfpipe su) 111 ("unable to create pipe for " ++ dir)%string (
      or_die (su_chdir su) 111 ("unable to chdir to " ++ dir)%string (
      or_die (su_svpath su) 111 ("unable to setup control path for " ++ dir)%string (
      or_die (su_mem su) 111 "unable to allocate memory" (
      or_die (bool_decide (su_mkdir su <> MkFail)) 111 ("unable to create " ++ su_svdir su)%string (
      or_die (su_lock su) 111 ("unable to acquire " ++ su_svdir su ++ "/lock")%string (
      r ← supervise_start su dir;
      match r with
      | Some c => mret (Some c)
      | None =>
          doit_enter;;
          done ← doit_loop sched;
          if (done : bool) then announce;; mret (Some 0) else mret None
      end))))))
  | _ => die 100 "supervise: usage: supervise dir"
  end.

(** ** Runs of [doit] are paths of the step relation *)

Lemma star_trans {A} (R : A -> A -> Prop) a b c : star R a b -> star R b c -> star R a c.
Proof. induction 1; eauto using star_step. Qed.

Lemma env_star_sv s o o' : star env_step o o' -> star sv_step (mk_world s o) (mk_world s o').
Proof.
  induction 1 as [|a b c H _ IH]; [apply star_refl|].
  eapply star_step; [apply (sv_env (mk_world s a)); exact H | exact IH].
Qed.

Ltac one_env_step := eapply star_step; [econstructor; eauto | apply star_refl].

Lemma apply_move_star mv o : star env_step o (apply_move mv o).
Proof.
  destruct mv as [p ws| g | | | | | bs | | n | | f]; simpl; try one_env_step.
  - destruct (os_procs o !! p) as [[g []]|] eqn:E; [one_env_step | apply star_refl..].
  - case_decide; [one_env_step | apply star_refl].
Qed.

Lemma apply_moves_star mvs o : star env_step o (apply_moves mvs o).
Proof.
  revert o. induction mvs as [|mv mvs IH]; intros o; [apply star_refl|].
  eapply star_trans; [apply apply_move_star | apply IH].
Qed.

Lemma reachable_star w w' : reachable w -> star sv_step w w' -> reachable w'.
Proof.
  intros (o0 & su & dir & Hf & He & Hs) H. exists o0, su, dir.
  split; [done|]. split; [done|]. eapply star_trans; [exact Hs | exact H].
Qed.

(** One pass of [doit_loop]: the world's moves, then the body. *)
Lemma reachable_doit_pass w mvs :
  reachable w -> doit_done (w_sup w) = false ->
  reachable (exec doit_iter (mk_world (w_sup w) (apply_moves mvs (w_os w)))).
Proof.
  intros Hr Hd. eapply reachable_star; [exact Hr|].
  apply (star_trans _ _ (mk_world (w_sup w) (apply_moves mvs (w_os w)))).
  - destruct w as [s o]. apply env_star_sv, apply_moves_star.
  - eapply star_step; [apply sv_iter; exact Hd | apply star_refl].
Qed.

(** ** The fatal paths of [main] *)

(** C21: [main] with no directory argument, or with more than one, prints
    the usage message and exits with code 100, having done nothing else:
    no process, no file, no change of the globals. *)
Theorem main_usage argv su sched w :
  length argv <> 2%nat ->
  supervise_main argv su sched w =
    (Some 100, mk_world (w_sup w) (exec (strerr_warn "supervise: usage: supervise dir") (w_os w))).
Proof. intros H. destruct argv as [|a [|d [|x l]]]; simpl in H; try lia; reflexivity. Qed.

(** C19: when one of the setup calls before the orphanage check fails (the
    self-pipe, chdir, the control path, memory, mkdir of the control
    directory, the lock), [main] prints one message and exits with code
    111 before it looks at the service directory: nothing else changes. *)
Theorem main_setup_fatal a dir su sched w :
  setup_ok su = false ->
  exists msg, supervise_main [a; dir] su sched w =
    (Some 111, mk_world (w_sup w) (exec (strerr_warn msg) (w_os w))).
Proof.
  unfold setup_ok, supervise_main, or_die. intros H.
  destruct (su_selfpipe su), (su_chdir su), (su_svpath su), (su_mem su), (su_mkdir su), (su_lock su);
    simpl in H; try discriminate; eexists; reflexivity.
Qed.

(** C20: a service directory with an "orphanage" file and an executable
    "log" is refused: once the setup has succeeded, [main] sets orphanage
    mode, creates the log pipe, then prints that the two are mutually
    exclusive and exits with code 111, before any process is started and
    before the status file is opened. *)
Theorem orphanage_log_exclusive a dir su sched w :
  setup_ok su = true -> su_subreaper su = true -> su_logpipe su = true ->
  stat_exists_k (file_kind (w_os w) "orphanage") <> 0 ->
  stat_isexec_k (file_kind (w_os w) "log") > 0 ->
  supervise_main [a; dir] su sched w =
    (Some 111, mk_world (set_flagorphanage true (w_sup w))
                 (exec (strerr_warn "orphanage and log are mutually exclusive") (w_os w))).
Proof.
  unfold setup_ok. intros Hs Hr Hl Ho Hg. rewrite !andb_true_iff in Hs.
  destruct Hs as [[[[[H1 H2] H3] H4] H5] H6].
  unfold supervise_main, or_die. rewrite H1, H2, H3, H4, H5, H6.
  unfold supervise_start, or_die. rewrite Hr, Hl.
  destruct w as [s o]. unfold mbind, st_bind, sys, die. cbn -[file_kind stat_exists_k stat_isexec_k].
  rewrite (bool_decide_eq_true_2 _ Ho), orb_true_r.
  rewrite decide_True by done. reflexivity.
Qed.

(** ** A run of [main] *)

(** SIGTERM arrives, then the main service dies of it. *)
Definition ex_sched : list (list env_move) := [[MvTerm]; [MvExit 100 15]].

Lemma main_usage_witness :
  length ["supervise"]%string <> 2%nat /\
  eval (supervise_main ["supervise"]%string ex_setup ex_sched) (mk_world sup_init ex_os) = Some 100.
Proof.
  assert (H : length ["supervise"]%string <> 2%nat) by (simpl; lia).
  split; [exact H|]. unfold eval. by rewrite (main_usage _ ex_setup ex_sched _ H).
Defined.

Definition ex_nolock : setup :=
  mk_setup true true true true "supervise" MkExists false true true true true true true.

Lemma main_setup_fatal_witness :
  setup_ok ex_nolock = false /\
  exists msg, supervise_main ["supervise"; "/service/x"]%string ex_nolock ex_sched
                (mk_world sup_init ex_os) =
    (Some 111, mk_world sup_init (exec (strerr_warn msg) ex_os)).
Proof.
  assert (H : setup_ok ex_nolock = false) by reflexivity.
  split; [exact H | exact (main_setup_fatal _ _ ex_nolock ex_sched (mk_world sup_init ex_os) H)].
Defined.

(** A directory with both an "orphanage" file and an executable "log". *)
Definition ex_orph_log_os : os :=
  set_os_files (<["orphanage" := FReg false]> (<["log" := FReg true]> (os_files ex_os))) ex_os.

Lemma orphanage_log_exclusive_witness :
  setup_ok ex_setup = true /\ su_subreaper ex_setup = true /\ su_logpipe ex_setup = true /\
  stat_exists_k (file_kind ex_orph_log_os "orphanage") <> 0 /\
  stat_isexec_k (file_kind ex_orph_log_os "log") > 0 /\
  eval (supervise_main ["supervise"; "/service/x"]%string ex_setup ex_sched)
    (mk_world sup_init ex_orph_log_os) = Some 111.
Proof.
  assert (H1 : setup_ok ex_setup = true) by reflexivity.
  assert (H2 : su_subreaper ex_setup = true) by reflexivity.
  assert (H3 : su_logpipe ex_setup = true) by reflexivity.
  assert (H4 : stat_exists_k (file_kind ex_orph_log_os "orphanage") <> 0)
    by (vm_compute; discriminate).
  assert (H5 : stat_isexec_k (file_kind ex_orph_log_os "log") > 0) by (vm_compute; reflexivity).
  do 5 (split; [assumption|]). unfold eval.
  by rewrite (orphanage_log_exclusive _ _ ex_setup ex_sched (mk_world sup_init ex_orph_log_os)
                H1 H2 H3 H4 H5).
Defined.

(** The whole run: start-up spawns ./run as pid 100, SIGTERM is folded
    into "dx", the service is sent SIGTERM and SIGCONT, it dies, the
    reaper marks it stopped, and [main] exits with code 0. *)
Lemma main_sigterm_exits :
  eval (supervise_main ["supervise"; "/service/x"]%string ex_setup ex_sched)
    (mk_world sup_init ex_os) = Some 0.
Proof. vm_compute. reflexivity. Qed.

(** A state the iteration leaves unchanged, with the world idle, is kept
    forever by [doit_loop]. *)
Lemma doit_loop_idle w n :
  doit_done (w_sup w) = false -> exec doit_iter w = w ->
  eval (doit_loop (repeat [] n)) w = false /\ exec (doit_loop (repeat [] n)) w = w.
Proof.
  intros Hd Hf. induction n as [|n IH]; cbn [repeat doit_loop]; autorewrite with sv_run;
    cbn [id]; rewrite Hd; autorewrite with sv_run; [done|].
  replace (mk_world (w_sup w) (apply_moves [] (w_os w))) with w by (by destruct w).
  rewrite Hf. exact IH.
Qed.

End Main.
