(* ===== verification/Exit.v ===== *)
(** * Leaving [doit] after a SIGTERM

    [doit] (lines 398-446) returns once [flagexit] is set and neither
    service records a pid. [Pending.exit_stalls_failed_main] shows that the
    command 'x' alone may never get there; this file shows that the SIGTERM
    handler's "dx" (lines 93-98, [Os.terminate]) always can: from every
    reachable state of a supervisor started without an "orphanage" file,
    there is a schedule of the world, a SIGTERM followed by the exits of
    the processes the services record, after which [doit_loop] returns.

    The argument is a measure on the globals ([exit_measure]): the number
    of services that record a pid, plus one while the main service may
    still run its ./stop script ([ranstop] clear). Once [flagexit] is set,
    nothing starts a service (the reaper's [trystart] is guarded by
    [!flagexit], line 319), and [trystop] runs ./stop at most once before
    setting [ranstop]; so each iteration in which one recorded process
    exits lowers the measure. The flags [flagexit] (once set) and
    [flagorphanage] are kept by every operation ([flags_kept]). *)

From S2P Require Import Prelude Status Os Launch Service Reaper Controller Loop Invariant Liveness Main.

Open Scope Z_scope.

Module Exit.
Import Status Os Launch Service Reaper Controller Loop Invariant Liveness Main.

(** ** The flags [flagexit] and [flagorphanage] *)

(** [flagexit] stays set once [ex] says it is, and [flagorphanage] is [orph]. *)
Definition flags_kept (ex orph : bool) (w : world) : Prop :=
  (ex = true -> flagexit (w_sup w) = true) /\ flagorphanage (w_sup w) = orph.

Create HintDb flags discriminated.
#[export] Hint Constants Opaque : flags.

Lemma flags_sys ex orph {A} (m : ST os A) : preserves (flags_kept ex orph) (sys m).
Proof. intros w. by rewrite exec_sys. Qed.

Lemma flags_modify ex orph f :
  (forall s, (flagexit s = true -> flagexit (f s) = true) /\ flagorphanage (f s) = flagorphanage s) ->
  preserves (flags_kept ex orph) (modify_sup f).
Proof.
  intros Hf w [He Ho]. rewrite exec_modify_sup. unfold flags_kept; simpl.
  destruct (Hf (w_sup w)) as [H1 H2]. rewrite H2. auto.
Qed.

Lemma flags_upd ex orph i f : preserves (flags_kept ex orph) (upd_svc i f).
Proof. apply flags_modify. intros s. by destruct i. Qed.

Lemma flags_gets ex orph {A} (f : sup -> A) : preserves (flags_kept ex orph) (gets_sup f).
Proof. intros w. by rewrite exec_gets_sup. Qed.

Lemma flags_get ex orph i : preserves (flags_kept ex orph) (get_svc i).
Proof. apply flags_gets. Qed.

#[export] Hint Resolve flags_sys flags_upd flags_gets flags_get : flags.
#[export] Hint Extern 2 (preserves (flags_kept _ _) (modify_sup _)) =>
  apply flags_modify; intros [] ; simpl; auto : flags.

Ltac flags_solve := code_split; eauto with flags.

Lemma flags_announce ex orph : preserves (flags_kept ex orph) announce.
Proof. unfold announce. flags_solve. Qed.
#[export] Hint Resolve flags_announce : flags.

Lemma flags_forkexecve ex orph svc argv fd : preserves (flags_kept ex orph) (forkexecve svc argv fd).
Proof. unfold forkexecve. flags_solve. Qed.
#[export] Hint Resolve flags_forkexecve : flags.

Lemma flags_pidchange ex orph i n c p : preserves (flags_kept ex orph) (pidchange i n c p).
Proof. unfold pidchange, notify. flags_solve. Qed.
#[export] Hint Resolve flags_pidchange : flags.

Lemma flags_trystart ex orph i : preserves (flags_kept ex orph) (trystart i).
Proof. unfold trystart, trystart_launch. flags_solve. Qed.

Lemma flags_trystop ex orph i : preserves (flags_kept ex orph) (trystop i).
Proof. unfold trystop. flags_solve. Qed.

Lemma flags_killsvc ex orph i g sg : preserves (flags_kept ex orph) (killsvc i g sg).
Proof. unfold killsvc. flags_solve. Qed.

Lemma flags_stopsvc ex orph i g : preserves (flags_kept ex orph) (stopsvc i g).
Proof. unfold stopsvc. flags_solve; apply flags_killsvc. Qed.
#[export] Hint Resolve flags_trystart flags_trystop flags_killsvc flags_stopsvc : flags.

Lemma flags_reaper_body ex orph : preserves (flags_kept ex orph) reaper_body.
Proof.
  unfold reaper_body, reaper_wait_group, reaper_dispatch, reaper_handle, reaper_exit,
    reaper_classify, reaper_notify, reaper_decide. flags_solve.
Qed.

Lemma flags_reaper_loop ex orph n : preserves (flags_kept ex orph) (reaper_loop n).
Proof.
  induction n as [|n IH]; simpl; [apply preserves_ret|].
  apply preserves_bind; [apply flags_reaper_body|]. intros []; [done | apply preserves_ret].
Qed.

Lemma flags_reaper ex orph : preserves (flags_kept ex orph) reaper.
Proof. intros w Hw. apply flags_reaper_loop, Hw. Qed.

Lemma flags_command ex orph c st : preserves (flags_kept ex orph) (command c st).
Proof. unfold command. destruct c as [[] [] [] [] [] [] [] []]; flags_solve. Qed.

Lemma flags_controller_loop ex orph n st : preserves (flags_kept ex orph) (controller_loop n st).
Proof.
  revert st. induction n as [|n IH]; intros st; simpl; [apply preserves_ret|].
  apply preserves_bind; [apply flags_sys|]. intros [c|]; [|apply preserves_ret].
  apply preserves_bind; [apply flags_command | done].
Qed.

Lemma flags_controller ex orph : preserves (flags_kept ex orph) controller.
Proof. intros w Hw. apply flags_controller_loop, Hw. Qed.
#[export] Hint Resolve flags_reaper flags_controller : flags.

Lemma flags_stop_log ex orph : preserves (flags_kept ex orph) stop_log_if_exiting.
Proof. unfold stop_log_if_exiting. flags_solve. Qed.
#[export] Hint Resolve flags_stop_log : flags.

(** Every iteration of [doit] keeps [flagorphanage], and keeps [flagexit]
    once it is set. *)
Lemma flags_doit_iter ex orph : preserves (flags_kept ex orph) doit_iter.
Proof. unfold doit_iter, check_control. flags_solve. Qed.

(** ** The measure *)

(** 1 when the service records a pid. *)
Definition busy (v : svc) : nat := if bool_decide (pid v = 0) then 0 else 1.

Definition exit_measure (s : sup) : nat :=
  busy (svcmain s) + (if ranstop (svcmain s) then 0 else 1) + busy (svclog s).

Ltac measure_tac :=
  unfold exit_measure, busy; simpl;
  repeat case_bool_decide; repeat match goal with
  | |- context [if ?b then _ else _] => destruct b
  end; simpl in *; lia.

(** [trystop] on a service with no process lowers the measure or keeps
    it: it sets [ranstop] whenever it does not fail, and it forks ./stop
    only for the main service with [ranstop] clear. *)
Lemma trystop_measure i w :
  pos_nextpid (w_os w) -> pid (svc_of i (w_sup w)) = 0 ->
  (exit_measure (w_sup (exec (trystop i) w)) <= exit_measure (w_sup w))%nat.
Proof.
  intros Hn Hp. unfold pos_nextpid in Hn. unfold trystop. autorewrite with sv_run.
  assert (Hskip : forall w', w_sup w' = w_sup w ->
    (exit_measure (w_sup (exec (upd_svc i (set_ranstop true);;
       upd_svc i (set_flagstatus svstatus_stopped);; announce) w')) <= exit_measure (w_sup w))%nat).
  { intros w' E. autorewrite with sv_run. rewrite keeps_sup_exec by eauto with sv. simpl.
    rewrite E. destruct i; simpl in Hp |- *; measure_tac. }
  destruct (ranstop (svc_of i (w_sup w)) || bool_decide (i <> Main)) eqn:Er;
    autorewrite with sv_run; [by apply Hskip|].
  apply orb_false_iff in Er as [Er Ei]. apply bool_decide_eq_false in Ei.
  assert (i = Main) as -> by (destruct i; [done | by destruct Ei]).
  case_bool_decide; autorewrite with sv_run; [by apply Hskip|].
  rewrite eval_forkexecve by (cbn; lia). cbn [w_sup w_os]. simpl in Er, Hp.
  destruct (fork_fails (w_os w)) eqn:Ef; destruct (decide _) as [Hf|Hf]; try lia.
  - rewrite exec_ret, sup_forkexecve by (cbn; lia). cbn [w_sup w_os]. rewrite Ef. measure_tac.
  - autorewrite with sv_run. cbn [w_sup w_os].
    rewrite sup_pidchange, sup_forkexecve by (cbn; lia). cbn [w_sup w_os]. rewrite Ef. measure_tac.
Qed.

(** After [flagexit], the reaper's decision never starts a service. *)
Lemma reaper_decide_measure i w :
  pos_nextpid (w_os w) -> flagexit (w_sup w) = true -> pid (svc_of i (w_sup w)) = 0 ->
  (exit_measure (w_sup (exec (reaper_decide i) w)) <= exit_measure (w_sup w))%nat.
Proof.
  intros Hn He Hp. unfold reaper_decide. autorewrite with sv_run. rewrite He.
  destruct (_ || _); simpl; autorewrite with sv_run; [lia|].
  destruct (bool_decide _); autorewrite with sv_run; [by apply trystop_measure | lia].
Qed.

Lemma apply_exit_class_ranstop i ws v : ranstop (apply_exit_class i ws v) = ranstop v.
Proof. unfold apply_exit_class. by destruct (exit_class _ _ _) as [[]|]. Qed.

Lemma npid_reaper_exit i p ws w :
  pos_nextpid (w_os w) -> pos_nextpid (w_os (exec (reaper_exit i p ws) w)).
Proof.
  intros Hn. unfold reaper_exit, reaper_notify. rewrite !exec_bind, exec_reaper_classify.
  rewrite exec_modify_sup. cbn [w_os]. by apply pidchange_npid.
Qed.

(** Handling the exit of a service's process, once [flagexit] is set,
    strictly lowers the measure: the pid is cleared, and whatever
    [trystop] does next costs at most the [ranstop] it sets. *)
Lemma reaper_handle_measure i p ws w :
  pos_nextpid (w_os w) -> flagexit (w_sup w) = true -> pid (svc_of i (w_sup w)) = p -> p <> 0 ->
  (exit_measure (w_sup (exec (reaper_handle i p ws) w)) < exit_measure (w_sup w))%nat.
Proof.
  intros Hn He Hp Hp0. unfold reaper_handle. rewrite exec_bind.
  pose proof (sup_reaper_exit i p ws w) as Hs.
  set (w1 := exec (reaper_exit i p ws) w) in *.
  pose proof (apply_exit_class_pid i ws (svc_of i (w_sup w))) as Ep.
  pose proof (apply_exit_class_ranstop i ws (svc_of i (w_sup w))) as Er.
  eapply Nat.le_lt_trans; [apply reaper_decide_measure|].
  - by apply npid_reaper_exit.
  - rewrite Hs. by destruct i.
  - rewrite Hs. destruct i; simpl in *; done.
  - rewrite Hs. destruct i; simpl in *; rewrite <- Hp in Hp0; measure_tac.
Qed.

(** ** The reaper reaches a terminated service process *)

(** The reaper's pass, outside orphanage mode, when a service records a
    terminated child: it either handles a service's exit and leaves the
    loop with a lower measure, or reaps another child and goes on, the
    globals unchanged, the table smaller and the service's child still
    waiting. *)
Lemma reaper_body_measure w :
  pids_pos (w_os w) -> pos_nextpid (w_os w) -> flagexit (w_sup w) = true ->
  flagorphanage (w_sup w) = false -> flagstatus (svcmain (w_sup w)) <> svstatus_orphanage ->
  slot_zombie w ->
  (eval reaper_body w = RBreak /\
     (exit_measure (w_sup (exec reaper_body w)) < exit_measure (w_sup w))%nat) \/
  (eval reaper_body w = RContinue /\ w_sup (exec reaper_body w) = w_sup w /\
     (size (os_procs (w_os (exec reaper_body w))) < size (os_procs (w_os w)))%nat /\
     pids_pos (w_os (exec reaper_body w)) /\ pos_nextpid (w_os (exec reaper_body w)) /\
     slot_zombie (exec reaper_body w)).
Proof.
  intros Hpos Hn He Ho Hst (i & g & ws & Hpi & Hl).
  destruct (find_zombie (fun _ => true) (os_procs (w_os w))) as [[p wz]|] eqn:E;
    [|exfalso; by eapply (find_zombie_some (fun _ => true) _ _ g ws Hl)].
  destruct (find_zombie_lookup _ _ _ _ E) as (gz & Hlz & _).
  assert (Hp : 0 < p) by exact (Hpos _ _ Hlz).
  unfold eval, exec. rewrite (reaper_body_zombie w p wz E Hp Ho Hst).
  pose proof (attribute_cases (pid (svcmain (w_sup w))) (pid (svclog (w_sup w))) p None) as Ha.
  destruct (attribute _ _ _ _) as [j|]; cbn [fst snd].
  - left. split; [done|].
    apply (reaper_handle_measure j p wz (reaped w p wz)); [exact Hn | exact He | | lia].
    destruct j; [destruct Ha as [Ha|Ha] | destruct Ha as [_ Ha]]; cbn; lia.
  - right. destruct Ha as [Hm Hg]. cbn. split; [done|]. split; [done|]. split; [|split; [|split]].
    + rewrite map_size_delete_Some by eauto.
      assert (size (os_procs (w_os w)) <> 0%nat) by (rewrite map_size_non_empty_iff; intros E0;
        rewrite E0, lookup_empty in Hlz; done). lia.
    + unfold pids_pos. by apply map_Forall_delete.
    + exact Hn.
    + exists i, g, ws. cbn. split; [done|]. rewrite lookup_delete_ne; [done|].
      destruct i; cbn in *; congruence.
Qed.

Lemma reaper_loop_measure n w :
  (size (os_procs (w_os w)) < n)%nat ->
  pids_pos (w_os w) -> pos_nextpid (w_os w) -> flagexit (w_sup w) = true ->
  flagorphanage (w_sup w) = false -> flagstatus (svcmain (w_sup w)) <> svstatus_orphanage ->
  slot_zombie w ->
  (exit_measure (w_sup (exec (reaper_loop n) w)) < exit_measure (w_sup w))%nat.
Proof.
  revert w. induction n as [|n IH]; intros w Hsz Hpos Hn He Ho Hst Hz; [lia|].
  simpl. rewrite exec_bind.
  destruct (reaper_body_measure w Hpos Hn He Ho Hst Hz)
    as [[-> Hm]|(-> & Hs & Hsz' & Hpos' & Hn' & Hz')]; [done|].
  rewrite <- Hs. apply IH; rewrite ?Hs; auto. lia.
Qed.

(** The reaper, outside orphanage mode and once [flagexit] is set, lowers
    the measure whenever a service records a terminated child. *)
Lemma reaper_measure w :
  pids_pos (w_os w) -> pos_nextpid (w_os w) -> flagexit (w_sup w) = true ->
  flagorphanage (w_sup w) = false -> flagstatus (svcmain (w_sup w)) <> svstatus_orphanage ->
  slot_zombie w ->
  (exit_measure (w_sup (exec reaper w)) < exit_measure (w_sup w))%nat.
Proof. intros. apply reaper_loop_measure; auto. Qed.

(** ** One iteration of [doit] *)

Lemma check_control_measure w :
  exit_measure (w_sup (exec check_control w)) = exit_measure (w_sup w).
Proof.
  unfold check_control. autorewrite with sv_run.
  destruct (bool_decide _); autorewrite with sv_run; [|done].
  destruct (bool_decide (pid (svc_of Main _) <> 0)), (bool_decide (pid (svc_of Log _) <> 0));
    autorewrite with sv_run; reflexivity.
Qed.

Lemma stop_log_measure w :
  exit_measure (w_sup (exec stop_log_if_exiting w)) = exit_measure (w_sup w).
Proof.
  unfold stop_log_if_exiting. autorewrite with sv_run.
  destruct (_ && _); autorewrite with sv_run; [|done]. by rewrite sup_stopsvc.
Qed.

(** With the FIFO empty, the controller changes nothing. *)
Lemma controller_idle w : os_control (w_os w) = [] -> exec controller w = w.
Proof.
  intros Hc. rewrite exec_controller, Hc. cbn [run_commands]. rewrite exec_ret.
  rewrite <- Hc. apply with_control_id.
Qed.

(** Every iteration leaves the FIFO empty. *)
Lemma doit_iter_control w : os_control (w_os (exec doit_iter w)) = [].
Proof.
  unfold doit_iter. rewrite !exec_bind, exec_controller.
  rewrite ctl_free_control by apply stop_log_ctl_free.
  by rewrite ctl_free_control by apply run_commands_ctl_free.
Qed.

Lemma live_pids_pos w : live_inv w -> pids_pos (w_os w) /\ pos_nextpid (w_os w).
Proof.
  intros Hw. destruct (inv_os _ (live_sv _ Hw)) as [Hn Hk]. split; [|exact Hn].
  intros k pr Hkp. pose proof (Hk k pr Hkp). simpl in *. lia.
Qed.

(** An iteration of [doit] with an empty FIFO, [flagexit] set and outside
    orphanage mode, when a service records a terminated child, lowers the
    measure. *)
Lemma doit_iter_measure w :
  live_inv w -> flagexit (w_sup w) = true -> flagorphanage (w_sup w) = false ->
  os_control (w_os w) = [] -> slot_zombie w ->
  (exit_measure (w_sup (exec doit_iter w)) < exit_measure (w_sup w))%nat.
Proof.
  intros Hw He Ho Hc Hz. destruct (live_pids_pos w Hw) as [Hpos Hn].
  unfold doit_iter. rewrite !exec_bind, stop_log_measure.
  destruct (stable_drain (w_os w)) as (P1 & _ & P3).
  set (w0 := exec (sys drain_selfpipe) w).
  assert (Ew0 : w_sup w0 = w_sup w /\ os_procs (w_os w0) = os_procs (w_os w) /\
                os_nextpid (w_os w0) = os_nextpid (w_os w)) by (unfold w0; by rewrite exec_sys).
  destruct Ew0 as (S0 & Q0 & N0).
  rewrite controller_idle.
  2: { rewrite ctl_free_control by apply check_control_ctl_free.
       rewrite ctl_free_control by apply reaper_ctl_free.
       unfold w0. rewrite ctl_free_control by apply (ctl_free_sys _ ctl_free_drain). exact Hc. }
  rewrite check_control_measure, <- S0. apply reaper_measure; rewrite ?S0.
  - unfold pids_pos. by rewrite Q0.
  - unfold pos_nextpid in *. by rewrite N0.
  - exact He.
  - exact Ho.
  - intros Hst. rewrite (live_orph _ Hw Hst) in Ho. done.
  - destruct Hz as (i & g & ws & Hi & Hl). exists i, g, ws. by rewrite S0, Q0.
Qed.

(** ** The world's part: the recorded processes exit *)

(** The moves of one iteration: the exit of the main service's process,
    or else of the log service's, on the signal the SIGTERM sent. *)
Definition exit_moves (s : sup) : list env_move :=
  if bool_decide (pid (svcmain s) = 0) then
    if bool_decide (pid (svclog s) = 0) then [] else [MvExit (pid (svclog s)) 15]
  else [MvExit (pid (svcmain s)) 15].

(** The moves of the schedules built here: exits of children, after a
    SIGTERM or the removal of the control FIFO. *)
Definition is_exit (mv : env_move) : bool :=
  match mv with
  | MvExit _ _ => true
  | _ => false
  end.

Definition exit_or_term (mv : env_move) : bool :=
  match mv with
  | MvTerm | MvExit _ _ => true
  | _ => false
  end.

Definition exit_or_unlink (mv : env_move) : bool :=
  match mv with
  | MvUnlink | MvExit _ _ => true
  | _ => false
  end.

Lemma exits_weaken (b : env_move -> bool) sched :
  (forall mv, is_exit mv = true -> b mv = true) ->
  Forall (Forall (fun mv => is_exit mv = true)) sched -> Forall (Forall (fun mv => b mv = true)) sched.
Proof.
  intros Hb H. eapply Forall_impl; [exact H|]. intros l Hl. eapply Forall_impl; [exact Hl | exact Hb].
Qed.

Lemma apply_exit_control p ws o : os_control (apply_move (MvExit p ws) o) = os_control o.
Proof. unfold apply_move. by destruct (os_procs o !! p) as [[g []]|]. Qed.

Lemma exit_moves_control s o : os_control (apply_moves (exit_moves s) o) = os_control o.
Proof. unfold exit_moves. by repeat case_bool_decide; try apply apply_exit_control. Qed.

(** After its exit move, a child that is in the table is a terminated one. *)
Lemma apply_exit_zombie p ws o g st :
  os_procs o !! p = Some (mk_proc g st) ->
  exists g' ws', os_procs (apply_move (MvExit p ws) o) !! p = Some (mk_proc g' (PZombie ws')).
Proof.
  intros Hl. unfold apply_move. rewrite Hl. destruct st as [|ws0]; [|by eauto].
  exists g, ws. cbn. by rewrite lookup_insert_eq.
Qed.

(** Once [flagexit] is set and [doit] is not done, the exit moves leave a
    terminated child that a service records. *)
Lemma exit_moves_zombie w :
  live_inv w -> flagorphanage (w_sup w) = false -> flagexit (w_sup w) = true ->
  doit_done (w_sup w) = false ->
  slot_zombie (mk_world (w_sup w) (apply_moves (exit_moves (w_sup w)) (w_os w))).
Proof.
  intros Hw Ho He Hd. unfold doit_done in Hd. rewrite He in Hd. cbn [andb] in Hd.
  assert (Hch : forall i, pid (svc_of i (w_sup w)) <> 0 ->
    exists g st, os_procs (w_os w) !! pid (svc_of i (w_sup w)) = Some (mk_proc g st)).
  { intros i Hi. destruct (live_slot _ Hw i Hi) as [([g st] & Hl & _)|H]; [by eauto|].
    by rewrite Ho in H. }
  unfold exit_moves, slot_zombie. cbn [w_sup w_os apply_moves foldl].
  case_bool_decide as Hm; [case_bool_decide as Hl|].
  - exfalso. revert Hd. rewrite ?bool_decide_true by done. done.
  - destruct (Hch Log Hl) as (g & st & Hg). destruct (apply_exit_zombie _ 15 _ _ _ Hg) as (g' & ws' & H').
    exists Log, g', ws'. by split.
  - destruct (Hch Main Hm) as (g & st & Hg). destruct (apply_exit_zombie _ 15 _ _ _ Hg) as (g' & ws' & H').
    exists Main, g', ws'. by split.
Qed.

Lemma exit_moves_ok s : Forall (fun mv => is_exit mv = true) (exit_moves s).
Proof. unfold exit_moves. repeat case_bool_decide; repeat constructor. Qed.

(** ** The SIGTERM sets [flagexit] *)

Lemma run_commands_app cs ds st w :
  exec (run_commands (cs ++ ds) st) w =
    exec (run_commands ds (eval (run_commands cs st) w)) (exec (run_commands cs st) w).
Proof.
  revert st w. induction cs as [|c cs IH]; intros st w; cbn [app run_commands];
    rewrite ?exec_ret, ?eval_ret; [done|].
  rewrite !exec_bind, eval_bind. apply IH.
Qed.

(** Whatever is pending in the FIFO, the iteration after a SIGTERM ends
    with [flagexit] set: the handler's "dx" is applied last. *)
Lemma term_iter_flagexit w :
  flagexit (w_sup (exec doit_iter (mk_world (w_sup w) (exec terminate (w_os w))))) = true.
Proof.
  set (wm := mk_world (w_sup w) (exec terminate (w_os w))).
  unfold doit_iter. rewrite !exec_bind.
  set (wc := exec check_control (exec reaper (exec (sys drain_selfpipe) wm))).
  assert (Hc : os_control (w_os wc) = os_control (w_os w) ++ ["d"; "x"]%char).
  { unfold wc. rewrite ctl_free_control by apply check_control_ctl_free.
    rewrite ctl_free_control by apply reaper_ctl_free.
    rewrite ctl_free_control by apply (ctl_free_sys _ ctl_free_drain). reflexivity. }
  rewrite exec_controller, Hc, run_commands_app. cbn [run_commands].
  rewrite !exec_bind, exec_ret.
  match goal with |- context [exec (command "x" ?st) ?w1] =>
    destruct (exec_command_x st w1) as [_ Hx] end.
  match goal with |- flagexit (w_sup (exec _ ?X)) = true =>
    refine (proj1 (flags_stop_log true (flagorphanage (w_sup X)) X _) eq_refl) end.
  split; [intros _; by rewrite Hx | reflexivity].
Qed.

(** ** [doit] returns *)

Lemma doit_loop_done sched w : doit_done (w_sup w) = true -> eval (doit_loop sched) w = true.
Proof.
  intros Hd. destruct sched; cbn [doit_loop]; autorewrite with sv_run; cbn [id];
    rewrite Hd; by autorewrite with sv_run.
Qed.

Lemma doit_loop_cons mvs sched w :
  doit_done (w_sup w) = false ->
  eval (doit_loop (mvs :: sched)) w =
    eval (doit_loop sched) (exec doit_iter (mk_world (w_sup w) (apply_moves mvs (w_os w)))).
Proof. intros Hd. cbn [doit_loop]. autorewrite with sv_run. cbn [id]. rewrite Hd. by autorewrite with sv_run. Qed.

Lemma reachable_moves w mvs : reachable w -> reachable (mk_world (w_sup w) (apply_moves mvs (w_os w))).
Proof. intros Hr. eapply reachable_star; [exact Hr|]. destruct w. apply env_star_sv, apply_moves_star. Qed.

(** From a reachable state with [flagexit] set and the FIFO empty,
    outside orphanage mode, the exits of the recorded processes make
    [doit] return: induction on the measure. *)
Lemma doit_returns_after_flagexit w :
  reachable w -> flagexit (w_sup w) = true -> flagorphanage (w_sup w) = false ->
  os_control (w_os w) = [] ->
  exists sched, Forall (Forall (fun mv => is_exit mv = true)) sched /\
    eval (doit_loop sched) w = true.
Proof.
  remember (exit_measure (w_sup w)) as n eqn:En. revert w En.
  induction n as [n IH] using lt_wf_ind. intros w -> Hr He Ho Hc.
  destruct (doit_done (w_sup w)) eqn:Hd.
  { exists []. split; [constructor | by apply doit_loop_done]. }
  set (wm := mk_world (w_sup w) (apply_moves (exit_moves (w_sup w)) (w_os w))).
  assert (Hlive : live_inv wm) by apply reachable_live, reachable_moves, Hr.
  assert (Hlt : (exit_measure (w_sup (exec doit_iter wm)) < exit_measure (w_sup w))%nat).
  { apply (doit_iter_measure wm Hlive He Ho); [unfold wm; cbn; by rewrite exit_moves_control|].
    apply exit_moves_zombie; auto using reachable_live. }
  destruct (flags_doit_iter true false wm (conj (fun _ => He) Ho)) as [He' Ho'].
  destruct (IH _ Hlt (exec doit_iter wm) eq_refl) as (sched & Hs & Hev).
  - by apply reachable_doit_pass.
  - by apply He'.
  - exact Ho'.
  - apply doit_iter_control.
  - exists (exit_moves (w_sup w) :: sched). split; [constructor; [apply exit_moves_ok | exact Hs]|].
    by rewrite doit_loop_cons.
Qed.

Lemma sigterm_schedule w :
  reachable w -> flagorphanage (w_sup w) = false ->
  exists sched, Forall (Forall (fun mv => exit_or_term mv = true)) sched /\
    eval (doit_loop sched) w = true.
Proof.
  intros Hr Ho. destruct (doit_done (w_sup w)) eqn:Hd.
  { exists []. split; [constructor | by apply doit_loop_done]. }
  set (w1 := exec doit_iter (mk_world (w_sup w) (apply_moves [MvTerm] (w_os w)))).
  destruct (flags_doit_iter false false (mk_world (w_sup w) (apply_moves [MvTerm] (w_os w))))
    as [_ Ho1]; [split; [done | exact Ho]|].
  destruct (doit_returns_after_flagexit w1) as (sched & Hs & Hev).
  - by apply reachable_doit_pass.
  - apply term_iter_flagexit.
  - exact Ho1.
  - apply doit_iter_control.
  - exists ([MvTerm] :: sched). split; [|by rewrite doit_loop_cons].
    repeat constructor. apply (exits_weaken exit_or_term _ (fun mv => ltac:(by destruct mv)) Hs).
Qed.

(** C7: the SIGTERM always lets [supervise] exit. From every reachable
    state of a supervisor started without an "orphanage" file, there is a
    schedule of the world made only of a SIGTERM and exits of the
    supervisor's children after which [doit] returns (and [main] goes on
    to exit 0): the handler's "dx" sets [flagexit] whatever else is
    pending in the FIFO, and from then on no service is started again and
    ./stop runs at most once. *)
Theorem sigterm_lets_doit_return w :
  reachable w -> flagorphanage (w_sup w) = false ->
  exists sched, Forall (Forall (fun mv => exit_or_term mv = true)) sched /\
    eval (doit_loop sched) w = true.
Proof. apply sigterm_schedule. Qed.

Lemma sigterm_lets_doit_return_witness :
  reachable ex_started /\ flagorphanage (w_sup ex_started) = false /\
  exists sched, Forall (Forall (fun mv => exit_or_term mv = true)) sched /\
    eval (doit_loop sched) ex_started = true.
Proof.
  assert (H : flagorphanage (w_sup ex_started) = false) by (vm_compute; reflexivity).
  split; [exact ex_started_reachable|]. split; [exact H|].
  exact (sigterm_lets_doit_return ex_started ex_started_reachable H).
Defined.

(** ** Removing the control FIFO forces the exit *)

(** No operation of the supervisor changes the FIFO's link count. *)

Lemma nl_seek : keeps_os os_control_nlink seek_begin.
Proof. unfold seek_begin. os_prim. Qed.
Lemma nl_write b : keeps_os os_control_nlink (write_status b).
Proof. unfold write_status. os_prim. Qed.
Lemma nl_warn m : keeps_os os_control_nlink (strerr_warn m).
Proof. os_prim. Qed.
Lemma nl_fork a ss r : keeps_os os_control_nlink (sys_fork a ss r).
Proof. unfold sys_fork. os_prim. Qed.
Lemma nl_sleep n : keeps_os os_control_nlink (deepsleep n).
Proof. os_prim. Qed.
Lemma nl_trigger : keeps_os os_control_nlink trigger.
Proof. os_prim. Qed.
Lemma nl_isexec p : keeps_os os_control_nlink (stat_isexec p).
Proof. unfold stat_isexec. os_prim. Qed.
Lemma nl_exists p : keeps_os os_control_nlink (stat_exists p).
Proof. unfold stat_exists. os_prim. Qed.
Lemma nl_now : keeps_os os_control_nlink taia_now.
Proof. unfold taia_now. os_prim. Qed.
Lemma nl_kill t sg : keeps_os os_control_nlink (sys_kill t sg).
Proof. os_prim. Qed.
Lemma nl_drain : keeps_os os_control_nlink drain_selfpipe.
Proof. unfold drain_selfpipe. os_prim. Qed.
Lemma nl_gets {A} (f : os -> A) : keeps_os os_control_nlink (st_gets f).
Proof. os_prim. Qed.
Lemma nl_waitpid P : keeps_os os_control_nlink (waitpid_where P).
Proof.
  intros o. unfold exec, waitpid_where. destruct (find_zombie P (os_procs o)) as [[]|]; [done|].
  by case_decide.
Qed.
Lemma nl_waitpid_group a : keeps_os os_control_nlink (waitpid_group a).
Proof. intros o. apply nl_waitpid. Qed.
Lemma nl_get i : keeps (fun w => os_control_nlink (w_os w)) (get_svc i).
Proof. apply keeps_gets. Qed.

Create HintDb nlink discriminated.
#[export] Hint Constants Opaque : nlink.
#[export] Hint Resolve nl_seek nl_write nl_warn nl_fork nl_sleep nl_trigger nl_isexec nl_exists
  nl_now nl_kill nl_drain nl_gets nl_waitpid nl_waitpid_group nl_get : nlink.

Ltac nlink_solve :=
  code_split;
  repeat match goal with
  | |- keeps _ (gets_sup _) => apply keeps_gets
  | |- keeps _ (modify_sup _) => apply keeps_modify_sup
  | |- keeps _ (upd_svc _ _) => apply keeps_upd_svc
  | |- keeps (fun w => _ (w_os w)) (sys _) => apply keeps_os_sys
  end; eauto with nlink.

Lemma nl_announce : keeps (fun w => os_control_nlink (w_os w)) announce.
Proof. unfold announce. nlink_solve. Qed.
#[export] Hint Resolve nl_announce : nlink.
Lemma nl_forkexecve svc argv fd : keeps (fun w => os_control_nlink (w_os w)) (forkexecve svc argv fd).
Proof. unfold forkexecve. nlink_solve. Qed.
#[export] Hint Resolve nl_forkexecve : nlink.
Lemma nl_pidchange i n c p : keeps (fun w => os_control_nlink (w_os w)) (pidchange i n c p).
Proof. unfold pidchange, notify. nlink_solve. Qed.
#[export] Hint Resolve nl_pidchange : nlink.
Lemma nl_trystart i : keeps (fun w => os_control_nlink (w_os w)) (trystart i).
Proof. unfold trystart, trystart_launch. nlink_solve. Qed.
Lemma nl_trystop i : keeps (fun w => os_control_nlink (w_os w)) (trystop i).
Proof. unfold trystop. nlink_solve. Qed.
#[export] Hint Resolve nl_trystart nl_trystop : nlink.

Lemma nl_reaper_body : keeps (fun w => os_control_nlink (w_os w)) reaper_body.
Proof.
  unfold reaper_body, reaper_wait_group, reaper_dispatch, reaper_handle, reaper_exit,
    reaper_classify, reaper_notify, reaper_decide, wait_nohang. nlink_solve.
Qed.

Lemma nl_reaper : keeps (fun w => os_control_nlink (w_os w)) reaper.
Proof.
  intros b w Hb. change (exec reaper w) with (exec (reaper_loop (reaper_fuel w)) w).
  generalize (reaper_fuel w). intros n. revert w Hb. induction n as [|n IH]; intros w Hb; [done|].
  cbn [reaper_loop]. rewrite exec_bind. pose proof (nl_reaper_body b w Hb).
  destruct (eval reaper_body w); [by apply IH | done].
Qed.

(** With the FIFO unlinked, the iteration ends with [flagexit] set. *)
Lemma unlink_iter_flagexit w :
  os_control_nlink (w_os w) = 0 -> flagexit (w_sup (exec doit_iter w)) = true.
Proof.
  intros Hn. unfold doit_iter. rewrite !exec_bind.
  set (w1 := exec reaper (exec (sys drain_selfpipe) w)).
  assert (H1 : os_control_nlink (w_os w1) = 0).
  { unfold w1. rewrite (nl_reaper _ _ eq_refl). rewrite exec_sys. cbn [w_os].
    by rewrite (nl_drain (w_os w)). }
  set (w2 := exec check_control w1).
  assert (H2 : flagexit (w_sup w2) = true).
  { unfold w2, check_control. autorewrite with sv_run. cbn [w_os fstat_control_nlink].
    unfold eval, fstat_control_nlink, st_gets. cbn [fst snd]. rewrite H1, bool_decide_true by done.
    reflexivity. }
  destruct (flags_controller true (flagorphanage (w_sup w2)) w2) as [He3 Ho3];
    [split; [done | reflexivity]|].
  destruct (flags_stop_log true (flagorphanage (w_sup w2)) (exec controller w2)) as [He4 _];
    [split; [done | exact Ho3]|].
  by apply He4.
Qed.

Lemma unlink_schedule w :
  reachable w -> flagorphanage (w_sup w) = false ->
  exists sched, Forall (Forall (fun mv => exit_or_unlink mv = true)) sched /\
    eval (doit_loop sched) w = true.
Proof.
  intros Hr Ho. destruct (doit_done (w_sup w)) eqn:Hd.
  { exists []. split; [constructor | by apply doit_loop_done]. }
  set (w1 := exec doit_iter (mk_world (w_sup w) (apply_moves [MvUnlink] (w_os w)))).
  destruct (flags_doit_iter false false (mk_world (w_sup w) (apply_moves [MvUnlink] (w_os w))))
    as [_ Ho1]; [split; [done | exact Ho]|].
  destruct (doit_returns_after_flagexit w1) as (sched & Hs & Hev).
  - by apply reachable_doit_pass.
  - by apply unlink_iter_flagexit.
  - exact Ho1.
  - apply doit_iter_control.
  - exists ([MvUnlink] :: sched). split; [|by rewrite doit_loop_cons].
    repeat constructor. apply (exits_weaken exit_or_unlink _ (fun mv => ltac:(by destruct mv)) Hs).
Qed.

(** C9: removing the control FIFO makes [supervise] exit. From every
    reachable state of a supervisor started without an "orphanage" file,
    once the FIFO is unlinked (so that the next iteration sends SIGKILL
    to both process groups and sets [flagexit], lines 430-437), the exits
    of the supervisor's children make [doit] return, although no service
    was asked to go down. *)
Theorem unlink_lets_doit_return w :
  reachable w -> flagorphanage (w_sup w) = false ->
  exists sched, Forall (Forall (fun mv => exit_or_unlink mv = true)) sched /\
    eval (doit_loop sched) w = true.
Proof. apply unlink_schedule. Qed.

Lemma unlink_lets_doit_return_witness :
  reachable ex_started /\ flagorphanage (w_sup ex_started) = false /\
  exists sched, Forall (Forall (fun mv => exit_or_unlink mv = true)) sched /\
    eval (doit_loop sched) ex_started = true.
Proof.
  assert (H : flagorphanage (w_sup ex_started) = false) by (vm_compute; reflexivity).
  split; [exact ex_started_reachable|]. split; [exact H|].
  exact (unlink_lets_doit_return ex_started ex_started_reachable H).
Defined.

(** ** [main] exits 0 *)

(** Without an "orphanage" file, start-up leaves orphanage mode off. *)
Lemma start_orphanage_off su dir s o :
  file_kind o "orphanage" = FMissing ->
  flagorphanage (w_sup (exec doit_enter (exec (supervise_start su dir) (mk_world s o)))) = false.
Proof.
  intros Hf. unfold doit_enter.
  set (w1 := exec (supervise_start su dir) (mk_world s o)).
  enough (H : flags_kept false false w1) by exact (proj2 (flags_announce false false w1 H)).
  split; [done|]. unfold w1, supervise_start.
  rewrite exec_bind, eval_sys, eval_stat_exists. cbn [w_os]. rewrite Hf, exec_bind. cbn [stat_exists_k].
  rewrite exec_modify_sup.
  match goal with |- flagorphanage (w_sup (exec ?m ?w)) = false =>
    assert (Hm : preserves (flags_kept false false) m) by (unfold or_die, die; flags_solve);
    refine (proj2 (Hm w _)); split; [done | reflexivity]
  end.
Qed.

(** A normal start of [main] can always be ended by a SIGTERM: when the
    setup calls succeed, there is no "orphanage" file and start-up reaches
    [doit], some schedule of the world made only of a SIGTERM and exits of
    the supervisor's children makes [main] exit 0 (lines 535-539). *)
Lemma main_sigterm_schedule o0 su dir :
  fresh_os o0 -> setup_ok su = true -> file_kind o0 "orphanage" = FMissing ->
  eval (supervise_start su dir) (mk_world sup_init o0) = None ->
  exists sched, Forall (Forall (fun mv => exit_or_term mv = true)) sched /\
    eval (supervise_main ["supervise"; dir] su sched) (mk_world sup_init o0) = Some 0.
Proof.
  intros Hf Hsu Ho Hs.
  set (w0 := exec doit_enter (exec (supervise_start su dir) (mk_world sup_init o0))).
  destruct (sigterm_schedule w0) as (sched & Hm & Hev).
  - exists o0, su, dir. split; [done|]. split; [done | apply star_refl].
  - apply start_orphanage_off, Ho.
  - exists sched. split; [exact Hm|]. unfold setup_ok in Hsu.
    repeat rewrite andb_true_iff in Hsu. unfold supervise_main, or_die.
    destruct Hsu as (((((-> & ->) & ->) & ->) & ->) & ->).
    rewrite eval_bind, Hs, eval_bind. fold w0.
    rewrite eval_bind, Hev. by autorewrite with sv_run.
Qed.


End Exit.
