(* ===== verification/Reap.v ===== *)
(** * Every terminated child is reaped

    The reaper (lines 276-326) leaves its loop after handling one exit of
    a service ([one_exit_per_iteration]); the children that are no
    service's are reaped as they come. This file shows that no terminated
    child is left behind for long: while the world makes no move, each
    wake-up of [doit] either handles the exit of a service whose process
    has terminated, or reaps every terminated child; so after one more
    wake-up than there are such services (at most three), the process
    table holds no zombie.

    The argument rests on a relation between the worlds before and after
    any computation of the supervisor ([wtame]): the process table only
    loses entries or gains running ones at fresh pids, and a service's pid
    is kept, cleared, or set to a fresh pid. The code makes no zombie: a
    zombie after an operation was one before, under the same pid. *)

From S2P Require Import Prelude Status Os Launch Service Reaper Controller Loop Invariant Liveness Main Exit.

Open Scope Z_scope.

Module Reap.
Import Status Os Launch Service Reaper Controller Loop Invariant Liveness Main Exit.

(** ** What the supervisor does to the process table *)

(** [o'] keeps or drops each process of [o], and adds only running ones
    at pids [o] has not handed out. *)
Definition tame (o o' : os) : Prop :=
  os_nextpid o <= os_nextpid o' /\
  forall k pr, os_procs o' !! k = Some pr ->
    os_procs o !! k = Some pr \/ (os_nextpid o <= k /\ pr_state pr = PRunning).

(** The same for a world, whose services keep their pid, clear it, or
    take a fresh one. *)
Definition wtame (w w' : world) : Prop :=
  tame (w_os w) (w_os w') /\
  forall i, pid (svc_of i (w_sup w')) = pid (svc_of i (w_sup w)) \/
            pid (svc_of i (w_sup w')) = 0 \/ os_nextpid (w_os w) <= pid (svc_of i (w_sup w')).

#[export] Instance tame_preorder : PreOrder tame.
Proof.
  split.
  - intros o. split; [lia|]. auto.
  - intros o1 o2 o3 [N1 P1] [N2 P2]. split; [lia|]. intros k pr Hk.
    destruct (P2 k pr Hk) as [H|[Hn Hr]]; [|right; split; [lia | done]].
    destruct (P1 k pr H) as [H'|[Hn Hr]]; [by left | right; split; [lia | done]].
Qed.

#[export] Instance wtame_preorder : PreOrder wtame.
Proof.
  split.
  - intros w. split; [reflexivity|]. auto.
  - intros w1 w2 w3 [T1 P1] [T2 P2]. split; [by transitivity (w_os w2)|].
    destruct T1 as [N1 _]. intros i.
    destruct (P2 i) as [->|[->|H]]; [|by auto|right; right; lia].
    destruct (P1 i) as [->|[->|H]]; auto.
Qed.

(** A computation of the supervisor, from every world. *)
Definition tames {A} (m : M A) : Prop := forall w, wtame w (exec m w).

#[export] Instance tames_closed : CodeClosed (@tames).
Proof.
  split.
  - intros A a w. rewrite exec_ret. reflexivity.
  - intros A B m k Hm Hk w. rewrite exec_bind. etransitivity; [apply Hm | apply Hk].
Qed.

(** An OS call with the same shape. *)
Definition tames_os {A} (m : ST os A) : Prop := forall o, tame o (exec m o).

Lemma tames_sys {A} (m : ST os A) : tames_os m -> tames (sys m).
Proof. intros H w. rewrite exec_sys. split; [apply H | auto]. Qed.

Lemma tames_stable {A} (m : ST os A) : os_stable m -> tames_os m.
Proof.
  intros H o. destruct (H o) as (P & _ & N). split; [lia|]. rewrite P. auto.
Qed.

Lemma tames_fork argv ss r : tames_os (sys_fork argv ss r).
Proof.
  intros o. unfold exec, sys_fork, tame.
  destruct (os_forkfail o) as [|[] rest]; cbn; (split; [lia|]); intros k pr Hk; [| by left |];
    destruct (decide (k = os_nextpid o)) as [->|Hne];
    [rewrite lookup_insert_eq in Hk; injection Hk as <-; right; split; [lia | done]
    | rewrite lookup_insert_ne in Hk by congruence; auto
    | rewrite lookup_insert_eq in Hk; injection Hk as <-; right; split; [lia | done]
    | rewrite lookup_insert_ne in Hk by congruence; auto].
Qed.

Lemma tames_waitpid P : tames_os (waitpid_where P).
Proof.
  intros o. pose proof (waitpid_where_cases P o) as Hc.
  destruct (eval (waitpid_where P) o) as [[p ws] e].
  destruct Hc as [(g & w0 & _ & _ & Hd & _)|[(_ & _ & ->)|(_ & _ & ->)]]; [|reflexivity..].
  split; [unfold exec, waitpid_where; destruct (find_zombie _ _) as [[]|]; [|case_decide]; cbn; lia|].
  rewrite Hd. intros k pr Hk. left. by apply lookup_delete_Some in Hk as [_ Hk].
Qed.

Lemma tames_waitpid_group a : tames_os (waitpid_group a).
Proof. intros o. apply tames_waitpid. Qed.

Lemma tames_modify f : (forall s i, pid (svc_of i (f s)) = pid (svc_of i s)) -> tames (modify_sup f).
Proof. intros Hf w. rewrite exec_modify_sup. split; [reflexivity|]. intros i. left. apply Hf. Qed.

Lemma tames_upd i f : (forall v, pid (f v) = pid v \/ pid (f v) = 0) -> tames (upd_svc i f).
Proof.
  intros Hf w. rewrite exec_upd_svc. split; [reflexivity|]. intros j. cbn [w_sup w_os].
  destruct (decide (i = j)) as [<-|Hne].
  - rewrite svc_of_map_svc_eq. destruct (Hf (svc_of i (w_sup w))); auto.
  - rewrite svc_of_map_svc_ne by done. auto.
Qed.

Lemma tames_gets {A} (f : sup -> A) : tames (gets_sup f).
Proof. intros w. rewrite exec_gets_sup. reflexivity. Qed.

Lemma tames_get i : tames (get_svc i).
Proof. apply tames_gets. Qed.

Lemma tames_nlink : tames_os fstat_control_nlink.
Proof. apply tames_stable, stable_gets. Qed.

Create HintDb tame discriminated.
#[export] Hint Constants Opaque : tame.
#[export] Hint Resolve tames_sys tames_stable tames_fork tames_waitpid tames_waitpid_group
  tames_gets tames_get stable_seek stable_write stable_warn stable_sleep stable_trigger
  stable_isexec stable_exists stable_now stable_kill stable_drain stable_read stable_truncate
  stable_gets tames_nlink : tame.
#[export] Hint Extern 2 (tames (modify_sup _)) => apply tames_modify; intros [] []; reflexivity : tame.
#[export] Hint Extern 2 (tames (upd_svc _ _)) => apply tames_upd; intros v; cbn; auto : tame.

Ltac tame_solve := code_split; eauto with tame.

(** ** Every operation *)

Lemma tames_exec {A} (m : M A) w w' : tames m -> wtame w' w -> wtame w' (exec m w).
Proof. intros Hm H. etransitivity; [exact H | apply Hm]. Qed.

Lemma tames_announce : tames announce.
Proof. unfold announce. tame_solve. Qed.
#[export] Hint Resolve tames_announce : tame.

(** [forkexecve] records the pid [fork] returned, a fresh one. *)
Lemma tames_forkexecve svc argv fd : tames (forkexecve svc argv fd).
Proof.
  intros w. unfold forkexecve. rewrite !exec_bind, !exec_gets_sup, !eval_sys, !exec_sys.
  rewrite exec_stat_exists. destruct w as [s o]. cbn [w_sup w_os].
  set (o1 := exec (sys_fork _ _ _) o). set (f := eval (sys_fork _ _ _) o).
  assert (H1 : wtame (mk_world s o) (mk_world s o1)) by (split; [apply tames_fork | auto]).
  destruct (decide (f = -1)).
  - apply tames_exec; [tame_solve | exact H1].
  - assert (Hf : f = os_nextpid o).
    { unfold f in *. rewrite eval_sys_fork in *. destruct (fork_fails o); [by destruct n | reflexivity]. }
    destruct svc as [i|]; rewrite exec_bind, exec_ret; [|rewrite exec_ret; exact H1].
    rewrite exec_upd_svc. split; [apply H1|]. intros j. cbn [w_sup w_os].
    destruct (decide (i = j)) as [<-|Hne].
    + rewrite svc_of_map_svc_eq. cbn. right; right. lia.
    + rewrite svc_of_map_svc_ne by done. auto.
Qed.
#[export] Hint Resolve tames_forkexecve : tame.

Lemma tames_pidchange i n c p : tames (pidchange i n c p).
Proof. unfold pidchange, notify. tame_solve. Qed.
#[export] Hint Resolve tames_pidchange : tame.

Lemma tames_trystart i : tames (trystart i).
Proof. unfold trystart, trystart_launch. tame_solve. Qed.

Lemma tames_trystop i : tames (trystop i).
Proof. unfold trystop. tame_solve. Qed.

Lemma tames_killsvc i g sg : tames (killsvc i g sg).
Proof. unfold killsvc. tame_solve. Qed.

Lemma tames_stopsvc i g : tames (stopsvc i g).
Proof. unfold stopsvc. tame_solve; apply tames_killsvc. Qed.
#[export] Hint Resolve tames_trystart tames_trystop tames_killsvc tames_stopsvc : tame.

Lemma tames_reaper_decide i : tames (reaper_decide i).
Proof. unfold reaper_decide. tame_solve. Qed.

Lemma tames_reaper_exit i p ws : tames (reaper_exit i p ws).
Proof. unfold reaper_exit, reaper_classify, reaper_notify. tame_solve. Qed.
#[export] Hint Resolve tames_reaper_decide tames_reaper_exit : tame.

Lemma tames_reaper_body : tames reaper_body.
Proof.
  unfold reaper_body, reaper_wait_group, reaper_dispatch, reaper_handle, wait_nohang. tame_solve.
Qed.

Lemma tames_reaper_loop n : tames (reaper_loop n).
Proof.
  induction n as [|n IH]; simpl; [apply (code_ret (P := @tames))|].
  apply (code_bind (P := @tames)); [apply tames_reaper_body|].
  intros []; [exact IH | apply (code_ret (P := @tames))].
Qed.

Lemma tames_reaper : tames reaper.
Proof. intros w. apply tames_reaper_loop. Qed.

Lemma tames_command c st : tames (command c st).
Proof. unfold command. destruct c as [[] [] [] [] [] [] [] []]; tame_solve. Qed.

Lemma tames_controller_loop n st : tames (controller_loop n st).
Proof.
  revert st. induction n as [|n IH]; intros st; simpl; [apply (code_ret (P := @tames))|].
  apply (code_bind (P := @tames)); [eauto with tame|]. intros [c|]; [|apply (code_ret (P := @tames))].
  apply (code_bind (P := @tames)); [apply tames_command | done].
Qed.

Lemma tames_controller : tames controller.
Proof. intros w. apply tames_controller_loop. Qed.
#[export] Hint Resolve tames_reaper tames_controller : tame.

Lemma tames_check_control : tames check_control.
Proof. unfold check_control. tame_solve. Qed.

Lemma tames_stop_log : tames stop_log_if_exiting.
Proof. unfold stop_log_if_exiting. tame_solve. Qed.
#[export] Hint Resolve tames_check_control tames_stop_log : tame.

Lemma tames_doit_iter : tames doit_iter.
Proof. unfold doit_iter. tame_solve. Qed.

(** ** Terminated children and the services that record them *)

Definition zombie_at (o : os) (k : Z) : bool :=
  match os_procs o !! k with
  | Some (mk_proc _ (PZombie _)) => true
  | _ => false
  end.

(** Service [i] records a child that has terminated. *)
Definition zombie_slot (w : world) (i : svcid) : bool :=
  bool_decide (pid (svc_of i (w_sup w)) <> 0) && zombie_at (w_os w) (pid (svc_of i (w_sup w))).

Definition zombie_slots (w : world) : nat :=
  (if zombie_slot w Main then 1 else 0) + (if zombie_slot w Log then 1 else 0).

Definition no_zombie (o : os) : Prop := forall k, zombie_at o k = false.

Lemma zombie_at_spec o k :
  zombie_at o k = true <-> exists g ws, os_procs o !! k = Some (mk_proc g (PZombie ws)).
Proof.
  unfold zombie_at. split.
  - destruct (os_procs o !! k) as [[g []]|]; [done | eauto | done].
  - intros (g & ws & ->). done.
Qed.

(** The code makes no zombie: one after a computation is one before. *)
Lemma tame_zombie o o' k : tame o o' -> zombie_at o' k = true -> zombie_at o k = true.
Proof.
  intros [_ T] (g & ws & Hk)%zombie_at_spec. apply zombie_at_spec.
  destruct (T k _ Hk) as [H|[_ H]]; [eauto | done].
Qed.

Lemma tame_no_zombie o o' : tame o o' -> no_zombie o -> no_zombie o'.
Proof.
  intros T H k. destruct (zombie_at o' k) eqn:E; [|done].
  rewrite <- (H k). symmetry. exact (tame_zombie _ _ _ T E).
Qed.

(** A service recording a terminated child after a computation recorded
    the same one before. *)
Lemma wtame_zombie_slot w w' i :
  wtame w w' -> os_ok (w_os w) -> zombie_slot w' i = true ->
  zombie_slot w i = true /\ pid (svc_of i (w_sup w')) = pid (svc_of i (w_sup w)).
Proof.
  intros [T P] [_ Hk] (Hne%bool_decide_eq_true & Hz)%andb_prop.
  pose proof (tame_zombie _ _ _ T Hz) as Hz0.
  assert (Hlt : pid (svc_of i (w_sup w')) < os_nextpid (w_os w)).
  { apply zombie_at_spec in Hz0 as (g & ws & Hl). apply (Hk _ _ Hl). }
  destruct (P i) as [E|[E|E]]; [|done|lia].
  split; [|exact E]. unfold zombie_slot. rewrite <- E, Hz0, bool_decide_true by done. done.
Qed.

(** A service whose pid is 0 or fresh records no terminated child after
    any computation. *)
Lemma wtame_fresh_slot w0 w w' i :
  wtame w0 w -> wtame w w' -> os_ok (w_os w0) ->
  pid (svc_of i (w_sup w)) = 0 \/ os_nextpid (w_os w0) <= pid (svc_of i (w_sup w)) ->
  zombie_slot w' i = false.
Proof.
  intros H0 H1 Hok Hp. destruct (zombie_slot w' i) eqn:E; [|done].
  assert (H01 : wtame w0 w') by (etransitivity; eauto).
  destruct (wtame_zombie_slot _ _ _ H01 Hok E) as [Hz Ep].
  apply andb_prop in Hz as [Hne%bool_decide_eq_true Hz]. apply zombie_at_spec in Hz as (g & ws & Hl).
  destruct Hok as [_ Hk]. pose proof (Hk _ _ Hl) as Hlt. cbn in Hlt.
  destruct H0 as [[N0 _] _]. destruct H1 as [_ P1].
  destruct (P1 i) as [E1|[E1|E1]]; rewrite Ep in E1; lia.
Qed.

(** ** The reaper *)

Lemma zombie_slot_reaped w q ws i : zombie_slot (reaped w q ws) i = true -> zombie_slot w i = true.
Proof.
  unfold zombie_slot, reaped. cbn [w_sup w_os]. intros (Hne & (g & x & Hl)%zombie_at_spec)%andb_prop.
  cbn in Hl. apply lookup_delete_Some in Hl as [_ Hl].
  apply andb_true_intro. split; [done|]. apply zombie_at_spec. eauto.
Qed.

Lemma zombie_slot_keep w q ws i :
  pid (svc_of i (w_sup w)) <> q -> zombie_slot w i = true -> zombie_slot (reaped w q ws) i = true.
Proof.
  unfold zombie_slot, reaped. cbn [w_sup w_os]. intros Hq (Hne & Hz)%andb_prop.
  rewrite Hne. unfold zombie_at in *. cbn. by rewrite lookup_delete_ne by congruence.
Qed.

Lemma size_reaped w q ws g x :
  os_procs (w_os w) !! q = Some (mk_proc g (PZombie x)) ->
  (size (os_procs (w_os (reaped w q ws))) < size (os_procs (w_os w)))%nat.
Proof.
  intros Hl. cbn. rewrite map_size_delete_Some by eauto.
  assert (size (os_procs (w_os w)) <> 0%nat) by (rewrite map_size_non_empty_iff; intros E0;
    rewrite E0, lookup_empty in Hl; done). lia.
Qed.

Lemma pids_pos_reaped w q ws : pids_pos (w_os w) -> pids_pos (w_os (reaped w q ws)).
Proof. intros H. unfold pids_pos. cbn. by apply map_Forall_delete. Qed.

Lemma some_zombie_slot w : (0 < zombie_slots w)%nat -> exists i, zombie_slot w i = true.
Proof.
  unfold zombie_slots. destruct (zombie_slot w Main) eqn:?, (zombie_slot w Log) eqn:?; eauto.
  simpl. lia.
Qed.

(** Handling the exit of service [j] leaves it without a pid, or with a
    fresh one. *)
Lemma reaper_handle_fresh j q ws w :
  pid (svc_of j (w_sup (exec (reaper_handle j q ws) w))) = 0 \/
  os_nextpid (w_os w) <= pid (svc_of j (w_sup (exec (reaper_handle j q ws) w))).
Proof.
  unfold reaper_handle. rewrite exec_bind.
  set (w1 := exec (reaper_exit j q ws) w).
  assert (P1 : pid (svc_of j (w_sup w1)) = 0).
  { unfold w1. rewrite sup_reaper_exit. destruct j; apply apply_exit_class_pid. }
  destruct (tames_reaper_exit j q ws w) as [[N1 _] _]. fold w1 in N1.
  destruct (tames_reaper_decide j w1) as [[N2 _] P2].
  destruct (P2 j) as [E|[E|E]]; [left; congruence | by left | right; lia].
Qed.

(** Outside orphanage mode, while a service records a terminated child,
    the reaper handles the exit of one such service: afterwards it has no
    pid or a fresh one. *)
Lemma reaper_loop_handles n w :
  (size (os_procs (w_os w)) < n)%nat -> pids_pos (w_os w) -> flagorphanage (w_sup w) = false ->
  flagstatus (svcmain (w_sup w)) <> svstatus_orphanage -> (0 < zombie_slots w)%nat ->
  exists j, zombie_slot w j = true /\
    (pid (svc_of j (w_sup (exec (reaper_loop n) w))) = 0 \/
     os_nextpid (w_os w) <= pid (svc_of j (w_sup (exec (reaper_loop n) w)))).
Proof.
  revert w; induction n as [|n IH]; intros w Hsz Hpos Ho Hst Hz; [lia|].
  destruct (some_zombie_slot w Hz) as [i Hi].
  pose proof Hi as Hi'. apply andb_prop in Hi' as [_ (g & ws & Hl)%zombie_at_spec].
  destruct (find_zombie (fun _ => true) (os_procs (w_os w))) as [[q wq]|] eqn:E;
    [|exfalso; by eapply (find_zombie_some (fun _ => true) _ _ g ws Hl)].
  destruct (find_zombie_lookup _ _ _ _ E) as (gq & Hlq & _).
  assert (Hq : 0 < q) by exact (Hpos _ _ Hlq).
  cbn [reaper_loop]. unfold exec at 1 2. rewrite st_bind_run, (reaper_body_zombie w q wq E Hq Ho Hst).
  pose proof (attribute_cases (pid (svcmain (w_sup w))) (pid (svclog (w_sup w))) q None) as Ha.
  destruct (attribute _ _ _ _) as [j|]; cbn [fst snd].
  - exists j.
    assert (Hj : pid (svc_of j (w_sup w)) = q)
      by (destruct j; [destruct Ha as [Ha|Ha]; [done | lia] | by destruct Ha]).
    split.
    + unfold zombie_slot. rewrite Hj, bool_decide_true by lia. apply zombie_at_spec. eauto.
    + rewrite st_ret_run. cbn [snd]. apply (reaper_handle_fresh j q wq (reaped w q wq)).
  - destruct Ha as [Hm Hg].
    destruct (IH (reaped w q wq)) as (j & Hj & Hp).
    + pose proof (size_reaped w q wq _ _ Hlq). lia.
    + by apply pids_pos_reaped.
    + exact Ho.
    + exact Hst.
    + assert (Hi2 : zombie_slot (reaped w q wq) i = true)
        by (apply zombie_slot_keep; [destruct i; cbn; congruence | exact Hi]).
      unfold zombie_slots. destruct i; rewrite Hi2; lia.
    + exists j. split; [exact (zombie_slot_reaped _ _ _ _ Hj) | exact Hp].
Qed.

Lemma find_zombie_none o : find_zombie (fun _ => true) (os_procs o) = None -> no_zombie o.
Proof.
  intros E k. destruct (zombie_at o k) eqn:Z; [|done].
  apply zombie_at_spec in Z as (g & ws & Hl). by destruct (find_zombie_some (fun _ => true) _ _ _ _ Hl eq_refl).
Qed.

(** Outside orphanage mode, when no service records a terminated child,
    the reaper reaps every terminated child. *)
Lemma reaper_loop_clears n w :
  (size (os_procs (w_os w)) < n)%nat -> pids_pos (w_os w) -> flagorphanage (w_sup w) = false ->
  flagstatus (svcmain (w_sup w)) <> svstatus_orphanage -> zombie_slots w = 0%nat ->
  no_zombie (w_os (exec (reaper_loop n) w)).
Proof.
  revert w; induction n as [|n IH]; intros w Hsz Hpos Ho Hst Hz; [lia|].
  destruct (find_zombie (fun _ => true) (os_procs (w_os w))) as [[q wq]|] eqn:E.
  2: { apply (tame_no_zombie (w_os w)); [apply tames_reaper_loop | by apply find_zombie_none]. }
  destruct (find_zombie_lookup _ _ _ _ E) as (gq & Hlq & _).
  assert (Hq : 0 < q) by exact (Hpos _ _ Hlq).
  cbn [reaper_loop]. unfold exec at 1. rewrite st_bind_run, (reaper_body_zombie w q wq E Hq Ho Hst).
  pose proof (attribute_cases (pid (svcmain (w_sup w))) (pid (svclog (w_sup w))) q None) as Ha.
  destruct (attribute _ _ _ _) as [j|]; cbn [fst snd].
  - exfalso. assert (Hj : pid (svc_of j (w_sup w)) = q)
      by (destruct j; [destruct Ha as [Ha|Ha]; [done | lia] | by destruct Ha]).
    assert (Hzj : zombie_slot w j = true).
    { unfold zombie_slot. rewrite Hj, bool_decide_true by lia. apply zombie_at_spec. eauto. }
    unfold zombie_slots in Hz. destruct j; rewrite Hzj in Hz; lia.
  - apply IH.
    + pose proof (size_reaped w q wq _ _ Hlq). lia.
    + by apply pids_pos_reaped.
    + exact Ho.
    + exact Hst.
    + unfold zombie_slots in *.
      destruct (zombie_slot w Main) eqn:E1, (zombie_slot w Log) eqn:E2; try lia.
      destruct (zombie_slot (reaped w q wq) Main) eqn:F1;
        [by rewrite (zombie_slot_reaped _ _ _ _ F1) in E1|].
      destruct (zombie_slot (reaped w q wq) Log) eqn:F2;
        [by rewrite (zombie_slot_reaped _ _ _ _ F2) in E2 | done].
Qed.

(** ** An iteration of [doit] *)

Lemma live_reaper_hyps w :
  live_inv w -> flagorphanage (w_sup w) = false ->
  pids_pos (w_os w) /\ flagstatus (svcmain (w_sup w)) <> svstatus_orphanage /\ os_ok (w_os w).
Proof.
  intros Hw Ho. destruct (live_pids_pos w Hw) as [Hp _]. split; [done|]. split.
  - intros Hst. rewrite (live_orph _ Hw Hst) in Ho. done.
  - apply (inv_os _ (live_sv _ Hw)).
Qed.

(** An iteration in which a service records a terminated child ends with
    fewer such services. *)
Lemma doit_iter_zombie_slots w :
  live_inv w -> flagorphanage (w_sup w) = false -> (0 < zombie_slots w)%nat ->
  (zombie_slots (exec doit_iter w) < zombie_slots w)%nat.
Proof.
  intros Hw Ho Hz. unfold doit_iter. rewrite !exec_bind.
  set (w0 := exec (sys drain_selfpipe) w).
  assert (Hw0 : live_inv w0) by (apply live_sys; [apply stable_drain | exact Hw]).
  assert (T0 : wtame w w0) by apply tames_sys, tames_stable, stable_drain.
  assert (S0 : w_sup w0 = w_sup w) by (unfold w0; by rewrite exec_sys).
  destruct (live_reaper_hyps w0 Hw0) as (Hpos & Hst & Hok0); [by rewrite S0|].
  destruct (live_reaper_hyps w Hw Ho) as (_ & _ & Hok).
  assert (Hz0 : (0 < zombie_slots w0)%nat).
  { destruct (some_zombie_slot w Hz) as [i Hi]. unfold zombie_slots.
    assert (zombie_slot w0 i = true).
    { unfold zombie_slot in *. rewrite S0. unfold w0. rewrite exec_sys. cbn [w_os].
      unfold zombie_at. by rewrite (proj1 (stable_drain (w_os w))). }
    destruct i; rewrite H; lia. }
  set (w1 := exec reaper w0).
  destruct (reaper_loop_handles (reaper_fuel w0) w0) as (j & Hj & Hp);
    [unfold reaper_fuel; lia | exact Hpos | by rewrite S0 | exact Hst | exact Hz0 |].
  set (w2 := exec stop_log_if_exiting (exec controller (exec check_control w1))).
  assert (T12 : wtame w1 w2).
  { unfold w2. etransitivity; [apply tames_check_control|].
    etransitivity; [apply tames_controller | apply tames_stop_log]. }
  assert (T01 : wtame w0 w1) by apply tames_reaper.
  assert (Hj2 : zombie_slot w2 j = false) by exact (wtame_fresh_slot w0 w1 w2 j T01 T12 Hok0 Hp).
  assert (T02 : wtame w w2) by (etransitivity; [exact T0 | etransitivity; eassumption]).
  assert (Hjw : zombie_slot w j = true)
    by exact (proj1 (wtame_zombie_slot _ _ _ T0 Hok Hj)).
  assert (Hk : forall k, zombie_slot w2 k = true -> zombie_slot w k = true)
    by (intros k Hk; exact (proj1 (wtame_zombie_slot _ _ _ T02 Hok Hk))).
  fold w2. unfold zombie_slots in *.
  destruct j; rewrite Hj2, Hjw; [destruct (zombie_slot w2 Log) eqn:E | destruct (zombie_slot w2 Main) eqn:E];
    try (rewrite (Hk _ E)); destruct (zombie_slot w _); lia.
Qed.

(** An iteration in which no service records a terminated child reaps
    every terminated child. *)
Lemma doit_iter_clears w :
  live_inv w -> flagorphanage (w_sup w) = false -> zombie_slots w = 0%nat ->
  no_zombie (w_os (exec doit_iter w)).
Proof.
  intros Hw Ho Hz. unfold doit_iter. rewrite !exec_bind.
  set (w0 := exec (sys drain_selfpipe) w).
  assert (Hw0 : live_inv w0) by (apply live_sys; [apply stable_drain | exact Hw]).
  assert (S0 : w_sup w0 = w_sup w) by (unfold w0; by rewrite exec_sys).
  destruct (live_reaper_hyps w0 Hw0) as (Hpos & Hst & _); [by rewrite S0|].
  assert (Hz0 : zombie_slots w0 = 0%nat).
  { unfold zombie_slots, zombie_slot in *. rewrite S0. unfold w0. rewrite exec_sys. cbn [w_os].
    unfold zombie_at in *. by rewrite (proj1 (stable_drain (w_os w))). }
  apply (tame_no_zombie (w_os (exec reaper w0))).
  - destruct (tames_stop_log (exec controller (exec check_control (exec reaper w0)))) as [T3 _].
    destruct (tames_controller (exec check_control (exec reaper w0))) as [T2 _].
    destruct (tames_check_control (exec reaper w0)) as [T1 _].
    etransitivity; [exact T1|]. etransitivity; [exact T2 | exact T3].
  - apply reaper_loop_clears; [unfold reaper_fuel; lia | exact Hpos | by rewrite S0 | exact Hst | exact Hz0].
Qed.

Lemma iterate_no_zombie n w : no_zombie (w_os w) -> no_zombie (w_os (Nat.iter n (exec doit_iter) w)).
Proof.
  induction n as [|n IH]; [done|]. intros H. cbn [Nat.iter].
  apply (tame_no_zombie (w_os (Nat.iter n (exec doit_iter) w))); [apply tames_doit_iter | by apply IH].
Qed.

Lemma zombies_reaped_live n w :
  live_inv w -> flagorphanage (w_sup w) = false -> (zombie_slots w < n)%nat ->
  no_zombie (w_os (Nat.iter n (exec doit_iter) w)).
Proof.
  revert w. induction n as [|n IH]; intros w Hw Ho Hn; [lia|]. rewrite Nat.iter_succ_r.
  destruct (decide (zombie_slots w = 0%nat)) as [Z|Z].
  - by apply iterate_no_zombie, doit_iter_clears.
  - pose proof (doit_iter_zombie_slots w Hw Ho ltac:(lia)).
    destruct (flags_doit_iter false false w) as [_ Ho']; [split; [done | exact Ho]|].
    apply IH; [by apply live_doit_iter | exact Ho' | lia].
Qed.

(** C10: no terminated child is left unreaped for long. In every reachable
    state of a supervisor started without an "orphanage" file, while the
    world makes no move, one more wake-up of [doit] than there are
    services recording a terminated child (so at most three) leaves no
    zombie in the process table: each wake-up either handles the exit of
    such a service, which then records no pid or a fresh one, or reaps
    every terminated child. *)
Theorem zombies_reaped n w :
  reachable w -> flagorphanage (w_sup w) = false -> (zombie_slots w < n)%nat ->
  no_zombie (w_os (Nat.iter n (exec doit_iter) w)).
Proof. intros Hr. apply zombies_reaped_live, reachable_live, Hr. Qed.

(** The state after the main service's process has exited. *)
Definition ex_main_exited : world :=
  mk_world (w_sup ex_started) (apply_moves [MvExit 100 0] (w_os ex_started)).

Lemma zombies_reaped_witness :
  reachable ex_main_exited /\ flagorphanage (w_sup ex_main_exited) = false /\
  zombie_slots ex_main_exited = 1%nat /\
  no_zombie (w_os (Nat.iter 2 (exec doit_iter) ex_main_exited)).
Proof.
  assert (H1 : reachable ex_main_exited) by exact (reachable_moves _ _ ex_started_reachable).
  assert (H2 : flagorphanage (w_sup ex_main_exited) = false) by (vm_compute; reflexivity).
  assert (H3 : zombie_slots ex_main_exited = 1%nat) by (vm_compute; reflexivity).
  split; [exact H1|]. split; [exact H2|]. split; [exact H3|].
  exact (zombies_reaped 2 ex_main_exited H1 H2 ltac:(rewrite H3; lia)).
Defined.

End Reap.
