(* ===== verification/Publish.v ===== *)
(** * The published status and the globals

    [announce] writes [status_bytes] of the globals at offset 0 of the
    status file. [in_sync] says that the file starts with exactly those
    bytes: what a reader of supervise/status sees is the current state.
    In a quiet OS (no fork or write failure) every control command keeps
    the file in sync, because each command that changes a service's
    record ends with [announce] (directly or through [trystart],
    [trystop] and [pidchange]). Two paths leave it out of date: a start
    whose fork fails, and the stopping of the log service at the end of
    an iteration of [doit]. *)

From S2P Require Import Prelude Status Os Launch Service Reaper Controller Loop Scenario.

Open Scope Z_scope.

Module Publish.
Import Status Os Launch Service Reaper Controller Loop Scenario.

Definition in_sync (w : world) : Prop :=
  take (length (status_bytes (w_sup w))) (os_statusfile (w_os w)) = status_bytes (w_sup w).

(** What a reader of the status file decodes: the main record, then the
    log record when there is a log service. *)
Definition read_status (f : list Z) (lp : bool) : option (status_view * option status_view) :=
  match status_decode (take 20 f) with
  | None => None
  | Some m =>
      if lp then
        match status_decode (take 20 (drop 20 f)) with
        | Some l => Some (m, Some l)
        | None => None
        end
      else Some (m, None)
  end.

(** The abstraction of the globals a reader is meant to see. *)
Definition abs_status (s : sup) : status_view * option status_view :=
  (view_of (svcmain s), if logpipe s then Some (view_of (svclog s)) else None).

(** A quiet OS that can still hand out pids. *)
Definition qp (o : os) : Prop := quiet o /\ pos_nextpid o.

Lemma exec_announce_quiet w :
  quiet (w_os w) ->
  exec announce w =
    mk_world (w_sup w)
      (set_os_statusfile (overwrite (status_bytes (w_sup w)) (os_statusfile (w_os w))) (w_os w)).
Proof.
  destruct w as [s o]. intros [Hf Hq]. unfold announce, sys, gets_sup, seek_begin, write_status.
  st_unfold. destruct o; cbn -[status_bytes] in *. subst.
  cbn -[status_bytes]. rewrite decide_False by lia. st_unfold. cbn -[status_bytes].
  case_bool_decide; st_unfold; cbn -[status_bytes]; [lia|]. by rewrite firstn_all.
Qed.

Lemma sync_announce w : quiet (w_os w) -> in_sync (exec announce w).
Proof.
  intros Hq. rewrite exec_announce_quiet by done. unfold in_sync, overwrite. cbn -[status_bytes].
  apply take_app_length.
Qed.

(** ** Quiet runs *)

Lemma qp_prim {A} (m : ST os A) :
  (forall o, os_forkfail (exec m o) = os_forkfail o /\ os_statusfault (exec m o) = os_statusfault o
             /\ os_nextpid (exec m o) = os_nextpid o) ->
  forall o, qp o -> qp (exec m o).
Proof.
  intros H o (Hq & Hn). destruct (H o) as (E1 & E2 & E3). unfold qp, quiet, pos_nextpid in *.
  rewrite E1, E2, E3. done.
Qed.

Ltac qp_prim_tac :=
  apply qp_prim; intros []; unfold exec, log_event, st_modify, st_gets, deepsleep, trigger,
    write_selfpipe, mbind, st_bind, strerr_warn, sys_kill, stat_isexec, stat_exists, taia_now;
  cbn; repeat split.

Lemma qp_warn m : forall o, qp o -> qp (exec (strerr_warn m) o).
Proof. qp_prim_tac. Qed.
Lemma qp_sleep n : forall o, qp o -> qp (exec (deepsleep n) o).
Proof. qp_prim_tac. Qed.
Lemma qp_trigger : forall o, qp o -> qp (exec trigger o).
Proof. qp_prim_tac. Qed.
Lemma qp_isexec p : forall o, qp o -> qp (exec (stat_isexec p) o).
Proof. qp_prim_tac. Qed.
Lemma qp_exists p : forall o, qp o -> qp (exec (stat_exists p) o).
Proof. qp_prim_tac. Qed.
Lemma qp_now : forall o, qp o -> qp (exec taia_now o).
Proof. qp_prim_tac. Qed.
Lemma qp_kill t sg : forall o, qp o -> qp (exec (sys_kill t sg) o).
Proof. qp_prim_tac. Qed.

Lemma qp_announce : preserves (fun w => qp (w_os w)) announce.
Proof.
  intros w [Hq Hn]. rewrite exec_announce_quiet by done. split; [|exact Hn]. exact Hq.
Qed.

Lemma qp_forkexecve svc argv fd : preserves (fun w => qp (w_os w)) (forkexecve svc argv fd).
Proof.
  intros w [Hq Hn]. destruct (forkexecve_after svc argv fd w Hq Hn) as [_ (_ & N & _ & Q)].
  split; [done|]. unfold pos_nextpid in *. lia.
Qed.

#[export] Hint Resolve qp_warn qp_sleep qp_trigger qp_isexec qp_exists qp_now qp_kill
  qp_announce qp_forkexecve : sv.

Lemma qp_notify i n c p : preserves (fun w => qp (w_os w)) (notify i n c p).
Proof. unfold notify. preserves_os_solve. Qed.
#[export] Hint Resolve qp_notify : sv.
Lemma qp_pidchange i n c p : preserves (fun w => qp (w_os w)) (pidchange i n c p).
Proof. unfold pidchange. preserves_os_solve. Qed.
#[export] Hint Resolve qp_pidchange : sv.
Lemma qp_trystart_launch i argv fd : preserves (fun w => qp (w_os w)) (trystart_launch i argv fd).
Proof. unfold trystart_launch. preserves_os_solve. Qed.
#[export] Hint Resolve qp_trystart_launch : sv.
Lemma qp_killsvc i kg sg : preserves (fun w => qp (w_os w)) (killsvc i kg sg).
Proof. unfold killsvc. preserves_os_solve. Qed.
#[export] Hint Resolve qp_killsvc : sv.
Lemma qp_stopsvc i kg : preserves (fun w => qp (w_os w)) (stopsvc i kg).
Proof. unfold stopsvc. preserves_os_solve. Qed.
Lemma qp_trystart i : preserves (fun w => qp (w_os w)) (trystart i).
Proof. unfold trystart. preserves_os_solve. Qed.
Lemma qp_trystop i : preserves (fun w => qp (w_os w)) (trystop i).
Proof. unfold trystop. preserves_os_solve. Qed.
#[export] Hint Resolve qp_stopsvc qp_trystart qp_trystop : sv.

(** ** Operations that publish, operations that keep the publication *)

(** [m] leaves the status file in sync, from any quiet world. *)
Definition announces {A} (m : M A) : Prop := forall w, qp (w_os w) -> in_sync (exec m w).

(** [m] keeps the status file in sync. *)
Definition sync_keeps {A} (m : M A) : Prop :=
  forall w, qp (w_os w) -> in_sync w -> in_sync (exec m w).

Create HintDb sync discriminated.
#[export] Hint Constants Opaque : sync.

Lemma announces_keeps {A} (m : M A) : announces m -> sync_keeps m.
Proof. intros H w Hq _. by apply H. Qed.

Lemma announces_bind_r {A B} (m : M A) (k : A -> M B) :
  preserves (fun w => qp (w_os w)) m -> (forall a, announces (k a)) -> announces (m ≫= k).
Proof. intros Hm Hk w Hw. rewrite exec_bind. apply Hk, Hm, Hw. Qed.

Lemma announces_bind_l {A B} (m : M A) (k : A -> M B) :
  announces m -> preserves (fun w => qp (w_os w)) m -> (forall a, sync_keeps (k a)) ->
  announces (m ≫= k).
Proof. intros Hm Hq Hk w Hw. rewrite exec_bind. apply Hk; [apply Hq, Hw | apply Hm, Hw]. Qed.

Lemma sync_keeps_bind {A B} (m : M A) (k : A -> M B) :
  sync_keeps m -> preserves (fun w => qp (w_os w)) m -> (forall a, sync_keeps (k a)) ->
  sync_keeps (m ≫= k).
Proof.
  intros Hm Hq Hk w Hw Hs. rewrite exec_bind. apply Hk; [apply Hq, Hw | apply Hm; done].
Qed.

Lemma sync_keeps_ret {A} (a : A) : sync_keeps (mret a : M A).
Proof. by intros w. Qed.
Lemma sync_keeps_gets {A} (f : sup -> A) : sync_keeps (gets_sup f).
Proof. by intros w. Qed.
Lemma sync_keeps_get i : sync_keeps (get_svc i).
Proof. by intros w. Qed.

Lemma sync_keeps_when c (m : M ()) : sync_keeps m -> sync_keeps (st_when c m).
Proof. destruct c; [done|]. by intros _ w. Qed.

(** An OS call that does not write the status file. *)
Lemma sync_keeps_sys {A} (m : ST os A) :
  (forall o, os_statusfile (exec m o) = os_statusfile o) -> sync_keeps (sys m).
Proof. intros H w _ Hs. unfold in_sync in *. rewrite exec_sys. simpl. by rewrite H. Qed.

Lemma sync_keeps_modify f :
  (forall s, status_bytes (f s) = status_bytes s) -> sync_keeps (modify_sup f).
Proof. intros H w _ Hs. unfold in_sync in *. rewrite exec_modify_sup. cbn [w_sup w_os]. by rewrite H. Qed.

(** The fields of the globals that [status_bytes] shows. *)
Definition svc_shown (v : svc) := (pid v, flagstatus v, flagwant v, flagwantup v, flagpaused v, when v).
Definition shown (s : sup) := (svc_shown (svcmain s), svc_shown (svclog s), logpipe s).

Lemma status_bytes_shown s1 s2 : shown s1 = shown s2 -> status_bytes s1 = status_bytes s2.
Proof.
  destruct s1 as [[] [] ? ? ? ? ?], s2 as [[] [] ? ? ? ? ?].
  unfold shown, svc_shown. cbn. intros. by simplify_eq.
Qed.

Lemma announces_announce : announces announce.
Proof. intros w [Hq _]. by apply sync_announce. Qed.
Lemma sync_keeps_announce : sync_keeps announce.
Proof. apply announces_keeps, announces_announce. Qed.

Lemma statusfile_kill t sg o : os_statusfile (exec (sys_kill t sg) o) = os_statusfile o.
Proof. reflexivity. Qed.

#[export] Hint Resolve sync_keeps_ret sync_keeps_gets sync_keeps_get
  sync_keeps_when announces_announce sync_keeps_announce statusfile_kill : sync.
#[export] Hint Extern 2 (sync_keeps (sys _)) => apply sync_keeps_sys; intros; reflexivity : sync.
#[export] Hint Extern 2 (sync_keeps (modify_sup _)) =>
  apply sync_keeps_modify; intros ?; apply status_bytes_shown; reflexivity : sync.
#[export] Hint Extern 2 (sync_keeps (upd_svc ?i _)) =>
  apply sync_keeps_modify; intros ?; apply status_bytes_shown; destruct i; reflexivity : sync.

(** In a quiet OS [fork] succeeds: the code after a launch runs. *)
Lemma announces_after_fork svc argv fd (K : Z -> M ()) :
  (forall f, announces (K f)) ->
  announces (f ← forkexecve svc argv fd; if decide (f < 0) then mret () else K f).
Proof.
  intros HK w [Hq Hn]. rewrite exec_bind.
  destruct (forkexecve_after svc argv fd w Hq Hn) as [Ef _]. rewrite Ef.
  unfold pos_nextpid in Hn. rewrite decide_False by lia.
  apply HK, qp_forkexecve. split; done.
Qed.

(** Splits [announces]/[sync_keeps] goals along the code: a bind whose
    first part publishes needs only a continuation that keeps the
    publication; otherwise the first part only has to keep the OS
    quiet. *)
Ltac sync_solve :=
  repeat match goal with
  | |- announces (forkexecve _ _ _ ≫= _) => apply announces_after_fork; intros ?
  | |- announces ((if ?c then _ else _) ≫= _) => destruct c
  | |- sync_keeps ((if ?c then _ else _) ≫= _) => destruct c
  | |- announces (?m ≫= _) =>
      first [ apply announces_bind_l; [solve [eauto with sync] | solve [preserves_os_solve] | intros ?]
            | apply announces_bind_r; [solve [preserves_os_solve] | intros ?] ]
  | |- sync_keeps (_ ≫= _) => apply sync_keeps_bind; [| solve [preserves_os_solve] | intros ?]
  | |- announces (if ?c then _ else _) => destruct c
  | |- sync_keeps (if ?c then _ else _) => destruct c
  | |- announces (match ?c with _ => _ end) => destruct c
  | |- sync_keeps (match ?c with _ => _ end) => destruct c
  | |- sync_keeps (st_when _ _) => apply sync_keeps_when
  end; eauto with sync.

Lemma announces_pidchange i n c p : announces (pidchange i n c p).
Proof. unfold pidchange. sync_solve. Qed.
#[export] Hint Resolve announces_pidchange : sync.

Lemma announces_trystart_launch i argv fd : announces (trystart_launch i argv fd).
Proof. unfold trystart_launch. sync_solve. Qed.
#[export] Hint Resolve announces_trystart_launch : sync.

Lemma announces_trystart i : announces (trystart i).
Proof. unfold trystart. sync_solve. Qed.

Lemma announces_trystop i : announces (trystop i).
Proof. unfold trystop. sync_solve. Qed.

Lemma sync_keeps_killsvc i kg sg : sync_keeps (killsvc i kg sg).
Proof. unfold killsvc. sync_solve. Qed.

Lemma sync_keeps_trystart i : sync_keeps (trystart i).
Proof. apply announces_keeps, announces_trystart. Qed.

#[export] Hint Resolve announces_trystart announces_trystop sync_keeps_killsvc
  sync_keeps_trystart : sync.

(** ** Every control command keeps the published status current *)

Lemma sync_keeps_command c st : sync_keeps (command c st).
Proof.
  destruct c as [[] [] [] [] [] [] [] []]; unfold command;
    cbv beta iota zeta delta [signal_of_cmd];
    first [solve [sync_solve] | solve [apply announces_keeps; sync_solve]].
Qed.

Lemma qp_command c st : preserves (fun w => qp (w_os w)) (command c st).
Proof. destruct c as [[] [] [] [] [] [] [] []]; unfold command; simpl; preserves_os_solve. Qed.

Lemma sync_keeps_run_commands cs st : sync_keeps (run_commands cs st).
Proof.
  revert st. induction cs as [|c cs IH]; intros st; simpl; [apply sync_keeps_ret|].
  apply sync_keeps_bind; [apply sync_keeps_command | apply qp_command | intros; apply IH].
Qed.

(** ** The reader sees the abstraction of the globals *)

Lemma take_prefix (l p : list Z) n :
  take (length p) l = p -> (n <= length p)%nat -> take n l = take n p.
Proof. intros H Hn. rewrite <- H, take_take. f_equal. lia. Qed.

Lemma in_sync_read w :
  in_sync w -> read_status (os_statusfile (w_os w)) (logpipe (w_sup w)) = Some (abs_status (w_sup w)).
Proof.
  unfold in_sync, read_status, abs_status. intros H.
  pose proof (length_status_bytes (w_sup w)) as Hl.
  rewrite (take_prefix _ _ 20 H) by (destruct (logpipe _); lia).
  unfold status_bytes in *. pose proof (length_make_status (svcmain (w_sup w))) as Hm.
  rewrite take_app_length' by done. rewrite decode_make_status.
  destruct (logpipe (w_sup w)); [|done].
  rewrite take_drop_commute, (take_prefix _ _ (20 + 20) H) by lia.
  rewrite take_ge by (rewrite length_app, Hm, length_make_status; lia).
  by rewrite drop_app_length', decode_make_status.
Qed.

(** C11: refinement of the published status by the controller: in a quiet
    OS (no fork or status-write failure), if the status file showed the
    globals before the controller ran, then after it has applied every
    byte of the control FIFO a reader of the file decodes exactly the
    abstraction of the new globals (main record, and the log record when
    there is a log service): each command that changes a published field
    publishes it. *)
Theorem controller_publishes w :
  qp (w_os w) -> in_sync w ->
  read_status (os_statusfile (w_os (exec controller w))) (logpipe (w_sup (exec controller w))) =
    Some (abs_status (w_sup (exec controller w))).
Proof.
  intros Hq Hs. apply in_sync_read.
  rewrite exec_controller. apply sync_keeps_run_commands; [exact Hq | exact Hs].
Qed.

(** The example world once its status has been published. *)
Definition ex_sync_world : world := exec announce ex_world.

Lemma controller_publishes_witness :
  qp (w_os ex_sync_world) /\ in_sync ex_sync_world /\
  read_status (os_statusfile (w_os (exec controller ex_sync_world)))
    (logpipe (w_sup (exec controller ex_sync_world))) =
    Some (abs_status (w_sup (exec controller ex_sync_world))).
Proof.
  assert (Hq : qp (w_os ex_sync_world)) by (split; [split|]; vm_compute; reflexivity).
  assert (Hs : in_sync ex_sync_world) by (vm_compute; reflexivity).
  split; [exact Hq|]. split; [exact Hs|].
  exact (controller_publishes ex_sync_world Hq Hs).
Defined.

(** ** A start is published *)

(** C12: after [trystart] has spawned "./run" for the main service, in a
    quiet OS (the spec's testable property), a reader of the status file
    finds the main record with the new child's pid, not paused, and the
    status Running, whether or not a "notify" script is run on the way:
    [pidchange] publishes the state the start leaves, and the notifier's
    own pid is recorded nowhere. *)
Theorem trystart_published w :
  firstrun_after (w_sup w) (w_os w) = false -> stat_exists_k (file_kind (w_os w) "run") <> 0 ->
  qp (w_os w) ->
  let w' := exec (trystart Main) w in
  match read_status (os_statusfile (w_os w')) (logpipe (w_sup w')) with
  | Some (m, _) => view_pid m = os_nextpid (w_os w) mod 2 ^ 32 /\ view_paused m = false /\
                   view_status m = svstatus_running
  | None => False
  end.
Proof.
  intros Hfr Hr [Hq Hn] w'. unfold w'.
  rewrite (in_sync_read _ (announces_trystart Main w (conj Hq Hn))).
  rewrite sup_trystart_main by exact Hn. cbv zeta. rewrite Hfr, bool_decide_false by exact Hr.
  assert (Hf : fork_fails (w_os w) = false) by (unfold fork_fails; by rewrite (proj1 Hq)).
  rewrite Hf. cbn. by rewrite andb_false_r.
Qed.

(** A world in which the main service has failed and a "notify" script is
    present: a start runs the notifier too. *)
Definition ex_notify_world : world :=
  mk_world (w_sup ex_failed_world)
    (set_os_files (<["notify" := FReg true]> (os_files (w_os ex_failed_world))) (w_os ex_failed_world)).

Lemma trystart_published_witness :
  firstrun_after (w_sup ex_notify_world) (w_os ex_notify_world) = false /\
  stat_exists_k (file_kind (w_os ex_notify_world) "run") <> 0 /\
  stat_isexec_k (file_kind (w_os ex_notify_world) "notify") > 0 /\ qp (w_os ex_notify_world) /\
  match read_status (os_statusfile (w_os (exec (trystart Main) ex_notify_world)))
          (logpipe (w_sup (exec (trystart Main) ex_notify_world))) with
  | Some (m, _) => view_pid m = os_nextpid (w_os ex_notify_world) mod 2 ^ 32 /\
                   view_paused m = false /\ view_status m = svstatus_running
  | None => False
  end.
Proof.
  assert (H1 : firstrun_after (w_sup ex_notify_world) (w_os ex_notify_world) = false) by reflexivity.
  assert (H2 : stat_exists_k (file_kind (w_os ex_notify_world) "run") <> 0)
    by (vm_compute; discriminate).
  assert (H3 : stat_isexec_k (file_kind (w_os ex_notify_world) "notify") > 0)
    by (vm_compute; reflexivity).
  assert (H4 : qp (w_os ex_notify_world)) by (split; [split|]; vm_compute; reflexivity).
  split; [exact H1|]. split; [exact H2|]. split; [exact H3|]. split; [exact H4|].
  exact (trystart_published ex_notify_world H1 H2 H4).
Defined.

(** ** A transition left unpublished

    When [flagexit] is set and the main service has stopped, the last step
    of [doit] (lines 441-443) calls [stopsvc] on a running log service,
    which marks it Stopping without announcing: the file goes on showing
    it Running until the log process exits. *)

Lemma logpipe_map_svc i f s : logpipe (map_svc i f s) = logpipe s.
Proof. by destruct i, s. Qed.

Lemma stopsvc_statusfile i g w : os_statusfile (w_os (exec (stopsvc i g) w)) = os_statusfile (w_os w).
Proof.
  unfold stopsvc, killsvc. autorewrite with sv_run.
  repeat (destruct (_ && _) || destruct (bool_decide _)); autorewrite with sv_run; reflexivity.
Qed.

(** C37: the last step of an iteration of [doit], once exiting with the
    main service stopped, marks a running log service Stopping without
    publishing it: the status file is left as it was, and if it showed
    the globals before, it no longer does. *)
Theorem stop_log_unpublished w :
  flagexit (w_sup w) = true -> flagstatus (svcmain (w_sup w)) = svstatus_stopped ->
  flagstatus (svclog (w_sup w)) = svstatus_running \/ flagstatus (svclog (w_sup w)) = svstatus_started ->
  logpipe (w_sup w) = true -> in_sync w ->
  os_statusfile (w_os (exec stop_log_if_exiting w)) = os_statusfile (w_os w) /\
  ~ in_sync (exec stop_log_if_exiting w).
Proof.
  intros He Hm Hl Hlp Hs.
  assert (E : exec stop_log_if_exiting w = exec (stopsvc Log 1) w).
  { unfold stop_log_if_exiting. autorewrite with sv_run. cbn [id]. rewrite He, Hm.
    by destruct Hl as [-> | ->]. }
  rewrite E, stopsvc_statusfile. split; [done|]. intros Hs'.
  apply in_sync_read in Hs, Hs'. rewrite stopsvc_statusfile, sup_stopsvc in Hs'.
  rewrite logpipe_map_svc in Hs'.
  rewrite Hs in Hs'.
  unfold abs_status in Hs'. cbn in Hs'. rewrite Hlp in Hs'. injection Hs' as _ Hv.
  destruct Hl; congruence.
Qed.

(** The end of a run: exiting, the main service stopped, the log service
    still running, and the status file showing it. *)
Definition ex_exit_sup : sup :=
  mk_sup svcmain_init (mk_svc 101 svstatus_running true true false taia_zero false)
    true false false (Some "./run") true.

Definition ex_exit_world : world :=
  mk_world ex_exit_sup (set_os_statusfile (status_bytes ex_exit_sup) ex_os).

Lemma stop_log_unpublished_witness :
  flagexit (w_sup ex_exit_world) = true /\
  flagstatus (svcmain (w_sup ex_exit_world)) = svstatus_stopped /\
  (flagstatus (svclog (w_sup ex_exit_world)) = svstatus_running \/
   flagstatus (svclog (w_sup ex_exit_world)) = svstatus_started) /\
  logpipe (w_sup ex_exit_world) = true /\ in_sync ex_exit_world /\
  ~ in_sync (exec stop_log_if_exiting ex_exit_world).
Proof.
  assert (H1 : flagexit (w_sup ex_exit_world) = true) by reflexivity.
  assert (H2 : flagstatus (svcmain (w_sup ex_exit_world)) = svstatus_stopped) by reflexivity.
  assert (H3 : flagstatus (svclog (w_sup ex_exit_world)) = svstatus_running \/
               flagstatus (svclog (w_sup ex_exit_world)) = svstatus_started) by (left; reflexivity).
  assert (H4 : logpipe (w_sup ex_exit_world) = true) by reflexivity.
  assert (H5 : in_sync ex_exit_world) by (vm_compute; reflexivity).
  do 5 (split; [assumption|]).
  exact (proj2 (stop_log_unpublished ex_exit_world H1 H2 H3 H4 H5)).
Defined.

End Publish.
