(* ===== verification/Pending.v ===== *)
(** * What an iteration of [doit] leaves for later

    Two behaviours of the loop of lines 398-446 that leave work pending.
    The reaper (lines 276-326) breaks out of its loop after handling the
    exit of one service, so when both services' processes have exited
    during the same wait, the iteration handles one of them and the other
    keeps recording its dead child ([one_exit_per_iteration]). The log
    service is stopped at the end of an iteration (lines 440-443) only
    once the main service is exactly Stopped, so after "x" with the main
    service Failed [doit] never returns while the log runs
    ([exit_stalls_failed_main]). *)

From S2P Require Import Prelude Status Os Launch Service Reaper Controller Loop Invariant Liveness Main Exit Reap.

Open Scope Z_scope.

Module Pending.
Import Status Os Launch Service Reaper Controller Loop Invariant Liveness Main Exit Reap.

(** ** Exit with a failed main service *)

(** The state of the stall: exiting, the main service down because it
    failed, the log service recording a process, every child running, no
    command waiting, and the FIFO still linked. *)
Definition stalled (w : world) : Prop :=
  flagexit (w_sup w) = true /\ pid (svcmain (w_sup w)) = 0 /\
  flagstatus (svcmain (w_sup w)) = svstatus_failed /\ pid (svclog (w_sup w)) <> 0 /\
  all_running (w_os w) /\ os_procs (w_os w) <> ∅ /\
  os_control (w_os w) = [] /\ os_control_nlink (w_os w) <> 0.

Lemma exec_reaper_idle w :
  all_running (w_os w) -> os_procs (w_os w) <> ∅ ->
  flagstatus (svcmain (w_sup w)) <> svstatus_orphanage -> exec reaper w = w.
Proof.
  intros Hr Hne Ho. change (exec reaper w) with (exec (reaper_loop (reaper_fuel w)) w).
  destruct (reaper_fuel w) as [|n] eqn:Ef; [discriminate|].
  unfold exec. simpl reaper_loop. by rewrite st_bind_run, reaper_body_idle.
Qed.

Lemma exec_check_control_linked w : os_control_nlink (w_os w) <> 0 -> exec check_control w = w.
Proof.
  intros Hl. unfold check_control. autorewrite with sv_run.
  unfold eval, fstat_control_nlink, st_gets. cbn [fst snd].
  rewrite (bool_decide_false (os_control_nlink _ = 0)) by done.
  autorewrite with sv_run. by destruct w.
Qed.

Lemma exec_stop_log_failed w :
  flagstatus (svcmain (w_sup w)) = svstatus_failed -> exec stop_log_if_exiting w = w.
Proof.
  intros Hm. unfold stop_log_if_exiting. autorewrite with sv_run. cbn [id].
  rewrite Hm, andb_false_r. simpl. by autorewrite with sv_run.
Qed.

(** With the world idle, an iteration in the stall only drains the
    self-pipe. *)
Lemma doit_iter_stalled w :
  stalled w -> exec doit_iter w = mk_world (w_sup w) (set_os_selfpipe 0 (w_os w)).
Proof.
  intros (He & Hp & Hm & Hl & Hr & Hne & Hc & Hn). unfold doit_iter. rewrite !exec_bind.
  rewrite exec_sys. set (w0 := mk_world (w_sup w) (set_os_selfpipe 0 (w_os w))).
  change (mk_world (w_sup w) (exec drain_selfpipe (w_os w))) with w0.
  rewrite exec_reaper_idle by (cbn; rewrite ?Hm; done).
  rewrite exec_check_control_linked by exact Hn.
  rewrite controller_idle by exact Hc.
  by apply exec_stop_log_failed.
Qed.

Lemma stalled_drained w : stalled w -> stalled (mk_world (w_sup w) (set_os_selfpipe 0 (w_os w))).
Proof. by intros H. Qed.

(** C36: after "x" with the main service down because it failed, [doit]
    never returns while the log service runs: the log is stopped only
    once the main service is exactly Stopped (lines 440-443), which a
    Failed service never becomes. From any such state, however many
    iterations pass with the world idle, [doit] has not returned, the
    globals are unchanged ([flagexit] set, the log keeping its process),
    and no signal has been sent and no process started. *)
Theorem exit_stalls_failed_main n w :
  flagexit (w_sup w) = true -> pid (svcmain (w_sup w)) = 0 ->
  flagstatus (svcmain (w_sup w)) = svstatus_failed -> pid (svclog (w_sup w)) <> 0 ->
  all_running (w_os w) -> os_procs (w_os w) <> ∅ ->
  os_control (w_os w) = [] -> os_control_nlink (w_os w) <> 0 ->
  eval (doit_loop (repeat [] n)) w = false /\
  w_sup (exec (doit_loop (repeat [] n)) w) = w_sup w /\
  os_trace (w_os (exec (doit_loop (repeat [] n)) w)) = os_trace (w_os w).
Proof.
  intros He Hp Hm Hl Hr Hne Hc Hn.
  assert (Hs : stalled w) by (repeat split; assumption).
  assert (Hd : doit_done (w_sup w) = false)
    by (unfold doit_done; rewrite (bool_decide_false (pid (svclog (w_sup w)) = 0)) by done; apply andb_false_r).
  destruct n as [|n]; cbn [repeat doit_loop]; autorewrite with sv_run; cbn [id]; rewrite Hd;
    autorewrite with sv_run; [done|].
  rewrite (doit_iter_stalled (mk_world (w_sup w) (apply_moves [] (w_os w)))) by exact Hs.
  cbn [w_sup w_os apply_moves foldl].
  set (w1 := mk_world (w_sup w) (set_os_selfpipe 0 (w_os w))).
  assert (Hs1 : stalled w1) by exact (stalled_drained w Hs).
  assert (Hf : exec doit_iter w1 = w1) by (rewrite (doit_iter_stalled w1 Hs1); by destruct w as [? []]).
  destruct (doit_loop_idle w1 n Hd Hf) as [E X]. rewrite E, X. by split.
Qed.

(** The main service has exited with code 100 (Failed, down, no process);
    the log service runs; "x" has been applied. *)
Definition ex_failed_exit : world :=
  mk_world (mk_sup (mk_svc 0 svstatus_failed true false false taia_zero false)
                   (mk_svc 101 svstatus_running true true false taia_zero false)
                   true false false (Some "./run") true)
    (set_os_procs (<[101 := mk_proc 101 PRunning]> ∅)
      (set_os_files (<["log" := FReg true]> (os_files ex_os)) (set_os_nextpid 102 ex_os))).

Lemma exit_stalls_failed_main_witness :
  flagexit (w_sup ex_failed_exit) = true /\ pid (svcmain (w_sup ex_failed_exit)) = 0 /\
  flagstatus (svcmain (w_sup ex_failed_exit)) = svstatus_failed /\
  pid (svclog (w_sup ex_failed_exit)) <> 0 /\
  all_running (w_os ex_failed_exit) /\ os_procs (w_os ex_failed_exit) <> ∅ /\
  os_control (w_os ex_failed_exit) = [] /\ os_control_nlink (w_os ex_failed_exit) <> 0 /\
  eval (doit_loop (repeat [] 5)) ex_failed_exit = false.
Proof.
  assert (H1 : flagexit (w_sup ex_failed_exit) = true) by reflexivity.
  assert (H2 : pid (svcmain (w_sup ex_failed_exit)) = 0) by reflexivity.
  assert (H3 : flagstatus (svcmain (w_sup ex_failed_exit)) = svstatus_failed) by reflexivity.
  assert (H4 : pid (svclog (w_sup ex_failed_exit)) <> 0) by discriminate.
  assert (H5 : all_running (w_os ex_failed_exit)) by (apply map_Forall_singleton; reflexivity).
  assert (H6 : os_procs (w_os ex_failed_exit) <> ∅) by apply map_non_empty_singleton.
  assert (H7 : os_control (w_os ex_failed_exit) = []) by reflexivity.
  assert (H8 : os_control_nlink (w_os ex_failed_exit) <> 0) by (vm_compute; discriminate).
  do 8 (split; [assumption|]).
  exact (proj1 (exit_stalls_failed_main 5 ex_failed_exit H1 H2 H3 H4 H5 H6 H7 H8)).
Defined.

(** ** One exit of a service per iteration *)

(** An OS call that keeps every process below [os_nextpid] as it was and
    never lowers [os_nextpid]: everything but [waitpid]. *)
Definition keeps_old {A} (m : ST os A) : Prop :=
  forall o, os_nextpid o <= os_nextpid (exec m o) /\
            forall p, p < os_nextpid o -> os_procs (exec m o) !! p = os_procs o !! p.

Lemma keeps_old_stable {A} (m : ST os A) : os_stable m -> keeps_old m.
Proof. intros H o. destruct (H o) as (P & _ & N). rewrite P, N. split; [lia | done]. Qed.

Lemma keeps_old_fork a ss r : keeps_old (sys_fork a ss r).
Proof.
  intros o. rewrite fork_procs, fork_nextpid.
  destruct (fork_fails o); (split; [lia|]); intros p Hp; [done|]. by rewrite lookup_insert_ne by lia.
Qed.

Lemma keeps_old_nlink : keeps_old fstat_control_nlink.
Proof. apply keeps_old_stable, stable_gets. Qed.

Section Held.

(** Service [k] records the terminated child [q]. *)
Variable k : svcid.
Variable q : Z.

Definition held (w : world) : Prop :=
  pid (svc_of k (w_sup w)) = q /\ zombie_at (w_os w) q = true /\ 0 < q < os_nextpid (w_os w).

Lemma held_sys {A} (m : ST os A) : keeps_old m -> preserves held (sys m).
Proof.
  intros Hm w (Hp & Hz & Hq). rewrite exec_sys. destruct (Hm (w_os w)) as [N P]. unfold held.
  cbn [w_sup w_os].
  split; [exact Hp|]. split; [|lia]. unfold zombie_at in *. rewrite P by lia. exact Hz.
Qed.

Lemma held_upd i f : i <> k \/ (forall v, pid (f v) = pid v) -> preserves held (upd_svc i f).
Proof.
  intros Hf w (Hp & Hz & Hq). rewrite exec_upd_svc. split; [|done]. cbn [w_sup].
  destruct (decide (i = k)) as [<-|Hne].
  - rewrite svc_of_map_svc_eq. destruct Hf as [Hf|Hf]; [done | by rewrite Hf].
  - by rewrite svc_of_map_svc_ne.
Qed.

Lemma held_modify f : (forall s, pid (svc_of k (f s)) = pid (svc_of k s)) -> preserves held (modify_sup f).
Proof.
  intros Hf w (Hp & Hz & Hq). rewrite exec_modify_sup. unfold held. cbn [w_sup w_os].
  split; [by rewrite Hf | done].
Qed.

Lemma held_gets {A} (f : sup -> A) : preserves held (gets_sup f).
Proof. apply preserves_gets. Qed.
Lemma held_get i : preserves held (get_svc i).
Proof. apply preserves_gets. Qed.

Create HintDb held discriminated.
#[local] Hint Constants Opaque : held.
#[local] Hint Resolve held_sys keeps_old_stable keeps_old_fork keeps_old_nlink held_gets held_get stable_seek stable_write
  stable_warn stable_sleep stable_trigger stable_isexec stable_exists stable_now stable_kill
  stable_drain stable_read stable_gets : held.
#[local] Hint Extern 2 (preserves held (upd_svc _ _)) =>
  apply held_upd; first [right; intros; reflexivity | left; assumption | left; congruence] : held.
#[local] Hint Extern 2 (preserves held (modify_sup _)) =>
  apply held_modify; intros []; destruct k; reflexivity : held.

(** One step of the code's structure. *)
Ltac held_step :=
  match goal with
  | |- preserves held (_ ≫= _) => apply preserves_bind; [|intros ?]
  | |- preserves held (if ?c then _ else _) => destruct c
  | |- preserves held (match ?c with _ => _ end) => destruct c
  | |- preserves held (st_when _ _) => apply preserves_when
  | |- preserves held (mret _) => apply preserves_ret
  end.

Lemma held_stopsvc i g : preserves held (stopsvc i g).
Proof. unfold stopsvc, killsvc. repeat held_step; eauto with held. Qed.

(** While [k] records a process, the controller's [if (!svc->pid)]
    guards keep [trystart] and [trystop] away from it. *)
Lemma held_skip_zero (m : M ()) {B} (c : M B) :
  preserves held c -> preserves held (s ← get_svc k; st_when (bool_decide (pid s = 0)) m;; c).
Proof.
  intros Hc w Hw. pose proof Hw as (Hp & _ & Hq). autorewrite with sv_run. cbn [id].
  rewrite Hp, bool_decide_false by lia. autorewrite with sv_run. by apply Hc.
Qed.


Lemma held_skip_d g {B} (c : M B) :
  preserves held c ->
  preserves held (s ← get_svc k; (if decide (pid s <> 0) then stopsvc k g else trystop k);; c).
Proof.
  intros Hc w Hw. pose proof Hw as (Hp & _ & Hq). autorewrite with sv_run. cbn [id].
  rewrite Hp, decide_True by lia. autorewrite with sv_run. by apply Hc, held_stopsvc.
Qed.

Ltac held_solve := repeat first [apply held_skip_zero | apply held_skip_d | held_step]; eauto with held.

Lemma held_announce : preserves held announce.
Proof. unfold announce. held_solve. Qed.


(** [forkexecve] records its child only in another service. *)
Lemma held_forkexecve svc argv fd :
  (forall i, svc = Some i -> i <> k) -> preserves held (forkexecve svc argv fd).
Proof.
  intros H. destruct svc as [i|]; [specialize (H i eq_refl)|]; unfold forkexecve; held_solve.
Qed.

Lemma held_pidchange i n c p : preserves held (pidchange i n c p).
Proof.
  unfold pidchange, notify. held_solve; apply held_announce || (apply held_forkexecve; done).
Qed.
#[local] Hint Resolve held_announce held_pidchange held_stopsvc : held.

Lemma held_killsvc i g sg : preserves held (killsvc i g sg).
Proof. unfold killsvc. held_solve. Qed.

Lemma held_trystart i : i <> k -> preserves held (trystart i).
Proof.
  intros Hi. unfold trystart, trystart_launch. held_solve; apply held_forkexecve; congruence.
Qed.

Lemma held_trystop i : i <> k -> preserves held (trystop i).
Proof. intros Hi. unfold trystop. held_solve; apply held_forkexecve; congruence. Qed.
#[local] Hint Resolve held_killsvc : held.
#[local] Hint Extern 2 (preserves held (trystart _)) => apply held_trystart; congruence : held.
#[local] Hint Extern 2 (preserves held (trystop _)) => apply held_trystop; congruence : held.

Lemma held_command c st : preserves held (command c st).
Proof.
  destruct st as [i kg]. unfold command. cbn [sel_svc sel_killgroup].
  destruct (decide (i = k)) as [->|Hne];
    destruct c as [[] [] [] [] [] [] [] []]; cbv zeta; held_solve.
Qed.

Lemma held_controller_loop n st : preserves held (controller_loop n st).
Proof.
  revert st. induction n as [|n IH]; intros st; simpl; [apply preserves_ret|].
  apply preserves_bind; [eauto with held|]. intros [c|]; [|apply preserves_ret].
  apply preserves_bind; [apply held_command | done].
Qed.

Lemma held_controller : preserves held controller.
Proof. intros w. apply held_controller_loop. Qed.

Lemma held_check_control : preserves held check_control.
Proof. unfold check_control. held_solve. Qed.

Lemma held_stop_log : preserves held stop_log_if_exiting.
Proof. unfold stop_log_if_exiting. held_solve. Qed.

(** Handling the exit of another service. *)
Lemma held_reaper_handle j p ws : j <> k -> preserves held (reaper_handle j p ws).
Proof.
  intros Hj. unfold reaper_handle, reaper_exit, reaper_classify, reaper_notify, reaper_decide.
  held_solve.
Qed.

End Held.


(** The other service. *)
Definition other (i : svcid) : svcid := if i is Main then Log else Main.

Lemma held_of_slot w i : os_ok (w_os w) -> zombie_slot w i = true -> held i (pid (svc_of i (w_sup w))) w.
Proof.
  intros [_ Hk] (Hne%bool_decide_eq_true & Hz)%andb_prop. split; [done|]. split; [done|].
  apply zombie_at_spec in Hz as (g & ws & Hl). exact (Hk _ _ Hl).
Qed.

Lemma slot_of_held w i p : held i p w -> zombie_slot w i = true.
Proof. intros (Hp & Hz & Hq). unfold zombie_slot. by rewrite Hp, Hz, bool_decide_true by lia. Qed.

Lemma os_ok_reaped w q ws : os_ok (w_os w) -> os_ok (w_os (reaped w q ws)).
Proof. intros [Hn Hk]. split; [exact Hn|]. cbn. by apply map_Forall_delete. Qed.

(** Outside orphanage mode, when both services record terminated
    children, the reaper leaves one of them recording its child. *)
Lemma reaper_loop_keeps_one n w :
  (size (os_procs (w_os w)) < n)%nat -> os_ok (w_os w) -> flagorphanage (w_sup w) = false ->
  flagstatus (svcmain (w_sup w)) <> svstatus_orphanage ->
  pid (svcmain (w_sup w)) <> pid (svclog (w_sup w)) ->
  zombie_slot w Main = true -> zombie_slot w Log = true ->
  exists i, held i (pid (svc_of i (w_sup w))) (exec (reaper_loop n) w).
Proof.
  revert w; induction n as [|n IH]; intros w Hsz Hok Ho Hst Hd HM HL; [lia|].
  pose proof HM as HM'. apply andb_prop in HM' as [_ (g & ws & Hl)%zombie_at_spec].
  destruct (find_zombie (fun _ => true) (os_procs (w_os w))) as [[q wq]|] eqn:E;
    [|exfalso; by eapply (find_zombie_some (fun _ => true) _ _ g ws Hl)].
  destruct (find_zombie_lookup _ _ _ _ E) as (gq & Hlq & _).
  assert (Hq : 0 < q) by (destruct Hok as [_ Hk]; exact (proj1 (Hk _ _ Hlq))).
  cbn [reaper_loop]. unfold exec at 1. rewrite st_bind_run, (reaper_body_zombie w q wq E Hq Ho Hst).
  pose proof (attribute_cases (pid (svcmain (w_sup w))) (pid (svclog (w_sup w))) q None) as Ha.
  destruct (attribute _ _ _ _) as [j|]; cbn [fst snd].
  - exists (other j). rewrite st_ret_run. cbn [snd].
    assert (Hs : zombie_slot (reaped w q wq) (other j) = true).
    { apply zombie_slot_keep; destruct j; cbn in *; first [lia | assumption]. }
    apply (held_reaper_handle (other j) _ j q wq); [by destruct j|].
    exact (held_of_slot _ _ (os_ok_reaped w q wq Hok) Hs).
  - destruct Ha as [Hm Hg]. destruct (IH (reaped w q wq)) as [i Hi].
    + pose proof (size_reaped w q wq _ _ Hlq). lia.
    + by apply os_ok_reaped.
    + exact Ho.
    + exact Hst.
    + exact Hd.
    + apply zombie_slot_keep; [cbn; congruence | exact HM].
    + apply zombie_slot_keep; [cbn; congruence | exact HL].
    + exists i. exact Hi.
Qed.

(** An iteration of [doit] in which both services record terminated
    children handles the exit of one and leaves the other recording its
    child. *)
Lemma doit_iter_keeps_one w :
  live_inv w -> flagorphanage (w_sup w) = false ->
  zombie_slot w Main = true -> zombie_slot w Log = true ->
  exists i, zombie_slot (exec doit_iter w) i = true /\
            pid (svc_of i (w_sup (exec doit_iter w))) = pid (svc_of i (w_sup w)).
Proof.
  intros Hw Ho HM HL. unfold doit_iter. rewrite !exec_bind.
  set (w0 := exec (sys drain_selfpipe) w).
  assert (Hw0 : live_inv w0) by (apply live_sys; [apply stable_drain | exact Hw]).
  assert (S0 : w_sup w0 = w_sup w) by (unfold w0; by rewrite exec_sys).
  assert (Z0 : forall i, zombie_slot w0 i = zombie_slot w i).
  { intros i. unfold zombie_slot. rewrite S0. unfold w0. rewrite exec_sys. cbn [w_os].
    unfold zombie_at. by rewrite (proj1 (stable_drain (w_os w))). }
  destruct (live_reaper_hyps w0 Hw0) as (_ & Hst & Hok0); [by rewrite S0|].
  assert (Hd : pid (svcmain (w_sup w0)) <> pid (svclog (w_sup w0))).
  { intros E. pose proof (inv_distinct _ (live_sv _ Hw0) E) as E0. rewrite <- Z0 in HM.
    unfold zombie_slot in HM. change (svc_of Main (w_sup w0)) with (svcmain (w_sup w0)) in HM.
    rewrite E0 in HM. done. }
  destruct (reaper_loop_keeps_one (reaper_fuel w0) w0) as [i Hi];
    [unfold reaper_fuel; lia | exact Hok0 | by rewrite S0 | exact Hst | exact Hd
    | by rewrite Z0 | by rewrite Z0 |].
  change (exec (reaper_loop (reaper_fuel w0)) w0) with (exec reaper w0) in Hi.
  apply held_check_control, held_controller, held_stop_log in Hi.
  exists i. split; [exact (slot_of_held _ _ _ Hi)|]. rewrite (proj1 Hi), S0. done.
Qed.

(** C38: the reaper handles the exit of one service per iteration of
    [doit]: in every reachable state of a supervisor started without an
    "orphanage" file, when both services' processes have terminated and
    are still recorded, an iteration leaves exactly one service recording
    a terminated child, the same pid as before; its exit is handled by a
    later iteration, after another wake-up. *)
Theorem one_exit_per_iteration w :
  reachable w -> flagorphanage (w_sup w) = false -> zombie_slots w = 2%nat ->
  zombie_slots (exec doit_iter w) = 1%nat /\
  exists i, zombie_slot (exec doit_iter w) i = true /\
            pid (svc_of i (w_sup (exec doit_iter w))) = pid (svc_of i (w_sup w)).
Proof.
  intros Hr Ho Hz. apply reachable_live in Hr.
  assert (HM : zombie_slot w Main = true /\ zombie_slot w Log = true).
  { unfold zombie_slots in Hz. by destruct (zombie_slot w Main), (zombie_slot w Log). }
  pose proof (doit_iter_zombie_slots w Hr Ho ltac:(lia)) as Hlt.
  destruct (doit_iter_keeps_one w Hr Ho (proj1 HM) (proj2 HM)) as [i [Hi Hp]].
  split; [|by exists i]. unfold zombie_slots in *.
  destruct i; rewrite Hi in *; destruct (zombie_slot _ _); lia.
Qed.

(** A service directory with a "log" script, started: the log service
    runs as pid 100, the main service as pid 101. *)
Definition ex_log_os : os := set_os_files (<["log" := FReg true]> (os_files ex_os)) ex_os.

Definition ex_log_started : world :=
  exec doit_enter (exec (supervise_start ex_setup "/service/x") (mk_world sup_init ex_log_os)).

Lemma ex_log_started_reachable : reachable ex_log_started.
Proof.
  exists ex_log_os, ex_setup, "/service/x"%string.
  split; [split; [reflexivity | split; [simpl; lia | reflexivity]]|].
  split; [vm_compute; reflexivity | apply star_refl].
Qed.

(** Both processes exit during the same wait. *)
Definition ex_both_exited : world :=
  mk_world (w_sup ex_log_started) (apply_moves [MvExit 100 0; MvExit 101 0] (w_os ex_log_started)).

Lemma one_exit_per_iteration_witness :
  reachable ex_both_exited /\ flagorphanage (w_sup ex_both_exited) = false /\
  zombie_slots ex_both_exited = 2%nat /\ zombie_slots (exec doit_iter ex_both_exited) = 1%nat.
Proof.
  assert (H1 : reachable ex_both_exited) by exact (reachable_moves _ _ ex_log_started_reachable).
  assert (H2 : flagorphanage (w_sup ex_both_exited) = false) by (vm_compute; reflexivity).
  assert (H3 : zombie_slots ex_both_exited = 2%nat) by (vm_compute; reflexivity).
  split; [exact H1|]. split; [exact H2|]. split; [exact H3|].
  exact (proj1 (one_exit_per_iteration ex_both_exited H1 H2 H3)).
Defined.

End Pending.
