(* ===== verification/Shutdown.v ===== *)
(** * The end of [main]: exit code and last publication

    Once [doit] returns, [main] publishes the status once more and exits 0
    (lines 535-539). The last transitions of a run are not all announced
    where they happen (the log service is marked Stopping by the last step
    of an iteration, lines 440-443, without [announce]); the [announce] of
    line 538 is what brings the file up to date. This file shows that,
    with no failed write of the status file, the file [main] leaves always
    shows the final globals, and that a SIGTERM can always end a normal
    start in this way.

    The invariant is [nofault]: the status file's fault oracle is empty.
    No operation of the supervisor adds a fault, and neither does a move of
    the world other than [MvStatusFault]. *)

From S2P Require Import Prelude Status Os Launch Service Reaper Controller Loop Invariant Scenario Liveness Main Exit Publish.

Open Scope Z_scope.

Module Shutdown.
Import Status Os Launch Service Reaper Controller Loop Invariant Scenario Liveness Main Exit Publish.

(** No write of the status file will fail. *)
Definition nofault (o : os) : Prop := os_statusfault o = [].

(** A move of the world that does not make a status write fail. *)
Definition no_status_fault (mv : env_move) : bool :=
  if mv is MvStatusFault _ then false else true.

(** ** Nothing the supervisor does adds a fault *)

Lemma nf_keeps {A} (m : ST os A) : keeps_os os_statusfault m -> forall o, nofault o -> nofault (exec m o).
Proof. intros H o Ho. unfold nofault in *. by rewrite H. Qed.

Lemma nf_seek : forall o, nofault o -> nofault (exec seek_begin o).
Proof. intros o Ho. unfold nofault, exec, seek_begin in *. by rewrite Ho. Qed.
Lemma nf_write b : forall o, nofault o -> nofault (exec (write_status b) o).
Proof. intros o Ho. unfold nofault, exec, write_status in *. by rewrite Ho. Qed.
Lemma nf_warn m : forall o, nofault o -> nofault (exec (strerr_warn m) o).
Proof. apply nf_keeps. os_prim. Qed.
Lemma nf_fork a ss r : forall o, nofault o -> nofault (exec (sys_fork a ss r) o).
Proof. apply nf_keeps. unfold sys_fork. os_prim. Qed.
Lemma nf_sleep n : forall o, nofault o -> nofault (exec (deepsleep n) o).
Proof. apply nf_keeps. os_prim. Qed.
Lemma nf_trigger : forall o, nofault o -> nofault (exec trigger o).
Proof. apply nf_keeps. os_prim. Qed.
Lemma nf_isexec p : forall o, nofault o -> nofault (exec (stat_isexec p) o).
Proof. apply nf_keeps. unfold stat_isexec. os_prim. Qed.
Lemma nf_exists p : forall o, nofault o -> nofault (exec (stat_exists p) o).
Proof. apply nf_keeps. unfold stat_exists. os_prim. Qed.
Lemma nf_now : forall o, nofault o -> nofault (exec taia_now o).
Proof. apply nf_keeps. unfold taia_now. os_prim. Qed.
Lemma nf_kill t sg : forall o, nofault o -> nofault (exec (sys_kill t sg) o).
Proof. apply nf_keeps. os_prim. Qed.
Lemma nf_drain : forall o, nofault o -> nofault (exec drain_selfpipe o).
Proof. apply nf_keeps. unfold drain_selfpipe. os_prim. Qed.
Lemma nf_gets {A} (f : os -> A) : forall o, nofault o -> nofault (exec (st_gets f) o).
Proof. apply nf_keeps. os_prim. Qed.
Lemma nf_read : forall o, nofault o -> nofault (exec read_control o).
Proof. apply nf_keeps. unfold read_control. os_prim. Qed.
Lemma nf_truncate : forall o, nofault o -> nofault (exec truncate_status o).
Proof. apply nf_keeps. unfold truncate_status. os_prim. Qed.
Lemma nf_nlink : forall o, nofault o -> nofault (exec fstat_control_nlink o).
Proof. apply nf_gets. Qed.
Lemma nf_waitpid P : forall o, nofault o -> nofault (exec (waitpid_where P) o).
Proof.
  apply nf_keeps. intros o. unfold exec, waitpid_where.
  destruct (find_zombie P (os_procs o)) as [[]|]; [done|]. by case_decide.
Qed.
Lemma nf_waitpid_group a : forall o, nofault o -> nofault (exec (waitpid_group a) o).
Proof. intros o. apply (nf_waitpid _ o). Qed.

Create HintDb nofault discriminated.
#[export] Hint Constants Opaque : nofault.
#[export] Hint Resolve nf_seek nf_write nf_warn nf_fork nf_sleep nf_trigger nf_isexec nf_exists
  nf_now nf_kill nf_drain nf_gets nf_read nf_truncate nf_nlink nf_waitpid nf_waitpid_group
  preserves_ret : nofault.

Ltac nf_solve :=
  code_split;
  repeat match goal with
  | |- preserves _ (sys _) => apply preserves_sys
  | |- preserves _ (gets_sup _) => apply preserves_sup_op, keeps_os_gets
  | |- preserves _ (get_svc _) => apply preserves_sup_op, keeps_os_gets
  | |- preserves _ (modify_sup _) => apply preserves_sup_op, keeps_os_modify
  | |- preserves _ (upd_svc _ _) => apply preserves_sup_op, keeps_os_upd
  end; eauto with nofault.

Abbreviation NF := (fun w => nofault (w_os w)).

Lemma nf_announce : preserves NF announce.
Proof. unfold announce. nf_solve. Qed.
#[export] Hint Resolve nf_announce : nofault.
Lemma nf_forkexecve svc argv fd : preserves NF (forkexecve svc argv fd).
Proof. unfold forkexecve. nf_solve. Qed.
#[export] Hint Resolve nf_forkexecve : nofault.
Lemma nf_pidchange i n c p : preserves NF (pidchange i n c p).
Proof. unfold pidchange, notify. nf_solve. Qed.
#[export] Hint Resolve nf_pidchange : nofault.
Lemma nf_trystart i : preserves NF (trystart i).
Proof. unfold trystart, trystart_launch. nf_solve. Qed.
Lemma nf_trystop i : preserves NF (trystop i).
Proof. unfold trystop. nf_solve. Qed.
Lemma nf_killsvc i g sg : preserves NF (killsvc i g sg).
Proof. unfold killsvc. nf_solve. Qed.
#[export] Hint Resolve nf_trystart nf_trystop nf_killsvc : nofault.
Lemma nf_stopsvc i g : preserves NF (stopsvc i g).
Proof. unfold stopsvc. nf_solve. Qed.
#[export] Hint Resolve nf_stopsvc : nofault.


Lemma nf_reaper_body : preserves NF reaper_body.
Proof.
  unfold reaper_body, reaper_wait_group, reaper_dispatch, reaper_handle, reaper_exit,
    reaper_classify, reaper_notify, reaper_decide, wait_nohang. nf_solve.
Qed.

Lemma nf_reaper_loop n : preserves NF (reaper_loop n).
Proof.
  induction n as [|n IH]; simpl; [apply preserves_ret|].
  apply preserves_bind; [apply nf_reaper_body | intros []; [exact IH | apply preserves_ret]].
Qed.

Lemma nf_reaper : preserves NF reaper.
Proof. intros w. apply nf_reaper_loop. Qed.

Lemma nf_command c st : preserves NF (command c st).
Proof. destruct c as [[] [] [] [] [] [] [] []]; unfold command; simpl; nf_solve. Qed.

Lemma nf_controller_loop n st : preserves NF (controller_loop n st).
Proof.
  revert st. induction n as [|n IH]; intros st; simpl; [apply preserves_ret|].
  apply preserves_bind; [nf_solve|]. intros [c|]; [|apply preserves_ret].
  apply preserves_bind; [apply nf_command | done].
Qed.

Lemma nf_controller : preserves NF controller.
Proof. intros w. apply nf_controller_loop. Qed.
#[export] Hint Resolve nf_reaper nf_controller : nofault.

Lemma nf_doit_iter : preserves NF doit_iter.
Proof. unfold doit_iter, check_control, stop_log_if_exiting. nf_solve. Qed.

Lemma nf_supervise_start su dir : preserves NF (supervise_start su dir).
Proof. unfold supervise_start, or_die, die. nf_solve. Qed.

(** ** Nor does the world, but by [MvStatusFault] *)

Lemma nf_move mv o : no_status_fault mv = true -> nofault o -> nofault (apply_move mv o).
Proof.
  unfold nofault. intros Hm Ho. destruct mv; try discriminate; cbn [apply_move];
    repeat case_match; try exact Ho;
    revert Ho; destruct o; cbn; unfold terminate, ttystop, resume, write_control, write_selfpipe,
      trigger, st_modify, exec, mbind, st_bind; cbn; done.
Qed.

Lemma nf_moves mvs o :
  Forall (fun mv => no_status_fault mv = true) mvs -> nofault o -> nofault (apply_moves mvs o).
Proof.
  unfold apply_moves. revert o. induction mvs as [|mv mvs IH]; intros o Hf Ho; [done|].
  inversion Hf; subst. cbn [foldl]. apply IH; [done | by apply nf_move].
Qed.

Lemma nf_doit_loop sched w :
  Forall (Forall (fun mv => no_status_fault mv = true)) sched -> NF w -> NF (exec (doit_loop sched) w).
Proof.
  revert w. induction sched as [|mvs sched IH]; intros w Hs Hw; cbn [doit_loop];
    autorewrite with sv_run; destruct (doit_done (id (w_sup w))); autorewrite with sv_run; try exact Hw.
  inversion Hs; subst. apply IH; [done|]. apply nf_doit_iter. by apply nf_moves.
Qed.

(** ** The last publication *)

(** With no fault left, [announce] makes the file show the globals. *)
Lemma sync_announce_nofault w : nofault (w_os w) -> in_sync (exec announce w).
Proof.
  destruct w as [s o]. unfold nofault. intros Hq. unfold announce, sys, gets_sup, seek_begin, write_status.
  st_unfold. destruct o; cbn -[status_bytes] in *. subst.
  cbn -[status_bytes]. rewrite decide_False by lia. st_unfold. cbn -[status_bytes].
  case_bool_decide; st_unfold; cbn -[status_bytes]; [lia|].
  unfold in_sync, overwrite. cbn -[status_bytes]. rewrite firstn_all. apply take_app_length.
Qed.

(** When start-up has reached [doit] and [doit] returns, [main] ends by
    publishing the globals it leaves (line 538). *)
Lemma main_last_announce a dir su sched w :
  setup_ok su = true -> eval (supervise_start su dir) w = None -> NF w ->
  Forall (Forall (fun mv => no_status_fault mv = true)) sched ->
  eval (supervise_main [a; dir] su sched) w = Some 0 ->
  in_sync (exec (supervise_main [a; dir] su sched) w).
Proof.
  unfold setup_ok. intros Hsu Hst Hw Hs. repeat rewrite andb_true_iff in Hsu.
  unfold supervise_main, or_die. destruct Hsu as (((((-> & ->) & ->) & ->) & ->) & ->).
  rewrite eval_bind, exec_bind, Hst. unfold doit_enter.
  set (w1 := exec announce (exec (supervise_start su dir) w)).
  assert (H1 : NF w1) by (apply nf_announce, nf_supervise_start, Hw).
  rewrite eval_bind, exec_bind. fold w1. rewrite eval_bind, exec_bind.
  pose proof (nf_doit_loop sched w1 Hs H1) as H2.
  destruct (eval (doit_loop sched) w1); autorewrite with sv_run; [|discriminate].
  intros _. by apply sync_announce_nofault.
Qed.

(** C8: the end of [main] after a SIGTERM. When the setup calls succeed,
    there is no "orphanage" file, start-up reaches [doit] and no write of
    the status file fails: some schedule of the world made only of a
    SIGTERM and exits of the supervisor's children makes [main] exit 0;
    and on every schedule (without status-write faults) on which [main]
    exits 0, the status file it leaves decodes to exactly the final
    globals, the transitions [doit] did not announce included: line 538
    publishes them. *)
Theorem main_sigterm_exit_published o0 su dir :
  fresh_os o0 -> nofault o0 -> setup_ok su = true -> file_kind o0 "orphanage" = FMissing ->
  eval (supervise_start su dir) (mk_world sup_init o0) = None ->
  (exists sched, Forall (Forall (fun mv => exit_or_term mv = true)) sched /\
     eval (supervise_main ["supervise"; dir] su sched) (mk_world sup_init o0) = Some 0) /\
  (forall sched, Forall (Forall (fun mv => no_status_fault mv = true)) sched ->
     eval (supervise_main ["supervise"; dir] su sched) (mk_world sup_init o0) = Some 0 ->
     let wf := exec (supervise_main ["supervise"; dir] su sched) (mk_world sup_init o0) in
     read_status (os_statusfile (w_os wf)) (logpipe (w_sup wf)) = Some (abs_status (w_sup wf))).
Proof.
  intros Hf Hn Hsu Ho Hs. split; [by apply main_sigterm_schedule|].
  intros sched Hm He wf. apply in_sync_read. by apply main_last_announce.
Qed.

(** A service directory with a "log" script: at the end of a run the log
    service's last transition is made by [stop_log_if_exiting]. *)
Definition ex_shutdown_os : os := set_os_files (<["log" := FReg true]> (os_files ex_os)) ex_os.

Lemma main_sigterm_exit_published_witness :
  fresh_os ex_shutdown_os /\ nofault ex_shutdown_os /\ setup_ok ex_setup = true /\
  file_kind ex_shutdown_os "orphanage" = FMissing /\
  eval (supervise_start ex_setup "/service/x") (mk_world sup_init ex_shutdown_os) = None /\
  exists sched, Forall (Forall (fun mv => exit_or_term mv = true)) sched /\
    eval (supervise_main ["supervise"; "/service/x"] ex_setup sched) (mk_world sup_init ex_shutdown_os)
      = Some 0.
Proof.
  assert (H1 : fresh_os ex_shutdown_os) by (split; [reflexivity | split; [simpl; lia | reflexivity]]).
  assert (H2 : nofault ex_shutdown_os) by reflexivity.
  assert (H3 : setup_ok ex_setup = true) by reflexivity.
  assert (H4 : file_kind ex_shutdown_os "orphanage" = FMissing) by (vm_compute; reflexivity).
  assert (H5 : eval (supervise_start ex_setup "/service/x") (mk_world sup_init ex_shutdown_os) = None)
    by (vm_compute; reflexivity).
  do 5 (split; [assumption|]).
  exact (proj1 (main_sigterm_exit_published ex_shutdown_os ex_setup "/service/x" H1 H2 H3 H4 H5)).
Defined.

(** Line 538 is needed: in the run of [ex_shutdown_os] where SIGTERM
    arrives, the log service (pid 100) exits first (it is not restarted,
    [flagexit] being set, and stays Running without a process), then the
    main service (pid 101) exits, the last step of that iteration marks
    the log service Stopping without announcing it and [doit] returns:
    before line 538 the status file still shows the log service Running. *)
Definition ex_shutdown_sched : list (list env_move) := [[MvTerm]; [MvExit 100 0]; [MvExit 101 0]].

Example doit_end_unpublished :
  let w0 := exec doit_enter (exec (supervise_start ex_setup "/service/x") (mk_world sup_init ex_shutdown_os)) in
  eval (doit_loop ex_shutdown_sched) w0 = true /\ ~ in_sync (exec (doit_loop ex_shutdown_sched) w0).
Proof.
  split; [vm_compute; reflexivity|]. intros H. unfold in_sync in H.
  apply (f_equal (fun l => nth 38 l 0)) in H. vm_compute in H. discriminate H.
Qed.

End Shutdown.
